(** * org2html: the markup engine (lexer, metadata extractor, parser, renderer)

    A shallow embedding of the TypeScript sources

    - [src/parser/lexer.ts]      ([tokenize]),
    - [src/parser/metadata.ts]   ([extractMetadata], [parseOptions], ...),
    - [src/parser/ast.ts]        ([createNode], [createTextNode]),
    - [src/parser/parser.ts]     ([parse], [parseTokens], [parseInlineMarkup], ...),
    - [src/plugins/toc.ts]       ([generateToc]),
    - [src/renderer/html-renderer.ts] ([renderToHtml], [renderNode], ...),

    followed by the properties of the engine that are proved about it.

    Conventions of the embedding.  (In comments a regular expression's
    group that ends in a star is written with a blank before its closing
    parenthesis.)

    - A JavaScript string is a [string]: a sequence of code units, here the
      code units below 256.  [text[i]] is [get i text] ([None] is
      [undefined]).
    - A [while] loop over an index is a [Fixpoint] on a fuel argument that
      returns [None] when the fuel runs out; the totality theorems show that
      the fuel handed over by the callers is always enough.
    - The collaborators that live outside the repository (the DOMPurify
      sanitizer, the shiki highlighter, the npm [slugify] package) are
      [Variable]s of the sections that use them. *)

From Stdlib Require Import String Ascii List ZArith Lia Bool Arith.
From Stdlib Require Import Numbers.DecimalString.
Import ListNotations.
Open Scope list_scope.
Open Scope string_scope.
Open Scope nat_scope.
Set Warnings "-register-all".

(* ================================================================== *)
(** * JavaScript string primitives *)
(* ================================================================== *)

(** The double quote and the line feed, which no literal below spells. *)
Definition dq : string := String (ascii_of_nat 34) "".
Definition nl : string := String (ascii_of_nat 10) "".
Definition dqChar : ascii := ascii_of_nat 34.
Definition nlChar : ascii := ascii_of_nat 10.

Definition inRange (lo hi : nat) (c : ascii) : bool :=
  let n := nat_of_ascii c in (lo <=? n) && (n <=? hi).

(** [\s] and the characters [trim] removes: TAB, LF, VT, FF, CR, SP, NBSP. *)
Definition isSpace (c : ascii) : bool :=
  inRange 9 13 c || inRange 32 32 c || inRange 160 160 c.

(** [\d] and [\w]. *)
Definition isDigit (c : ascii) : bool := inRange 48 57 c.
Definition isUpper (c : ascii) : bool := inRange 65 90 c.
Definition isLower (c : ascii) : bool := inRange 97 122 c.
Definition isWord (c : ascii) : bool :=
  isUpper c || isLower c || isDigit c || inRange 95 95 c.

(** The characters [.] does not match: LF and CR. *)
Definition isLineTerminator (c : ascii) : bool :=
  inRange 10 10 c || inRange 13 13 c.

Definition isEmpty (s : string) : bool :=
  match s with "" => true | _ => false end.

Fixpoint take (n : nat) (s : string) : string :=
  match n, s with
  | S n', String c s' => String c (take n' s')
  | _, _ => ""
  end.

Fixpoint drop (n : nat) (s : string) : string :=
  match n, s with
  | S n', String _ s' => drop n' s'
  | _, _ => s
  end.

(** [s.substring(a, b)]: the arguments are clamped and swapped when [b < a]. *)
Definition substring (a b : nat) (s : string) : string :=
  if b <? a then take (a - b) (drop b s) else take (b - a) (drop a s).

(** [s.slice(1, -1)]. *)
Definition sliceInner (s : string) : string :=
  take (String.length s - 2) (drop 1 s).

Fixpoint allChars (p : ascii -> bool) (s : string) : bool :=
  match s with
  | "" => true
  | String c s' => p c && allChars p s'
  end.

Fixpoint filterChars (p : ascii -> bool) (s : string) : string :=
  match s with
  | "" => ""
  | String c s' => if p c then String c (filterChars p s') else filterChars p s'
  end.

Fixpoint countChar (c : ascii) (s : string) : nat :=
  match s with
  | "" => 0
  | String x s' => (if Ascii.eqb x c then 1 else 0) + countChar c s'
  end.

(** The longest prefix of characters satisfying [p], and what follows it. *)
Fixpoint takeWhile (p : ascii -> bool) (s : string) : string :=
  match s with
  | String c s' => if p c then String c (takeWhile p s') else ""
  | "" => ""
  end.

Fixpoint dropWhile (p : ascii -> bool) (s : string) : string :=
  match s with
  | String c s' => if p c then dropWhile p s' else s
  | "" => ""
  end.

Definition trimStart (s : string) : string := dropWhile isSpace s.

Fixpoint trimEnd (s : string) : string :=
  match s with
  | "" => ""
  | String c s' =>
      match trimEnd s' with
      | "" => if isSpace c then "" else String c ""
      | t => String c t
      end
  end.

Definition trim (s : string) : string := trimEnd (trimStart s).

(** [s.startsWith(p)] is [prefix p s] of the Standard Library. *)
Definition startsWith (p s : string) : bool := prefix p s.

(** First occurrence of a character, of a string. *)
Fixpoint findChar (c : ascii) (s : string) : option nat :=
  match s with
  | "" => None
  | String x s' => if Ascii.eqb x c then Some 0 else option_map S (findChar c s')
  end.

Fixpoint findStr (pat s : string) : option nat :=
  if prefix pat s then Some 0
  else match s with
       | "" => None
       | String _ s' => option_map S (findStr pat s')
       end.

(** [s.indexOf(c, from)] and [s.indexOf(pat, from)]; [None] is [-1]. *)
Definition indexOfChar (c : ascii) (from : nat) (s : string) : option nat :=
  option_map (fun k => from + k) (findChar c (drop from s)).

Definition indexOf (pat : string) (from : nat) (s : string) : option nat :=
  if String.length s <? from then (if isEmpty pat then Some (String.length s) else None)
  else option_map (fun k => from + k) (findStr pat (drop from s)).

Definition consHead (c : ascii) (l : list string) : list string :=
  match l with
  | [] => [String c ""]
  | h :: t => String c h :: t
  end.

(** [s.split(sep)] for a one-character and for a two-character separator. *)
Fixpoint split (sep : ascii) (s : string) : list string :=
  match s with
  | "" => [""]
  | String c s' =>
      if Ascii.eqb c sep then "" :: split sep s' else consHead c (split sep s')
  end.

Fixpoint split2 (a b : ascii) (s : string) : list string :=
  match s with
  | "" => [""]
  | String c s' =>
      match s' with
      | String d rest =>
          if Ascii.eqb c a && Ascii.eqb d b then "" :: split2 a b rest
          else consHead c (split2 a b s')
      | "" => [String c ""]
      end
  end.

(** [s.split(/\s+/)]: every maximal run of white space is one separator. *)
Fixpoint splitSpaces (s : string) : list string :=
  match s with
  | "" => [""]
  | String c s' =>
      if isSpace c then
        match s' with
        | String d _ => if isSpace d then splitSpaces s' else "" :: splitSpaces s'
        | "" => [""; ""]
        end
      else consHead c (splitSpaces s')
  end.

(** [l.join(sep)]. *)
Definition join (sep : string) (l : list string) : string := String.concat sep l.

Definition mapChars (f : ascii -> ascii) : string -> string :=
  fix go (s : string) : string :=
    match s with
    | "" => ""
    | String c s' => String (f c) (go s')
    end.

Definition upperChar (c : ascii) : ascii :=
  let n := nat_of_ascii c in
  if isLower c then ascii_of_nat (n - 32)
  else if (inRange 224 254 c && negb (inRange 247 247 c)) then ascii_of_nat (n - 32)
  else c.

Definition lowerChar (c : ascii) : ascii :=
  let n := nat_of_ascii c in
  if isUpper c then ascii_of_nat (n + 32)
  else if (inRange 192 222 c && negb (inRange 215 215 c)) then ascii_of_nat (n + 32)
  else c.

Definition toUpperCase : string -> string := mapChars upperChar.
Definition toLowerCase : string -> string := mapChars lowerChar.

(** Case-insensitive [startsWith], for the lexer's [/^...$/i] prefixes. *)
Definition startsWithI (p s : string) : bool :=
  prefix (toUpperCase p) (toUpperCase (take (String.length p) s)).

(** [s.replace(/c/g, rep)] for a single character [c]. *)
Fixpoint replaceAll (c : ascii) (rep : string) (s : string) : string :=
  match s with
  | "" => ""
  | String x s' =>
      if Ascii.eqb x c then rep ++ replaceAll c rep s'
      else String x (replaceAll c rep s')
  end.

(** [String(n)] for an integer [n]. *)
Definition showZ (z : Z) : string := NilZero.string_of_int (Z.to_int z).

(** [Number.parseInt(s, 10)]; [None] is [NaN]. *)
Definition digitsValue (s : string) : Z :=
  (fix go (acc : Z) (s : string) : Z :=
     match s with
     | "" => acc
     | String c s' => go (10 * acc + Z.of_nat (nat_of_ascii c - 48))%Z s'
     end) 0%Z s.

Definition parseInt (s : string) : option Z :=
  let t := trimStart s in
  let '(neg, body) :=
    match t with
    | String "-" r => (true, r)
    | String "+" r => (false, r)
    | _ => (false, t)
    end in
  let ds := takeWhile isDigit body in
  if isEmpty ds then None
  else Some (if neg then (- digitsValue ds)%Z else digitsValue ds).

Definition startsSpace (s : string) : bool :=
  match s with String c _ => isSpace c | "" => false end.

Definition noLineTerminator (s : string) : bool :=
  allChars (fun c => negb (isLineTerminator c)) s.

Definition isChar (x : ascii) (c : ascii) : bool := Ascii.eqb c x.

(** The tail [\s+(.* )$] shared by the heading and the list-item patterns:
    at least one white-space character, then the rest of the line, which
    [.] must be able to cross.  [\s+] is greedy and nothing it gives back
    helps [(.* )$], so the group is what follows the whole run. *)
Definition spacesThenRest (s : string) : option string :=
  let rest := dropWhile isSpace s in
  if startsSpace s && noLineTerminator rest then Some rest else None.

(* ================================================================== *)
(** * The lexer: [src/parser/lexer.ts] *)
(* ================================================================== *)

Module Lexer.

Inductive TokenType : Type :=
| HEADING | LIST_ITEM | CODE_BLOCK_START | CODE_BLOCK_END
| BLOCK_START | BLOCK_END | TABLE_ROW | DRAWER_START | DRAWER_END
| SHORTCODE | PARAGRAPH | BLANK | TEXT.

Definition TokenType_eqb (a b : TokenType) : bool :=
  match a, b with
  | HEADING, HEADING | LIST_ITEM, LIST_ITEM
  | CODE_BLOCK_START, CODE_BLOCK_START | CODE_BLOCK_END, CODE_BLOCK_END
  | BLOCK_START, BLOCK_START | BLOCK_END, BLOCK_END
  | TABLE_ROW, TABLE_ROW | DRAWER_START, DRAWER_START
  | DRAWER_END, DRAWER_END | SHORTCODE, SHORTCODE
  | PARAGRAPH, PARAGRAPH | BLANK, BLANK | TEXT, TEXT => true
  | _, _ => false
  end.

(** [properties?: Record<string, any>]: the keys the lexer writes; a token
    without [properties] has every key absent. *)
Record Properties : Type := {
  level : option nat;
  language : option string;
  blockType : option string;
  name : option string;
  ordered : option bool;
  component : option string
}.

Definition noProperties : Properties :=
  {| level := None; language := None; blockType := None; name := None;
     ordered := None; component := None |}.

Record Token : Type := {
  type : TokenType;
  value : string;
  line : nat;
  indent : nat;
  properties : Properties
}.

(** [/^(\*+)\s+(.* )$/]: the stars and the heading text. *)
Definition headingMatch (trimmed : string) : option (string * string) :=
  let stars := takeWhile (isChar "*") trimmed in
  if isEmpty stars then None
  else match spacesThenRest (dropWhile (isChar "*") trimmed) with
       | Some text => Some (stars, text)
       | None => None
       end.

(** [/^#\+BEGIN_SRC\s+(\w+)/i]: the language of a source block. *)
Definition langMatch (trimmed : string) : option string :=
  let rest := drop 11 trimmed in
  let word := takeWhile isWord (dropWhile isSpace rest) in
  if startsWithI "#+BEGIN_SRC" trimmed && startsSpace rest && negb (isEmpty word)
  then Some word else None.

(** [/^#\+BEGIN_(\w+)/i] and [/^#\+END_(\w+)/i]: the block type. *)
Definition blockMatch (opener : string) (trimmed : string) : option string :=
  let word := takeWhile isWord (drop (String.length opener) trimmed) in
  if startsWithI opener trimmed && negb (isEmpty word) then Some word else None.

(** [/^:(\w+):$/]. *)
Definition drawerMatch (trimmed : string) : bool :=
  match trimmed with
  | String ":" rest =>
      let word := takeWhile isWord rest in
      negb (isEmpty word) && String.eqb (dropWhile isWord rest) ":"
  | _ => false
  end.

(** [/^([-+*]|\d+[.)])\s+(.* )$/]: the marker and the item text. *)
Definition listMatch (trimmed : string) : option (string * string) :=
  match trimmed with
  | "" => None
  | String c rest =>
      if isChar "-" c || isChar "+" c || isChar "*" c then
        match spacesThenRest rest with
        | Some text => Some (String c "", text)
        | None => None
        end
      else
        let digits := takeWhile isDigit trimmed in
        match dropWhile isDigit trimmed with
        | String d rest' =>
            if negb (isEmpty digits) && (isChar "." d || isChar ")" d) then
              match spacesThenRest rest' with
              | Some text => Some (digits ++ String d "", text)
              | None => None
              end
            else None
        | "" => None
        end
  end.

(** [/^\d+[.)]/.test(marker)]. *)
Definition orderedMarker (marker : string) : bool :=
  let digits := takeWhile isDigit marker in
  negb (isEmpty digits) &&
  match dropWhile isDigit marker with
  | String d _ => isChar "." d || isChar ")" d
  | "" => false
  end.

(** [/^\{\{<\s*(\w+)(.* )>\}\}/]: the component name ([.] cannot cross a
    line terminator, so the closing [>}}] lies before the first one). *)
Definition shortcodeMatch (trimmed : string) : option string :=
  let rest := dropWhile isSpace (drop 3 trimmed) in
  let word := takeWhile isWord rest in
  let tail := takeWhile (fun c => negb (isLineTerminator c)) (dropWhile isWord rest) in
  if startsWith "{{<" trimmed && negb (isEmpty word)
     && match findStr ">}}" tail with Some _ => true | None => false end
  then Some word else None.

Definition orEmpty (o : option string) : string :=
  match o with Some s => s | None => "" end.

(** One iteration of the [for] loop of [tokenize]: the token of line [i]. *)
Definition classify (i : nat) (line : string) : Token :=
  let trimmed := trim line in
  let indent := String.length line - String.length (trimStart line) in
  let tok ty v ps :=
    {| type := ty; value := v; line := i; indent := indent; properties := ps |} in
  (* Blank line *)
  if isEmpty trimmed then tok BLANK "" noProperties else
  (* Heading *)
  match headingMatch trimmed with
  | Some (stars, text) =>
      tok HEADING text
        {| level := Some (String.length stars); language := None; blockType := None;
           name := None; ordered := None; component := None |}
  | None =>
  (* Code block *)
  if startsWithI "#+BEGIN_SRC" trimmed then
    tok CODE_BLOCK_START ""
      {| level := None; language := Some (orEmpty (langMatch trimmed));
         blockType := None; name := None; ordered := None; component := None |}
  else if startsWithI "#+END_SRC" trimmed then tok CODE_BLOCK_END "" noProperties else
  (* Special blocks *)
  match blockMatch "#+BEGIN_" trimmed with
  | Some ty =>
      tok BLOCK_START ""
        {| level := None; language := None; blockType := Some (toUpperCase ty);
           name := None; ordered := None; component := None |}
  | None =>
  match blockMatch "#+END_" trimmed with
  | Some ty =>
      tok BLOCK_END ""
        {| level := None; language := None; blockType := Some (toUpperCase ty);
           name := None; ordered := None; component := None |}
  | None =>
  (* Drawer *)
  if drawerMatch trimmed then
    tok DRAWER_START trimmed
      {| level := None; language := None; blockType := None;
         name := Some (sliceInner trimmed); ordered := None; component := None |}
  else if String.eqb trimmed ":END:" then tok DRAWER_END "" noProperties else
  (* Table row *)
  if startsWith "|" trimmed then tok TABLE_ROW trimmed noProperties else
  (* List item *)
  match listMatch trimmed with
  | Some (marker, text) =>
      tok LIST_ITEM text
        {| level := None; language := None; blockType := None; name := None;
           ordered := Some (orderedMarker marker); component := None |}
  | None =>
  (* Shortcode *)
  match shortcodeMatch trimmed with
  | Some comp =>
      tok SHORTCODE trimmed
        {| level := None; language := None; blockType := None; name := None;
           ordered := None; component := Some comp |}
  | None =>
  (* Regular text/paragraph *)
  tok TEXT line noProperties
  end end end end end.

Fixpoint tokenizeFrom (i : nat) (lines : list string) : list Token :=
  match lines with
  | [] => []
  | l :: ls => classify i l :: tokenizeFrom (S i) ls
  end.

Definition tokenize (content : string) : list Token :=
  tokenizeFrom 0 (split nlChar content).

End Lexer.

(* ================================================================== *)
(** * The AST: [src/types.ts], [src/parser/ast.ts] *)
(* ================================================================== *)

Module Ast.

Inductive NodeType : Type :=
| t_document | t_heading | t_paragraph | t_list | t_listItem | t_table
| t_tableRow | t_tableCell | t_codeBlock | t_quote | t_example | t_verse
| t_center | t_drawer | t_propertyDrawer | t_shortcode | t_text | t_bold
| t_italic | t_underline | t_code | t_verbatim | t_strike | t_link
| t_image | t_footnote | t_lineBreak | t_rawHtml.

(** [properties?: Record<string, any>]: the keys the parser writes and the
    renderer reads.  [level] is a JavaScript number, an integer here.
    [attrs] is the shortcode's attribute object as [Object.entries] lists
    it.  A node without [properties] has every key absent. *)
Record Properties : Type := {
  level : option Z;
  tags : option (list string);
  ordered : option bool;
  language : option string;
  href : option string;
  src : option string;
  alt : option string;
  ref : option string;
  component : option string;
  attrs : option (list (string * string));
  name : option string
}.

Definition noProperties : Properties :=
  {| level := None; tags := None; ordered := None; language := None;
     href := None; src := None; alt := None; ref := None; component := None;
     attrs := None; name := None |}.

Inductive AstNode : Type :=
  mkNode {
    type : NodeType;
    value : option string;
    properties : Properties;
    children : option (list AstNode)
  }.

(** [createNode(type, properties, children)]: [children] is kept when it
    is given (an empty array is truthy). *)
Definition createNode (ty : NodeType) (props : Properties)
    (kids : option (list AstNode)) : AstNode :=
  {| type := ty; value := None; properties := props; children := kids |}.

Definition createTextNode (v : string) : AstNode :=
  {| type := t_text; value := Some v; properties := noProperties; children := None |}.

End Ast.

(* ================================================================== *)
(** * JavaScript objects used as maps *)
(* ================================================================== *)

(** An object with string keys, as [Object.entries] lists it: array-index
    keys first, in ascending order, then the other keys in the order they
    were first written.  Writing an existing key replaces its value in
    place. *)
Definition Obj (V : Type) : Type := list (string * V).

Definition isArrayIndex (k : string) : bool :=
  negb (isEmpty k) && allChars isDigit k
  && (String.eqb k "0" || negb (startsWith "0" k))
  && (String.length k <=? 10) && (digitsValue k <=? 4294967294)%Z.

Fixpoint objGet {V : Type} (k : string) (o : Obj V) : option V :=
  match o with
  | [] => None
  | (k', v) :: o' => if String.eqb k' k then Some v else objGet k o'
  end.

Fixpoint objHas {V : Type} (k : string) (o : Obj V) : bool :=
  match o with
  | [] => false
  | (k', _) :: o' => String.eqb k' k || objHas k o'
  end.

Fixpoint objReplace {V : Type} (k : string) (v : V) (o : Obj V) : Obj V :=
  match o with
  | [] => []
  | (k', v') :: o' =>
      if String.eqb k' k then (k, v) :: o' else (k', v') :: objReplace k v o'
  end.

Fixpoint objInsertIndex {V : Type} (k : string) (v : V) (o : Obj V) : Obj V :=
  match o with
  | [] => [(k, v)]
  | (k', v') :: o' =>
      if isArrayIndex k' && (digitsValue k' <? digitsValue k)%Z
      then (k', v') :: objInsertIndex k v o'
      else (k, v) :: o
  end.

(** [o[k] = v] on a plain object, for a primitive [v] (every value written
    here is a string, a number or a boolean).  The key [__proto__] names
    the prototype accessor, which ignores a primitive: the assignment
    stores nothing. *)
Definition objSet {V : Type} (k : string) (v : V) (o : Obj V) : Obj V :=
  if String.eqb k "__proto__" then o
  else if objHas k o then objReplace k v o
  else if isArrayIndex k then objInsertIndex k v o
  else (o ++ [(k, v)])%list.

(** [{ ...a, ...b }]. *)
Definition objSpread {V : Type} (a b : Obj V) : Obj V :=
  fold_left (fun acc kv => objSet (fst kv) (snd kv) acc) b a.

(* ================================================================== *)
(** * The metadata extractor: [src/parser/metadata.ts] *)
(* ================================================================== *)

Module Metadata.

(** A value of the [options] object: a boolean, a number ([None] is
    [NaN]) or a string. *)
Inductive OptionValue : Type :=
| VBool (b : bool)
| VNum (n : option Z)
| VStr (s : string).

Record OrgMetadata : Type := {
  title : option string;
  author : option string;
  date : option string;
  email : option string;
  description : option string;
  keywords : list string;
  language : option string;
  category : option string;
  tags : list string;
  options : Obj OptionValue;
  properties : Obj string;
  slug : option string;
  coverImage : option string;
  canonical : option string;
  readingTime : option Z;
  wordCount : option nat;
  excerpt : option string;
  ogTitle : option string;
  ogDescription : option string;
  ogImage : option string;
  ogType : option string;
  twitterCard : option string;
  twitterSite : option string;
  twitterCreator : option string;
  themeColor : option string;
  robots : option string
}.

(** The object [extractMetadata] starts from. *)
Definition emptyMetadata : OrgMetadata :=
  {| title := None; author := None; date := None; email := None;
     description := None; keywords := []; language := None; category := None;
     tags := []; options := []; properties := []; slug := None;
     coverImage := None; canonical := None; readingTime := None;
     wordCount := None; excerpt := None; ogTitle := None;
     ogDescription := None; ogImage := None; ogType := None;
     twitterCard := None; twitterSite := None; twitterCreator := None;
     themeColor := None; robots := None |}.

(** [/^<lead>(\w+):\s*(.* )$/] once [lead] has been read: the key and the
    value.  [\s*] is greedy and nothing it gives back helps the value
    group, which no line terminator may interrupt. *)
Definition keyColonValue (s : string) : option (string * string) :=
  let key := takeWhile isWord s in
  match dropWhile isWord s with
  | String ":" rest =>
      let v := dropWhile isSpace rest in
      if negb (isEmpty key) && noLineTerminator v then Some (key, v) else None
  | _ => None
  end.

(** [line.match(/^:(\w+):\s*(.* )$/)]. *)
Definition propMatch (line : string) : option (string * string) :=
  match line with
  | String ":" rest => keyColonValue rest
  | _ => None
  end.

(** [line.match(/^#\+(\w+):\s*(.* )$/i)]. *)
Definition metaMatch (line : string) : option (string * string) :=
  match line with
  | String "#" (String "+" rest) => keyColonValue rest
  | _ => None
  end.

(** [value.match(/:(\w+)/g)], each match without its colon. *)
Fixpoint parseFileTags (v : string) : list string :=
  match v with
  | "" => []
  | String c rest =>
      let word := takeWhile isWord rest in
      if isChar ":" c && negb (isEmpty word) then word :: parseFileTags rest
      else parseFileTags rest
  end.

(** [optionsString.match(/(\w+):(\S+)/g) || []]; [fuel] bounds the scan,
    which drops at least one character each turn. *)
Fixpoint optionParts (fuel : nat) (s : string) : list string :=
  match fuel with
  | O => []
  | S fuel' =>
      match s with
      | "" => []
      | String _ s' =>
          let key := takeWhile isWord s in
          match dropWhile isWord s with
          | String ":" rest =>
              let v := takeWhile (fun c => negb (isSpace c)) rest in
              if negb (isEmpty key) && negb (isEmpty v)
              then (key ++ ":" ++ v)
                     :: optionParts fuel' (dropWhile (fun c => negb (isSpace c)) rest)
              else optionParts fuel' s'
          | _ => optionParts fuel' s'
          end
      end
  end.

Definition notNil (v : string) : OptionValue := VBool (negb (String.eqb v "nil")).

Definition nilTrueOr (other : string -> OptionValue) (v : string) : OptionValue :=
  if String.eqb v "nil" then VBool false
  else if String.eqb v "t" then VBool true else other v.

(** One turn of the [for] loop of [parseOptions]. *)
Definition parseOption (opts : Obj OptionValue) (part : string) : Obj OptionValue :=
  let fields := split ":" part in
  let key := nth 0 fields "" in
  let v := nth 1 fields "" in
  let lower := toLowerCase key in
  if String.eqb lower "toc" then objSet "toc" (nilTrueOr (fun v => VNum (parseInt v)) v) opts
  else if String.eqb lower "num" then objSet "num" (notNil v) opts
  else if String.eqb lower "date" then objSet "date" (notNil v) opts
  else if String.eqb lower "h" then objSet "H" (VNum (parseInt v)) opts
  else if String.eqb lower "author" then objSet "author" (notNil v) opts
  else if String.eqb lower "email" then objSet "email" (notNil v) opts
  else if String.eqb lower "title" then objSet "title" (notNil v) opts
  else if String.eqb lower "_" then objSet "subscript" (notNil v) opts
  else if String.eqb lower "^" then objSet "superscript" (notNil v) opts
  else if String.eqb lower "tex" then objSet "tex" (notNil v) opts
  else objSet key (nilTrueOr VStr v) opts.

Definition parseOptions (optionsString : string) : Obj OptionValue :=
  fold_left parseOption (optionParts (String.length optionsString) optionsString) [].

Definition truthy (o : option string) : bool :=
  match o with Some s => negb (isEmpty s) | None => false end.

(** The [switch (key)] of [extractMetadata]. *)
Definition setKey (key v : string) (m : OrgMetadata) : OrgMetadata :=
  let upd (title author date email description : option string)
          (keywords : list string) (language category : option string)
          (tags : list string) (options : Obj OptionValue)
          (properties : Obj string) (coverImage canonical : option string)
          (ogTitle ogDescription ogImage ogType : option string)
          (twitterCard twitterSite twitterCreator themeColor robots : option string) :=
    {| title := title; author := author; date := date; email := email;
       description := description; keywords := keywords; language := language;
       category := category; tags := tags; options := options;
       properties := properties; slug := slug m; coverImage := coverImage;
       canonical := canonical; readingTime := readingTime m;
       wordCount := wordCount m; excerpt := excerpt m; ogTitle := ogTitle;
       ogDescription := ogDescription; ogImage := ogImage; ogType := ogType;
       twitterCard := twitterCard; twitterSite := twitterSite;
       twitterCreator := twitterCreator; themeColor := themeColor;
       robots := robots |} in
  let f (field : string) (old : option string) : option string :=
    if String.eqb key field then Some v else old in
  let known :=
    ["TITLE"; "AUTHOR"; "DATE"; "EMAIL"; "DESCRIPTION"; "KEYWORDS"; "LANGUAGE";
     "CATEGORY"; "FILETAGS"; "OPTIONS"; "CANONICAL"; "COVER_IMAGE"; "OG_IMAGE";
     "OG_TITLE"; "OG_DESCRIPTION"; "OG_TYPE"; "TWITTER_CARD"; "TWITTER_SITE";
     "TWITTER_CREATOR"; "THEME_COLOR"; "ROBOTS"] in
  upd (f "TITLE" (title m)) (f "AUTHOR" (author m)) (f "DATE" (date m))
      (f "EMAIL" (email m)) (f "DESCRIPTION" (description m))
      (if String.eqb key "KEYWORDS" then map trim (split "," v) else keywords m)
      (f "LANGUAGE" (language m)) (f "CATEGORY" (category m))
      (if String.eqb key "FILETAGS" then parseFileTags v else tags m)
      (if String.eqb key "OPTIONS" then objSpread (options m) (parseOptions v)
       else options m)
      (if existsb (String.eqb key) known then properties m
       else objSet key v (properties m))
      (f "COVER_IMAGE" (coverImage m)) (f "CANONICAL" (canonical m))
      (f "OG_TITLE" (ogTitle m)) (f "OG_DESCRIPTION" (ogDescription m))
      (f "OG_IMAGE" (ogImage m)) (f "OG_TYPE" (ogType m))
      (f "TWITTER_CARD" (twitterCard m)) (f "TWITTER_SITE" (twitterSite m))
      (f "TWITTER_CREATOR" (twitterCreator m)) (f "THEME_COLOR" (themeColor m))
      (f "ROBOTS" (robots m)).

Definition withProperties (ps : Obj string) (m : OrgMetadata) : OrgMetadata :=
  {| title := title m; author := author m; date := date m; email := email m;
     description := description m; keywords := keywords m;
     language := language m; category := category m; tags := tags m;
     options := options m; properties := ps; slug := slug m;
     coverImage := coverImage m; canonical := canonical m;
     readingTime := readingTime m; wordCount := wordCount m;
     excerpt := excerpt m; ogTitle := ogTitle m;
     ogDescription := ogDescription m; ogImage := ogImage m;
     ogType := ogType m; twitterCard := twitterCard m;
     twitterSite := twitterSite m; twitterCreator := twitterCreator m;
     themeColor := themeColor m; robots := robots m |}.

Definition withSlug (s : option string) (m : OrgMetadata) : OrgMetadata :=
  {| title := title m; author := author m; date := date m; email := email m;
     description := description m; keywords := keywords m;
     language := language m; category := category m; tags := tags m;
     options := options m; properties := properties m; slug := s;
     coverImage := coverImage m; canonical := canonical m;
     readingTime := readingTime m; wordCount := wordCount m;
     excerpt := excerpt m; ogTitle := ogTitle m;
     ogDescription := ogDescription m; ogImage := ogImage m;
     ogType := ogType m; twitterCard := twitterCard m;
     twitterSite := twitterSite m; twitterCreator := twitterCreator m;
     themeColor := themeColor m; robots := robots m |}.

(** What [parse] writes after the body is parsed. *)
Definition withDerived (rt : Z) (wc : nat) (ex : option string)
    (m : OrgMetadata) : OrgMetadata :=
  {| title := title m; author := author m; date := date m; email := email m;
     description := description m; keywords := keywords m;
     language := language m; category := category m; tags := tags m;
     options := options m; properties := properties m; slug := slug m;
     coverImage := coverImage m; canonical := canonical m;
     readingTime := Some rt; wordCount := Some wc;
     excerpt := ex; ogTitle := ogTitle m;
     ogDescription := ogDescription m; ogImage := ogImage m;
     ogType := ogType m; twitterCard := twitterCard m;
     twitterSite := twitterSite m; twitterCreator := twitterCreator m;
     themeColor := themeColor m; robots := robots m |}.

(** The state of the [while] loop of [extractMetadata]. *)
Record Extraction : Type := {
  metadata : OrgMetadata;
  contentStartLine : nat
}.

(** The [while (i < lines.length)] loop: [rest] is [lines.slice(i)]. Every
    turn either stops ([break]) or moves to [i + 1]. *)
Fixpoint extractLoop (rest : list string) (i : nat) (inPropertyDrawer : bool)
    (propertyDrawerProps : Obj string) (m : OrgMetadata) : Extraction :=
  match rest with
  | [] => {| metadata := m; contentStartLine := i |}
  | raw :: rest' =>
      let line := trim raw in
      (* Property drawer *)
      if String.eqb line ":PROPERTIES:" then
        extractLoop rest' (i + 1) true propertyDrawerProps m
      else if String.eqb line ":END:" && inPropertyDrawer then
        extractLoop rest' (i + 1) false propertyDrawerProps
          (withProperties (objSpread (properties m) propertyDrawerProps) m)
      else if inPropertyDrawer then
        match propMatch line with
        | Some (k, v) =>
            extractLoop rest' (i + 1) inPropertyDrawer (objSet k v propertyDrawerProps) m
        | None => extractLoop rest' (i + 1) inPropertyDrawer propertyDrawerProps m
        end
      else
        (* Metadata lines *)
        match metaMatch line with
        | Some (k, v) =>
            extractLoop rest' (i + 1) inPropertyDrawer propertyDrawerProps
              (setKey (toUpperCase k) (trim v) m)
        | None =>
            (* Stop when we hit content *)
            if negb (isEmpty line) && negb (startsWith "#" line)
               && negb (startsWith ":" line)
            then {| metadata := m; contentStartLine := i |}
            else extractLoop rest' (i + 1) inPropertyDrawer propertyDrawerProps m
        end
  end.

Section WithSlugify.

(** The npm package [slugify], called as
    [slugify(title, { lower: true, strict: true })]. *)
Variable slugify : string -> string.

Definition extractMetadata (lines : list string) : Extraction :=
  let r := extractLoop lines 0 false [] emptyMetadata in
  let m := metadata r in
  (* Generate slug *)
  {| metadata :=
       match title m with
       | Some t => if isEmpty t then m else withSlug (Some (slugify t)) m
       | None => m
       end;
     contentStartLine := contentStartLine r |}.

End WithSlugify.

(** [Math.ceil(words / 200)] with [words = text.split(/\s+/).length]. *)
Definition calculateReadingTime (text : string) : Z :=
  let words := Z.of_nat (List.length (splitSpaces text)) in
  ((words + 199) / 200)%Z.

(** [text.replace(/\s+/g, " ")]. *)
Fixpoint collapseSpaces (s : string) : string :=
  match s with
  | "" => ""
  | String c s' =>
      if isSpace c then
        if startsSpace s' then collapseSpaces s' else String " " (collapseSpaces s')
      else String c (collapseSpaces s')
  end.

Definition extractExcerpt (text : string) (maxLength : nat) : string :=
  let cleaned := trim (collapseSpaces text) in
  if String.length cleaned <=? maxLength then cleaned
  else trim (substring 0 maxLength cleaned) ++ "...".

End Metadata.

(** [OrgAst]: the document root, which owns the metadata. *)
Module Document.

Record OrgAst : Type := {
  metadata : Metadata.OrgMetadata;
  children : list Ast.AstNode
}.

End Document.

(* ================================================================== *)
(** * The parser: [src/parser/parser.ts] *)
(* ================================================================== *)

Module Parser.

Import Ast.

(** ** Inline markup *)

(** The two accumulators of the scan. *)
Record Pending : Type := {
  current : string;
  nodes : list AstNode
}.

Definition start : Pending := {| current := ""; nodes := [] |}.

(** [if (current) { nodes.push(createTextNode(current)); current = '' }]. *)
Definition flush (p : Pending) : Pending :=
  if isEmpty (current p) then p
  else {| current := ""; nodes := (nodes p ++ [createTextNode (current p)])%list |}.

(** What one turn of the [while] loop of [parseInlineMarkup] does at index
    [i].  In the first two cases the pending text has been flushed, so
    [current] is empty and [ns] is [nodes].
    - [Bold content next ns]: push a bold node whose children are the
      inline parse of [content], then [i = next; continue];
    - [Leaf node next ns]: push [node], then [i = next; continue];
    - [Plain p]: no markup was recognised, [current += text[i]; i++]. *)
Inductive Action : Type :=
| Bold (content : string) (next : nat) (ns : list AstNode)
| Leaf (node : AstNode) (next : nat) (ns : list AstNode)
| Plain (p : Pending).

(** [text[i + 1] !== ' '] ([undefined] at the end of the text). *)
Definition nextIsNotSpace (text : string) (i : nat) : bool :=
  match get (i + 1) text with
  | Some c => negb (isChar " " c)
  | None => true
  end.

Definition withValue (ty : NodeType) (content : string) : AstNode :=
  createNode ty noProperties (Some [createTextNode content]).

(** An [if] block for a one-character marker: when [text[i]] is a marker
    followed by a non-space, flush; when the marker occurs again later,
    act on what lies between, otherwise fall through to the next block
    (with the flushed accumulators). *)
Definition delimited (isMarker : ascii -> bool)
    (found : ascii -> string -> nat -> list AstNode -> Action)
    (text : string) (i : nat) (c : ascii) (p : Pending) : Action + Pending :=
  if isMarker c && nextIsNotSpace text i then
    let p' := flush p in
    match indexOfChar c (i + 1) text with
    | Some end_ => inl (found c (substring (i + 1) end_ text) (end_ + 1) (nodes p'))
    | None => inr p'
    end
  else inr p.

(** Bold: [*text*]. *)
Definition boldBlock := delimited (isChar "*") (fun _ => Bold).

(** Italic: [/text/]. *)
Definition italicBlock :=
  delimited (isChar "/") (fun _ content => Leaf (withValue t_italic content)).

(** Underline: [_text_]. *)
Definition underlineBlock :=
  delimited (isChar "_") (fun _ content => Leaf (withValue t_underline content)).

(** Code: [~text~] or [=text=]. *)
Definition codeBlock :=
  delimited (fun c => isChar "~" c || isChar "=" c)
    (fun marker content =>
       Leaf (withValue (if isChar "~" marker then t_code else t_verbatim) content)).

(** Strike: [+text+]. *)
Definition strikeBlock :=
  delimited (isChar "+") (fun _ content => Leaf (withValue t_strike content)).

(** Case-insensitive [endsWith]. *)
Definition endsWithI (suffix s : string) : bool :=
  (String.length suffix <=? String.length s)
  && String.eqb (toUpperCase suffix)
       (toUpperCase (drop (String.length s - String.length suffix) s)).

(** [url.match(/\.(png|jpg|jpeg|gif|svg|webp)$/i)]. *)
Definition isImage (url : string) : bool :=
  existsb (fun ext => endsWithI ext url)
    [".png"; ".jpg"; ".jpeg"; ".gif"; ".svg"; ".webp"].

Definition imageNode (url description : string) : AstNode :=
  createNode t_image
    {| level := None; tags := None; ordered := None; language := None;
       href := None; src := Some url; alt := Some description; ref := None;
       component := None; attrs := None; name := None |} None.

Definition linkNode (url description : string) : AstNode :=
  createNode t_link
    {| level := None; tags := None; ordered := None; language := None;
       href := Some url; src := None; alt := None; ref := None;
       component := None; attrs := None; name := None |}
    (Some [createTextNode description]).

Definition footnoteNode (r : string) : AstNode :=
  createNode t_footnote
    {| level := None; tags := None; ordered := None; language := None;
       href := None; src := None; alt := None; ref := Some r;
       component := None; attrs := None; name := None |} None.

(** Links: [[[url][description]]] or [[[url]]]. *)
Definition linkBlock (text : string) (i : nat) (p : Pending) : Action + Pending :=
  if String.eqb (substring i (i + 2) text) "[[" then
    let p' := flush p in
    match indexOf "]]" (i + 2) text with
    | Some end_ =>
        let linkContent := substring (i + 2) end_ text in
        let parts := split2 "]" "[" linkContent in
        let url := nth 0 parts "" in
        let description :=
          match nth_error parts 1 with
          | Some d => if isEmpty d then url else d
          | None => url
          end in
        (* Check if it's an image *)
        inl (Leaf (if isImage url then imageNode url description
                   else linkNode url description)
                  (end_ + 2) (nodes p'))
    | None => inr p'
    end
  else inr p.

(** Footnotes: [[fn:1]] or [[fn:label]]. *)
Definition footnoteBlock (text : string) (i : nat) (p : Pending) : Action + Pending :=
  if String.eqb (substring i (i + 4) text) "[fn:" then
    let p' := flush p in
    match indexOfChar "]" (i + 4) text with
    | Some end_ =>
        inl (Leaf (footnoteNode (substring (i + 4) end_ text)) (end_ + 1) (nodes p'))
    | None => inr p'
    end
  else inr p.

(** Line break: two backslashes. *)
Definition lineBreakBlock (text : string) (i : nat) (p : Pending) : Action + Pending :=
  if String.eqb (substring i (i + 2) text) "\\" then
    inl (Leaf (createNode t_lineBreak noProperties None) (i + 2) (nodes (flush p)))
  else inr p.

(** The blocks run in the order of the source; one that does not
    [continue] hands its accumulators to the next. *)
Definition orElse (b : Action + Pending) (k : Pending -> Action) : Action :=
  match b with
  | inl a => a
  | inr p => k p
  end.

(** The body of the [while] loop, for [i < text.length] and [c = text[i]]. *)
Definition step (text : string) (i : nat) (c : ascii) (p : Pending) : Action :=
  orElse (boldBlock text i c p) (fun p =>
  orElse (italicBlock text i c p) (fun p =>
  orElse (underlineBlock text i c p) (fun p =>
  orElse (codeBlock text i c p) (fun p =>
  orElse (strikeBlock text i c p) (fun p =>
  orElse (linkBlock text i p) (fun p =>
  orElse (footnoteBlock text i p) (fun p =>
  orElse (lineBreakBlock text i p) (fun p =>
  Plain {| current := current p ++ String c ""; nodes := nodes p |})))))))).

(** The [while (i < text.length)] loop and the final flush.  [None]: the
    fuel ran out. *)
Fixpoint scan (fuel : nat) (text : string) (i : nat) (p : Pending)
    : option (list AstNode) :=
  match fuel with
  | O => None
  | S fuel' =>
      match get i text with
      | None => Some (nodes (flush p))
      | Some c =>
          match step text i c p with
          | Bold content next ns =>
              match scan fuel' content 0 start with
              | Some kids =>
                  scan fuel' text next
                    {| current := "";
                       nodes := (ns ++ [createNode t_bold noProperties (Some kids)])%list |}
              | None => None
              end
          | Leaf node next ns =>
              scan fuel' text next {| current := ""; nodes := (ns ++ [node])%list |}
          | Plain p' => scan fuel' text (i + 1) p'
          end
      end
  end.

Definition parseInlineMarkupFuel (fuel : nat) (text : string) : option (list AstNode) :=
  scan fuel text 0 start.

(** [parseInlineMarkup(text)].  One unit of fuel per character and one
    more are enough ([parseInlineMarkup_total]), so the last branch is
    never taken. *)
Definition parseInlineMarkup (text : string) : list AstNode :=
  match parseInlineMarkupFuel (S (String.length text)) text with
  | Some ns => ns
  | None => []
  end.

(** ** Blocks *)

Import Lexer (Token, TokenType_eqb).

Definition justLevelTags (l : Z) (ts : list string) : Properties :=
  {| level := Some l; tags := Some ts; ordered := None; language := None;
     href := None; src := None; alt := None; ref := None; component := None;
     attrs := None; name := None |}.

Definition justLanguage (l : string) : Properties :=
  {| level := None; tags := None; ordered := None; language := Some l;
     href := None; src := None; alt := None; ref := None; component := None;
     attrs := None; name := None |}.

Definition justOrdered (b : bool) : Properties :=
  {| level := None; tags := None; ordered := Some b; language := None;
     href := None; src := None; alt := None; ref := None; component := None;
     attrs := None; name := None |}.

Definition justName (n : string) : Properties :=
  {| level := None; tags := None; ordered := None; language := None;
     href := None; src := None; alt := None; ref := None; component := None;
     attrs := None; name := Some n |}.

Definition justComponent (c : string) (a : Obj string) : Properties :=
  {| level := None; tags := None; ordered := None; language := None;
     href := None; src := None; alt := None; ref := None; component := Some c;
     attrs := Some a; name := None |}.

(** The tail [:([\w:]+):$] of the tag pattern. *)
Definition isTagTail (tail : string) : bool :=
  (3 <=? String.length tail)
  && allChars (fun c => isWord c || isChar ":" c) tail
  && startsWith ":" tail
  && String.eqb (drop (String.length tail - 1) tail) ":".

(** [text.match(/^(.*?)\s+:([\w:]+):$/)]: the content and the tag string.
    The first group is lazy: the shortest prefix after which the rest of
    the pattern matches, and no line terminator lies in it. *)
Fixpoint tagMatch (text : string) : option (string * string) :=
  let tail := dropWhile isSpace text in
  if startsSpace text && isTagTail tail then Some ("", sliceInner tail)
  else match text with
       | "" => None
       | String c rest =>
           if isLineTerminator c then None
           else match tagMatch rest with
                | Some (content, tagString) => Some (String c content, tagString)
                | None => None
                end
       end.

Definition parseHeading (token : Token) : AstNode :=
  let level :=
    match Lexer.level (Lexer.properties token) with
    | Some (S n) => S n
    | _ => 1
    end in
  let text := Lexer.value token in
  (* Parse tags from heading *)
  let m := tagMatch text in
  let content := match m with Some (c, _) => c | None => text end in
  let tags :=
    match m with
    | Some (_, ts) => List.filter (fun t => negb (isEmpty t)) (split ":" ts)
    | None => []
    end in
  createNode t_heading (justLevelTags (Z.of_nat level) tags)
    (Some (parseInlineMarkup content)).

(** [while (i < tokens.length && tokens[i].type !== stop)
    { lines.push(tokens[i].value); i++ }]; [rest] is [tokens.slice(i)]. *)
Fixpoint collectUntil (stop : Lexer.TokenType) (rest : list Token) (i : nat)
    (acc : list string) : list string * nat :=
  match rest with
  | [] => (acc, i)
  | t :: rest' =>
      if TokenType_eqb (Lexer.type t) stop then (acc, i)
      else collectUntil stop rest' (i + 1) (acc ++ [Lexer.value t])%list
  end.

(** The block functions return [{ node, endIndex }]; [None] is the
    [TypeError] of reading [tokens[startIndex]] past the end. *)
Definition parseCodeBlock (tokens : list Token) (startIndex : nat)
    : option (AstNode * Z) :=
  match nth_error tokens startIndex with
  | None => None
  | Some startToken =>
      let language := Lexer.orEmpty (Lexer.language (Lexer.properties startToken)) in
      let '(codeLines, i) :=
        collectUntil Lexer.CODE_BLOCK_END (skipn (startIndex + 1) tokens)
          (startIndex + 1) [] in
      Some (createNode t_codeBlock (justLanguage language)
              (Some [createTextNode (join nl codeLines)]),
            Z.of_nat i)
  end.

Definition parseBlock (tokens : list Token) (startIndex : nat)
    : option (AstNode * Z) :=
  match nth_error tokens startIndex with
  | None => None
  | Some startToken =>
      let blockType :=
        match Lexer.blockType (Lexer.properties startToken) with
        | Some b => if isEmpty b then "QUOTE" else b
        | None => "QUOTE"
        end in
      let '(contentLines, i) :=
        collectUntil Lexer.BLOCK_END (skipn (startIndex + 1) tokens)
          (startIndex + 1) [] in
      let content := join nl contentLines in
      let nodeType :=
        if String.eqb blockType "QUOTE" then t_quote
        else if String.eqb blockType "EXAMPLE" then t_example
        else if String.eqb blockType "VERSE" then t_verse
        else if String.eqb blockType "CENTER" then t_center
        else t_quote in
      Some (createNode nodeType noProperties (Some (parseInlineMarkup content)),
            Z.of_nat i)
  end.

(** [rowValue.match(/^\|[-+:| ]+\|$/)]. *)
Definition isSeparatorRow (rowValue : string) : bool :=
  match rowValue with
  | String "|" rest =>
      (2 <=? String.length rest)
      && allChars (fun c => isChar "-" c || isChar "+" c || isChar ":" c
                            || isChar "|" c || isChar " " c) rest
      && String.eqb (drop (String.length rest - 1) rest) "|"
  | _ => false
  end.

(** [l.slice(1, -1)]. *)
Definition sliceInnerList {A : Type} (l : list A) : list A := removelast (tl l).

Definition tableRowNode (rowValue : string) : AstNode :=
  let cells := map trim (sliceInnerList (split "|" rowValue)) in
  let cellNodes :=
    map (fun cell => createNode t_tableCell noProperties (Some (parseInlineMarkup cell)))
      cells in
  createNode t_tableRow noProperties (Some cellNodes).

(** The [while] loop of [parseTable]; [rest] is [tokens.slice(i)]. *)
Fixpoint tableRows (rest : list Token) (i : nat) (rows : list AstNode)
    : list AstNode * nat :=
  match rest with
  | [] => (rows, i)
  | t :: rest' =>
      if TokenType_eqb (Lexer.type t) Lexer.TABLE_ROW then
        (* Skip separator rows *)
        if isSeparatorRow (Lexer.value t) then tableRows rest' (i + 1) rows
        else tableRows rest' (i + 1) (rows ++ [tableRowNode (Lexer.value t)])%list
      else (rows, i)
  end.

Definition parseTable (tokens : list Token) (startIndex : nat) : AstNode * Z :=
  let '(rows, i) := tableRows (skipn startIndex tokens) startIndex [] in
  (createNode t_table noProperties (Some rows), (Z.of_nat i - 1)%Z).

(** The [while] loop of [parseList]; [rest] is [tokens.slice(i)]. *)
Fixpoint listItems (baseIndent : nat) (rest : list Token) (i : nat)
    (items : list AstNode) : list AstNode * nat :=
  match rest with
  | [] => (items, i)
  | t :: rest' =>
      if TokenType_eqb (Lexer.type t) Lexer.LIST_ITEM
         && (Lexer.indent t =? baseIndent)
      then listItems baseIndent rest' (i + 1)
             (items ++ [createNode t_listItem noProperties
                          (Some (parseInlineMarkup (Lexer.value t)))])%list
      else (items, i)
  end.

Definition parseList (tokens : list Token) (startIndex : nat)
    : option (AstNode * Z) :=
  match nth_error tokens startIndex with
  | None => None
  | Some startToken =>
      let ordered :=
        match Lexer.ordered (Lexer.properties startToken) with
        | Some b => b
        | None => false
        end in
      let baseIndent := Lexer.indent startToken in
      let '(items, i) := listItems baseIndent (skipn startIndex tokens) startIndex [] in
      Some (createNode t_list (justOrdered ordered) (Some items), (Z.of_nat i - 1)%Z)
  end.

Definition parseDrawer (tokens : list Token) (startIndex : nat)
    : option (option AstNode * Z) :=
  match nth_error tokens startIndex with
  | None => None
  | Some startToken =>
      let drawerName := Lexer.orEmpty (Lexer.name (Lexer.properties startToken)) in
      let '(contentLines, i) :=
        collectUntil Lexer.DRAWER_END (skipn (startIndex + 1) tokens)
          (startIndex + 1) [] in
      (* Skip property drawers (already processed in metadata) *)
      if String.eqb drawerName "PROPERTIES" then Some (None, Z.of_nat i)
      else Some (Some (createNode t_drawer (justName drawerName)
                         (Some [createTextNode (join nl contentLines)])),
                 Z.of_nat i)
  end.

(** [/\{\{<\s*(\w+)(.*?)>\}\}/] tried at the start of [s]: the component
    and the attribute text up to the first closing [>}}]. *)
Definition shortcodeAt (s : string) : option (string * string) :=
  let rest := dropWhile isSpace (drop 3 s) in
  let word := takeWhile isWord rest in
  let after := dropWhile isWord rest in
  if startsWith "{{<" s && negb (isEmpty word) then
    match findStr ">}}" (takeWhile (fun c => negb (isLineTerminator c)) after) with
    | Some q => Some (word, take q after)
    | None => None
    end
  else None.

(** The first place of [s] where the pattern matches. *)
Fixpoint shortcodeSearch (s : string) : option (string * string) :=
  match shortcodeAt s with
  | Some r => Some r
  | None =>
      match s with
      | "" => None
      | String _ s' => shortcodeSearch s'
      end
  end.

(** [attrsString.matchAll(re)] for the global pattern [re] that reads a
    word, an equals sign and a value between double quotes (any characters
    but the double quote); [fuel] bounds the scan, which drops at least one
    character each turn. *)
Fixpoint attrMatches (fuel : nat) (s : string) : list (string * string) :=
  match fuel with
  | O => []
  | S fuel' =>
      match s with
      | "" => []
      | String _ s' =>
          let key := takeWhile isWord s in
          match dropWhile isWord s with
          | String "=" (String q rest) =>
              if negb (isEmpty key) && isChar dqChar q then
                match findChar dqChar rest with
                | Some e => (key, take e rest) :: attrMatches fuel' (drop (S e) rest)
                | None => attrMatches fuel' s'
                end
              else attrMatches fuel' s'
          | _ => attrMatches fuel' s'
          end
      end
  end.

Definition parseShortcode (token : Token) : AstNode :=
  match shortcodeSearch (Lexer.value token) with
  | None => createTextNode (Lexer.value token)
  | Some (component, rest) =>
      let attrsString := trim rest in
      (* Parse attributes *)
      let attrs :=
        fold_left (fun acc kv => objSet (fst kv) (snd kv) acc)
          (attrMatches (String.length attrsString) attrsString) [] in
      createNode t_shortcode (justComponent component attrs) None
  end.

(** The [while] loop of [parseParagraph]; [rest] is [tokens.slice(i)]. *)
Fixpoint paragraphLines (rest : list Token) (i : nat) (lines : list string)
    : list string * nat :=
  match rest with
  | [] => (lines, i)
  | t :: rest' =>
      if TokenType_eqb (Lexer.type t) Lexer.TEXT
      then paragraphLines rest' (i + 1) (lines ++ [trim (Lexer.value t)])%list
      else (lines, i)
  end.

Definition parseParagraph (tokens : list Token) (startIndex : nat)
    : option AstNode * Z :=
  let '(lines, i) := paragraphLines (skipn startIndex tokens) startIndex [] in
  match lines with
  | [] => (None, (Z.of_nat i - 1)%Z)
  | _ =>
      let content := join " " lines in
      (Some (createNode t_paragraph noProperties (Some (parseInlineMarkup content))),
       (Z.of_nat i - 1)%Z)
  end.

Definition push (nodes : list AstNode) (node : option AstNode) : list AstNode :=
  match node with
  | Some n => (nodes ++ [n])%list
  | None => nodes
  end.

(** The [while (i < tokens.length)] loop of [parseTokens].  [None]: the
    fuel ran out, or a block function threw. *)
Fixpoint parseTokensLoop (fuel : nat) (tokens : list Token) (i : nat)
    (nodes : list AstNode) : option (list AstNode) :=
  match fuel with
  | O => None
  | S fuel' =>
      match nth_error tokens i with
      | None => Some nodes
      | Some token =>
          let next (endIndex : Z) : nat := Z.to_nat (endIndex + 1) in
          match Lexer.type token with
          | Lexer.HEADING =>
              parseTokensLoop fuel' tokens (i + 1) (nodes ++ [parseHeading token])%list
          | Lexer.CODE_BLOCK_START =>
              match parseCodeBlock tokens i with
              | Some (node, endIndex) =>
                  parseTokensLoop fuel' tokens (next endIndex) (nodes ++ [node])%list
              | None => None
              end
          | Lexer.BLOCK_START =>
              match parseBlock tokens i with
              | Some (node, endIndex) =>
                  parseTokensLoop fuel' tokens (next endIndex) (nodes ++ [node])%list
              | None => None
              end
          | Lexer.TABLE_ROW =>
              let '(node, endIndex) := parseTable tokens i in
              parseTokensLoop fuel' tokens (next endIndex) (nodes ++ [node])%list
          | Lexer.LIST_ITEM =>
              match parseList tokens i with
              | Some (node, endIndex) =>
                  parseTokensLoop fuel' tokens (next endIndex) (nodes ++ [node])%list
              | None => None
              end
          | Lexer.DRAWER_START =>
              match parseDrawer tokens i with
              | Some (node, endIndex) =>
                  parseTokensLoop fuel' tokens (next endIndex) (push nodes node)
              | None => None
              end
          | Lexer.SHORTCODE =>
              parseTokensLoop fuel' tokens (i + 1) (nodes ++ [parseShortcode token])%list
          | Lexer.TEXT =>
              let '(node, endIndex) := parseParagraph tokens i in
              parseTokensLoop fuel' tokens (next endIndex) (push nodes node)
          | Lexer.BLANK => parseTokensLoop fuel' tokens (i + 1) nodes
          | _ => parseTokensLoop fuel' tokens (i + 1) nodes
          end
      end
  end.

(** [parseTokens(tokens)]: every turn moves the cursor forward, so one
    unit of fuel per token and one more are enough ([parseTokens_total]). *)
Definition parseTokens (tokens : list Token) : option (list AstNode) :=
  parseTokensLoop (S (List.length tokens)) tokens 0 [].

(** One turn of the [for] loop of [extractPlainText]: what [node] adds to
    [text]. *)
Fixpoint plainTextOf (node : AstNode) : string :=
  match node with
  | mkNode _ v _ kids =>
      (match v with
       | Some s => if isEmpty s then "" else s ++ " "
       | None => ""
       end)
      ++ (match kids with
          | Some ks =>
              (fix extract (l : list AstNode) : string :=
                 match l with
                 | [] => ""
                 | n :: r => plainTextOf n ++ extract r
                 end) ks ++ " "
          | None => ""
          end)
  end.

Fixpoint extractPlainText (nodes : list AstNode) : string :=
  match nodes with
  | [] => ""
  | node :: rest => plainTextOf node ++ extractPlainText rest
  end.

Section WithSlugify.

Variable slugify : string -> string.

(** [parse(content)]. *)
Definition parse (content : string) : option Document.OrgAst :=
  let lines := split nlChar content in
  let ex := Metadata.extractMetadata slugify lines in
  let metadata := Metadata.metadata ex in
  let contentLines := skipn (Metadata.contentStartLine ex) lines in
  let tokens := Lexer.tokenize (join nl contentLines) in
  match parseTokens tokens with
  | None => None
  | Some children =>
      (* Calculate reading time and excerpt *)
      let plainText := extractPlainText children in
      let readingTime := Metadata.calculateReadingTime plainText in
      let wordCount := List.length (splitSpaces plainText) in
      let excerpt :=
        if negb (Metadata.truthy (Metadata.excerpt metadata))
           && Metadata.truthy (Metadata.description metadata)
        then Metadata.description metadata
        else if negb (Metadata.truthy (Metadata.excerpt metadata))
        then Some (Metadata.extractExcerpt plainText 160)
        else Metadata.excerpt metadata in
      Some {| Document.metadata :=
                Metadata.withDerived readingTime wordCount excerpt metadata;
              Document.children := children |}
  end.

End WithSlugify.

End Parser.

(* ================================================================== *)
(** * The table of contents: [src/plugins/toc.ts] *)
(* ================================================================== *)

Module Toc.

Record Heading : Type := {
  level : Z;
  text : string;
  id : string
}.

(** The three-entity [escapeHtml] of this file. *)
Definition escapeHtml (text : string) : string :=
  replaceAll ">" "&gt;" (replaceAll "<" "&lt;" (replaceAll "&" "&amp;" text)).

(** [n] copies of [s]: a [while] loop that moves an integer counter by one
    until it meets its target. *)
Definition times (n : Z) (s : string) : string :=
  String.concat "" (repeat s (Z.to_nat n)).

(** [a > b] for numbers, [None] being [NaN]. *)
Definition gtNum (a : Z) (b : option Z) : bool :=
  match b with
  | Some b => (b <? a)%Z
  | None => false
  end.

(** One turn of the [for] loop of [generateToc] on [(html, currentLevel)]. *)
Definition tocEntry (maxDepth : option Z) (st : string * Z) (heading : Heading)
    : string * Z :=
  let '(html, currentLevel) := st in
  if gtNum (level heading) maxDepth then st
  else
    let html := html ++ times (level heading - currentLevel) "<ul>" in
    let currentLevel := Z.max currentLevel (level heading) in
    let html := html ++ times (currentLevel - level heading) "</ul>" in
    let currentLevel := Z.min currentLevel (level heading) in
    (html ++ "<li><a href=" ++ dq ++ "#" ++ id heading ++ dq ++ ">"
          ++ escapeHtml (text heading) ++ "</a></li>",
     currentLevel).

Definition generateToc (headings : list Heading) (maxDepth : option Z) : string :=
  match headings with
  | [] => ""
  | first :: _ =>
      let html := "<nav class=" ++ dq ++ "toc" ++ dq ++ "><h2>Table of Contents</h2><ul>" in
      let '(html, currentLevel) :=
        fold_left (tocEntry maxDepth) headings (html, level first) in
      html ++ times (currentLevel - level first) "</ul>" ++ "</ul></nav>" ++ nl
  end.

End Toc.

(* ================================================================== *)
(** * The renderer: [src/renderer/html-renderer.ts] *)
(* ================================================================== *)

Module Renderer.

Import Ast.

(** The options [renderToHtml] and its helpers read. *)
Record RenderOptions : Type := {
  sanitize : option bool;
  codeHighlight : option bool
}.

(** [options = {}]. *)
Definition defaultOptions : RenderOptions :=
  {| sanitize := None; codeHighlight := None |}.

(** [o !== false]. *)
Definition notFalse (o : option bool) : bool :=
  match o with
  | Some false => false
  | _ => true
  end.

Record Context : Type := {
  options : RenderOptions;
  footnotes : list (string * string);
  footnoteCounter : Z;
  headings : list Toc.Heading
}.

(** [footnotes.set(k, v)] on a [Map]: a known key keeps its place. *)
Fixpoint mapSet (k v : string) (m : list (string * string)) : list (string * string) :=
  match m with
  | [] => [(k, v)]
  | (k', v') :: m' =>
      if String.eqb k' k then (k, v) :: m' else (k', v') :: mapSet k v m'
  end.

Definition escapeHtml (text : string) : string :=
  replaceAll "'" "&#039;"
    (replaceAll dqChar "&quot;"
       (replaceAll ">" "&gt;" (replaceAll "<" "&lt;" (replaceAll "&" "&amp;" text)))).

(** [s.replace(/p+/g, rep)]: every maximal run becomes one [rep]. *)
Fixpoint collapseRuns (p : ascii -> bool) (rep : ascii) (s : string) : string :=
  match s with
  | "" => ""
  | String c s' =>
      if p c then
        match s' with
        | String d _ => if p d then collapseRuns p rep s' else String rep (collapseRuns p rep s')
        | "" => String rep ""
        end
      else String c (collapseRuns p rep s')
  end.

Definition slugify (text : string) : string :=
  trim
    (collapseRuns (isChar "-") "-"
       (collapseRuns isSpace "-"
          (filterChars (fun c => isWord c || isSpace c || isChar "-" c)
             (toLowerCase text)))).

Definition orEmpty (o : option string) : string :=
  match o with Some s => s | None => "" end.

Fixpoint renderChildrenSync (node : AstNode) : string :=
  match node with
  | mkNode _ _ _ None => ""
  | mkNode _ _ _ (Some kids) =>
      String.concat ""
        (map (fun child =>
                match type child with
                | t_text => escapeHtml (orEmpty (value child))
                | t_bold => "<strong>" ++ renderChildrenSync child ++ "</strong>"
                | t_italic => "<em>" ++ renderChildrenSync child ++ "</em>"
                | t_code => "<code>" ++ renderChildrenSync child ++ "</code>"
                | t_link =>
                    "<a href=" ++ dq ++ escapeHtml (orEmpty (href (properties child)))
                    ++ dq ++ ">" ++ renderChildrenSync child ++ "</a>"
                (* fallback - recursively render children (safe default) *)
                | _ => renderChildrenSync child
                end) kids)
  end.

(** [Math.min(Number(node.properties?.level ?? 1), 6)]. *)
Definition headingLevel (node : AstNode) : Z :=
  Z.min (match level (properties node) with Some l => l | None => 1%Z end) 6.

(** [(node.children ?? []).map((c) => String(c.value ?? '')).join('')]. *)
Definition headingText (node : AstNode) : string :=
  String.concat ""
    (map (fun c => orEmpty (value c))
       (match children node with Some ks => ks | None => [] end)).

Definition renderHeading (node : AstNode) (context : Context) : string * Context :=
  let level := headingLevel node in
  let text := headingText node in
  let id := slugify text in
  (* Track for TOC *)
  let context :=
    {| options := options context; footnotes := footnotes context;
       footnoteCounter := footnoteCounter context;
       headings := (headings context
                    ++ [{| Toc.level := level; Toc.text := text; Toc.id := id |}])%list |} in
  let headingNumber := "" in
  ("<h" ++ showZ level ++ " id=" ++ dq ++ escapeHtml id ++ dq ++ ">" ++ headingNumber
   ++ renderChildrenSync node ++ "</h" ++ showZ level ++ ">" ++ nl,
   context).

Definition renderParagraph (node : AstNode) : string :=
  "<p>" ++ renderChildrenSync node ++ "</p>" ++ nl.

(** The functions below take the string [await renderChildren(node,
    context)] gave as [items], [rows], [cells] or [inner]. *)
Definition renderList (node : AstNode) (items : string) : string :=
  let tag := match ordered (properties node) with Some true => "ol" | _ => "ul" end in
  "<" ++ tag ++ ">" ++ nl ++ items ++ "</" ++ tag ++ ">" ++ nl.

Definition renderListItem (inner : string) : string :=
  "<li>" ++ inner ++ "</li>" ++ nl.

Definition renderTable (rows : string) : string :=
  "<table>" ++ nl ++ "<tbody>" ++ nl ++ rows ++ "</tbody>" ++ nl ++ "</table>" ++ nl.

Definition renderTableRow (cells : string) : string :=
  "<tr>" ++ nl ++ cells ++ "</tr>" ++ nl.

Definition renderTableCell (inner : string) : string :=
  "<td>" ++ inner ++ "</td>" ++ nl.

Definition renderQuote (inner : string) : string :=
  "<blockquote>" ++ nl ++ inner ++ "</blockquote>" ++ nl.

Definition renderExample (inner : string) : string :=
  "<pre class=" ++ dq ++ "example" ++ dq ++ ">" ++ inner ++ "</pre>" ++ nl.

Definition renderVerse (inner : string) : string :=
  "<p class=" ++ dq ++ "verse" ++ dq ++ ">" ++ inner ++ "</p>" ++ nl.

Definition renderCenter (inner : string) : string :=
  "<div class=" ++ dq ++ "center" ++ dq ++ ">" ++ inner ++ "</div>" ++ nl.

Definition renderShortcode (node : AstNode) : string :=
  let component := orEmpty (component (properties node)) in
  let attrs := match attrs (properties node) with Some a => a | None => [] end in
  let attrString :=
    String.concat " "
      (map (fun kv => escapeHtml (fst kv) ++ "=" ++ dq ++ escapeHtml (snd kv) ++ dq)
         attrs) in
  "<div data-component=" ++ dq ++ escapeHtml component ++ dq ++ " " ++ attrString
  ++ "></div>" ++ nl.

Definition renderLink (node : AstNode) : string :=
  let href := orEmpty (href (properties node)) in
  let text := renderChildrenSync node in
  "<a href=" ++ dq ++ escapeHtml href ++ dq ++ ">" ++ text ++ "</a>".

Definition renderImage (node : AstNode) : string :=
  let src := orEmpty (src (properties node)) in
  let alt := orEmpty (alt (properties node)) in
  "<img src=" ++ dq ++ escapeHtml src ++ dq ++ " alt=" ++ dq ++ escapeHtml alt ++ dq ++ ">".

Definition renderFootnote (node : AstNode) (context : Context) : string * Context :=
  let ref := orEmpty (ref (properties node)) in
  let num := footnoteCounter context in
  let context :=
    {| options := options context;
       footnotes := mapSet ref ("Footnote " ++ escapeHtml ref) (footnotes context);
       footnoteCounter := (footnoteCounter context + 1)%Z;
       headings := headings context |} in
  ("<sup id=" ++ dq ++ "fnref-" ++ escapeHtml ref ++ dq ++ "><a href=" ++ dq ++ "#fn-"
   ++ escapeHtml ref ++ dq ++ ">" ++ showZ num ++ "</a></sup>",
   context).

Section WithCollaborators.

(** [highlightCode(code, language)] of [src/plugins/code-highlight.ts],
    which calls the shiki package, and [sanitizeHtml(html)] of
    [src/renderer/sanitizer.ts], which calls DOMPurify. *)
Variable highlightCode : string -> string -> string.
Variable sanitizeHtml : string -> string.

Definition renderCodeBlock (node : AstNode) (context : Context) : string :=
  let language := orEmpty (language (properties node)) in
  let code :=
    match children node with
    | Some (first :: _) => orEmpty (value first)
    | _ => ""
    end in
  if notFalse (codeHighlight (options context)) then
    let highlighted := highlightCode code language in
    "<pre><code class=" ++ dq ++ "language-" ++ escapeHtml language ++ dq ++ ">"
    ++ highlighted ++ "</code></pre>" ++ nl
  else
    "<pre><code class=" ++ dq ++ "language-" ++ escapeHtml language ++ dq ++ ">"
    ++ escapeHtml code ++ "</code></pre>" ++ nl.

(** [renderNode(node, context)], with the context threaded through the
    children in document order; [renderChildren] is [renderChildren(node,
    context)] for this node. *)
Fixpoint renderNode (node : AstNode) (context : Context) {struct node}
    : string * Context :=
  match node with
  | mkNode ty _ _ kids =>
      let renderChildren (context : Context) : string * Context :=
        match kids with
        | None => ("", context)
        | Some ks =>
            (fix each (l : list AstNode) (html : string) (context : Context)
               : string * Context :=
               match l with
               | [] => (html, context)
               | child :: rest =>
                   let '(h, context) := renderNode child context in
                   each rest (html ++ h) context
               end) ks "" context
        end in
      let wrap (f : string -> string) : string * Context :=
        let '(inner, context) := renderChildren context in (f inner, context) in
      match ty with
      | t_heading => renderHeading node context
      | t_paragraph => (renderParagraph node, context)
      | t_list => wrap (renderList node)
      | t_listItem => wrap renderListItem
      | t_table => wrap renderTable
      | t_tableRow => wrap renderTableRow
      | t_tableCell => wrap renderTableCell
      | t_codeBlock => (renderCodeBlock node context, context)
      | t_quote => wrap renderQuote
      | t_example => wrap renderExample
      | t_verse => wrap renderVerse
      | t_center => wrap renderCenter
      | t_shortcode => (renderShortcode node, context)
      | t_bold => wrap (fun inner => "<strong>" ++ inner ++ "</strong>")
      | t_italic => wrap (fun inner => "<em>" ++ inner ++ "</em>")
      | t_underline => wrap (fun inner => "<u>" ++ inner ++ "</u>")
      | t_code => wrap (fun inner => "<code>" ++ inner ++ "</code>")
      | t_verbatim =>
          wrap (fun inner =>
                  "<code class=" ++ dq ++ "verbatim" ++ dq ++ ">" ++ inner ++ "</code>")
      | t_strike => wrap (fun inner => "<del>" ++ inner ++ "</del>")
      | t_link => (renderLink node, context)
      | t_image => (renderImage node, context)
      | t_footnote => renderFootnote node context
      | t_lineBreak => ("<br>", context)
      | t_text => (escapeHtml (orEmpty (value node)), context)
      | _ => ("", context)
      end
  end.

(** The [for] loop of [renderToHtml] and of [renderChildren]. *)
Fixpoint renderNodes (l : list AstNode) (html : string) (context : Context)
    : string * Context :=
  match l with
  | [] => (html, context)
  | node :: rest =>
      let '(h, context) := renderNode node context in
      renderNodes rest (html ++ h) context
  end.

(** The link text of a footnote's back reference, as the source file
    spells it: three characters with the codes 226, 8224 and 169; the
    middle one is written here with its Windows-1252 code 134. *)
Definition backArrow : string :=
  String (ascii_of_nat 226) (String (ascii_of_nat 134) (String (ascii_of_nat 169) "")).

Definition footnoteItem (entry : string * string) : string :=
  let '(ref, content) := entry in
  "<li id=" ++ dq ++ "fn-" ++ escapeHtml ref ++ dq ++ ">" ++ content ++ " <a href="
  ++ dq ++ "#fnref-" ++ escapeHtml ref ++ dq ++ ">" ++ backArrow ++ "</a></li>".

Definition newContext (options : RenderOptions) : Context :=
  {| options := options; footnotes := []; footnoteCounter := 1%Z; headings := [] |}.

(** [bodyHtml] and the context after the walk. *)
Definition renderBody (ast : Document.OrgAst) (options : RenderOptions)
    : string * Context :=
  renderNodes (Document.children ast) "" (newContext options).

Definition tocOption (ast : Document.OrgAst) : option Metadata.OptionValue :=
  objGet "toc" (Metadata.options (Document.metadata ast)).

(** [tocHtml]. *)
Definition renderToc (ast : Document.OrgAst) (context : Context) : string :=
  (* Add table of contents if enabled *)
  let tocEnabled :=
    match tocOption ast with
    | Some (Metadata.VBool false) => false
    | _ => true
    end in
  if tocEnabled && negb (List.length (headings context) =? 0) then
    let tocDepth :=
      match tocOption ast with
      | Some (Metadata.VNum n) => n
      | _ => Some 3%Z
      end in
    Toc.generateToc (headings context) tocDepth
  else "".

(** [footnotesHtml]. *)
Definition renderFootnotes (context : Context) : string :=
  if negb (List.length (footnotes context) =? 0) then
    "<div class=" ++ dq ++ "footnotes" ++ dq ++ "><hr><ol>"
    ++ String.concat "" (map footnoteItem (footnotes context))
    ++ "</ol></div>"
  else "".

(** [fullHtml = tocHtml + bodyHtml + footnotesHtml]. *)
Definition fullHtml (ast : Document.OrgAst) (options : RenderOptions) : string :=
  let '(bodyHtml, context) := renderBody ast options in
  renderToc ast context ++ bodyHtml ++ renderFootnotes context.

Record RenderResult : Type := {
  html : string;
  metadata : Metadata.OrgMetadata
}.

Definition renderToHtml (ast : Document.OrgAst) (options : RenderOptions)
    : RenderResult :=
  let full := fullHtml ast options in
  (* Sanitize if enabled *)
  let finalHtml := if notFalse (sanitize options) then sanitizeHtml full else full in
  {| html := finalHtml; metadata := Document.metadata ast |}.

End WithCollaborators.

End Renderer.

(* ================================================================== *)
(** * Example documents and stand-ins for the collaborators *)
(* ================================================================== *)

(** Stand-ins used where a statement is about one concrete run: a
    sanitizer and a slug function that return their argument, and a
    highlighter that returns the code. *)
Definition identity (s : string) : string := s.
Definition noHighlight (code language : string) : string := code.

(** The document [#+TITLE: T], [* A], [Some *bold* and /italic/ text.]. *)
Definition titledDocument : string :=
  "#+TITLE: T" ++ nl ++ "* A" ++ nl ++ "Some *bold* and /italic/ text.".

Definition titledBody : string :=
  "<h1 id=" ++ dq ++ "a" ++ dq ++ ">A</h1>" ++ nl
  ++ "<p>Some <strong>bold</strong> and <em>italic</em> text.</p>" ++ nl.

Definition titledToc : string :=
  "<nav class=" ++ dq ++ "toc" ++ dq ++ "><h2>Table of Contents</h2><ul>"
  ++ "<li><a href=" ++ dq ++ "#a" ++ dq ++ ">A</a></li></ul></nav>" ++ nl.

(** The table [|a|b|], [|-|-|], [|1|2|]. *)
Definition smallTable : string := "|a|b|" ++ nl ++ "|-|-|" ++ nl ++ "|1|2|".

Definition cellOf (s : string) : Ast.AstNode :=
  Ast.createNode Ast.t_tableCell Ast.noProperties (Some [Ast.createTextNode s]).

Definition rowOf (cells : list string) : Ast.AstNode :=
  Ast.createNode Ast.t_tableRow Ast.noProperties (Some (map cellOf cells)).

Definition tableOf (rows : list (list string)) : Ast.AstNode :=
  Ast.createNode Ast.t_table Ast.noProperties (Some (map rowOf rows)).

(** A document whose first line is a keyword line written without its
    colon. *)
Definition colonlessTitle : string := "#+TITLE My notes".
Definition colonlessDocument : list string := [colonlessTitle; "Some text."].

(** The item [parseList] makes of a LIST_ITEM token. *)
Definition listItemNode (t : Lexer.Token) : Ast.AstNode :=
  Ast.createNode Ast.t_listItem Ast.noProperties
    (Some (Parser.parseInlineMarkup (Lexer.value t))).

(** Whether [t] continues a list whose opening item is indented by [base]. *)
Definition continuesList (base : nat) (t : Lexer.Token) : bool :=
  Lexer.TokenType_eqb (Lexer.type t) Lexer.LIST_ITEM && (Lexer.indent t =? base).

(** Three items, the middle one indented by one space more. *)
Definition indentedItems : string := "- a" ++ nl ++ " - b" ++ nl ++ "- c".

Definition isNone {A : Type} (o : option A) : bool :=
  match o with None => true | Some _ => false end.

(** The one-character markers of the inline grammar. *)
Definition markerChar (c : ascii) : bool :=
  isChar "*" c || isChar "/" c || isChar "_" c || isChar "~" c || isChar "=" c
  || isChar "+" c.

(** [text[i] = c] opens an inline construct that is never closed: a
    one-character marker followed by a non-space with no second
    occurrence of the marker after it, a [[[] with no []]] after it, or a
    [[fn:] with no []] after it. *)
Definition unmatchedOpener (text : string) (i : nat) (c : ascii) : bool :=
  (markerChar c && Parser.nextIsNotSpace text i
   && isNone (indexOfChar c (i + 1) text))
  || (String.eqb (substring i (i + 2) text) "[[" && isNone (indexOf "]]" (i + 2) text))
  || (String.eqb (substring i (i + 4) text) "[fn:"
      && isNone (indexOfChar "]" (i + 4) text)).

(** ** Replacing the text an AST carries *)

Definition mapProperties (f : string -> string) (ps : Ast.Properties) : Ast.Properties :=
  {| Ast.level := Ast.level ps;
     Ast.tags := Ast.tags ps;
     Ast.ordered := Ast.ordered ps;
     Ast.language := option_map f (Ast.language ps);
     Ast.href := option_map f (Ast.href ps);
     Ast.src := option_map f (Ast.src ps);
     Ast.alt := option_map f (Ast.alt ps);
     Ast.ref := Ast.ref ps;
     Ast.component := option_map f (Ast.component ps);
     Ast.attrs := option_map (map (fun kv => (f (fst kv), f (snd kv)))) (Ast.attrs ps);
     Ast.name := Ast.name ps |}.

(** [mapText f node]: the tree [node] with every text it carries replaced
    by its image under [f]: the value of every node (the text leaves'
    text), link targets, image sources and alternative texts, code-block
    languages, shortcode component names and attribute names and values.
    The shape of the tree, the heading levels, the list flags and the
    footnote references stay. *)
Fixpoint mapText (f : string -> string) (node : Ast.AstNode) : Ast.AstNode :=
  match node with
  | Ast.mkNode ty v ps kids =>
      Ast.mkNode ty (option_map f v) (mapProperties f ps)
        (match kids with
         | Some ks => Some (map (mapText f) ks)
         | None => None
         end)
  end.

Definition mapDocument (f : string -> string) (ast : Document.OrgAst) : Document.OrgAst :=
  {| Document.metadata := Document.metadata ast;
     Document.children := map (mapText f) (Document.children ast) |}.

(** [<] and [>]. *)
Definition isBracket (c : ascii) : bool := isChar "<" c || isChar ">" c.

(** A heading whose one text leaf is a double quote, and the same heading
    with an empty text leaf. *)
Definition quoteHeading (v : string) : Document.OrgAst :=
  {| Document.metadata := Metadata.emptyMetadata;
     Document.children :=
       [Ast.createNode Ast.t_heading (Parser.justLevelTags 1 [])
          (Some [Ast.createTextNode v])] |}.

Definition unsanitized : Renderer.RenderOptions :=
  {| Renderer.sanitize := Some false; Renderer.codeHighlight := Some false |}.

(** Induction on a tree, with the property at hand for every child. *)
Definition kidsOf (kids : option (list Ast.AstNode)) : list Ast.AstNode :=
  match kids with Some ks => ks | None => [] end.

Fixpoint AstNode_forall_ind (P : Ast.AstNode -> Prop)
    (step : forall ty v ps kids, Forall P (kidsOf kids) -> P (Ast.mkNode ty v ps kids))
    (node : Ast.AstNode) : P node :=
  match node with
  | Ast.mkNode ty v ps kids =>
      step ty v ps kids
        (match kids return Forall P (kidsOf kids) with
         | None => Forall_nil P
         | Some ks =>
             (fix each (l : list Ast.AstNode) : Forall P l :=
                match l with
                | [] => Forall_nil P
                | x :: r => Forall_cons x (AstNode_forall_ind P step x) (each r)
                end) ks
         end)
  end.

(** ** Predicates of the proofs *)

(** What a turn of the scan at index [i] promises about where it goes
    next: a recognised construct ends inside the text and past [i]; the
    content of a bold construct lies strictly between [i] and [next]. *)
Definition advances (text : string) (i : nat) (a : Parser.Action) : Prop :=
  match a with
  | Parser.Bold content next _ =>
      String.length content + i + 2 = next /\ next <= String.length text
  | Parser.Leaf _ next _ => i < next /\ next <= String.length text
  | Parser.Plain _ => True
  end.

Ltac block_case H lemma :=
  match type of H with
  | Parser.orElse ?b ?k = _ =>
      let E := fresh "E" in
      destruct b as [?a|?q] eqn:E;
      [ simpl in H; subst; eapply lemma; eauto | simpl in H ]
  end.

(** A heading node of the result was built by [parseHeading] from a
    HEADING token. *)
Definition fromHeadingToken (tokens : list Lexer.Token) (node : Ast.AstNode) : Prop :=
  Ast.type node = Ast.t_heading ->
  exists tok, In tok tokens /\ Lexer.type tok = Lexer.HEADING
              /\ node = Parser.parseHeading tok.

(** The accumulators a block may see: those the turn started with, as
    they are or flushed. *)
Definition reached (p q : Parser.Pending) : Prop := q = p \/ q = Parser.flush p.

(** A recognised construct is pushed after the flushed text; a block that
    falls through leaves the accumulators as they are or flushed. *)
Definition flushedFirst (p : Parser.Pending) (a : Parser.Action) : Prop :=
  match a with
  | Parser.Bold _ _ ns | Parser.Leaf _ _ ns => ns = Parser.nodes (Parser.flush p)
  | Parser.Plain _ => False
  end.

Definition blockShape (p : Parser.Pending) (b : Parser.Action + Parser.Pending) : Prop :=
  match b with
  | inl a => flushedFirst p a
  | inr q => reached p q
  end.

(** The shape of a turn: a construct pushed after the flushed text, or
    one more character of pending text. *)
Definition stepShape (p : Parser.Pending) (c : ascii) (a : Parser.Action) : Prop :=
  match a with
  | Parser.Bold _ _ ns | Parser.Leaf _ _ ns => ns = Parser.nodes (Parser.flush p)
  | Parser.Plain p' =>
      exists q, reached p q
                /\ p' = {| Parser.current := Parser.current q ++ String c "";
                           Parser.nodes := Parser.nodes q |}
  end.


(** What [renderChildrenSync] writes for one child. *)
Definition renderChildSync (child : Ast.AstNode) : string :=
  match Ast.type child with
  | Ast.t_text => Renderer.escapeHtml (Renderer.orEmpty (Ast.value child))
  | Ast.t_bold => "<strong>" ++ Renderer.renderChildrenSync child ++ "</strong>"
  | Ast.t_italic => "<em>" ++ Renderer.renderChildrenSync child ++ "</em>"
  | Ast.t_code => "<code>" ++ Renderer.renderChildrenSync child ++ "</code>"
  | Ast.t_link =>
      "<a href=" ++ dq
      ++ Renderer.escapeHtml (Renderer.orEmpty (Ast.href (Ast.properties child)))
      ++ dq ++ ">" ++ Renderer.renderChildrenSync child ++ "</a>"
  | _ => Renderer.renderChildrenSync child
  end.

(** The node types [renderNode] renders as a wrapper around its rendered
    children, with the wrapper. *)
Definition wrapperOf (node : Ast.AstNode) : option (string -> string) :=
  match Ast.type node with
  | Ast.t_list => Some (Renderer.renderList node)
  | Ast.t_listItem => Some Renderer.renderListItem
  | Ast.t_table => Some Renderer.renderTable
  | Ast.t_tableRow => Some Renderer.renderTableRow
  | Ast.t_tableCell => Some Renderer.renderTableCell
  | Ast.t_quote => Some Renderer.renderQuote
  | Ast.t_example => Some Renderer.renderExample
  | Ast.t_verse => Some Renderer.renderVerse
  | Ast.t_center => Some Renderer.renderCenter
  | Ast.t_bold => Some (fun inner => "<strong>" ++ inner ++ "</strong>")
  | Ast.t_italic => Some (fun inner => "<em>" ++ inner ++ "</em>")
  | Ast.t_underline => Some (fun inner => "<u>" ++ inner ++ "</u>")
  | Ast.t_code => Some (fun inner => "<code>" ++ inner ++ "</code>")
  | Ast.t_verbatim =>
      Some (fun inner =>
              "<code class=" ++ dq ++ "verbatim" ++ dq ++ ">" ++ inner ++ "</code>")
  | Ast.t_strike => Some (fun inner => "<del>" ++ inner ++ "</del>")
  | _ => None
  end.

(** Two heading records of the same level whose ids hold no [c]. *)
Definition sameLevel (c : ascii) (h h' : Toc.Heading) : Prop :=
  Toc.level h = Toc.level h'
  /\ countChar c (Toc.id h) = 0 /\ countChar c (Toc.id h') = 0.

(** The four characters that delimit tags and attribute values. *)
Definition isSpecial (c : ascii) : bool :=
  isChar "<" c || isChar ">" c || isChar dqChar c || isChar "'" c.

(** [f], with the empty text left empty. *)
Definition keepEmpty (f : string -> string) (s : string) : string :=
  if isEmpty s then "" else f s.

(** The highlighter that returns, for a code and a language, what
    [highlightCode] returns for their images under [f]. *)
Definition highlightWith (f : string -> string)
    (highlightCode : string -> string -> string) (code language : string) : string :=
  highlightCode (f code) (f language).

(** Two highlighters agree on the character [c] under [options]: when
    code highlighting is on, [f] leaves the empty text empty, and what
    [replaced] returns for the images of a code and a language under [f]
    holds [c] as often as what [original] returns for them.  Nothing is
    asked when code highlighting is off: no highlighter is called then. *)
Definition highlightAgrees (c : ascii) (f : string -> string)
    (replaced original : string -> string -> string)
    (options : Renderer.RenderOptions) : Prop :=
  Renderer.notFalse (Renderer.codeHighlight options) = true ->
  f "" = ""
  /\ forall code language,
       countChar c (replaced (f code) (f language))
       = countChar c (original code language).

(** Two render contexts that differ in the texts and ids of their heading
    records only, under options on which the two highlighters agree. *)
Definition similar (c : ascii) (f : string -> string)
    (replaced original : string -> string -> string)
    (x x' : Renderer.Context) : Prop :=
  Renderer.options x = Renderer.options x'
  /\ highlightAgrees c f replaced original (Renderer.options x)
  /\ Renderer.footnotes x = Renderer.footnotes x'
  /\ Renderer.footnoteCounter x = Renderer.footnoteCounter x'
  /\ Forall2 (sameLevel c) (Renderer.headings x) (Renderer.headings x').

(** A node renders alike before and after its texts are replaced by [f]:
    from similar contexts, the output of the tree with the replaced texts
    (rendered with the highlighter [replaced]) and the output of the tree
    itself (rendered with [original]) hold the character [c] equally
    often, and the contexts left behind are similar again. *)
Definition rendersAlike (replaced original : string -> string -> string)
    (f : string -> string) (c : ascii) (node : Ast.AstNode) : Prop :=
  forall x x',
    similar c f replaced original x x' ->
    countChar c (fst (Renderer.renderNode replaced (mapText f node) x'))
    = countChar c (fst (Renderer.renderNode original node x))
    /\ similar c f replaced original (snd (Renderer.renderNode original node x))
         (snd (Renderer.renderNode replaced (mapText f node) x')).

(** What [renderNode] returns for the node types that are no wrappers
    around their rendered children. *)
Definition leafRender (highlightCode : string -> string -> string)
    (node : Ast.AstNode) (x : Renderer.Context) : string * Renderer.Context :=
  match Ast.type node with
  | Ast.t_heading => Renderer.renderHeading node x
  | Ast.t_paragraph => (Renderer.renderParagraph node, x)
  | Ast.t_codeBlock => (Renderer.renderCodeBlock highlightCode node x, x)
  | Ast.t_shortcode => (Renderer.renderShortcode node, x)
  | Ast.t_link => (Renderer.renderLink node, x)
  | Ast.t_image => (Renderer.renderImage node, x)
  | Ast.t_footnote => Renderer.renderFootnote node x
  | Ast.t_lineBreak => ("<br>", x)
  | Ast.t_text => (Renderer.escapeHtml (Renderer.orEmpty (Ast.value node)), x)
  | _ => ("", x)
  end.

(** ** Reading the inline parse and its rendering back *)

(** The concatenation of a list of strings. *)
Fixpoint concatAll (l : list string) : string :=
  match l with
  | [] => ""
  | x :: r => x ++ concatAll r
  end.

(** The url and the description [linkBlock] reads from the text between
    the double brackets, and the node it makes of them. *)
Definition linkParts (linkContent : string) : string * string :=
  let parts := split2 "]" "[" linkContent in
  let url := nth 0 parts "" in
  (url,
   match nth_error parts 1 with
   | Some d => if isEmpty d then url else d
   | None => url
   end).

Definition linkOf (linkContent : string) : Ast.AstNode :=
  let '(url, description) := linkParts linkContent in
  if Parser.isImage url then Parser.imageNode url description
  else Parser.linkNode url description.

(** The text leaves [renderChildrenSync] writes for the children of
    [node], in order and unescaped: a text child gives its value, any
    other child what its own children give. *)
Fixpoint visibleText (node : Ast.AstNode) : string :=
  match node with
  | Ast.mkNode _ _ _ None => ""
  | Ast.mkNode _ _ _ (Some kids) =>
      concatAll
        (map (fun child =>
                match Ast.type child with
                | Ast.t_text => Renderer.orEmpty (Ast.value child)
                | _ => visibleText child
                end) kids)
  end.

Definition visibleChild (child : Ast.AstNode) : string :=
  match Ast.type child with
  | Ast.t_text => Renderer.orEmpty (Ast.value child)
  | _ => visibleText child
  end.

(** A parent for a list of inline nodes, as [parseParagraph] makes it. *)
Definition paragraphOf (nodes : list Ast.AstNode) : Ast.AstNode :=
  Ast.createNode Ast.t_paragraph Ast.noProperties (Some nodes).

(** [segment source node shown]: the inline parser reads the piece
    [source] of its text as [node], and of that piece [shown] is the text
    [renderChildrenSync] writes (markup apart).  A bold node's children
    are the inline parse of what lies between the asterisks. *)
Inductive segment : string -> Ast.AstNode -> string -> Prop :=
| segment_text : forall v, segment v (Ast.createTextNode v) v
| segment_bold : forall content,
    segment ("*" ++ content ++ "*")
      (Ast.createNode Ast.t_bold Ast.noProperties
         (Some (Parser.parseInlineMarkup content)))
      (visibleText (paragraphOf (Parser.parseInlineMarkup content)))
| segment_italic : forall content,
    segment ("/" ++ content ++ "/") (Parser.withValue Ast.t_italic content) content
| segment_underline : forall content,
    segment ("_" ++ content ++ "_") (Parser.withValue Ast.t_underline content) content
| segment_code : forall content,
    segment ("~" ++ content ++ "~") (Parser.withValue Ast.t_code content) content
| segment_verbatim : forall content,
    segment ("=" ++ content ++ "=") (Parser.withValue Ast.t_verbatim content) content
| segment_strike : forall content,
    segment ("+" ++ content ++ "+") (Parser.withValue Ast.t_strike content) content
| segment_link : forall linkContent,
    segment ("[[" ++ linkContent ++ "]]") (linkOf linkContent)
      (if Parser.isImage (fst (linkParts linkContent)) then ""
       else snd (linkParts linkContent))
| segment_footnote : forall r,
    segment ("[fn:" ++ r ++ "]") (Parser.footnoteNode r) ""
| segment_lineBreak :
    segment "\\" (Ast.createNode Ast.t_lineBreak Ast.noProperties None) "".

(** A text cut into segments: the sources, the nodes and the shown texts. *)
Inductive segments : list string -> list Ast.AstNode -> list string -> Prop :=
| segments_nil : segments [] [] []
| segments_cons : forall source node shown sources nodes showns,
    segment source node shown ->
    segments sources nodes showns ->
    segments (source :: sources) (node :: nodes) (shown :: showns).

(** "With markup stripped": the tags (from a [<] through the next [>])
    are removed, then the five entities [escapeHtml] writes are decoded. *)
Fixpoint stripTags (inTag : bool) (s : string) : string :=
  match s with
  | "" => ""
  | String c s' =>
      if inTag then stripTags (negb (isChar ">" c)) s'
      else if isChar "<" c then stripTags true s'
      else String c (stripTags false s')
  end.

(** Whether [s] begins with [p]. *)
Fixpoint hasPrefix (p s : string) : bool :=
  match p with
  | "" => true
  | String a p' =>
      match s with
      | String b s' => Ascii.eqb b a && hasPrefix p' s'
      | "" => false
      end
  end.

Fixpoint decodeEntities (skip : nat) (s : string) : string :=
  match s with
  | "" => ""
  | String c s' =>
      match skip with
      | S k => decodeEntities k s'
      | O =>
          if hasPrefix "&amp;" s then String "&" (decodeEntities 4 s')
          else if hasPrefix "&lt;" s then String "<" (decodeEntities 3 s')
          else if hasPrefix "&gt;" s then String ">" (decodeEntities 3 s')
          else if hasPrefix "&quot;" s then String dqChar (decodeEntities 5 s')
          else if hasPrefix "&#039;" s then String "'" (decodeEntities 5 s')
          else String c (decodeEntities 0 s')
      end
  end.

Definition stripMarkup (html : string) : string :=
  decodeEntities 0 (stripTags false html).

(** Whether reading [s] from outside or inside a tag ends inside a tag. *)
Fixpoint endsInTag (inTag : bool) (s : string) : bool :=
  match s with
  | "" => inTag
  | String c s' =>
      if inTag then endsInTag (negb (isChar ">" c)) s'
      else endsInTag (isChar "<" c) s'
  end.

(** The text leaves as [renderChildrenSync] writes them, escaped. *)
Fixpoint escapedText (node : Ast.AstNode) : string :=
  match node with
  | Ast.mkNode _ _ _ None => ""
  | Ast.mkNode _ _ _ (Some kids) =>
      concatAll
        (map (fun child =>
                match Ast.type child with
                | Ast.t_text => Renderer.escapeHtml (Renderer.orEmpty (Ast.value child))
                | _ => escapedText child
                end) kids)
  end.

(** What [escapeHtml] writes for one character. *)
Definition escapeChar (c : ascii) : string :=
  if isChar "&" c then "&amp;"
  else if isChar "<" c then "&lt;"
  else if isChar ">" c then "&gt;"
  else if isChar dqChar c then "&quot;"
  else if isChar "'" c then "&#039;"
  else String c "".

(** What a block of the inline loop recognises is a segment of the text
    that starts at [i]. *)
Definition actionSound (text : string) (i : nat) (p : Parser.Pending)
    (a : Parser.Action) : Prop :=
  match a with
  | Parser.Bold content next ns =>
      ns = Parser.nodes (Parser.flush p)
      /\ drop i text = "*" ++ content ++ "*" ++ drop next text
  | Parser.Leaf node next ns =>
      ns = Parser.nodes (Parser.flush p)
      /\ exists source shown,
           segment source node shown /\ drop i text = source ++ drop next text
  | Parser.Plain _ => False
  end.

Definition blockSound (text : string) (i : nat) (p : Parser.Pending)
    (b : Parser.Action + Parser.Pending) : Prop :=
  match b with
  | inl a => actionSound text i p a
  | inr q => reached p q
  end.

Definition stepSound (text : string) (i : nat) (c : ascii) (p : Parser.Pending)
    (a : Parser.Action) : Prop :=
  match a with
  | Parser.Plain p' =>
      exists q, reached p q
                /\ p' = {| Parser.current := Parser.current q ++ String c "";
                           Parser.nodes := Parser.nodes q |}
  | _ => actionSound text i p a
  end.

(** Appends nested to the right, with nothing appended to a literal;
    [assoc] and [nil_r] are the associativity of the append and its
    neutral element on the right. *)
Ltac right_nest_with assoc nil_r :=
  repeat first [ rewrite assoc | rewrite nil_r | progress cbn [append] ].

(* ================================================================== *)
(** * Notions used by the further properties *)
(* ================================================================== *)

(** The characters of a line as the lexer sees it: no line feed, since
    [tokenize] splits its input at every line feed. *)
Definition oneLine (s : string) : bool := allChars (fun c => negb (isChar nlChar c)) s.

(** The token types [tokenize] never produces. *)
Definition neverLexed (ty : Lexer.TokenType) : bool :=
  match ty with
  | Lexer.DRAWER_END | Lexer.PARAGRAPH => true
  | _ => false
  end.

(** The first character of a string, if any. *)
Definition firstChar (s : string) : option ascii :=
  match s with String c _ => Some c | "" => None end.

(** The type of the token [tokenize] makes of a line; it does not depend
    on the line's number. *)
Definition lineType (l : string) : Lexer.TokenType := Lexer.type (Lexer.classify 0 l).

(** A document given by its lines. *)
Definition unlines (ls : list string) : string := join nl ls.

Definition codeBlockNode (language code : string) : Ast.AstNode :=
  Ast.createNode Ast.t_codeBlock (Parser.justLanguage language)
    (Some [Ast.createTextNode code]).

Definition drawerNode (name text : string) : Ast.AstNode :=
  Ast.createNode Ast.t_drawer (Parser.justName name) (Some [Ast.createTextNode text]).

(** The cell [parseTable] makes of the text between two bars, and the row
    it makes of the cells. *)
Definition cellNode (s : string) : Ast.AstNode :=
  Ast.createNode Ast.t_tableCell Ast.noProperties
    (Some (Parser.parseInlineMarkup (trim s))).

Definition rowNode (cells : list string) : Ast.AstNode :=
  Ast.createNode Ast.t_tableRow Ast.noProperties (Some (map cellNode cells)).

(** A character that opens no inline construct. *)
Definition plainChar (c : ascii) : bool :=
  negb (markerChar c || isChar "[" c || isChar "\" c).

(** The node types the inline parser makes, a text leaf being one with a
    text that is not empty. *)
Definition inlineNode (n : Ast.AstNode) : bool :=
  match Ast.type n with
  | Ast.t_text =>
      match Ast.value n with Some s => negb (isEmpty s) | None => false end
  | Ast.t_bold | Ast.t_italic | Ast.t_underline | Ast.t_code | Ast.t_verbatim
  | Ast.t_strike | Ast.t_link | Ast.t_image | Ast.t_footnote | Ast.t_lineBreak => true
  | _ => false
  end.

Definition inlineNodes (ns : list Ast.AstNode) : bool := forallb inlineNode ns.

(** An action, or a block's result, that holds inline nodes only. *)
Definition inlineAction (a : Parser.Action) : bool :=
  match a with
  | Parser.Bold _ _ ns => inlineNodes ns
  | Parser.Leaf node _ ns => inlineNodes ns && inlineNode node
  | Parser.Plain p => inlineNodes (Parser.nodes p)
  end.

Definition inlineBlock (b : Parser.Action + Parser.Pending) : bool :=
  match b with
  | inl a => inlineAction a
  | inr q => inlineNodes (Parser.nodes q)
  end.

(** A line at which [extractMetadata] stops: not blank, and starting with
    neither a hash sign nor a colon once trimmed. *)
Definition contentLine (raw : string) : bool :=
  let line := trim raw in
  negb (isEmpty line) && negb (startsWith "#" line) && negb (startsWith ":" line).

(** The line that closes a property drawer. *)
Definition closesDrawer (raw : string) : bool := String.eqb (trim raw) ":END:".

(** A character that is no white space but the plain space. *)
Definition spaceOrVisible (c : ascii) : bool := negb (isSpace c) || isChar " " c.

(** A tag: a word that is not empty. *)
Definition isTag (t : string) : bool := negb (isEmpty t) && allChars isWord t.

(** The characters of a slug of the renderer: lower-case letters, digits,
    the underscore and the hyphen. *)
Definition slugChar (c : ascii) : bool :=
  isLower c || isDigit c || isChar "_" c || isChar "-" c.

(** No two hyphens in a row. *)
Fixpoint noDoubleHyphen (s : string) : bool :=
  match s with
  | String c ((String d _) as s') =>
      negb (isChar "-" c && isChar "-" d) && noDoubleHyphen s'
  | _ => true
  end.

(** How often [tag] occurs in [s]. *)
Fixpoint countTag (tag s : string) : nat :=
  match s with
  | "" => 0
  | String _ s' => (if hasPrefix tag s then 1 else 0) + countTag tag s'
  end.

(** A heading [generateToc] lists: one that is not deeper than [maxDepth]. *)
Definition listed (maxDepth : option Z) (h : Toc.Heading) : bool :=
  negb (Toc.gtNum (Toc.level h) maxDepth).

(** The level of the last listed heading, [start] when none is listed. *)
Definition lastListedLevel (maxDepth : option Z) (headings : list Toc.Heading)
    (start : Z) : Z :=
  fold_left (fun cur h => if listed maxDepth h then Toc.level h else cur) headings start.

(** A string that is empty or starts with an opening angle bracket. *)
Definition tagOrEmpty (s : string) : bool :=
  match s with
  | "" => true
  | String c _ => isChar "<" c
  end.

(** The entry [generateToc] writes for a heading. *)
Definition tocItem (h : Toc.Heading) : string :=
  "<li><a href=" ++ dq ++ "#" ++ Toc.id h ++ dq ++ ">"
  ++ Toc.escapeHtml (Toc.text h) ++ "</a></li>".

Definition cleanId (h : Toc.Heading) : bool := countChar "<" (Toc.id h) =? 0.

(** A heading as [renderHeading] records it: its id is the slug of its
    text and its level is at most 6. *)
Definition recorded (h : Toc.Heading) : bool :=
  String.eqb (Toc.id h) (Renderer.slugify (Toc.text h)) && (Toc.level h <=? 6)%Z.

(** What the walk of the renderer keeps true of its context: the options
    are those it was given, the headings are recorded ones, and the
    footnote list is no longer than the number of references numbered so
    far. *)
Definition keptContext (o : Renderer.RenderOptions) (x : Renderer.Context) : Prop :=
  Renderer.options x = o
  /\ forallb recorded (Renderer.headings x) = true
  /\ (Z.of_nat (List.length (Renderer.footnotes x)) + 1 <= Renderer.footnoteCounter x)%Z.

(** A fact about single characters, checked on each of the 256. *)
Ltac each_char c :=
  destruct c as [[|] [|] [|] [|] [|] [|] [|] [|]]; vm_compute;
  try reflexivity; try (intros H; discriminate H); try (intros _; reflexivity).

(** Counting a tag through the literal start of a string. *)
Ltac count_literal :=
  cbn [append countTag hasPrefix Ascii.eqb Bool.eqb andb Nat.add dq ascii_of_nat
       ascii_of_pos Ascii.shift Ascii.one Ascii.zero].

(** A line of plain text: one line, a TEXT token, with no marker
    character of the inline grammar. *)
Definition plainLine (l : string) : bool :=
  oneLine l && Lexer.TokenType_eqb (lineType l) Lexer.TEXT && allChars plainChar l.

(** Whether a text starts with a plain space. *)
Definition startsWithBlank (s : string) : bool :=
  match s with String c _ => isChar " " c | "" => false end.

(** What a paragraph shows for an inline text: the inline parse of the
    text, rendered as the children of a paragraph (or heading). *)
Definition shownInline (text : string) : string :=
  Renderer.renderChildrenSync (paragraphOf (Parser.parseInlineMarkup text)).

(** A text between two copies of a marker. *)
Definition between (m : ascii) (content : string) : string :=
  String m (content ++ String m "").

(** What a list item, a table cell or a quote shows for an inline text:
    the inline parse of the text, rendered node by node with
    [renderNode]. *)
Definition shownInBlock (highlightCode : string -> string -> string)
    (context : Renderer.Context) (text : string) : string :=
  fst (Renderer.renderNodes highlightCode (Parser.parseInlineMarkup text) "" context).

(** A heading text that carries tags: the title, a space, and the tags
    between colons. *)
Definition taggedHeading (title : string) (tags : list string) : string :=
  title ++ " :" ++ join ":" tags ++ ":".

(** A HEADING token with the given level and text. *)
Definition headingToken (level : nat) (text : string) : Lexer.Token :=
  {| Lexer.type := Lexer.HEADING; Lexer.value := text; Lexer.line := 0;
     Lexer.indent := 0;
     Lexer.properties :=
       {| Lexer.level := Some level; Lexer.language := None; Lexer.blockType := None;
          Lexer.name := None; Lexer.ordered := None; Lexer.component := None |} |}.

(** A character that is no square bracket. *)
Definition noBracket (c : ascii) : bool := negb (isChar "[" c || isChar "]" c).

(** A link with a description, and a link without one. *)
Definition describedLink (url description : string) : string :=
  "[[" ++ url ++ "][" ++ description ++ "]]".

Definition bareLink (url : string) : string := "[[" ++ url ++ "]]".

(** The node the inline parser makes of a link. *)
Definition linkOrImage (url description : string) : Ast.AstNode :=
  if Parser.isImage url then Parser.imageNode url description
  else Parser.linkNode url description.

(** A title that is read as it is written: no marker character of the
    inline grammar, no colon, no line terminator; not empty, no white
    space at its start or at its end. *)
Definition titleChar (c : ascii) : bool :=
  plainChar c && negb (isChar ":" c) && negb (isLineTerminator c).

Definition plainTitle (t : string) : bool :=
  allChars titleChar t && negb (isEmpty t) && negb (startsSpace t)
  && String.eqb (trimEnd t) t.

(** [n] stars. *)
Definition stars (n : nat) : string := String.concat "" (repeat "*" n).

(** A heading line: the stars, a space, the title. *)
Definition headingLine (n : nat) (title : string) : string :=
  stars n ++ " " ++ title.

(** The opening of the table of contents. *)
Definition tocOpen : string :=
  "<nav class=" ++ dq ++ "toc" ++ dq ++ "><h2>Table of Contents</h2><ul>".

(** The heading node of a title at a level, and the heading the renderer
    records for it. *)
Definition headingNode (n : nat) (title : string) : Ast.AstNode :=
  Ast.createNode Ast.t_heading (Parser.justLevelTags (Z.of_nat n) [])
    (Some [Ast.createTextNode title]).

Definition recordedHeading (n : nat) (title : string) : Toc.Heading :=
  {| Toc.level := Z.min (Z.of_nat n) 6; Toc.text := title;
     Toc.id := Renderer.slugify title |}.

(** A keyword line: [#+KEY: value]. *)
Definition keywordLine (key value : string) : string := "#+" ++ key ++ ": " ++ value.

(** A value that is read as it is written: not empty, trimmed, without
    line terminator. *)
Definition plainValue (v : string) : bool :=
  negb (isEmpty v) && String.eqb (trim v) v && noLineTerminator v.

(** What [extractMetadata] does once its loop has ended: the slug of a
    title that is not empty. *)
Definition withTitleSlug (slugifyLib : string -> string) (m : Metadata.OrgMetadata)
    : Metadata.OrgMetadata :=
  match Metadata.title m with
  | Some t => if isEmpty t then m else Metadata.withSlug (Some (slugifyLib t)) m
  | None => m
  end.

(** The front matter as the extractor reads it: the metadata object when
    the loop of [extractMetadata] ends, before the slug is generated. *)
Definition frontMatter (lines : list string) : Metadata.OrgMetadata :=
  Metadata.metadata (Metadata.extractLoop lines 0 false [] Metadata.emptyMetadata).

(** What [renderHeading] writes for a heading node at the level [N]: the
    tag [hN] with the slug of the heading text as its id, around the
    rendered children. *)
Definition headingTag (N : Z) (node : Ast.AstNode) : string :=
  "<h" ++ showZ N ++ " id=" ++ dq
  ++ Renderer.escapeHtml (Renderer.slugify (Renderer.headingText node)) ++ dq ++ ">"
  ++ Renderer.renderChildrenSync node ++ "</h" ++ showZ N ++ ">" ++ nl.

(** The heading node [parseHeading] makes of a heading line. *)
Definition headingOfLine (line : string) : Ast.AstNode :=
  Parser.parseHeading (Lexer.classify 0 line).

(** The code and the language [renderCodeBlock] reads from a node. *)
Definition codeOf (node : Ast.AstNode) : string :=
  match Ast.children node with
  | Some (first :: _) => Renderer.orEmpty (Ast.value first)
  | _ => ""
  end.

Definition languageOf (node : Ast.AstNode) : string :=
  Renderer.orEmpty (Ast.language (Ast.properties node)).

(** A document that is one source block without a language. *)
Definition codeDocument (code : string) : Document.OrgAst :=
  {| Document.metadata := Metadata.emptyMetadata;
     Document.children := [codeBlockNode "" code] |}.

(** A single or a double quote. *)
Definition isQuote (c : ascii) : bool := isChar dqChar c || isChar "'" c.

(* ================================================================== *)
(** * Properties *)
(* ================================================================== *)

(** ** Strings *)

Lemma append_nil_r : forall s : string, s ++ "" = s.
Proof. induction s; simpl; congruence. Qed.

Lemma append_assoc : forall a b c : string, (a ++ b) ++ c = a ++ (b ++ c).
Proof. induction a; intros; simpl; congruence. Qed.

Lemma length_append : forall a b : string,
  String.length (a ++ b) = String.length a + String.length b.
Proof. induction a; intros; simpl; auto. Qed.

Lemma take_drop : forall n s, take n s ++ drop n s = s.
Proof.
  induction n; destruct s; simpl; auto.
  now rewrite IHn.
Qed.

Lemma length_drop : forall n s, String.length (drop n s) = String.length s - n.
Proof. induction n; destruct s; simpl; auto. Qed.

Lemma length_take : forall n s, String.length (take n s) = Nat.min n (String.length s).
Proof. induction n; destruct s; simpl; auto. Qed.

Lemma drop_drop : forall a b s, drop a (drop b s) = drop (b + a) s.
Proof.
  intros a b; revert a; induction b; intros a s; simpl; auto.
  destruct s; simpl; auto. now destruct a.
Qed.

Lemma drop_all : forall n s, String.length s <= n -> drop n s = "".
Proof.
  induction n; destruct s; simpl; intros; auto; try lia.
  apply IHn; lia.
Qed.

Lemma take_all : forall n s, String.length s <= n -> take n s = s.
Proof.
  induction n; destruct s; simpl; intros; auto; try lia.
  f_equal; apply IHn; lia.
Qed.

Lemma get_lt : forall i s c, get i s = Some c -> i < String.length s.
Proof.
  induction i; destruct s; simpl; intros; try discriminate; try lia.
  apply IHi in H; lia.
Qed.

Lemma get_none : forall i s, get i s = None -> String.length s <= i.
Proof.
  induction i; destruct s; simpl; intros; try discriminate; try lia.
  apply IHi in H; lia.
Qed.

Lemma get_some : forall i s, i < String.length s -> exists c, get i s = Some c.
Proof.
  intros i s H; destruct (get i s) eqn:E; eauto.
  apply get_none in E; lia.
Qed.

Lemma get_drop : forall i s c, get i s = Some c -> drop i s = String c (drop (S i) s).
Proof.
  induction i; destruct s; simpl; intros; try discriminate.
  - now inversion H.
  - now apply IHi.
Qed.

Lemma substring_le : forall a b s, a <= b -> substring a b s = take (b - a) (drop a s).
Proof.
  intros; unfold substring.
  destruct (b <? a) eqn:E; auto. apply Nat.ltb_lt in E; lia.
Qed.

Lemma findChar_spec : forall c s k,
  findChar c s = Some k ->
  k < String.length s /\ s = take k s ++ String c (drop (S k) s).
Proof.
  induction s as [|x s IH]; simpl; intros k H; try discriminate.
  destruct (Ascii.eqb x c) eqn:E.
  - inversion H; subst. apply Ascii.eqb_eq in E; subst. simpl. split; [lia|auto].
  - destruct (findChar c s) as [k'|]; simpl in H; try discriminate.
    inversion H; subst. destruct (IH k' eq_refl) as [Hl He].
    split; [lia|].
    change (String x s = String x (take k' s ++ String c (drop (S k') s))).
    f_equal; exact He.
Qed.

Lemma findStr_eq : forall pat s,
  findStr pat s =
  if prefix pat s then Some 0
  else match s with
       | "" => None
       | String _ s' => option_map S (findStr pat s')
       end.
Proof. destruct s; reflexivity. Qed.

Lemma findStr_spec : forall pat s k,
  findStr pat s = Some k ->
  k <= String.length s /\ prefix pat (drop k s) = true.
Proof.
  induction s as [|x s IH]; intros k H; rewrite findStr_eq in H.
  - destruct (prefix pat "") eqn:E; try discriminate.
    inversion H; subst; split; [simpl; lia|exact E].
  - destruct (prefix pat (String x s)) eqn:E.
    + inversion H; subst; split; [simpl; lia|exact E].
    + destruct (findStr pat s) as [k'|]; simpl in H; try discriminate.
      inversion H; subst. destruct (IH k' eq_refl) as [Hl Hp].
      split; [simpl; lia|exact Hp].
Qed.

Lemma prefix_length : forall p s, prefix p s = true -> String.length p <= String.length s.
Proof.
  induction p; destruct s; simpl; intros; try discriminate; try lia.
  destruct (ascii_dec a a0); try discriminate. apply IHp in H. lia.
Qed.

Lemma prefix_split : forall p s, prefix p s = true -> s = p ++ drop (String.length p) s.
Proof.
  induction p; destruct s; simpl; intros; try discriminate; auto.
  destruct (ascii_dec a a0); try discriminate. subst. f_equal; auto.
Qed.

(** [indexOf]: a found index lies at or after [from], inside the string,
    and the string reads there what was searched. *)
Lemma indexOfChar_spec : forall c from s e,
  indexOfChar c from s = Some e ->
  from <= e /\ e < String.length s
  /\ drop from s = substring from e s ++ String c (drop (S e) s).
Proof.
  unfold indexOfChar. intros c from s e H.
  destruct (findChar c (drop from s)) as [k|] eqn:E; simpl in H; try discriminate.
  inversion H; subst; clear H.
  apply findChar_spec in E. destruct E as [Hl He].
  rewrite length_drop in Hl.
  split; [lia|]. split; [lia|].
  rewrite substring_le by lia.
  replace (from + k - from) with k by lia.
  rewrite drop_drop in He. replace (from + S k) with (S (from + k)) in He by lia.
  exact He.
Qed.

Lemma indexOf_spec : forall pat from s e,
  pat <> "" ->
  indexOf pat from s = Some e ->
  from <= e /\ e + String.length pat <= String.length s
  /\ drop from s = substring from e s ++ pat ++ drop (e + String.length pat) s.
Proof.
  unfold indexOf. intros pat from s e Hne H.
  destruct (String.length s <? from) eqn:Hlt.
  - destruct pat; simpl in H; [congruence|discriminate].
  - apply Nat.ltb_ge in Hlt.
    destruct (findStr pat (drop from s)) as [k|] eqn:E; simpl in H; try discriminate.
    inversion H; subst; clear H.
    apply findStr_spec in E. destruct E as [Hl Hp].
    rewrite length_drop in Hl. rewrite drop_drop in Hp.
    pose proof (prefix_length _ _ Hp) as Hpl. rewrite length_drop in Hpl.
    assert (from + k < String.length s \/ String.length pat = 0) as Hk by lia.
    split; [lia|]. split.
    { destruct pat; [congruence|]. simpl in *. lia. }
    rewrite substring_le by lia.
    replace (from + k - from) with k by lia.
    apply prefix_split in Hp. rewrite drop_drop in Hp.
    rewrite <- (take_drop k (drop from s)) at 1. f_equal.
    rewrite drop_drop. exact Hp.
Qed.

(** ** The inline parser: progress and totality *)

Lemma length_substring : forall a b s,
  a <= b -> b <= String.length s -> String.length (substring a b s) = b - a.
Proof.
  intros. rewrite substring_le by auto.
  rewrite length_take, length_drop. lia.
Qed.

Lemma delimited_cases : forall isMarker found text i c p,
  Parser.delimited isMarker found text i c p = inr p
  \/ (isMarker c = true /\ Parser.nextIsNotSpace text i = true /\
      indexOfChar c (i + 1) text = None /\
      Parser.delimited isMarker found text i c p = inr (Parser.flush p))
  \/ (exists e, isMarker c = true /\ Parser.nextIsNotSpace text i = true /\
        indexOfChar c (i + 1) text = Some e /\
        Parser.delimited isMarker found text i c p =
        inl (found c (substring (i + 1) e text) (e + 1) (Parser.nodes (Parser.flush p)))).
Proof.
  intros. unfold Parser.delimited.
  destruct (isMarker c); simpl; auto.
  destruct (Parser.nextIsNotSpace text i); simpl; auto.
  destruct (indexOfChar c (i + 1) text) as [e|] eqn:E.
  - right; right. exists e. auto.
  - right; left. auto.
Qed.

Lemma delimited_advances : forall isMarker found text i c p a,
  (forall m content next ns,
      String.length content + i + 2 = next -> next <= String.length text ->
      advances text i (found m content next ns)) ->
  Parser.delimited isMarker found text i c p = inl a -> advances text i a.
Proof.
  intros isMarker found text i c p a Hf H.
  destruct (delimited_cases isMarker found text i c p) as [E|[(_ & _ & _ & E)|(e & _ & _ & Hi & E)]];
    rewrite E in H; try discriminate.
  inversion H; subst; clear H.
  apply indexOfChar_spec in Hi. destruct Hi as (Hle & Hlt & _).
  apply Hf; [|lia].
  rewrite length_substring by lia. lia.
Qed.

Lemma linkBlock_advances : forall text i p a,
  Parser.linkBlock text i p = inl a -> advances text i a.
Proof.
  unfold Parser.linkBlock. intros text i p a H.
  destruct (String.eqb (substring i (i + 2) text) "[["); try discriminate.
  destruct (indexOf "]]" (i + 2) text) as [e|] eqn:E; try discriminate.
  apply indexOf_spec in E; [|discriminate]. destruct E as (Hle & Hlt & _).
  simpl in Hlt. inversion H; subst; simpl. lia.
Qed.

Lemma footnoteBlock_advances : forall text i p a,
  Parser.footnoteBlock text i p = inl a -> advances text i a.
Proof.
  unfold Parser.footnoteBlock. intros text i p a H.
  destruct (String.eqb (substring i (i + 4) text) "[fn:"); try discriminate.
  destruct (indexOfChar "]" (i + 4) text) as [e|] eqn:E; try discriminate.
  apply indexOfChar_spec in E. destruct E as (Hle & Hlt & _).
  inversion H; subst; simpl. lia.
Qed.

Lemma lineBreakBlock_advances : forall text i p a,
  Parser.lineBreakBlock text i p = inl a -> advances text i a.
Proof.
  unfold Parser.lineBreakBlock. intros text i p a H.
  destruct (String.eqb (substring i (i + 2) text) "\\") eqn:E; try discriminate.
  apply String.eqb_eq in E.
  assert (String.length (substring i (i + 2) text) = 2) as Hl by (now rewrite E).
  rewrite substring_le, length_take, length_drop in Hl by lia.
  inversion H; subst; simpl. lia.
Qed.

(** Every turn of the loop moves the index forward. *)
Lemma step_advances : forall text i c p,
  advances text i (Parser.step text i c p).
Proof.
  intros text i c p.
  remember (Parser.step text i c p) as a eqn:H. symmetry in H.
  unfold Parser.step in H.
  unfold Parser.boldBlock, Parser.italicBlock, Parser.underlineBlock,
    Parser.codeBlock, Parser.strikeBlock in H.
  block_case H delimited_advances; [simpl; auto|].
  block_case H delimited_advances; [simpl; intros; lia|].
  block_case H delimited_advances; [simpl; intros; lia|].
  block_case H delimited_advances; [simpl; intros; lia|].
  block_case H delimited_advances; [simpl; intros; lia|].
  block_case H linkBlock_advances.
  block_case H footnoteBlock_advances.
  block_case H lineBreakBlock_advances.
  subst; simpl; auto.
Qed.

(** More fuel never changes a result. *)
Lemma scan_mono : forall fuel text i p r,
  Parser.scan fuel text i p = Some r ->
  forall fuel', fuel <= fuel' -> Parser.scan fuel' text i p = Some r.
Proof.
  induction fuel as [|fuel IH]; intros text i p r H fuel' Hle; [discriminate|].
  destruct fuel' as [|fuel']; [lia|].
  simpl in *.
  destruct (get i text) as [c|]; auto.
  destruct (Parser.step text i c p) as [content next ns|node next ns|p'].
  - destruct (Parser.scan fuel content 0 Parser.start) as [kids|] eqn:E; try discriminate.
    rewrite (IH _ _ _ _ E fuel') by lia.
    apply IH with (fuel' := fuel') in H; [exact H|lia].
  - apply IH with (fuel' := fuel') in H; [exact H|lia].
  - apply IH with (fuel' := fuel') in H; [exact H|lia].
Qed.

(** One unit of fuel for every character still to read, and one more,
    are enough. *)
Lemma scan_total : forall fuel text i p,
  String.length text - i < fuel -> exists r, Parser.scan fuel text i p = Some r.
Proof.
  induction fuel as [|fuel IH]; intros text i p Hf; [lia|].
  simpl. destruct (get i text) as [c|] eqn:G; [|eauto].
  apply get_lt in G.
  pose proof (step_advances text i c p) as Ha.
  destruct (Parser.step text i c p) as [content next ns|node next ns|p']; simpl in Ha.
  - destruct Ha as [Hc Hn].
    destruct (IH content 0 Parser.start) as [kids Hk]; [lia|].
    rewrite Hk. apply IH. lia.
  - apply IH. lia.
  - apply IH. lia.
Qed.

Lemma parseInlineMarkupFuel_total : forall text,
  exists nodes,
    (forall fuel, String.length text < fuel ->
                  Parser.parseInlineMarkupFuel fuel text = Some nodes)
    /\ Parser.parseInlineMarkup text = nodes.
Proof.
  intros text.
  destruct (scan_total (S (String.length text)) text 0 Parser.start) as [r Hr]; [lia|].
  exists r. split.
  - intros fuel Hf. unfold Parser.parseInlineMarkupFuel.
    destruct (scan_total fuel text 0 Parser.start) as [r' Hr']; [lia|].
    destruct (Nat.le_ge_cases fuel (S (String.length text))) as [Hle|Hle].
    + rewrite (scan_mono _ _ _ _ _ Hr' _ Hle) in Hr. congruence.
    + now apply scan_mono with (fuel := S (String.length text)).
  - unfold Parser.parseInlineMarkup, Parser.parseInlineMarkupFuel. now rewrite Hr.
Qed.

Lemma parseInlineMarkup_scan : forall text,
  Parser.scan (S (String.length text)) text 0 Parser.start
  = Some (Parser.parseInlineMarkup text).
Proof.
  intros text. destruct (parseInlineMarkupFuel_total text) as (r & Hf & He).
  rewrite He. apply (Hf (S (String.length text))). lia.
Qed.

(** ** The block parser: progress, totality, where headings come from *)

Lemma nth_error_skipn_cons : forall (A : Type) (l : list A) i x,
  nth_error l i = Some x -> skipn i l = x :: skipn (S i) l.
Proof.
  induction l as [|y l IH]; intros [|i] x H; simpl in *; try discriminate.
  - now inversion H.
  - now apply IH.
Qed.

Lemma collectUntil_bounds : forall stop rest i acc,
  i <= snd (Parser.collectUntil stop rest i acc).
Proof.
  induction rest as [|t rest IH]; intros i acc; simpl; auto.
  destruct (Lexer.TokenType_eqb (Lexer.type t) stop); simpl; auto.
  specialize (IH (i + 1) (acc ++ [Lexer.value t])%list). lia.
Qed.

Lemma tableRows_bounds : forall rest i rows,
  i <= snd (Parser.tableRows rest i rows)
  /\ (match rest with
      | t :: _ => Lexer.type t = Lexer.TABLE_ROW -> i < snd (Parser.tableRows rest i rows)
      | [] => True
      end).
Proof.
  induction rest as [|t rest IH]; intros i rows; simpl; auto.
  destruct (Lexer.TokenType_eqb (Lexer.type t) Lexer.TABLE_ROW) eqn:E.
  - destruct (Parser.isSeparatorRow (Lexer.value t)).
    + destruct (IH (i + 1) rows) as [H _]. split; [lia|intros _; lia].
    + destruct (IH (i + 1) (rows ++ [Parser.tableRowNode (Lexer.value t)])%list) as [H _].
      split; [lia|intros _; lia].
  - simpl. split; [lia|]. intros Ht. rewrite Ht in E. discriminate.
Qed.

Lemma listItems_bounds : forall base rest i items,
  i <= snd (Parser.listItems base rest i items)
  /\ (match rest with
      | t :: _ =>
          Lexer.type t = Lexer.LIST_ITEM -> Lexer.indent t = base ->
          i < snd (Parser.listItems base rest i items)
      | [] => True
      end).
Proof.
  induction rest as [|t rest IH]; intros i items; simpl; auto.
  destruct (Lexer.TokenType_eqb (Lexer.type t) Lexer.LIST_ITEM
            && (Lexer.indent t =? base)) eqn:E.
  - match goal with |- context [Parser.listItems base rest (i + 1) ?it] =>
      destruct (IH (i + 1) it) as [H _] end.
    split; [lia|intros _ _; lia].
  - simpl. split; [lia|]. intros Ht Hi. rewrite Ht, Hi, Nat.eqb_refl in E. discriminate.
Qed.

Lemma paragraphLines_bounds : forall rest i lines,
  i <= snd (Parser.paragraphLines rest i lines)
  /\ (match rest with
      | t :: _ => Lexer.type t = Lexer.TEXT -> i < snd (Parser.paragraphLines rest i lines)
      | [] => True
      end).
Proof.
  induction rest as [|t rest IH]; intros i lines; simpl; auto.
  destruct (Lexer.TokenType_eqb (Lexer.type t) Lexer.TEXT) eqn:E.
  - destruct (IH (i + 1) (lines ++ [trim (Lexer.value t)])%list) as [H _].
    split; [lia|intros _; lia].
  - simpl. split; [lia|]. intros Ht. rewrite Ht in E. discriminate.
Qed.

(** The block functions at a token of their kind: they return, and the
    cursor they hand back is past [i]. *)
Lemma parseCodeBlock_next : forall tokens i t,
  nth_error tokens i = Some t ->
  exists node e, Parser.parseCodeBlock tokens i = Some (node, e)
                 /\ i < Z.to_nat (e + 1) /\ Ast.type node = Ast.t_codeBlock.
Proof.
  intros tokens i t H. unfold Parser.parseCodeBlock. rewrite H.
  pose proof (collectUntil_bounds Lexer.CODE_BLOCK_END (skipn (i + 1) tokens) (i + 1) []) as B.
  destruct (Parser.collectUntil _ _ _ _) as [codeLines j]. simpl in B.
  eexists; eexists; split; [reflexivity|]. split; [lia|reflexivity].
Qed.

Lemma parseBlock_next : forall tokens i t,
  nth_error tokens i = Some t ->
  exists node e, Parser.parseBlock tokens i = Some (node, e)
                 /\ i < Z.to_nat (e + 1) /\ Ast.type node <> Ast.t_heading.
Proof.
  intros tokens i t H. unfold Parser.parseBlock. rewrite H.
  pose proof (collectUntil_bounds Lexer.BLOCK_END (skipn (i + 1) tokens) (i + 1) []) as B.
  destruct (Parser.collectUntil _ _ _ _) as [contentLines j]. simpl in B.
  eexists; eexists; split; [reflexivity|]. split; [lia|].
  simpl.
  repeat match goal with |- context [if ?b then _ else _] => destruct b end;
    discriminate.
Qed.

Lemma parseTable_next : forall tokens i t,
  nth_error tokens i = Some t -> Lexer.type t = Lexer.TABLE_ROW ->
  i < Z.to_nat (snd (Parser.parseTable tokens i) + 1)
  /\ Ast.type (fst (Parser.parseTable tokens i)) = Ast.t_table.
Proof.
  intros tokens i t H Ht. unfold Parser.parseTable.
  pose proof (tableRows_bounds (skipn i tokens) i []) as [_ B].
  rewrite (nth_error_skipn_cons _ _ _ _ H) in *.
  specialize (B Ht).
  destruct (Parser.tableRows _ _ _) as [rows j]. simpl in *. split; [lia|reflexivity].
Qed.

Lemma parseList_next : forall tokens i t,
  nth_error tokens i = Some t -> Lexer.type t = Lexer.LIST_ITEM ->
  exists node e, Parser.parseList tokens i = Some (node, e)
                 /\ i < Z.to_nat (e + 1) /\ Ast.type node = Ast.t_list.
Proof.
  intros tokens i t H Ht. unfold Parser.parseList. rewrite H.
  pose proof (listItems_bounds (Lexer.indent t) (skipn i tokens) i []) as [_ B].
  rewrite (nth_error_skipn_cons _ _ _ _ H) in *.
  specialize (B Ht eq_refl).
  destruct (Parser.listItems _ _ _ _) as [items j]. simpl in *.
  eexists; eexists; split; [reflexivity|]. split; [lia|reflexivity].
Qed.

Lemma parseDrawer_next : forall tokens i t,
  nth_error tokens i = Some t ->
  exists node e, Parser.parseDrawer tokens i = Some (node, e)
                 /\ i < Z.to_nat (e + 1)
                 /\ (forall n, node = Some n -> Ast.type n = Ast.t_drawer).
Proof.
  intros tokens i t H. unfold Parser.parseDrawer. rewrite H.
  pose proof (collectUntil_bounds Lexer.DRAWER_END (skipn (i + 1) tokens) (i + 1) []) as B.
  destruct (Parser.collectUntil _ _ _ _) as [contentLines j]. simpl in B.
  destruct (String.eqb _ "PROPERTIES");
    eexists; eexists; (split; [reflexivity|]); (split; [lia|]);
    intros n Hn; inversion Hn; reflexivity.
Qed.

Lemma parseParagraph_next : forall tokens i t,
  nth_error tokens i = Some t -> Lexer.type t = Lexer.TEXT ->
  i < Z.to_nat (snd (Parser.parseParagraph tokens i) + 1)
  /\ (forall n, fst (Parser.parseParagraph tokens i) = Some n ->
                Ast.type n = Ast.t_paragraph).
Proof.
  intros tokens i t H Ht. unfold Parser.parseParagraph.
  pose proof (paragraphLines_bounds (skipn i tokens) i []) as [_ B].
  rewrite (nth_error_skipn_cons _ _ _ _ H) in *.
  specialize (B Ht).
  destruct (Parser.paragraphLines _ _ _) as [lines j]. simpl in *.
  destruct lines; simpl; (split; [lia|]); intros n Hn; inversion Hn; reflexivity.
Qed.

Lemma parseShortcode_type : forall t,
  Ast.type (Parser.parseShortcode t) <> Ast.t_heading.
Proof.
  intros t. unfold Parser.parseShortcode.
  destruct (Parser.shortcodeSearch (Lexer.value t)) as [[c r]|]; discriminate.
Qed.

Lemma Forall_snoc : forall (A : Type) (P : A -> Prop) l x,
  Forall P l -> P x -> Forall P (l ++ [x])%list.
Proof. intros. apply Forall_app; auto. Qed.

Lemma Forall_push : forall (P : Ast.AstNode -> Prop) l o,
  Forall P l -> (forall n, o = Some n -> P n) -> Forall P (Parser.push l o).
Proof.
  intros P l [n|] Hl Ho; simpl; auto. apply Forall_snoc; auto.
Qed.

Lemma parseTokensLoop_spec : forall fuel tokens i nodes,
  List.length tokens - i < fuel ->
  Forall (fromHeadingToken tokens) nodes ->
  exists r, Parser.parseTokensLoop fuel tokens i nodes = Some r
            /\ Forall (fromHeadingToken tokens) r.
Proof.
  induction fuel as [|fuel IH]; intros tokens i nodes Hf Hnodes; [lia|].
  simpl. destruct (nth_error tokens i) as [t|] eqn:G; [|eauto].
  assert (i < List.length tokens) as Hi by (apply nth_error_Some; congruence).
  assert (forall n, Ast.type n <> Ast.t_heading -> fromHeadingToken tokens n) as Hother
      by (intros n Hne Hh; contradiction).
  destruct (Lexer.type t) eqn:Ht; try (apply IH; [lia|assumption]).
  - (* HEADING *)
    apply IH; [lia|]. apply Forall_snoc; auto.
    intros _. exists t. repeat split; auto. eapply nth_error_In; eauto.
  - (* LIST_ITEM *)
    destruct (parseList_next tokens i t G Ht) as (node & e & -> & He & Hty).
    apply IH; [lia|]. apply Forall_snoc; auto. apply Hother. congruence.
  - (* CODE_BLOCK_START *)
    destruct (parseCodeBlock_next tokens i t G) as (node & e & -> & He & Hty).
    apply IH; [lia|]. apply Forall_snoc; auto. apply Hother. congruence.
  - (* BLOCK_START *)
    destruct (parseBlock_next tokens i t G) as (node & e & -> & He & Hty).
    apply IH; [lia|]. apply Forall_snoc; auto.
  - (* TABLE_ROW *)
    destruct (parseTable_next tokens i t G Ht) as [He Hty].
    destruct (Parser.parseTable tokens i) as [node e]. simpl in *.
    apply IH; [lia|]. apply Forall_snoc; auto. apply Hother. congruence.
  - (* DRAWER_START *)
    destruct (parseDrawer_next tokens i t G) as (node & e & -> & He & Hty).
    apply IH; [lia|]. apply Forall_push; auto.
    intros n Hn. apply Hother. rewrite (Hty n Hn). discriminate.
  - (* SHORTCODE *)
    apply IH; [lia|]. apply Forall_snoc; auto. apply Hother. apply parseShortcode_type.
  - (* TEXT *)
    destruct (parseParagraph_next tokens i t G Ht) as [He Hty].
    destruct (Parser.parseParagraph tokens i) as [node e]. simpl in *.
    apply IH; [lia|]. apply Forall_push; auto.
    intros n Hn. apply Hother. rewrite (Hty n Hn). discriminate.
Qed.

Lemma parseTokens_total : forall tokens,
  exists nodes, Parser.parseTokens tokens = Some nodes
                /\ Forall (fromHeadingToken tokens) nodes.
Proof.
  intros tokens. unfold Parser.parseTokens.
  apply parseTokensLoop_spec; [lia|constructor].
Qed.

(** The lexer gives a HEADING token the number of its leading asterisks
    as level, and there is at least one. *)
Lemma classify_heading : forall i line,
  Lexer.type (Lexer.classify i line) = Lexer.HEADING ->
  Lexer.level (Lexer.properties (Lexer.classify i line))
  = Some (String.length (takeWhile (isChar "*") (trim line)))
  /\ 1 <= String.length (takeWhile (isChar "*") (trim line)).
Proof.
  intros i line. unfold Lexer.classify.
  destruct (isEmpty (trim line)); [discriminate|].
  destruct (Lexer.headingMatch (trim line)) as [[stars text]|] eqn:E.
  - intros _. simpl. unfold Lexer.headingMatch in E.
    destruct (takeWhile (isChar "*") (trim line)) as [|c s] eqn:Es; simpl in E; [discriminate|].
    destruct (spacesThenRest _); inversion E; subst. simpl. split; [reflexivity|lia].
  - destruct (startsWithI "#+BEGIN_SRC" (trim line)); [discriminate|].
    destruct (startsWithI "#+END_SRC" (trim line)); [discriminate|].
    destruct (Lexer.blockMatch "#+BEGIN_" (trim line)); [discriminate|].
    destruct (Lexer.blockMatch "#+END_" (trim line)); [discriminate|].
    destruct (Lexer.drawerMatch (trim line)); [discriminate|].
    destruct (String.eqb (trim line) ":END:"); [discriminate|].
    destruct (startsWith "|" (trim line)); [discriminate|].
    destruct (Lexer.listMatch (trim line)) as [[marker text]|]; [discriminate|].
    destruct (Lexer.shortcodeMatch (trim line)); discriminate.
Qed.

Lemma tokenizeFrom_In : forall lines i tok,
  In tok (Lexer.tokenizeFrom i lines) ->
  exists j line, In line lines /\ tok = Lexer.classify j line.
Proof.
  induction lines as [|l lines IH]; intros i tok H; simpl in H; [contradiction|].
  destruct H as [H|H].
  - exists i, l. split; [now left|auto].
  - destruct (IH _ _ H) as (j & line & Hin & He). exists j, line. split; [now right|auto].
Qed.

(** ** The inline parser: what a turn does to the accumulators *)

Lemma flush_current : forall p, Parser.current (Parser.flush p) = "".
Proof.
  intros [cur ns]. unfold Parser.flush. simpl.
  destruct cur; reflexivity.
Qed.

Lemma flush_flush : forall p, Parser.flush (Parser.flush p) = Parser.flush p.
Proof.
  intros p. unfold Parser.flush at 1. now rewrite flush_current.
Qed.

Lemma flush_nodes : forall p,
  Parser.nodes (Parser.flush p)
  = if isEmpty (Parser.current p) then Parser.nodes p
    else (Parser.nodes p ++ [Ast.createTextNode (Parser.current p)])%list.
Proof.
  intros [cur ns]. unfold Parser.flush. simpl. destruct cur; reflexivity.
Qed.

Lemma reached_flush : forall p q, reached p q -> Parser.flush q = Parser.flush p.
Proof. intros p q [->| ->]; auto using flush_flush. Qed.

Lemma delimited_shape : forall isMarker found text i c p q,
  (forall m content next ns, flushedFirst p (found m content next ns)
                             <-> ns = Parser.nodes (Parser.flush p)) ->
  reached p q ->
  blockShape p (Parser.delimited isMarker found text i c q).
Proof.
  intros isMarker found text i c p q Hf Hq.
  destruct (delimited_cases isMarker found text i c q)
    as [E|[(_ & _ & _ & E)|(e & _ & _ & _ & E)]]; rewrite E; simpl.
  - exact Hq.
  - right. now apply reached_flush.
  - apply Hf. now rewrite (reached_flush _ _ Hq).
Qed.

Lemma linkBlock_shape : forall text i p q,
  reached p q -> blockShape p (Parser.linkBlock text i q).
Proof.
  intros text i p q Hq. unfold Parser.linkBlock.
  destruct (String.eqb _ "[["); [|exact Hq].
  destruct (indexOf "]]" (i + 2) text); simpl.
  - now rewrite (reached_flush _ _ Hq).
  - right. now apply reached_flush.
Qed.

Lemma footnoteBlock_shape : forall text i p q,
  reached p q -> blockShape p (Parser.footnoteBlock text i q).
Proof.
  intros text i p q Hq. unfold Parser.footnoteBlock.
  destruct (String.eqb _ "[fn:"); [|exact Hq].
  destruct (indexOfChar "]" (i + 4) text); simpl.
  - now rewrite (reached_flush _ _ Hq).
  - right. now apply reached_flush.
Qed.

Lemma lineBreakBlock_shape : forall text i p q,
  reached p q -> blockShape p (Parser.lineBreakBlock text i q).
Proof.
  intros text i p q Hq. unfold Parser.lineBreakBlock.
  destruct (String.eqb _ "\\"); [|exact Hq].
  simpl. now rewrite (reached_flush _ _ Hq).
Qed.

Lemma orElse_shape : forall p c b k,
  blockShape p b ->
  (forall q, reached p q -> stepShape p c (k q)) ->
  stepShape p c (Parser.orElse b k).
Proof.
  intros p c [a|q] k Hb Hk; simpl in *; auto.
  destruct a; simpl in *; auto. contradiction.
Qed.

Lemma step_shape : forall text i c p, stepShape p c (Parser.step text i c p).
Proof.
  intros text i c p. unfold Parser.step.
  apply orElse_shape; [apply delimited_shape; [simpl; tauto|now left]|]. intros q1 H1.
  apply orElse_shape; [apply delimited_shape; [simpl; tauto|exact H1]|]. intros q2 H2.
  apply orElse_shape; [apply delimited_shape; [simpl; tauto|exact H2]|]. intros q3 H3.
  apply orElse_shape; [apply delimited_shape; [simpl; tauto|exact H3]|]. intros q4 H4.
  apply orElse_shape; [apply delimited_shape; [simpl; tauto|exact H4]|]. intros q5 H5.
  apply orElse_shape; [apply linkBlock_shape; exact H5|]. intros q6 H6.
  apply orElse_shape; [apply footnoteBlock_shape; exact H6|]. intros q7 H7.
  apply orElse_shape; [apply lineBreakBlock_shape; exact H7|]. intros q8 H8.
  simpl. exists q8. auto.
Qed.

(** The result of the scan keeps the nodes it started with, and pending
    text becomes the beginning of the text leaf that follows them. *)
Lemma scan_pending : forall fuel text i p r,
  Parser.scan fuel text i p = Some r ->
  exists rest,
    r = (Parser.nodes p ++ rest)%list
    /\ (Parser.current p <> "" ->
        exists more rest',
          rest = Ast.createTextNode (Parser.current p ++ more) :: rest').
Proof.
  induction fuel as [|fuel IH]; intros text i p r H; [discriminate|].
  simpl in H.
  assert (forall r0,
             r = (Parser.nodes (Parser.flush p) ++ r0)%list ->
             exists rest,
               r = (Parser.nodes p ++ rest)%list
               /\ (Parser.current p <> "" ->
                   exists more rest',
                     rest = Ast.createTextNode (Parser.current p ++ more) :: rest'))
    as Hflushed.
  { intros r0 Hr. rewrite flush_nodes in Hr.
    destruct (Parser.current p) as [|a cur] eqn:Ec; simpl in Hr.
    - exists r0. split; [exact Hr|]. intros Hne; congruence.
    - rewrite <- app_assoc in Hr. simpl in Hr.
      eexists. split; [exact Hr|]. intros _.
      exists "", r0. now rewrite append_nil_r. }
  destruct (get i text) as [c|].
  - pose proof (step_shape text i c p) as Hs.
    destruct (Parser.step text i c p) as [content next ns|node next ns|p']; simpl in Hs.
    + destruct (Parser.scan fuel content 0 Parser.start) as [kids|]; [|discriminate].
      apply IH in H. destruct H as (rest & Hr & _). simpl in Hr. subst ns.
      rewrite <- app_assoc in Hr. eapply Hflushed; exact Hr.
    + apply IH in H. destruct H as (rest & Hr & _). simpl in Hr. subst ns.
      rewrite <- app_assoc in Hr. eapply Hflushed; exact Hr.
    + destruct Hs as (q & Hq & ->).
      apply IH in H. destruct H as (rest & Hr & Hm). simpl in Hr, Hm.
      destruct Hm as (more & rest' & ->); [now destruct (Parser.current q)|].
      destruct Hq as [->| ->].
      * exists (Ast.createTextNode ((Parser.current p ++ String c "") ++ more) :: rest').
        split; [exact Hr|]. intros _. exists (String c more), rest'.
        now rewrite append_assoc.
      * rewrite flush_current in Hr. eapply Hflushed; exact Hr.
  - inversion H; subst. apply (Hflushed []). now rewrite app_nil_r.
Qed.

(** ** Counting characters in rendered strings *)

Lemma count_app : forall c a b,
  countChar c (a ++ b) = countChar c a + countChar c b.
Proof. induction a; intros; simpl; auto. rewrite IHa. lia. Qed.

Lemma replaceAll_kills : forall x rep s,
  countChar x rep = 0 -> countChar x (replaceAll x rep s) = 0.
Proof.
  intros x rep s H. induction s as [|a s IH]; simpl; auto.
  destruct (Ascii.eqb a x) eqn:E.
  - rewrite count_app. lia.
  - simpl. rewrite E. exact IH.
Qed.

Lemma replaceAll_keeps : forall c x rep s,
  countChar c rep = 0 -> countChar c s = 0 -> countChar c (replaceAll x rep s) = 0.
Proof.
  intros c x rep s Hr. induction s as [|a s IH]; simpl; auto. intros H.
  destruct (Ascii.eqb a x).
  - rewrite count_app. rewrite IH; lia.
  - simpl. destruct (Ascii.eqb a c); simpl in *; [lia|auto].
Qed.

(** The five-entity [escapeHtml] leaves no [<], [>], double quote or
    single quote; the three-entity one of the TOC leaves no [<] or [>]. *)
Lemma escapeHtml_clean : forall s,
  countChar "<" (Renderer.escapeHtml s) = 0
  /\ countChar ">" (Renderer.escapeHtml s) = 0
  /\ countChar dqChar (Renderer.escapeHtml s) = 0
  /\ countChar "'" (Renderer.escapeHtml s) = 0.
Proof.
  intros s. unfold Renderer.escapeHtml. repeat split.
  - do 3 (apply replaceAll_keeps; [reflexivity|]). now apply replaceAll_kills.
  - do 2 (apply replaceAll_keeps; [reflexivity|]). now apply replaceAll_kills.
  - apply replaceAll_keeps; [reflexivity|]. now apply replaceAll_kills.
  - now apply replaceAll_kills.
Qed.

Lemma tocEscapeHtml_clean : forall s,
  countChar "<" (Toc.escapeHtml s) = 0 /\ countChar ">" (Toc.escapeHtml s) = 0.
Proof.
  intros s. unfold Toc.escapeHtml. split.
  - apply replaceAll_keeps; [reflexivity|]. now apply replaceAll_kills.
  - now apply replaceAll_kills.
Qed.

Lemma isBracket_cases : forall c, isBracket c = true -> c = "<"%char \/ c = ">"%char.
Proof.
  intros c H. unfold isBracket, isChar in H. apply orb_true_iff in H.
  destruct H as [H|H]; apply Ascii.eqb_eq in H; auto.
Qed.

Lemma count_escapeHtml : forall c s,
  isBracket c = true -> countChar c (Renderer.escapeHtml s) = 0.
Proof.
  intros c s H. destruct (isBracket_cases c H) as [->| ->]; apply escapeHtml_clean.
Qed.

Lemma count_tocEscapeHtml : forall c s,
  isBracket c = true -> countChar c (Toc.escapeHtml s) = 0.
Proof.
  intros c s H. destruct (isBracket_cases c H) as [->| ->]; apply tocEscapeHtml_clean.
Qed.

Lemma count_all : forall (q : ascii -> bool) c s,
  allChars q s = true -> q c = false -> countChar c s = 0.
Proof.
  intros q c s. induction s as [|a s IH]; simpl; auto. intros H Hc.
  apply andb_true_iff in H. destruct H as [Ha Hs].
  destruct (Ascii.eqb_spec a c) as [->|_]; [congruence|]. simpl. auto.
Qed.

Lemma all_filterChars : forall q s, allChars q (filterChars q s) = true.
Proof.
  intros q s. induction s as [|a s IH]; simpl; auto.
  destruct (q a) eqn:E; simpl; auto. now rewrite E.
Qed.

Lemma all_collapseRuns : forall (q p : ascii -> bool) rep s,
  q rep = true -> allChars q s = true ->
  allChars q (Renderer.collapseRuns p rep s) = true.
Proof.
  intros q p rep s Hr. induction s as [|a s IH]; simpl; auto. intros H.
  apply andb_true_iff in H. destruct H as [Ha Hs].
  destruct (p a).
  - destruct s as [|d s']; [simpl; now rewrite Hr|].
    destruct (p d); [now apply IH|].
    change (allChars q (String rep (Renderer.collapseRuns p rep (String d s'))) = true).
    simpl allChars at 1. rewrite Hr. simpl. now apply IH.
  - change (allChars q (String a (Renderer.collapseRuns p rep s)) = true).
    simpl allChars at 1. rewrite Ha. simpl. now apply IH.
Qed.

Lemma all_dropWhile : forall q p s,
  allChars q s = true -> allChars q (dropWhile p s) = true.
Proof.
  intros q p s. induction s as [|a s IH]; simpl; auto. intros H.
  destruct (p a); auto. apply IH. apply andb_true_iff in H. tauto.
Qed.

Lemma all_trimEnd : forall q s, allChars q s = true -> allChars q (trimEnd s) = true.
Proof.
  intros q s. induction s as [|a s IH]; simpl; auto. intros H.
  apply andb_true_iff in H. destruct H as [Ha Hs]. specialize (IH Hs).
  destruct (trimEnd s) as [|b t].
  - destruct (isSpace a); simpl; auto. now rewrite Ha.
  - simpl in *. now rewrite Ha.
Qed.

(** A slug holds word characters, white space and hyphens only. *)
Lemma count_slugify : forall c s,
  isBracket c = true -> countChar c (Renderer.slugify s) = 0.
Proof.
  intros c s H.
  apply count_all with (q := fun c => isWord c || isSpace c || isChar "-" c).
  - unfold Renderer.slugify, trim, trimStart.
    apply all_trimEnd, all_dropWhile, all_collapseRuns; [reflexivity|].
    apply all_collapseRuns; [reflexivity|]. apply all_filterChars.
  - destruct (isBracket_cases c H) as [->| ->]; reflexivity.
Qed.

Lemma count_uint : forall c u,
  isBracket c = true -> countChar c (NilEmpty.string_of_uint u) = 0.
Proof.
  intros c u H. destruct (isBracket_cases c H) as [->| ->];
    induction u; simpl; auto.
Qed.

Lemma count_showZ : forall c z, isBracket c = true -> countChar c (showZ z) = 0.
Proof.
  intros c z H. unfold showZ, NilZero.string_of_int.
  assert (forall u, countChar c (NilZero.string_of_uint u) = 0) as Hu.
  { intros u. unfold NilZero.string_of_uint.
    destruct u; try apply (count_uint c _ H).
    destruct (isBracket_cases c H) as [->| ->]; reflexivity. }
  destruct (Z.to_int z); [apply Hu|].
  change (countChar c ("-" ++ NilZero.string_of_uint d) = 0).
  rewrite count_app, Hu. destruct (isBracket_cases c H) as [->| ->]; reflexivity.
Qed.

(** Strings joined from lists whose members have the same counts. *)
Lemma count_concat_ext : forall c sep (l l' : list string),
  Forall2 (fun a b => countChar c a = countChar c b) l l' ->
  countChar c (String.concat sep l) = countChar c (String.concat sep l').
Proof.
  intros c sep l l' H. induction H as [|a b l l' Hab Hl IH]; auto.
  destruct Hl as [|a2 b2 l l' Hab2 Hl]; simpl in *; auto.
  rewrite !count_app. rewrite Hab. simpl in IH. lia.
Qed.

Lemma Forall2_map_same : forall (A B : Type) (R : B -> B -> Prop) (g h : A -> B) l,
  Forall (fun x => R (g x) (h x)) l -> Forall2 R (map g l) (map h l).
Proof. intros A B R g h l H. induction H; simpl; constructor; auto. Qed.
(** ** What [renderNode] does, by node type *)

Section RenderedShape.

Variable highlightCode : string -> string -> string.

Lemma renderChildrenSync_eq : forall node,
  Renderer.renderChildrenSync node
  = String.concat "" (map renderChildSync (kidsOf (Ast.children node))).
Proof. intros [ty v ps [ks|]]; reflexivity. Qed.

Lemma renderNodes_app : forall l html x,
  Renderer.renderNodes highlightCode l html x
  = (html ++ fst (Renderer.renderNodes highlightCode l "" x),
     snd (Renderer.renderNodes highlightCode l "" x)).
Proof.
  induction l as [|n l IH]; intros html x; simpl.
  - now rewrite append_nil_r.
  - destruct (Renderer.renderNode highlightCode n x) as [h x1].
    rewrite IH. rewrite (IH (String.append "" h)). simpl.
    now rewrite append_assoc.
Qed.

Lemma renderNode_wrap : forall node g x,
  wrapperOf node = Some g ->
  Renderer.renderNode highlightCode node x
  = (let '(inner, x') :=
       Renderer.renderNodes highlightCode (kidsOf (Ast.children node)) "" x in
     (g inner, x')).
Proof.
  intros [ty v ps kids] g x H. unfold wrapperOf in H.
  destruct ty; simpl in H; try discriminate; inversion H; subst; clear H;
    destruct kids as [ks|]; reflexivity.
Qed.

Lemma renderNode_leaf : forall node x,
  wrapperOf node = None ->
  Renderer.renderNode highlightCode node x = leafRender highlightCode node x.
Proof.
  intros [ty v ps kids] x H. unfold wrapperOf in H.
  destruct ty; simpl in H; try discriminate; reflexivity.
Qed.

Lemma renderHeading_eq : forall node x,
  Renderer.renderHeading node x
  = ("<h" ++ showZ (Renderer.headingLevel node) ++ " id=" ++ dq
     ++ Renderer.escapeHtml (Renderer.slugify (Renderer.headingText node))
     ++ dq ++ ">" ++ "" ++ Renderer.renderChildrenSync node
     ++ "</h" ++ showZ (Renderer.headingLevel node) ++ ">" ++ nl,
     {| Renderer.options := Renderer.options x;
        Renderer.footnotes := Renderer.footnotes x;
        Renderer.footnoteCounter := Renderer.footnoteCounter x;
        Renderer.headings :=
          (Renderer.headings x
           ++ [{| Toc.level := Renderer.headingLevel node;
                  Toc.text := Renderer.headingText node;
                  Toc.id := Renderer.slugify (Renderer.headingText node) |}])%list |}).
Proof. reflexivity. Qed.

End RenderedShape.

(** ** Rendering a tree whose texts were replaced *)

Lemma isBracket_special : forall c, isBracket c = true -> isSpecial c = true.
Proof.
  intros c H. unfold isSpecial. destruct (isBracket_cases c H) as [->| ->]; reflexivity.
Qed.

Lemma isSpecial_cases : forall c,
  isSpecial c = true ->
  c = "<"%char \/ c = ">"%char \/ c = dqChar \/ c = "'"%char.
Proof.
  intros c H. unfold isSpecial, isChar in H.
  repeat (apply orb_true_iff in H; destruct H as [H|H]);
    apply Ascii.eqb_eq in H; auto.
Qed.

(** The five-entity [escapeHtml] leaves none of the four characters. *)
Lemma escapeHtml_special : forall c s,
  isSpecial c = true -> countChar c (Renderer.escapeHtml s) = 0.
Proof.
  intros c s H.
  destruct (isSpecial_cases c H) as [->|[->|[->| ->]]]; apply escapeHtml_clean.
Qed.

(** A slug holds none of them either. *)
Lemma slugify_special : forall c s,
  isSpecial c = true -> countChar c (Renderer.slugify s) = 0.
Proof.
  intros c s H.
  apply count_all with (q := fun c => isWord c || isSpace c || isChar "-" c).
  - unfold Renderer.slugify, trim, trimStart.
    apply all_trimEnd, all_dropWhile, all_collapseRuns; [reflexivity|].
    apply all_collapseRuns; [reflexivity|]. apply all_filterChars.
  - destruct (isSpecial_cases c H) as [->|[->|[->| ->]]]; reflexivity.
Qed.

Section ReplacedText.

(** The tree with the replaced texts is rendered with the highlighter
    [replaced], the tree itself with [original]. *)
Variable replaced original : string -> string -> string.
Variable f : string -> string.
Variable c : ascii.
Hypothesis special : isSpecial c = true.

Lemma kidsOf_mapText : forall node,
  kidsOf (Ast.children (mapText f node)) = map (mapText f) (kidsOf (Ast.children node)).
Proof. intros [ty v ps [ks|]]; reflexivity. Qed.

Lemma renderChildrenSync_mapText : forall node,
  countChar c (Renderer.renderChildrenSync (mapText f node))
  = countChar c (Renderer.renderChildrenSync node).
Proof.
  induction node as [ty v ps kids IH] using AstNode_forall_ind.
  rewrite !renderChildrenSync_eq, kidsOf_mapText, map_map.
  apply count_concat_ext, Forall2_map_same.
  simpl. eapply Forall_impl; [|exact IH].
  intros [ty' v' ps' kids'] Hx. unfold renderChildSync.
  change (Ast.type (mapText f (Ast.mkNode ty' v' ps' kids'))) with ty'.
  change (Ast.type (Ast.mkNode ty' v' ps' kids')) with ty'.
  destruct ty'; try exact Hx;
    rewrite ?count_app, ?Hx, ?(escapeHtml_special c _ special); reflexivity.
Qed.

Lemma wrapper_mapText : forall node g,
  wrapperOf node = Some g ->
  exists g', wrapperOf (mapText f node) = Some g'
             /\ forall a b, countChar c a = countChar c b ->
                            countChar c (g' a) = countChar c (g b).
Proof.
  intros [ty v ps kids] g H. unfold wrapperOf in *.
  change (Ast.type (mapText f (Ast.mkNode ty v ps kids))) with ty.
  simpl in H.
  destruct ty; try discriminate; inversion H; subst; clear H;
    eexists; (split; [reflexivity|]); intros a b Hab;
    unfold Renderer.renderList, Renderer.renderListItem, Renderer.renderTable,
      Renderer.renderTableRow, Renderer.renderTableCell, Renderer.renderQuote,
      Renderer.renderExample, Renderer.renderVerse, Renderer.renderCenter;
    simpl; rewrite ?count_app, ?Hab; simpl; rewrite ?count_app, ?Hab; reflexivity.
Qed.

Lemma wrapperOf_none_mapText : forall node,
  wrapperOf node = None -> wrapperOf (mapText f node) = None.
Proof. intros [ty v ps kids] H. exact H. Qed.

Lemma similar_start : forall options,
  highlightAgrees c f replaced original options ->
  similar c f replaced original (Renderer.newContext options)
    (Renderer.newContext options).
Proof.
  intros options H. unfold similar. simpl.
  split; [reflexivity|]. split; [exact H|]. repeat split. constructor.
Qed.

Lemma renderNodes_alike : forall l,
  Forall (rendersAlike replaced original f c) l ->
  forall x x',
    similar c f replaced original x x' ->
    countChar c (fst (Renderer.renderNodes replaced (map (mapText f) l) "" x'))
    = countChar c (fst (Renderer.renderNodes original l "" x))
    /\ similar c f replaced original (snd (Renderer.renderNodes original l "" x))
         (snd (Renderer.renderNodes replaced (map (mapText f) l) "" x')).
Proof.
  induction 1 as [|n l Hn Hl IH]; intros x x' Hs; simpl; auto.
  destruct (Hn x x' Hs) as [Hc Hs1].
  destruct (Renderer.renderNode original n x) as [h x1].
  destruct (Renderer.renderNode replaced (mapText f n) x') as [h' x1'].
  simpl in *.
  rewrite (renderNodes_app original l),
    (renderNodes_app replaced (map (mapText f) l)). simpl.
  destruct (IH x1 x1' Hs1) as [Hc2 Hs2].
  split; [|exact Hs2]. rewrite !count_app. lia.
Qed.

Lemma headingLevel_mapText : forall node,
  Renderer.headingLevel (mapText f node) = Renderer.headingLevel node.
Proof. intros [ty v ps kids]. reflexivity. Qed.

Lemma type_mapText : forall node, Ast.type (mapText f node) = Ast.type node.
Proof. intros [ty v ps kids]. reflexivity. Qed.

Lemma properties_mapText : forall node,
  Ast.properties (mapText f node) = mapProperties f (Ast.properties node).
Proof. intros [ty v ps kids]. reflexivity. Qed.

Lemma renderFootnote_mapText : forall node x x',
  similar c f replaced original x x' ->
  fst (Renderer.renderFootnote (mapText f node) x')
  = fst (Renderer.renderFootnote node x)
  /\ similar c f replaced original (snd (Renderer.renderFootnote node x))
       (snd (Renderer.renderFootnote (mapText f node) x')).
Proof.
  intros node x x' (Ho & Hh & Hf & Hn & Hd).
  unfold Renderer.renderFootnote. rewrite properties_mapText. simpl.
  rewrite <- Hn, <- Hf. split; [reflexivity|].
  unfold similar. simpl.
  split; [exact Ho|]. split; [exact Hh|]. repeat split; auto.
Qed.

Lemma attrString_mapText : forall ps,
  countChar c
    (String.concat " "
       (map (fun kv => Renderer.escapeHtml (fst kv) ++ "=" ++ dq
                       ++ Renderer.escapeHtml (snd kv) ++ dq)
          (match Ast.attrs (mapProperties f ps) with Some a => a | None => [] end)))
  = countChar c
      (String.concat " "
         (map (fun kv => Renderer.escapeHtml (fst kv) ++ "=" ++ dq
                         ++ Renderer.escapeHtml (snd kv) ++ dq)
            (match Ast.attrs ps with Some a => a | None => [] end))).
Proof.
  intros ps. unfold mapProperties. cbn [Ast.attrs].
  destruct (Ast.attrs ps) as [a|]; [|reflexivity].
  cbn [option_map]. rewrite map_map.
  apply count_concat_ext, Forall2_map_same.
  apply Forall_forall. intros kv _. cbn [fst snd].
  rewrite !count_app, !(escapeHtml_special c _ special). reflexivity.
Qed.

Lemma orEmpty_map : forall o,
  f "" = "" -> Renderer.orEmpty (option_map f o) = f (Renderer.orEmpty o).
Proof. intros [s|] E; [reflexivity|]. simpl. now rewrite E. Qed.

(** The code and the language [renderCodeBlock] reads from a node. *)
Lemma renderCodeBlock_mapText : forall node x x',
  similar c f replaced original x x' ->
  countChar c (Renderer.renderCodeBlock replaced (mapText f node) x')
  = countChar c (Renderer.renderCodeBlock original node x).
Proof.
  intros [ty v ps kids] x x' (Ho & Hh & _).
  unfold Renderer.renderCodeBlock. rewrite <- Ho.
  cbn [mapText Ast.properties Ast.children mapProperties Ast.language].
  destruct (Renderer.notFalse (Renderer.codeHighlight (Renderer.options x))) eqn:On.
  - destruct (Hh On) as [E Hl].
    rewrite (orEmpty_map _ E).
    assert (match
               match kids with
               | Some ks => Some (map (mapText f) ks)
               | None => None
               end
             with
             | Some (first :: _) => Renderer.orEmpty (Ast.value first)
             | _ => ""
             end
            = f match kids with
                | Some (first :: _) => Renderer.orEmpty (Ast.value first)
                | _ => ""
                end) as C.
    { destruct kids as [[|[ty1 v1 ps1 kids1] ks]|]; simpl; auto.
      now apply orEmpty_map. }
    rewrite C, !count_app, Hl, !(escapeHtml_special c _ special). reflexivity.
  - rewrite !count_app, !(escapeHtml_special c _ special). reflexivity.
Qed.

Lemma renderNode_alike : forall node, rendersAlike replaced original f c node.
Proof.
  induction node as [ty v ps kids IH] using AstNode_forall_ind.
  intros x x' Hs.
  destruct (wrapperOf (Ast.mkNode ty v ps kids)) as [g|] eqn:W.
  - (* a wrapper around the rendered children *)
    destruct (wrapper_mapText _ _ W) as (g' & W' & Hg).
    rewrite (renderNode_wrap original _ _ _ W), (renderNode_wrap replaced _ _ _ W').
    rewrite kidsOf_mapText.
    destruct (renderNodes_alike _ IH x x' Hs) as [Hc Hs'].
    destruct (Renderer.renderNodes original (kidsOf _) "" x) as [inner x1].
    destruct (Renderer.renderNodes replaced (map _ _) "" x') as [inner' x1'].
    simpl in *. split; [apply Hg; exact Hc|exact Hs'].
  - rewrite (renderNode_leaf original _ _ W),
      (renderNode_leaf replaced _ _ (wrapperOf_none_mapText _ W)).
    clear IH W.
    set (node := Ast.mkNode ty v ps kids).
    assert (Ast.type node = ty) as Hty by reflexivity.
    assert (Ast.value (mapText f node) = option_map f (Ast.value node)) as Hv
        by reflexivity.
    clearbody node.
    pose proof Hs as (Ho & Hh & Hf & Hn & Hd).
    unfold leafRender. rewrite type_mapText, Hty.
    destruct ty; try (cbv [fst snd]; split; [reflexivity|exact Hs]).
    + (* heading *)
      rewrite !renderHeading_eq. cbv [fst snd].
      rewrite headingLevel_mapText. split.
      * rewrite !count_app, renderChildrenSync_mapText,
          !(escapeHtml_special c _ special). reflexivity.
      * unfold similar. simpl.
        split; [exact Ho|]. split; [exact Hh|]. repeat split; auto.
        apply Forall2_app; auto. constructor; [|constructor].
        unfold sameLevel. simpl. repeat split; apply slugify_special; exact special.
    + (* paragraph *)
      cbv [fst snd]. split; [|exact Hs]. unfold Renderer.renderParagraph.
      rewrite !count_app, renderChildrenSync_mapText. reflexivity.
    + (* codeBlock *)
      cbv [fst snd]. split; [|exact Hs]. now apply renderCodeBlock_mapText.
    + (* shortcode *)
      cbv [fst snd]. split; [|exact Hs].
      unfold Renderer.renderShortcode. rewrite properties_mapText. cbv zeta.
      rewrite !count_app, !(escapeHtml_special c _ special), attrString_mapText.
      reflexivity.
    + (* text *)
      cbv [fst snd]. split; [|exact Hs]. now rewrite !(escapeHtml_special c _ special).
    + (* link *)
      cbv [fst snd]. split; [|exact Hs]. unfold Renderer.renderLink.
      rewrite !count_app, renderChildrenSync_mapText,
        !(escapeHtml_special c _ special). reflexivity.
    + (* image *)
      cbv [fst snd]. split; [|exact Hs]. unfold Renderer.renderImage.
      rewrite !count_app, !(escapeHtml_special c _ special). reflexivity.
    + (* footnote *)
      destruct (renderFootnote_mapText node x x' Hs) as [E Hs'].
      rewrite E. split; [reflexivity|exact Hs'].
Qed.

(** The body of the page. *)
Lemma renderBody_alike : forall ast options,
  highlightAgrees c f replaced original options ->
  countChar c (fst (Renderer.renderBody replaced (mapDocument f ast) options))
  = countChar c (fst (Renderer.renderBody original ast options))
  /\ similar c f replaced original (snd (Renderer.renderBody original ast options))
       (snd (Renderer.renderBody replaced (mapDocument f ast) options)).
Proof.
  intros ast options Hh. unfold Renderer.renderBody.
  assert (Forall (rendersAlike replaced original f c) (Document.children ast)) as Hall
      by (apply Forall_forall; intros n _; apply renderNode_alike).
  exact (renderNodes_alike _ Hall _ _ (similar_start options Hh)).
Qed.

End ReplacedText.

(** The table of contents of two similar heading lists: its heading
    texts pass the three-entity [escapeHtml], which leaves no [<] and no
    [>] but keeps the quotes. *)
Section ReplacedTextInToc.

Variable c : ascii.
Hypothesis bracket : isBracket c = true.

Lemma tocEntry_alike : forall d h h' html html' lv,
  sameLevel c h h' ->
  countChar c html = countChar c html' ->
  countChar c (fst (Toc.tocEntry d (html, lv) h))
  = countChar c (fst (Toc.tocEntry d (html', lv) h'))
  /\ snd (Toc.tocEntry d (html, lv) h) = snd (Toc.tocEntry d (html', lv) h').
Proof.
  intros d h h' html html' lv (Hl & Hi & Hi') Hc.
  unfold Toc.tocEntry. rewrite <- Hl.
  destruct (Toc.gtNum (Toc.level h) d); cbv zeta; cbv [fst snd]; [auto|].
  split; [|reflexivity].
  rewrite !count_app, Hi, Hi', !(count_tocEscapeHtml c _ bracket), Hc. reflexivity.
Qed.

Lemma fold_tocEntry_alike : forall d hs hs',
  Forall2 (sameLevel c) hs hs' ->
  forall html html' lv,
    countChar c html = countChar c html' ->
    countChar c (fst (fold_left (Toc.tocEntry d) hs (html, lv)))
    = countChar c (fst (fold_left (Toc.tocEntry d) hs' (html', lv)))
    /\ snd (fold_left (Toc.tocEntry d) hs (html, lv))
       = snd (fold_left (Toc.tocEntry d) hs' (html', lv)).
Proof.
  induction 1 as [|h h' hs hs' Hh Hs IH]; intros html html' lv Hc;
    cbn [fold_left]; [cbv [fst snd]; auto|].
  destruct (tocEntry_alike d h h' html html' lv Hh Hc) as [H1 H2].
  destruct (Toc.tocEntry d (html, lv) h) as [a l1].
  destruct (Toc.tocEntry d (html', lv) h') as [b l2]. simpl in *. subst l2.
  now apply IH.
Qed.

Lemma generateToc_alike : forall d hs hs',
  Forall2 (sameLevel c) hs hs' ->
  countChar c (Toc.generateToc hs d) = countChar c (Toc.generateToc hs' d).
Proof.
  intros d hs hs' H. unfold Toc.generateToc.
  destruct H as [|h h' hs hs' Hh Hs]; auto.
  pose proof Hh as (Hl & _).
  destruct (fold_tocEntry_alike d (h :: hs) (h' :: hs') (Forall2_cons _ _ Hh Hs)
              ("<nav class=" ++ dq ++ "toc" ++ dq ++ "><h2>Table of Contents</h2><ul>")
              ("<nav class=" ++ dq ++ "toc" ++ dq ++ "><h2>Table of Contents</h2><ul>")
              (Toc.level h) eq_refl) as [H1 H2].
  rewrite <- Hl.
  destruct (fold_left (Toc.tocEntry d) (h :: hs) _) as [a l1].
  destruct (fold_left (Toc.tocEntry d) (h' :: hs') _) as [b l2].
  simpl in H1, H2. subst l2.
  rewrite !count_app, H1. reflexivity.
Qed.

(** The whole page. *)
Lemma fullHtml_mapDocument : forall replaced original f ast options,
  highlightAgrees c f replaced original options ->
  countChar c (Renderer.fullHtml replaced (mapDocument f ast) options)
  = countChar c (Renderer.fullHtml original ast options).
Proof.
  intros replaced original f ast options Hh. unfold Renderer.fullHtml.
  destruct (renderBody_alike replaced original f c (isBracket_special c bracket)
              ast options Hh) as [Hc Hs].
  destruct (Renderer.renderBody original ast options) as [body x].
  destruct (Renderer.renderBody replaced (mapDocument f ast) options) as [body' x'].
  simpl in Hc, Hs. destruct Hs as (Ho & _ & Hf & Hn & Hd).
  rewrite !count_app, Hc. f_equal; [|f_equal].
  - unfold Renderer.renderToc.
    change (Renderer.tocOption (mapDocument f ast)) with (Renderer.tocOption ast).
    rewrite <- (Forall2_length Hd).
    destruct (_ && _); [|reflexivity].
    symmetry. now apply generateToc_alike.
  - unfold Renderer.renderFootnotes. now rewrite Hf.
Qed.

End ReplacedTextInToc.

(** ** The inline parse as a cut of the text into segments *)

Lemma concatAll_app : forall a b, concatAll (a ++ b)%list = concatAll a ++ concatAll b.
Proof.
  induction a as [|x a IH]; intros b; simpl; auto.
  now rewrite IH, append_assoc.
Qed.

Lemma segments_app : forall s1 n1 h1 s2 n2 h2,
  segments s1 n1 h1 -> segments s2 n2 h2 ->
  segments (s1 ++ s2)%list (n1 ++ n2)%list (h1 ++ h2)%list.
Proof.
  intros s1 n1 h1 s2 n2 h2 H1 H2. induction H1; simpl; auto.
  constructor; auto.
Qed.

Lemma segments_snoc : forall sources nodes showns source node shown,
  segments sources nodes showns -> segment source node shown ->
  segments (sources ++ [source])%list (nodes ++ [node])%list (showns ++ [shown])%list.
Proof.
  intros. apply segments_app; auto. repeat constructor; auto.
Qed.

Lemma flush_segments : forall p sources showns,
  segments sources (Parser.nodes p) showns ->
  exists sources' showns',
    segments sources' (Parser.nodes (Parser.flush p)) showns'
    /\ concatAll sources' = concatAll sources ++ Parser.current p.
Proof.
  intros p sources showns H. rewrite flush_nodes.
  destruct (Parser.current p) as [|a cur] eqn:E; simpl.
  - exists sources, showns. split; auto. now rewrite append_nil_r.
  - exists (sources ++ [String a cur])%list, (showns ++ [String a cur])%list. split.
    + apply segments_snoc; auto. constructor.
    + rewrite concatAll_app. simpl. now rewrite append_nil_r.
Qed.

Lemma scan_parseInlineMarkup : forall fuel text kids,
  Parser.scan fuel text 0 Parser.start = Some kids ->
  kids = Parser.parseInlineMarkup text.
Proof.
  intros fuel text kids H.
  pose proof (parseInlineMarkup_scan text) as Hp.
  destruct (Nat.le_ge_cases fuel (S (String.length text))) as [Hle|Hle].
  - rewrite (scan_mono _ _ _ _ _ H _ Hle) in Hp. congruence.
  - rewrite (scan_mono _ _ _ _ _ Hp _ Hle) in H. congruence.
Qed.

Lemma substring_prefix_split : forall text i k pat,
  substring i (i + k) text = pat -> String.length pat = k ->
  drop i text = pat ++ drop (i + k) text.
Proof.
  intros text i k pat H Hl. rewrite substring_le in H by lia.
  replace (i + k - i) with k in H by lia.
  rewrite <- (take_drop k (drop i text)) at 1. rewrite H, drop_drop. reflexivity.
Qed.

Lemma delimited_sound : forall isMarker found text i c p q,
  get i text = Some c ->
  (forall content next ns,
      isMarker c = true ->
      ns = Parser.nodes (Parser.flush p) ->
      drop i text = String c (content ++ String c (drop next text)) ->
      actionSound text i p (found c content next ns)) ->
  reached p q ->
  blockSound text i p (Parser.delimited isMarker found text i c q).
Proof.
  intros isMarker found text i c p q G Hf Hq.
  destruct (delimited_cases isMarker found text i c q)
    as [E|[(_ & _ & _ & E)|(e & Hm & _ & Hi & E)]]; rewrite E; simpl.
  - exact Hq.
  - right. now apply reached_flush.
  - apply Hf; auto.
    + now rewrite (reached_flush _ _ Hq).
    + apply indexOfChar_spec in Hi. destruct Hi as (Hle & Hlt & Hd).
      rewrite (get_drop _ _ _ G). f_equal.
      replace (S i) with (i + 1) by lia. rewrite Hd.
      replace (e + 1) with (S e) by lia. reflexivity.
Qed.

Lemma linkBlock_sound : forall text i p q,
  reached p q -> blockSound text i p (Parser.linkBlock text i q).
Proof.
  intros text i p q Hq. unfold Parser.linkBlock.
  destruct (String.eqb (substring i (i + 2) text) "[[") eqn:E; [|exact Hq].
  apply String.eqb_eq in E.
  destruct (indexOf "]]" (i + 2) text) as [e|] eqn:Hi; simpl.
  - split; [now rewrite (reached_flush _ _ Hq)|].
    apply indexOf_spec in Hi; [|discriminate]. destruct Hi as (Hle & Hlt & Hd).
    exists ("[[" ++ substring (i + 2) e text ++ "]]").
    eexists. split; [apply (segment_link (substring (i + 2) e text))|].
    rewrite (substring_prefix_split text i 2 "[[" E eq_refl).
    rewrite Hd. simpl. rewrite !append_assoc. reflexivity.
  - right. now apply reached_flush.
Qed.

Lemma footnoteBlock_sound : forall text i p q,
  reached p q -> blockSound text i p (Parser.footnoteBlock text i q).
Proof.
  intros text i p q Hq. unfold Parser.footnoteBlock.
  destruct (String.eqb (substring i (i + 4) text) "[fn:") eqn:E; [|exact Hq].
  apply String.eqb_eq in E.
  destruct (indexOfChar "]" (i + 4) text) as [e|] eqn:Hi; simpl.
  - split; [now rewrite (reached_flush _ _ Hq)|].
    apply indexOfChar_spec in Hi. destruct Hi as (Hle & Hlt & Hd).
    exists ("[fn:" ++ substring (i + 4) e text ++ "]"), "".
    split; [apply segment_footnote|].
    rewrite (substring_prefix_split text i 4 "[fn:" E eq_refl).
    rewrite Hd. replace (e + 1) with (S e) by lia.
    simpl. rewrite !append_assoc. reflexivity.
  - right. now apply reached_flush.
Qed.

Lemma lineBreakBlock_sound : forall text i p q,
  reached p q -> blockSound text i p (Parser.lineBreakBlock text i q).
Proof.
  intros text i p q Hq. unfold Parser.lineBreakBlock.
  destruct (String.eqb (substring i (i + 2) text) "\\") eqn:E; [|exact Hq].
  apply String.eqb_eq in E. simpl.
  split; [now rewrite (reached_flush _ _ Hq)|].
  exists "\\", "". split; [apply segment_lineBreak|].
  apply (substring_prefix_split text i 2 "\\" E eq_refl).
Qed.

Lemma orElse_sound : forall text i c p b k,
  blockSound text i p b ->
  (forall q, reached p q -> stepSound text i c p (k q)) ->
  stepSound text i c p (Parser.orElse b k).
Proof.
  intros text i c p [a|q] k Hb Hk; simpl in *; auto.
  destruct a; simpl in *; auto. contradiction.
Qed.

Lemma isChar_eq : forall x c, isChar x c = true -> c = x.
Proof. intros x c H. now apply Ascii.eqb_eq in H. Qed.

Lemma step_sound : forall text i c p,
  get i text = Some c -> stepSound text i c p (Parser.step text i c p).
Proof.
  intros text i c p G. unfold Parser.step.
  apply orElse_sound.
  { apply delimited_sound; [exact G| |now left].
    intros content next ns Hm Hn Hd. apply isChar_eq in Hm. subst c.
    simpl. split; [exact Hn|]. rewrite Hd. reflexivity. }
  intros q1 H1. apply orElse_sound.
  { apply delimited_sound; [exact G| |exact H1].
    intros content next ns Hm Hn Hd. apply isChar_eq in Hm. subst c.
    simpl. split; [exact Hn|].
    exists ("/" ++ content ++ "/"), content. split; [constructor|].
    rewrite Hd. simpl. now rewrite append_assoc. }
  intros q2 H2. apply orElse_sound.
  { apply delimited_sound; [exact G| |exact H2].
    intros content next ns Hm Hn Hd. apply isChar_eq in Hm. subst c.
    simpl. split; [exact Hn|].
    exists ("_" ++ content ++ "_"), content. split; [constructor|].
    rewrite Hd. simpl. now rewrite append_assoc. }
  intros q3 H3. apply orElse_sound.
  { apply delimited_sound; [exact G| |exact H3].
    intros content next ns Hm Hn Hd.
    apply orb_true_iff in Hm. destruct Hm as [Hm|Hm]; apply isChar_eq in Hm; subst c;
      simpl; (split; [exact Hn|]).
    - exists ("~" ++ content ++ "~"), content. split; [constructor|].
      rewrite Hd. simpl. now rewrite append_assoc.
    - exists ("=" ++ content ++ "="), content. split; [constructor|].
      rewrite Hd. simpl. now rewrite append_assoc. }
  intros q4 H4. apply orElse_sound.
  { apply delimited_sound; [exact G| |exact H4].
    intros content next ns Hm Hn Hd. apply isChar_eq in Hm. subst c.
    simpl. split; [exact Hn|].
    exists ("+" ++ content ++ "+"), content. split; [constructor|].
    rewrite Hd. simpl. now rewrite append_assoc. }
  intros q5 H5. apply orElse_sound; [apply linkBlock_sound; exact H5|].
  intros q6 H6. apply orElse_sound; [apply footnoteBlock_sound; exact H6|].
  intros q7 H7. apply orElse_sound; [apply lineBreakBlock_sound; exact H7|].
  intros q8 H8. simpl. exists q8. auto.
Qed.

(** The result of the scan is a cut into segments of everything read. *)
Lemma scan_segments : forall fuel text i p r,
  Parser.scan fuel text i p = Some r ->
  forall sources showns,
    segments sources (Parser.nodes p) showns ->
    exists sources' showns',
      segments sources' r showns'
      /\ concatAll sources' = concatAll sources ++ Parser.current p ++ drop i text.
Proof.
  induction fuel as [|fuel IH]; intros text i p r H sources showns Hseg; [discriminate|].
  simpl in H.
  destruct (flush_segments p sources showns Hseg) as (s1 & h1 & Hs1 & Hc1).
  destruct (get i text) as [c|] eqn:G.
  - pose proof (step_sound text i c p G) as Hs.
    destruct (Parser.step text i c p) as [content next ns|node next ns|p']; simpl in Hs.
    + destruct Hs as [-> Hd].
      destruct (Parser.scan fuel content 0 Parser.start) as [kids|] eqn:K; [|discriminate].
      apply scan_parseInlineMarkup in K. subst kids.
      eapply IH in H; [|simpl; apply segments_snoc; [exact Hs1|apply segment_bold]].
      destruct H as (s2 & h2 & Hs2 & Hc2). exists s2, h2. split; [exact Hs2|].
      rewrite Hc2, concatAll_app, Hc1, Hd. cbn [concatAll Parser.current].
      right_nest_with append_assoc append_nil_r. reflexivity.
    + destruct Hs as [-> (source & shown & Hsg & Hd)].
      eapply IH in H; [|simpl; apply segments_snoc; [exact Hs1|exact Hsg]].
      destruct H as (s2 & h2 & Hs2 & Hc2). exists s2, h2. split; [exact Hs2|].
      rewrite Hc2, concatAll_app, Hc1, Hd. cbn [concatAll Parser.current].
      right_nest_with append_assoc append_nil_r. reflexivity.
    + destruct Hs as (q & [->| ->] & ->).
      * eapply IH in H; [|simpl; exact Hseg].
        destruct H as (s2 & h2 & Hs2 & Hc2). exists s2, h2. split; [exact Hs2|].
        rewrite Hc2. cbn [Parser.current]. rewrite (get_drop _ _ _ G).
        replace (i + 1) with (S i) by lia.
        right_nest_with append_assoc append_nil_r. reflexivity.
      * eapply IH in H; [|simpl; exact Hs1].
        destruct H as (s2 & h2 & Hs2 & Hc2). exists s2, h2. split; [exact Hs2|].
        rewrite Hc2, Hc1. cbn [Parser.current]. rewrite flush_current, (get_drop _ _ _ G).
        replace (i + 1) with (S i) by lia.
        right_nest_with append_assoc append_nil_r. reflexivity.
  - inversion H; subst. exists s1, h1. split; [exact Hs1|].
    rewrite Hc1, (drop_all i text (get_none _ _ G)), append_nil_r. reflexivity.
Qed.

Lemma parseInlineMarkup_segments : forall text,
  exists sources showns,
    segments sources (Parser.parseInlineMarkup text) showns
    /\ concatAll sources = text.
Proof.
  intros text.
  destruct (scan_segments _ _ _ _ _ (parseInlineMarkup_scan text) [] [] segments_nil)
    as (sources & showns & Hs & Hc).
  exists sources, showns. split; [exact Hs|]. rewrite Hc. reflexivity.
Qed.

(** The shown text of a segment is what its node's text leaves hold. *)
Lemma segment_shown : forall source node shown,
  segment source node shown -> visibleChild node = shown.
Proof.
  intros source node shown H.
  destruct H; try reflexivity;
    try (unfold visibleChild; simpl; now rewrite append_nil_r).
  unfold linkOf. destruct (linkParts linkContent) as [url description]. simpl.
  destruct (Parser.isImage url); [reflexivity|].
  unfold visibleChild. simpl. now rewrite append_nil_r.
Qed.

Lemma segments_shown : forall sources nodes showns,
  segments sources nodes showns ->
  visibleText (paragraphOf nodes) = concatAll showns.
Proof.
  intros sources nodes showns H. unfold paragraphOf. simpl.
  induction H; simpl; auto.
  f_equal; [|exact IHsegments].
  apply (segment_shown _ _ _ H).
Qed.

(** ** Stripping the markup of what [renderChildrenSync] writes *)

Lemma concat_empty_sep : forall l, String.concat "" l = concatAll l.
Proof.
  induction l as [|x [|y l] IH]; simpl in *; auto.
  - now rewrite append_nil_r.
  - now rewrite IH.
Qed.

Lemma stripTags_app : forall a b st,
  stripTags st (a ++ b) = stripTags st a ++ stripTags (endsInTag st a) b.
Proof.
  induction a as [|c a IH]; intros b st; simpl; auto.
  destruct st; [apply IH|].
  destruct (isChar "<" c); simpl; [apply IH|].
  now rewrite IH.
Qed.

Lemma endsInTag_app : forall a b st,
  endsInTag st (a ++ b) = endsInTag (endsInTag st a) b.
Proof.
  induction a as [|c a IH]; intros b st; simpl; auto.
  destruct st; apply IH.
Qed.

(** Text with no [<] is kept as it is; inside a tag, text with no [>] is
    dropped and the tag goes on. *)
Lemma stripTags_text : forall s,
  countChar "<" s = 0 -> stripTags false s = s /\ endsInTag false s = false.
Proof.
  induction s as [|c s IH]; simpl; auto. intros H.
  unfold isChar. destruct (Ascii.eqb c "<"); [lia|].
  destruct (IH H) as [H1 H2]. now rewrite H1, H2.
Qed.

Lemma stripTags_attribute : forall s,
  countChar ">" s = 0 -> stripTags true s = "" /\ endsInTag true s = true.
Proof.
  induction s as [|c s IH]; simpl; auto. intros H.
  unfold isChar. destruct (Ascii.eqb c ">"); [lia|].
  simpl. now apply IH.
Qed.

Lemma stripTags_escapeHtml : forall s,
  stripTags false (Renderer.escapeHtml s) = Renderer.escapeHtml s
  /\ endsInTag false (Renderer.escapeHtml s) = false
  /\ stripTags true (Renderer.escapeHtml s) = ""
  /\ endsInTag true (Renderer.escapeHtml s) = true.
Proof.
  intros s. destruct (escapeHtml_clean s) as (H1 & H2 & _ & _).
  destruct (stripTags_text _ H1), (stripTags_attribute _ H2). auto.
Qed.

Lemma escapedText_eq : forall node,
  escapedText node
  = concatAll
      (map (fun child =>
              match Ast.type child with
              | Ast.t_text => Renderer.escapeHtml (Renderer.orEmpty (Ast.value child))
              | _ => escapedText child
              end) (kidsOf (Ast.children node))).
Proof. intros [ty v ps [ks|]]; reflexivity. Qed.

Lemma visibleText_eq : forall node,
  visibleText node = concatAll (map visibleChild (kidsOf (Ast.children node))).
Proof. intros [ty v ps [ks|]]; reflexivity. Qed.

(** The tags removed, the escaped text leaves remain. *)
Lemma stripTags_renderChildrenSync : forall node,
  stripTags false (Renderer.renderChildrenSync node) = escapedText node
  /\ endsInTag false (Renderer.renderChildrenSync node) = false.
Proof.
  induction node as [ty v ps kids IH] using AstNode_forall_ind.
  rewrite renderChildrenSync_eq, escapedText_eq, concat_empty_sep.
  cbn [Ast.children]. induction IH as [|child ks Hc Hks IHks]; [simpl; auto|].
  cbn [map concatAll]. rewrite stripTags_app, endsInTag_app.
  assert (stripTags false (renderChildSync child)
          = match Ast.type child with
            | Ast.t_text => Renderer.escapeHtml (Renderer.orEmpty (Ast.value child))
            | _ => escapedText child
            end
          /\ endsInTag false (renderChildSync child) = false) as [H1 H2].
  { destruct Hc as [Hs He]. unfold renderChildSync.
    pose proof (stripTags_escapeHtml (Renderer.orEmpty (Ast.value child)))
      as (T1 & T2 & _ & _).
    pose proof (stripTags_escapeHtml
                  (Renderer.orEmpty (Ast.href (Ast.properties child))))
      as (_ & _ & A1 & A2).
    destruct (Ast.type child); auto;
      repeat (rewrite ?stripTags_app, ?endsInTag_app, ?Hs, ?He, ?A1, ?A2; simpl);
      rewrite ?append_nil_r; auto. }
  destruct IHks as [H3 H4]. rewrite H1, H2, H3, H4. auto.
Qed.

Lemma replaceAll_app : forall x rep a b,
  replaceAll x rep (a ++ b) = replaceAll x rep a ++ replaceAll x rep b.
Proof.
  induction a as [|c a IH]; intros b; simpl; auto.
  destruct (Ascii.eqb c x); rewrite IH; [now rewrite append_assoc|reflexivity].
Qed.

Lemma escapeHtml_app : forall a b,
  Renderer.escapeHtml (a ++ b) = Renderer.escapeHtml a ++ Renderer.escapeHtml b.
Proof. intros. unfold Renderer.escapeHtml. now rewrite !replaceAll_app. Qed.

Lemma escapeHtml_char : forall c,
  Renderer.escapeHtml (String c "") = escapeChar c.
Proof.
  intros c. unfold Renderer.escapeHtml, escapeChar, isChar.
  cbn [replaceAll].
  destruct (Ascii.eqb c "&") eqn:E1; [reflexivity|]. cbn [replaceAll].
  destruct (Ascii.eqb c "<") eqn:E2; [reflexivity|]. cbn [replaceAll].
  destruct (Ascii.eqb c ">") eqn:E3; [reflexivity|]. cbn [replaceAll].
  destruct (Ascii.eqb c dqChar) eqn:E4; [reflexivity|]. cbn [replaceAll].
  destruct (Ascii.eqb c "'") eqn:E5; reflexivity.
Qed.

Lemma escapeHtml_cons : forall c s,
  Renderer.escapeHtml (String c s) = escapeChar c ++ Renderer.escapeHtml s.
Proof.
  intros c s. change (String c s) with (String c "" ++ s).
  now rewrite escapeHtml_app, escapeHtml_char.
Qed.

(** Decoding gives back the character an entity stands for. *)
Lemma decode_escapeChar : forall c rest,
  decodeEntities 0 (escapeChar c ++ rest) = String c (decodeEntities 0 rest).
Proof.
  intros c rest. unfold escapeChar, isChar.
  destruct (Ascii.eqb_spec c "&") as [->|N1]; [reflexivity|].
  destruct (Ascii.eqb_spec c "<") as [->|N2]; [reflexivity|].
  destruct (Ascii.eqb_spec c ">") as [->|N3]; [reflexivity|].
  destruct (Ascii.eqb_spec c dqChar) as [->|N4]; [reflexivity|].
  destruct (Ascii.eqb_spec c "'") as [->|N5]; [reflexivity|].
  cbn [append decodeEntities hasPrefix].
  destruct (Ascii.eqb_spec c "&") as [->|_]; [congruence|]. reflexivity.
Qed.

Lemma decode_escapeHtml : forall s rest,
  decodeEntities 0 (Renderer.escapeHtml s ++ rest) = s ++ decodeEntities 0 rest.
Proof.
  induction s as [|c s IH]; intros rest; [reflexivity|].
  rewrite escapeHtml_cons, append_assoc, decode_escapeChar, IH. reflexivity.
Qed.

Lemma decode_escapedText : forall node rest,
  decodeEntities 0 (escapedText node ++ rest)
  = visibleText node ++ decodeEntities 0 rest.
Proof.
  induction node as [ty v ps kids IH] using AstNode_forall_ind.
  intros rest. rewrite escapedText_eq, visibleText_eq. cbn [Ast.children].
  induction IH as [|child ks Hc Hks IHks]; [reflexivity|].
  cbn [map concatAll]. rewrite !append_assoc.
  unfold visibleChild at 1.
  destruct (Ast.type child);
    first [ rewrite decode_escapeHtml | rewrite Hc ]; rewrite IHks; reflexivity.
Qed.

(** Rendering, then stripping the markup, gives the text leaves. *)
Lemma stripMarkup_renderChildrenSync : forall node,
  stripMarkup (Renderer.renderChildrenSync node) = visibleText node.
Proof.
  intros node. unfold stripMarkup.
  destruct (stripTags_renderChildrenSync node) as [H _]. rewrite H.
  rewrite <- (append_nil_r (escapedText node)), decode_escapedText.
  simpl. apply append_nil_r.
Qed.

(* ================================================================== *)
(** * The claims *)
(* ================================================================== *)

Lemma showZ_1_6 : forall N : Z,
  (1 <= N <= 6)%Z -> In (showZ N) ["1"; "2"; "3"; "4"; "5"; "6"].
Proof.
  intros N H.
  assert (N = 1 \/ N = 2 \/ N = 3 \/ N = 4 \/ N = 5 \/ N = 6)%Z as Hc by lia.
  destruct Hc as [->|[->|[->|[->|[->| ->]]]]]; vm_compute; tauto.
Qed.

Lemma parseHeading_level : forall i line,
  Lexer.type (Lexer.classify i line) = Lexer.HEADING ->
  Ast.level (Ast.properties (Parser.parseHeading (Lexer.classify i line)))
  = Some (Z.of_nat (String.length (takeWhile (isChar "*") (trim line)))).
Proof.
  intros i line H. destruct (classify_heading i line H) as [Hl Hs].
  unfold Parser.parseHeading. rewrite Hl. simpl.
  destruct (String.length (takeWhile (isChar "*") (trim line))); [lia|reflexivity].
Qed.

(** C9. The inline parser terminates on every text: a turn of the loop
    at index [i] continues at an index past [i] and inside the text, the
    recursive call of the bold branch is on a string strictly shorter
    than the text, and [parseInlineMarkup] returns a node list for every
    text (with one unit of fuel per character and one more, and with any
    larger amount). *)
Theorem parseInlineMarkup_total : forall text : string,
  (forall i p,
      match get i text with
      | Some c =>
          match Parser.step text i c p with
          | Parser.Bold content next _ =>
              String.length content < String.length text
              /\ i < next /\ next <= String.length text
          | Parser.Leaf _ next _ => i < next /\ next <= String.length text
          | Parser.Plain _ => i < i + 1 /\ i + 1 <= String.length text
          end
      | None => True
      end)
  /\ exists nodes,
       (forall fuel, String.length text < fuel ->
                     Parser.parseInlineMarkupFuel fuel text = Some nodes)
       /\ Parser.parseInlineMarkup text = nodes.
Proof.
  intros text. split.
  - intros i p. destruct (get i text) as [c|] eqn:G; [|exact I].
    apply get_lt in G.
    pose proof (step_advances text i c p) as H.
    destruct (Parser.step text i c p); simpl in H; lia.
  - apply parseInlineMarkupFuel_total.
Qed.

(** C1, as stated, fails: with the default options the output of the
    titled document starts with a table of contents, before the heading
    and the paragraph. *)
Lemma titled_document_has_toc :
  option_map (fun ast => Renderer.fullHtml noHighlight ast Renderer.defaultOptions)
    (Parser.parse identity titledDocument)
  = Some (titledToc ++ titledBody)
  /\ option_map
       (fun ast => Renderer.html (Renderer.renderToHtml noHighlight identity ast
                                    Renderer.defaultOptions))
       (Parser.parse identity titledDocument)
     = Some (titledToc ++ titledBody)
  /\ String.eqb (titledToc ++ titledBody) titledBody = false
  /\ prefix "<nav" (titledToc ++ titledBody) = true.
Proof. vm_compute. repeat split; reflexivity. Qed.

(** C1, amended. For the titled document and the default options the
    body (the heading and the single paragraph) is exactly [titledBody],
    no footnote block is produced, and a table of contents with the one
    heading precedes the body: the string handed to the sanitizer is
    [titledToc ++ titledBody]. *)
Theorem titled_document_render :
  forall (slugifyLib : string -> string) (highlightCode : string -> string -> string)
         (sanitizeHtml : string -> string),
  exists ast,
    Parser.parse slugifyLib titledDocument = Some ast
    /\ fst (Renderer.renderBody highlightCode ast Renderer.defaultOptions) = titledBody
    /\ Renderer.renderFootnotes
         (snd (Renderer.renderBody highlightCode ast Renderer.defaultOptions)) = ""
    /\ Renderer.renderToc ast
         (snd (Renderer.renderBody highlightCode ast Renderer.defaultOptions)) = titledToc
    /\ Renderer.fullHtml highlightCode ast Renderer.defaultOptions
       = titledToc ++ titledBody
    /\ Renderer.html
         (Renderer.renderToHtml highlightCode sanitizeHtml ast Renderer.defaultOptions)
       = sanitizeHtml (titledToc ++ titledBody).
Proof.
  intros slugifyLib highlightCode sanitizeHtml.
  eexists. split; [vm_compute; reflexivity|].
  repeat split; vm_compute; reflexivity.
Qed.

(** C3, as stated, fails: the table has two tableRow nodes, the first
    one for the row [|a|b|]. *)
Lemma small_table_has_two_rows :
  Parser.parseTokens (Lexer.tokenize smallTable)
  = Some [tableOf [["a"; "b"]; ["1"; "2"]]]
  /\ option_map (map (fun node => option_map (@List.length Ast.AstNode) (Ast.children node)))
       (Parser.parseTokens (Lexer.tokenize smallTable))
     = Some [Some 2].
Proof. vm_compute. split; reflexivity. Qed.

(** C3, amended. The table input yields one table node with exactly two
    tableRow nodes, with the cell texts a, b and 1, 2; the separator row
    produces no tableRow node, as no row does that matches the separator
    pattern. *)
Theorem small_table_rows :
  Parser.parseTokens (Lexer.tokenize smallTable)
  = Some [tableOf [["a"; "b"]; ["1"; "2"]]]
  /\ Parser.isSeparatorRow "|-|-|" = true
  /\ Parser.isSeparatorRow "|a|b|" = false
  /\ Parser.isSeparatorRow "|1|2|" = false
  /\ (forall t rest i rows,
        Lexer.type t = Lexer.TABLE_ROW ->
        Parser.isSeparatorRow (Lexer.value t) = true ->
        Parser.tableRows (t :: rest) i rows = Parser.tableRows rest (i + 1) rows)
  /\ (forall t rest i rows,
        Lexer.type t = Lexer.TABLE_ROW ->
        Parser.isSeparatorRow (Lexer.value t) = false ->
        Parser.tableRows (t :: rest) i rows
        = Parser.tableRows rest (i + 1)
            (rows ++ [Parser.tableRowNode (Lexer.value t)])%list).
Proof.
  split; [vm_compute; reflexivity|].
  split; [reflexivity|]. split; [reflexivity|]. split; [reflexivity|].
  split; intros t rest i rows Ht Hs; simpl; rewrite Ht, Hs; reflexivity.
Qed.

Lemma extractLoop_ge : forall rest i b props m,
  i <= Metadata.contentStartLine (Metadata.extractLoop rest i b props m).
Proof.
  induction rest as [|raw rest IH]; intros i b props m; simpl; [lia|].
  repeat match goal with
         | |- context [if ?c then _ else _] => destruct c
         | |- context [match Metadata.propMatch ?l with _ => _ end] =>
             destruct (Metadata.propMatch l) as [[? ?]|]
         | |- context [match Metadata.metaMatch ?l with _ => _ end] =>
             destruct (Metadata.metaMatch l) as [[? ?]|]
         end;
    simpl; try lia;
    match goal with |- context [Metadata.extractLoop rest (i + 1) ?b' ?p' ?m'] =>
      specialize (IH (i + 1) b' p' m'); lia end.
Qed.

Lemma startsWith_hash_plus : forall s, startsWith "#+" s = true ->
  startsWith "#" s = true /\ String.eqb s ":PROPERTIES:" = false
  /\ String.eqb s ":END:" = false.
Proof.
  intros s H. unfold startsWith in *.
  apply prefix_split in H. rewrite H. simpl.
  repeat split; reflexivity.
Qed.

(** C2, as stated, fails: a line that begins with [#+] and is no keyword
    line (here a title line that lacks its colon, which the lexer would
    read as a plain text line) is passed over by the extractor; the
    extraction goes on, stops at the next line, and the line is not part of
    the body handed to the lexer. *)
Lemma colonless_keyword_line_is_dropped :
  startsWith "#+" (trim colonlessTitle) = true
  /\ Metadata.metaMatch (trim colonlessTitle) = None
  /\ lineType colonlessTitle = Lexer.TEXT
  /\ Metadata.contentStartLine (Metadata.extractMetadata identity colonlessDocument) = 1
  /\ skipn (Metadata.contentStartLine (Metadata.extractMetadata identity colonlessDocument))
       colonlessDocument
     = ["Some text."]
  /\ Metadata.metadata (Metadata.extractMetadata identity colonlessDocument)
     = Metadata.emptyMetadata
  /\ map Lexer.value
       (Lexer.tokenize
          (join nl (skipn (Metadata.contentStartLine
                             (Metadata.extractMetadata identity colonlessDocument))
                          colonlessDocument)))
     = ["Some text."].
Proof. vm_compute. repeat split; reflexivity. Qed.

(** C2, amended. Outside a property drawer, a line that begins with [#+],
    does not match the keyword pattern and is no block delimiter (the
    lexer reads it as a plain text line) is skipped: the loop goes on with
    the next line, so the body handed to the lexer starts after it.  A
    line that is not blank and starts with neither [#] nor [:] ends the
    loop; that line's index is [contentStartLine]. *)
Theorem malformed_keyword_line_is_skipped :
  forall (raw : string) (rest : list string) (i : nat) (props : Obj string)
         (m : Metadata.OrgMetadata),
    startsWith "#+" (trim raw) = true ->
    Metadata.metaMatch (trim raw) = None ->
    lineType raw = Lexer.TEXT ->
    Metadata.extractLoop (raw :: rest) i false props m
    = Metadata.extractLoop rest (i + 1) false props m
    /\ i < Metadata.contentStartLine (Metadata.extractLoop (raw :: rest) i false props m)
    /\ (forall stop rest',
          isEmpty (trim stop) = false ->
          startsWith "#" (trim stop) = false ->
          startsWith ":" (trim stop) = false ->
          Metadata.extractLoop (stop :: rest') i false props m
          = {| Metadata.metadata := m; Metadata.contentStartLine := i |}).
Proof.
  intros raw rest i props m Hs Hm _.
  destruct (startsWith_hash_plus _ Hs) as (Hh & Hp & He).
  assert (Metadata.extractLoop (raw :: rest) i false props m
          = Metadata.extractLoop rest (i + 1) false props m) as Hstep.
  { simpl. rewrite Hp, He, Hm, Hh. simpl.
    rewrite andb_false_r. reflexivity. }
  split; [exact Hstep|]. split.
  - rewrite Hstep. pose proof (extractLoop_ge rest (i + 1) false props m). lia.
  - intros stop rest' Hne Hh' Hc'. simpl.
    assert (String.eqb (trim stop) ":PROPERTIES:" = false) as E1.
    { apply String.eqb_neq. intros Heq. rewrite Heq in Hc'. discriminate. }
    assert (String.eqb (trim stop) ":END:" = false) as E2.
    { apply String.eqb_neq. intros Heq. rewrite Heq in Hc'. discriminate. }
    assert (Metadata.metaMatch (trim stop) = None) as E3.
    { clear E1 E2. revert Hne Hh' Hc'.
      destruct (trim stop) as [|c s]; intros Hne Hh' Hc'; [reflexivity|].
      destruct (Ascii.eqb_spec c "#") as [->|Hn]; [destruct s; vm_compute in Hh'; discriminate|].
      unfold Metadata.metaMatch.
      destruct c as [[] [] [] [] [] [] [] []]; try reflexivity. congruence. }
    rewrite E1, E2, E3, Hne, Hh', Hc'. reflexivity.
Qed.

Lemma malformed_keyword_line_is_skipped_witness :
  startsWith "#+" (trim colonlessTitle) = true
  /\ Metadata.metaMatch (trim colonlessTitle) = None
  /\ lineType colonlessTitle = Lexer.TEXT
  /\ Metadata.extractLoop colonlessDocument 0 false [] Metadata.emptyMetadata
     = Metadata.extractLoop (tl colonlessDocument) (0 + 1) false [] Metadata.emptyMetadata
  /\ 0 < Metadata.contentStartLine
           (Metadata.extractLoop colonlessDocument 0 false [] Metadata.emptyMetadata)
  /\ (forall stop rest',
         isEmpty (trim stop) = false ->
         startsWith "#" (trim stop) = false ->
         startsWith ":" (trim stop) = false ->
         Metadata.extractLoop (stop :: rest') 0 false [] Metadata.emptyMetadata
         = {| Metadata.metadata := Metadata.emptyMetadata;
              Metadata.contentStartLine := 0 |}).
Proof.
  split; [reflexivity|]. split; [reflexivity|]. split; [reflexivity|].
  exact (malformed_keyword_line_is_skipped colonlessTitle ["Some text."] 0 []
           Metadata.emptyMetadata eq_refl eq_refl eq_refl).
Defined.

(** The loop of [parseList] takes the longest run of tokens that continue
    the list, and stops before the first one that does not. *)
Lemma listItems_run : forall base rest i items,
  exists n,
    n <= List.length rest
    /\ Parser.listItems base rest i items
       = ((items ++ map listItemNode (firstn n rest))%list, i + n)
    /\ (forall t, In t (firstn n rest) -> continuesList base t = true)
    /\ (forall t, nth_error rest n = Some t -> continuesList base t = false).
Proof.
  induction rest as [|t rest IH]; intros i items.
  - exists 0. simpl. rewrite app_nil_r, Nat.add_0_r.
    repeat split; auto; try contradiction. intros t H; discriminate.
  - simpl. fold (continuesList base t).
    destruct (continuesList base t) eqn:E.
    + destruct (IH (i + 1) (items ++ [listItemNode t])%list) as (n & Hn & Hr & Hin & Hout).
      exists (S n). simpl. split; [lia|]. split.
      * unfold listItemNode in *. rewrite Hr. rewrite <- app_assoc. simpl.
        f_equal. lia.
      * split; [|exact Hout]. intros t' [<-|H]; auto.
    + exists 0. simpl. rewrite app_nil_r, Nat.add_0_r.
      repeat split; auto; try lia; try contradiction.
      intros t' H. inversion H; subst. exact E.
Qed.

Lemma continuesList_true : forall base t,
  continuesList base t = true <->
  Lexer.type t = Lexer.LIST_ITEM /\ Lexer.indent t = base.
Proof.
  intros base t. unfold continuesList. rewrite andb_true_iff, Nat.eqb_eq.
  destruct (Lexer.type t); simpl; split; intros [H1 H2]; split; auto; discriminate.
Qed.

(** C7. [parseList], called at a token, builds the list from exactly the
    [n] consecutive tokens from [startIndex] on that are LIST_ITEM tokens
    with the indent of the opening token; the next token, if there is
    one, is no LIST_ITEM or has a different indent (one space more is
    enough), and it is not an item of the list: [endIndex] is the index
    of the last item. *)
Theorem parseList_same_indent :
  forall (tokens : list Lexer.Token) (startIndex : nat) (startToken : Lexer.Token),
    nth_error tokens startIndex = Some startToken ->
    exists n node,
      Parser.parseList tokens startIndex
      = Some (node, (Z.of_nat (startIndex + n) - 1)%Z)
      /\ Ast.type node = Ast.t_list
      /\ Ast.children node
         = Some (map listItemNode (firstn n (skipn startIndex tokens)))
      /\ List.length (firstn n (skipn startIndex tokens)) = n
      /\ (forall t, In t (firstn n (skipn startIndex tokens)) ->
                    Lexer.type t = Lexer.LIST_ITEM
                    /\ Lexer.indent t = Lexer.indent startToken)
      /\ (forall t, nth_error tokens (startIndex + n) = Some t ->
                    Lexer.type t <> Lexer.LIST_ITEM
                    \/ Lexer.indent t <> Lexer.indent startToken)
      /\ (Lexer.type startToken = Lexer.LIST_ITEM -> 1 <= n).
Proof.
  intros tokens startIndex startToken H.
  unfold Parser.parseList. rewrite H.
  destruct (listItems_run (Lexer.indent startToken) (skipn startIndex tokens)
              startIndex []) as (n & Hn & Hr & Hin & Hout).
  rewrite Hr. simpl.
  exists n. eexists. split; [reflexivity|]. simpl.
  split; [reflexivity|]. split; [reflexivity|].
  split; [apply firstn_length_le; exact Hn|].
  split; [intros t Ht; apply continuesList_true; auto|].
  split.
  - intros t Ht. rewrite <- nth_error_skipn in Ht. apply Hout in Ht.
    destruct (Lexer.TokenType_eqb (Lexer.type t) Lexer.LIST_ITEM) eqn:E1.
    + right. unfold continuesList in Ht. rewrite E1 in Ht. simpl in Ht.
      now apply Nat.eqb_neq.
    + left. intros Hty. rewrite Hty in E1. discriminate.
  - intros Hty. destruct n; [|lia].
    rewrite (nth_error_skipn_cons _ _ _ _ H) in Hout.
    specialize (Hout startToken eq_refl).
    assert (continuesList (Lexer.indent startToken) startToken = true) as Hc
        by (apply continuesList_true; auto).
    congruence.
Qed.

Lemma parseList_same_indent_witness :
  exists n node,
    Parser.parseList (Lexer.tokenize indentedItems) 0
    = Some (node, (Z.of_nat (0 + n) - 1)%Z)
    /\ Ast.type node = Ast.t_list
    /\ Ast.children node
       = Some (map listItemNode (firstn n (skipn 0 (Lexer.tokenize indentedItems))))
    /\ List.length (firstn n (skipn 0 (Lexer.tokenize indentedItems))) = n
    /\ (forall t, In t (firstn n (skipn 0 (Lexer.tokenize indentedItems))) ->
                  Lexer.type t = Lexer.LIST_ITEM
                  /\ Lexer.indent t = Lexer.indent (Lexer.classify 0 "- a"))
    /\ (forall t, nth_error (Lexer.tokenize indentedItems) (0 + n) = Some t ->
                  Lexer.type t <> Lexer.LIST_ITEM
                  \/ Lexer.indent t <> Lexer.indent (Lexer.classify 0 "- a"))
    /\ (Lexer.type (Lexer.classify 0 "- a") = Lexer.LIST_ITEM -> 1 <= n).
Proof.
  exact (parseList_same_indent (Lexer.tokenize indentedItems) 0
           (Lexer.classify 0 "- a") eq_refl).
Defined.

(** One space more of indent ends the list: the three items of
    [indentedItems] make three lists of one item each. *)
Example indented_item_ends_list :
  map Lexer.indent (Lexer.tokenize indentedItems) = [0; 1; 0]
  /\ option_map (map (fun node =>
                        (Ast.type node,
                         option_map (@List.length Ast.AstNode) (Ast.children node))))
       (Parser.parseTokens (Lexer.tokenize indentedItems))
     = Some [(Ast.t_list, Some 1); (Ast.t_list, Some 1); (Ast.t_list, Some 1)]
  /\ option_map snd (Parser.parseList (Lexer.tokenize indentedItems) 0) = Some 0%Z.
Proof. vm_compute. repeat split; reflexivity. Qed.

Lemma substring_get : forall text i c k,
  get i text = Some c ->
  substring i (i + S k) text = String c (take k (drop (S i) text)).
Proof.
  intros text i c k G. rewrite substring_le by lia.
  replace (i + S k - i) with (S k) by lia.
  now rewrite (get_drop _ _ _ G).
Qed.

Lemma take_take : forall a b s, a <= b -> take a (take b s) = take a s.
Proof.
  induction a; intros b s H; destruct s, b; simpl; auto; try lia.
  f_equal. apply IHa. lia.
Qed.

Lemma substring_2_of_4 : forall text i,
  substring i (i + 2) text = take 2 (substring i (i + 4) text).
Proof.
  intros. rewrite !substring_le by lia.
  replace (i + 2 - i) with 2 by lia. replace (i + 4 - i) with 4 by lia.
  now rewrite take_take by lia.
Qed.

Lemma isNone_true : forall (A : Type) (o : option A), isNone o = true -> o = None.
Proof. intros A [a|]; simpl; congruence. Qed.

(** An unmatched opener: the turn of the loop at it. *)
Lemma unmatched_step : forall text i c p,
  get i text = Some c ->
  unmatchedOpener text i c = true ->
  Parser.step text i c p
  = Parser.Plain {| Parser.current := String c "";
                    Parser.nodes := Parser.nodes (Parser.flush p) |}.
Proof.
  intros text i c p G H.
  pose proof (substring_get text i c 1 G) as S2.
  pose proof (substring_get text i c 3 G) as S4.
  replace (i + 2) with (i + 2) in S2 by lia.
  unfold unmatchedOpener in H.
  apply orb_true_iff in H. destruct H as [H|H]; [apply orb_true_iff in H; destruct H as [H|H]|].
  - (* a one-character marker *)
    apply andb_true_iff in H. destruct H as [H Hi].
    apply andb_true_iff in H. destruct H as [Hm Hn].
    apply isNone_true in Hi.
    unfold Parser.step, Parser.boldBlock, Parser.italicBlock, Parser.underlineBlock,
      Parser.codeBlock, Parser.strikeBlock, Parser.delimited, Parser.linkBlock,
      Parser.footnoteBlock, Parser.lineBreakBlock.
    unfold markerChar in Hm.
    repeat (apply orb_true_iff in Hm; destruct Hm as [Hm|Hm]);
      apply Ascii.eqb_eq in Hm; subst c;
      rewrite ?Hn, ?Hi, ?S2, ?S4; simpl;
      rewrite ?Hn, ?Hi, ?S2, ?S4; simpl;
      rewrite ?flush_flush, ?flush_current; reflexivity.
  - (* [[ with no ]] *)
    apply andb_true_iff in H. destruct H as [Hl Hi].
    apply isNone_true in Hi. apply String.eqb_eq in Hl.
    assert (c = "["%char) as -> by (rewrite S2 in Hl; now inversion Hl).
    assert (String.eqb (substring i (i + 4) text) "[fn:" = false) as Hf.
    { apply String.eqb_neq. intros E.
      rewrite substring_2_of_4, E in Hl. discriminate. }
    unfold Parser.step, Parser.boldBlock, Parser.italicBlock, Parser.underlineBlock,
      Parser.codeBlock, Parser.strikeBlock, Parser.delimited, Parser.linkBlock,
      Parser.footnoteBlock, Parser.lineBreakBlock.
    simpl. rewrite Hl, Hi, Hf. simpl. now rewrite flush_current.
  - (* [fn: with no ] *)
    apply andb_true_iff in H. destruct H as [Hf Hi].
    apply isNone_true in Hi. apply String.eqb_eq in Hf.
    assert (c = "["%char) as -> by (rewrite S4 in Hf; now inversion Hf).
    assert (substring i (i + 2) text = "[f") as Hl
        by (now rewrite substring_2_of_4, Hf).
    unfold Parser.step, Parser.boldBlock, Parser.italicBlock, Parser.underlineBlock,
      Parser.codeBlock, Parser.strikeBlock, Parser.delimited, Parser.linkBlock,
      Parser.footnoteBlock, Parser.lineBreakBlock.
    simpl. rewrite Hl, Hf, Hi. simpl. now rewrite flush_current.
Qed.



(** Unmatched openers of each kind, parsed: every one is plain text. *)
Example unmatched_openers_parsed :
  Parser.parseInlineMarkup "a*b"
  = [Ast.createTextNode "a"; Ast.createTextNode "*b"]
  /\ Parser.parseInlineMarkup "x [[y"
     = [Ast.createTextNode "x "; Ast.createTextNode "[[y"]
  /\ Parser.parseInlineMarkup "[fn:1 /i _u ~c =v +s"
     = [Ast.createTextNode "[fn:1 "; Ast.createTextNode "/i ";
        Ast.createTextNode "_u "; Ast.createTextNode "~c ";
        Ast.createTextNode "=v "; Ast.createTextNode "+s"].
Proof. vm_compute. repeat split; reflexivity. Qed.


(** The text of a heading as the output shows it: escaped with five
    entities in the body, with three in the table of contents. *)
Example heading_text_in_body_and_toc :
  Renderer.fullHtml noHighlight (quoteHeading ("<b>" ++ dq ++ "'&")) unsanitized
  = "<nav class=" ++ dq ++ "toc" ++ dq ++ "><h2>Table of Contents</h2><ul><li><a href="
    ++ dq ++ "#b" ++ dq ++ ">&lt;b&gt;" ++ dq ++ "'&amp;</a></li></ul></nav>" ++ nl
    ++ "<h1 id=" ++ dq ++ "b" ++ dq ++ ">&lt;b&gt;&quot;&#039;&amp;</h1>" ++ nl.
Proof. vm_compute. reflexivity. Qed.

(** C5, as stated, fails: of the text [[[x][y][z]]] the parser keeps the
    url [x] and the description [y]; the third part is in no node, and
    the character [z] is nowhere in the rendered string. *)
Lemma third_link_part_is_lost :
  Parser.parseInlineMarkup "[[x][y][z]]" = [Parser.linkNode "x" "y"]
  /\ Renderer.renderChildrenSync (paragraphOf (Parser.parseInlineMarkup "[[x][y][z]]"))
     = "<a href=" ++ dq ++ "x" ++ dq ++ ">y</a>"
  /\ stripMarkup
       (Renderer.renderChildrenSync (paragraphOf (Parser.parseInlineMarkup "[[x][y][z]]")))
     = "y"
  /\ countChar "z" "[[x][y][z]]" = 1
  /\ countChar "z"
       (Renderer.renderChildrenSync
          (paragraphOf (Parser.parseInlineMarkup "[[x][y][z]]")))
     = 0.
Proof. vm_compute. repeat split; reflexivity. Qed.

(** C5, amended. For every text the node list of the inline parser is a
    complete cut of the text, in order, into segments: plain text (a text
    leaf), a construct between two asterisks (a bold node over the inline
    parse of what lies between them), between two slashes, underscores,
    tildes, equals signs or plus signs (a node over one text leaf), a
    footnote reference, a line break, a double-bracket construct (a link
    or an image).  Rendering the list with [renderChildrenSync] and
    stripping the markup gives, in order, what the segments show: all of
    the plain text and of the emphasised text; of a double-bracket
    construct the description (its second part) or, when it has none,
    the url, and nothing for an image; nothing for a footnote reference
    and a line break. *)
Theorem inline_parse_cuts_text : forall text : string,
  exists sources showns,
    segments sources (Parser.parseInlineMarkup text) showns
    /\ concatAll sources = text
    /\ stripMarkup
         (Renderer.renderChildrenSync (paragraphOf (Parser.parseInlineMarkup text)))
       = concatAll showns.
Proof.
  intros text.
  destruct (parseInlineMarkup_segments text) as (sources & showns & Hs & Hc).
  exists sources, showns. split; [exact Hs|]. split; [exact Hc|].
  rewrite stripMarkup_renderChildrenSync. eapply segments_shown; exact Hs.
Qed.

(** A text with every kind of segment, and what is shown of it. *)
Example segments_of_a_text :
  stripMarkup
    (Renderer.renderChildrenSync
       (paragraphOf
          (Parser.parseInlineMarkup
             "a<b *c /d/* _e_ ~f~ =g= +h+ [[u][v]] [[w]] [[p.png][q]] [fn:1] \\ i*")))
  = "a<b c d e f g h v w    i*".
Proof. vm_compute. reflexivity. Qed.

(* ================================================================== *)
(** * Further properties of the engine *)
(* ================================================================== *)

(** ** Lines *)

Lemma length_split : forall c s, List.length (split c s) = S (countChar c s).
Proof.
  intros c; induction s as [|x s IH]; simpl; auto.
  destruct (Ascii.eqb x c); simpl.
  - now rewrite IH.
  - destruct (split c s); simpl in *; lia.
Qed.

Lemma split_not_nil : forall c s, split c s <> [].
Proof.
  intros c s H. pose proof (length_split c s) as L. rewrite H in L. discriminate.
Qed.

(** The line number of a token is the index handed to [classify]. *)
Lemma classify_line : forall i l, Lexer.line (Lexer.classify i l) = i.
Proof.
  intros i l. unfold Lexer.classify. cbv zeta.
  repeat match goal with
         | |- context [match ?x with _ => _ end] => destruct x
         end; reflexivity.
Qed.

Lemma tokenizeFrom_lines : forall ls i,
  map Lexer.line (Lexer.tokenizeFrom i ls) = seq i (List.length ls).
Proof.
  induction ls as [|l ls IH]; intros i; simpl; auto.
  now rewrite classify_line, IH.
Qed.

(** X1. [tokenize] makes one token for every line of its input, blank
    lines included, and numbers them from 0: the line numbers of the
    tokens are 0, 1, ..., n, where n is the number of line feeds of the
    input. *)
Theorem tokenize_one_token_per_line : forall content : string,
  map Lexer.line (Lexer.tokenize content) = seq 0 (S (countChar nlChar content))
  /\ List.length (Lexer.tokenize content) = S (countChar nlChar content).
Proof.
  intros content. unfold Lexer.tokenize.
  assert (map Lexer.line (Lexer.tokenizeFrom 0 (split nlChar content))
          = seq 0 (S (countChar nlChar content))) as H
      by now rewrite tokenizeFrom_lines, length_split.
  split; [exact H|].
  rewrite <- (length_map Lexer.line), H. apply length_seq.
Qed.

(** ** Token types *)

Lemma classify_lexed : forall i l, neverLexed (Lexer.type (Lexer.classify i l)) = false.
Proof.
  intros i l. unfold Lexer.classify. cbv zeta.
  repeat match goal with
         | |- context [match ?x with _ => _ end] => destruct x eqn:?
         end; try reflexivity.
  (* the DRAWER_END branch: the drawer pattern has matched the line before *)
  match goal with
  | H : String.eqb _ ":END:" = true |- _ => apply String.eqb_eq in H; rewrite H in *
  end.
  discriminate.
Qed.

(** X2. [tokenize] never produces a DRAWER_END token (nor a PARAGRAPH
    token): the line [:END:] matches the drawer pattern, which is tried
    first, so it is a DRAWER_START token with the name END. *)
Theorem tokenize_never_closes_a_drawer : forall content : string,
  Forall (fun t => Lexer.type t <> Lexer.DRAWER_END /\ Lexer.type t <> Lexer.PARAGRAPH)
    (Lexer.tokenize content)
  /\ forall i,
       Lexer.type (Lexer.classify i ":END:") = Lexer.DRAWER_START
       /\ Lexer.name (Lexer.properties (Lexer.classify i ":END:")) = Some "END".
Proof.
  intros content. split.
  - apply Forall_forall. intros t Hin. unfold Lexer.tokenize in Hin.
    apply tokenizeFrom_In in Hin. destruct Hin as (j & l & _ & ->).
    pose proof (classify_lexed j l) as H.
    split; intros E; rewrite E in H; discriminate.
  - intros i. split; reflexivity.
Qed.

Lemma takeWhile_app_stop : forall p s d t,
  p d = false -> takeWhile p (takeWhile p s ++ String d t) = takeWhile p s.
Proof.
  intros p s d t Hd. induction s as [|c s IH]; simpl.
  - now rewrite Hd.
  - destruct (p c) eqn:E; simpl; [now rewrite E, IH|now rewrite Hd].
Qed.

Lemma dropWhile_app_stop : forall p s d t,
  p d = false -> dropWhile p (takeWhile p s ++ String d t) = String d t.
Proof.
  intros p s d t Hd. induction s as [|c s IH]; simpl.
  - now rewrite Hd.
  - destruct (p c) eqn:E; simpl; [now rewrite E|now rewrite Hd].
Qed.

Lemma takeWhile_dropWhile : forall p s, takeWhile p s ++ dropWhile p s = s.
Proof.
  intros p; induction s as [|c s IH]; simpl; auto.
  destruct (p c); simpl; [now rewrite IH|reflexivity].
Qed.

Lemma spacesThenRest_starts : forall s r,
  spacesThenRest s = Some r -> startsSpace s = true.
Proof.
  unfold spacesThenRest. intros s r H.
  destruct (startsSpace s); [reflexivity|discriminate].
Qed.

(** A star followed by white space opens a heading. *)
Lemma star_is_heading : forall rest text,
  spacesThenRest rest = Some text ->
  Lexer.headingMatch (String "*" rest) = Some ("*", text).
Proof.
  intros rest text H. pose proof (spacesThenRest_starts _ _ H) as Hs.
  unfold Lexer.headingMatch.
  destruct rest as [|c rest]; [discriminate|].
  simpl in Hs.
  assert (isChar "*" c = false) as Hc.
  { unfold isChar. destruct (Ascii.eqb c "*") eqn:E; auto.
    apply Ascii.eqb_eq in E. subst c. discriminate. }
  simpl. rewrite Hc. simpl. now rewrite H.
Qed.

Lemma isChar_true : forall x c, isChar x c = true -> c = x.
Proof. unfold isChar. intros x c H. now apply Ascii.eqb_eq in H. Qed.

Lemma numbered_marker : forall s d rest',
  dropWhile isDigit s = String d rest' ->
  negb (isEmpty (takeWhile isDigit s)) = true ->
  isChar "." d || isChar ")" d = true ->
  Lexer.orderedMarker (takeWhile isDigit s ++ String d "") = true
  /\ exists c r, s = String c r /\ isDigit c = true.
Proof.
  intros s d rest' D G1 G2.
  assert (isDigit d = false) as Hd.
  { apply orb_true_iff in G2.
    destruct G2 as [G2|G2]; apply isChar_true in G2; subst d; reflexivity. }
  split.
  - unfold Lexer.orderedMarker.
    rewrite takeWhile_app_stop, dropWhile_app_stop by exact Hd.
    now rewrite G1, G2.
  - destruct s as [|c r]; [discriminate|]. exists c, r. split; [reflexivity|].
    simpl in G1. destruct (isDigit c); [reflexivity|discriminate].
Qed.

Lemma listMatch_marker : forall trimmed marker text,
  Lexer.listMatch trimmed = Some (marker, text) ->
  Lexer.headingMatch trimmed = None ->
  exists c rest,
    trimmed = String c rest
    /\ ((c = "-"%char \/ c = "+"%char) /\ Lexer.orderedMarker marker = false
        \/ isDigit c = true /\ Lexer.orderedMarker marker = true).
Proof.
  intros trimmed marker text LM HM.
  destruct trimmed as [|c rest]; [discriminate|].
  exists c, rest. split; [reflexivity|].
  unfold Lexer.listMatch in LM.
  destruct (isChar "-" c || isChar "+" c || isChar "*" c) eqn:M.
  - destruct (spacesThenRest rest) as [t|] eqn:R; [|discriminate].
    injection LM as <- <-.
    apply orb_true_iff in M. destruct M as [M|M].
    + apply orb_true_iff in M. left.
      destruct M as [M|M]; apply isChar_true in M; subst c; split; auto.
    + apply isChar_true in M. subst c.
      rewrite (star_is_heading _ _ R) in HM. discriminate.
  - right.
    destruct (dropWhile isDigit (String c rest)) as [|d rest'] eqn:D; [discriminate|].
    destruct (negb (isEmpty (takeWhile isDigit (String c rest)))
              && (isChar "." d || isChar ")" d)) eqn:G; [|discriminate].
    destruct (spacesThenRest rest') as [t|] eqn:R; [|discriminate].
    apply andb_true_iff in G. destruct G as [G1 G2].
    destruct (numbered_marker _ _ _ D G1 G2) as (Ho & c' & r' & E & Hc).
    injection E as <- <-.
    injection LM as <- <-.
    split; [exact Hc|exact Ho].
Qed.

(** X3. A list item is opened by a hyphen, a plus sign or a number
    followed by a full stop or a closing parenthesis, never by a star: a
    line whose first visible character is a star followed by white space
    is a heading, however it is indented.  The item is ordered exactly
    when its marker is a number. *)
Theorem list_item_markers : forall (i : nat) (line : string),
  Lexer.type (Lexer.classify i line) = Lexer.LIST_ITEM ->
  exists c rest,
    trim line = String c rest
    /\ ((c = "-"%char \/ c = "+"%char)
        /\ Lexer.ordered (Lexer.properties (Lexer.classify i line)) = Some false
        \/ isDigit c = true
           /\ Lexer.ordered (Lexer.properties (Lexer.classify i line)) = Some true).
Proof.
  intros i line. unfold Lexer.classify. cbv zeta.
  destruct (isEmpty (trim line)); [intros H; discriminate H|].
  destruct (Lexer.headingMatch (trim line)) as [[stars text]|] eqn:HM;
    [intros H; discriminate H|].
  destruct (startsWithI "#+BEGIN_SRC" (trim line)); [intros H; discriminate H|].
  destruct (startsWithI "#+END_SRC" (trim line)); [intros H; discriminate H|].
  destruct (Lexer.blockMatch "#+BEGIN_" (trim line)); [intros H; discriminate H|].
  destruct (Lexer.blockMatch "#+END_" (trim line)); [intros H; discriminate H|].
  destruct (Lexer.drawerMatch (trim line)); [intros H; discriminate H|].
  destruct (String.eqb (trim line) ":END:"); [intros H; discriminate H|].
  destruct (startsWith "|" (trim line)); [intros H; discriminate H|].
  destruct (Lexer.listMatch (trim line)) as [[marker text]|] eqn:LM.
  - intros _. simpl.
    destruct (listMatch_marker _ _ _ LM HM) as (c & rest & E & [[Hc Ho]|[Hc Ho]]);
      exists c, rest; rewrite Ho; auto.
  - destruct (Lexer.shortcodeMatch (trim line)); intros H; discriminate H.
Qed.

Lemma list_item_markers_witness :
  Lexer.type (Lexer.classify 0 "  3) c") = Lexer.LIST_ITEM
  /\ exists c rest,
       trim "  3) c" = String c rest
       /\ ((c = "-"%char \/ c = "+"%char)
           /\ Lexer.ordered (Lexer.properties (Lexer.classify 0 "  3) c")) = Some false
           \/ isDigit c = true
              /\ Lexer.ordered (Lexer.properties (Lexer.classify 0 "  3) c")) = Some true).
Proof.
  split; [reflexivity|]. apply (list_item_markers 0 "  3) c"). reflexivity.
Defined.

(** ** Documents given by their lines *)

Lemma join_cons : forall sep l ls,
  ls <> [] -> join sep (l :: ls) = l ++ sep ++ join sep ls.
Proof. intros sep l [|x ls] H; [congruence|reflexivity]. Qed.

Lemma split_oneLine : forall s, oneLine s = true -> split nlChar s = [s].
Proof.
  induction s as [|c s IH]; simpl; intros H; auto.
  apply andb_true_iff in H. destruct H as [Hc Hs].
  unfold isChar in Hc. destruct (Ascii.eqb c nlChar); [discriminate|].
  now rewrite (IH Hs).
Qed.

Lemma split_app_sep : forall a b,
  oneLine a = true -> split nlChar (a ++ nl ++ b) = a :: split nlChar b.
Proof.
  induction a as [|c a IH]; intros b H.
  - reflexivity.
  - simpl in H. apply andb_true_iff in H. destruct H as [Hc Ha].
    unfold isChar in Hc. cbn [append split].
    destruct (Ascii.eqb c nlChar); [discriminate|].
    now rewrite (IH b Ha).
Qed.

Lemma split_unlines : forall ls,
  ls <> [] -> Forall (fun l => oneLine l = true) ls -> split nlChar (unlines ls) = ls.
Proof.
  unfold unlines.
  induction ls as [|l ls IH]; intros Hne Hall; [congruence|].
  inversion Hall as [|? ? Hl Hls]; subst.
  destruct ls as [|l' ls].
  - simpl. now apply split_oneLine.
  - rewrite join_cons by discriminate.
    rewrite split_app_sep by exact Hl.
    f_equal. apply IH; [discriminate|exact Hls].
Qed.

Lemma join_split : forall s, join nl (split nlChar s) = s.
Proof.
  induction s as [|c s IH]; [reflexivity|].
  simpl. destruct (Ascii.eqb c nlChar) eqn:E.
  - apply Ascii.eqb_eq in E. subst c.
    rewrite join_cons by apply split_not_nil. now rewrite IH.
  - destruct (split nlChar s) as [|h t] eqn:S; [now apply split_not_nil in S|].
    simpl. destruct t; simpl in *; now rewrite <- IH.
Qed.

Lemma tokenize_unlines : forall ls,
  ls <> [] -> Forall (fun l => oneLine l = true) ls ->
  Lexer.tokenize (unlines ls) = Lexer.tokenizeFrom 0 ls.
Proof. intros ls H1 H2. unfold Lexer.tokenize. now rewrite split_unlines. Qed.

(** The token of a line but for its number. *)
Lemma classify_shift : forall i l,
  Lexer.classify i l
  = {| Lexer.type := Lexer.type (Lexer.classify 0 l);
       Lexer.value := Lexer.value (Lexer.classify 0 l);
       Lexer.line := i;
       Lexer.indent := Lexer.indent (Lexer.classify 0 l);
       Lexer.properties := Lexer.properties (Lexer.classify 0 l) |}.
Proof.
  intros i l. unfold Lexer.classify. cbv zeta.
  repeat match goal with
         | |- context [match ?x with _ => _ end] => destruct x
         end; reflexivity.
Qed.

Lemma classify_type : forall i l, Lexer.type (Lexer.classify i l) = lineType l.
Proof. intros i l. now rewrite classify_shift. Qed.

Lemma classify_value : forall i l,
  Lexer.value (Lexer.classify i l) = Lexer.value (Lexer.classify 0 l).
Proof. intros i l. now rewrite classify_shift. Qed.

Lemma classify_properties : forall i l,
  Lexer.properties (Lexer.classify i l) = Lexer.properties (Lexer.classify 0 l).
Proof. intros i l. now rewrite classify_shift. Qed.

(** A TEXT token carries its line as it is, indentation included. *)
Lemma text_value : forall i l, lineType l = Lexer.TEXT -> Lexer.value (Lexer.classify i l) = l.
Proof.
  intros i l. rewrite classify_value. unfold lineType, Lexer.classify. cbv zeta.
  repeat match goal with
         | |- context [match ?x with _ => _ end] => destruct x
         end; simpl; intros H; try discriminate H; reflexivity.
Qed.

Lemma tokenizeFrom_app : forall a b i,
  Lexer.tokenizeFrom i (a ++ b)
  = (Lexer.tokenizeFrom i a ++ Lexer.tokenizeFrom (i + List.length a) b)%list.
Proof.
  induction a as [|x a IH]; intros b i; simpl.
  - now rewrite Nat.add_0_r.
  - rewrite IH, Nat.add_succ_r. reflexivity.
Qed.

Lemma length_tokenizeFrom : forall ls i, List.length (Lexer.tokenizeFrom i ls) = List.length ls.
Proof. induction ls; intros; simpl; auto. Qed.

Lemma skipn_tokenizeFrom : forall a b i,
  skipn (List.length a) (Lexer.tokenizeFrom i (a ++ b))
  = Lexer.tokenizeFrom (i + List.length a) b.
Proof.
  intros a b i. rewrite tokenizeFrom_app.
  rewrite <- (length_tokenizeFrom a i) at 1.
  now rewrite skipn_app, skipn_all, Nat.sub_diag.
Qed.

Lemma nth_error_tokenizeFrom : forall a l b i,
  nth_error (Lexer.tokenizeFrom i (a ++ l :: b)) (List.length a)
  = Some (Lexer.classify (i + List.length a) l).
Proof.
  intros a l b i. rewrite tokenizeFrom_app.
  rewrite nth_error_app2 by (rewrite length_tokenizeFrom; lia).
  rewrite length_tokenizeFrom, Nat.sub_diag. reflexivity.
Qed.

(** ** Blocks that run to a closing line *)

Lemma collectUntil_all : forall stop rest i acc,
  Forall (fun t => Lexer.type t <> stop) rest ->
  Parser.collectUntil stop rest i acc
  = ((acc ++ map Lexer.value rest)%list, i + List.length rest).
Proof.
  intros stop rest. induction rest as [|t rest IH]; intros i acc H; simpl.
  - now rewrite app_nil_r, Nat.add_0_r.
  - inversion H as [|? ? Ht Hr]; subst.
    destruct (Lexer.TokenType_eqb (Lexer.type t) stop) eqn:E.
    + exfalso. apply Ht. destruct (Lexer.type t), stop; simpl in E; congruence.
    + rewrite IH by exact Hr. rewrite <- app_assoc. simpl. f_equal. lia.
Qed.

Lemma collectUntil_stop : forall stop body t rest i acc,
  Forall (fun t => Lexer.type t <> stop) body ->
  Lexer.type t = stop ->
  Parser.collectUntil stop (body ++ t :: rest) i acc
  = ((acc ++ map Lexer.value body)%list, i + List.length body).
Proof.
  intros stop body t rest. induction body as [|b body IH]; intros i acc H Ht; simpl.
  - rewrite Ht. rewrite app_nil_r, Nat.add_0_r.
    destruct stop; reflexivity.
  - inversion H as [|? ? Hb Hr]; subst.
    destruct (Lexer.TokenType_eqb (Lexer.type b) (Lexer.type t)) eqn:E.
    + exfalso. apply Hb. destruct (Lexer.type b), (Lexer.type t); simpl in E; congruence.
    + rewrite IH by auto. rewrite <- app_assoc. simpl. f_equal. lia.
Qed.

Lemma tokenize_no_drawer_end : forall content n,
  Forall (fun t => Lexer.type t <> Lexer.DRAWER_END) (skipn n (Lexer.tokenize content)).
Proof.
  intros content n. apply Forall_forall. intros t Hin.
  assert (In t (Lexer.tokenize content)) as Hin'
      by (rewrite <- (firstn_skipn n); apply in_or_app; now right).
  unfold Lexer.tokenize in Hin'.
  apply tokenizeFrom_In in Hin'. destruct Hin' as (j & l & _ & ->).
  pose proof (classify_lexed j l) as H. intros E. rewrite E in H. discriminate.
Qed.

Lemma length_skipn_S : forall (A : Type) (l : list A) i x,
  nth_error l i = Some x -> S i + List.length (skipn (S i) l) = List.length l.
Proof.
  intros A l i x H.
  assert (i < List.length l) by (apply nth_error_Some; congruence).
  rewrite length_skipn. lia.
Qed.

(** X4. A drawer never ends.  Once the block parser meets a drawer line
    of a tokenized text, [parseDrawer] reads every token that follows, up
    to the end of the input (no token closes a drawer), and the loop of
    [parseTokens] stops there: all the lines after the drawer line are the
    text of the drawer node, or are dropped with it when the drawer is
    named PROPERTIES. *)
Theorem drawer_takes_the_rest :
  forall (content : string) (i : nat) (d : Lexer.Token),
    nth_error (Lexer.tokenize content) i = Some d ->
    Lexer.type d = Lexer.DRAWER_START ->
    let tokens := Lexer.tokenize content in
    let name := Lexer.orEmpty (Lexer.name (Lexer.properties d)) in
    let node :=
      if String.eqb name "PROPERTIES" then None
      else Some (drawerNode name (join nl (map Lexer.value (skipn (S i) tokens)))) in
    Parser.parseDrawer tokens i = Some (node, Z.of_nat (List.length tokens))
    /\ forall fuel nodes,
         Parser.parseTokensLoop (S (S fuel)) tokens i nodes
         = Some (Parser.push nodes node).
Proof.
  intros content i d Hd Ht tokens name node.
  assert (Parser.parseDrawer tokens i = Some (node, Z.of_nat (List.length tokens))) as HP.
  { unfold Parser.parseDrawer. fold tokens in Hd. rewrite Hd.
    replace (i + 1) with (S i) by lia.
    rewrite collectUntil_all by apply tokenize_no_drawer_end.
    rewrite (length_skipn_S _ _ _ _ Hd). fold name. simpl app. subst node.
    unfold drawerNode.
    destruct (String.eqb name "PROPERTIES"); reflexivity. }
  split; [exact HP|].
  intros fuel nodes.
  cbn [Parser.parseTokensLoop]. fold tokens in Hd. rewrite Hd, Ht, HP.
  replace (Z.to_nat (Z.of_nat (List.length tokens) + 1)) with (S (List.length tokens)) by lia.
  assert (nth_error tokens (S (List.length tokens)) = None) as HN
      by (apply nth_error_None; lia).
  rewrite HN. reflexivity.
Qed.

Lemma drawer_takes_the_rest_witness :
  nth_error (Lexer.tokenize (unlines ["a"; ":LOGBOOK:"; "b"; ":END:"; "* c"])) 1
  = Some (Lexer.classify 1 ":LOGBOOK:")
  /\ Lexer.type (Lexer.classify 1 ":LOGBOOK:") = Lexer.DRAWER_START
  /\ Parser.parseDrawer (Lexer.tokenize (unlines ["a"; ":LOGBOOK:"; "b"; ":END:"; "* c"])) 1
     = Some (Some (drawerNode "LOGBOOK" (unlines ["b"; ":END:"; "c"])), 5%Z).
Proof.
  split; [reflexivity|]. split; [reflexivity|].
  exact (proj1 (drawer_takes_the_rest
                  (unlines ["a"; ":LOGBOOK:"; "b"; ":END:"; "* c"]) 1
                  (Lexer.classify 1 ":LOGBOOK:") eq_refl eq_refl)).
Defined.

Lemma map_value_text : forall ls i,
  Forall (fun l => lineType l = Lexer.TEXT) ls ->
  map Lexer.value (Lexer.tokenizeFrom i ls) = ls.
Proof.
  induction ls as [|l ls IH]; intros i H; simpl; auto.
  inversion H as [|? ? Hl Hls]; subst.
  now rewrite (text_value i l Hl), IH.
Qed.

Lemma Forall_type_tokenizeFrom : forall (P : Lexer.TokenType -> Prop) ls i,
  Forall (fun l => P (lineType l)) ls ->
  Forall (fun t => P (Lexer.type t)) (Lexer.tokenizeFrom i ls).
Proof.
  induction ls as [|l ls IH]; intros i H; simpl; constructor;
    inversion H; subst; auto.
  now rewrite classify_type.
Qed.

Lemma text_is_no_stop : forall (stop : Lexer.TokenType) ls,
  stop <> Lexer.TEXT ->
  Forall (fun l => lineType l = Lexer.TEXT) ls ->
  Forall (fun l => lineType l <> stop) ls.
Proof.
  intros stop ls Hs H. eapply Forall_impl; [|exact H].
  simpl. intros l E. rewrite E. congruence.
Qed.

(** X5. A source block keeps its plain lines as they are.  When the
    lines between the opening line and the closing line are all plain
    text lines (TEXT tokens), [parseCodeBlock] ends at the closing line
    and the code of the node is exactly those lines, joined by line feeds,
    indentation included.  When the closing line is missing, the block
    runs to the end of the input. *)
Theorem source_block_keeps_plain_lines :
  forall (before code after : list string) (opener closer : string),
    Forall (fun l => oneLine l = true) (before ++ opener :: code ++ closer :: after) ->
    lineType opener = Lexer.CODE_BLOCK_START ->
    lineType closer = Lexer.CODE_BLOCK_END ->
    Forall (fun l => lineType l = Lexer.TEXT) code ->
    let language :=
      Lexer.orEmpty (Lexer.language (Lexer.properties (Lexer.classify 0 opener))) in
    Parser.parseCodeBlock
      (Lexer.tokenize (unlines (before ++ opener :: code ++ closer :: after)))
      (List.length before)
    = Some (codeBlockNode language (unlines code),
            Z.of_nat (List.length before + List.length code + 1))
    /\ Parser.parseCodeBlock
         (Lexer.tokenize (unlines (before ++ opener :: code)))
         (List.length before)
       = Some (codeBlockNode language (unlines code),
               Z.of_nat (List.length (before ++ opener :: code))).
Proof.
  intros before code after opener closer Hall Ho Hc Hcode language.
  assert (Forall (fun l => oneLine l = true) (before ++ opener :: code)) as Hall'.
  { apply Forall_app in Hall. destruct Hall as [H1 H2].
    apply Forall_app. split; [exact H1|].
    inversion H2 as [|? ? H3 H4]; subst. constructor; [exact H3|].
    apply Forall_app in H4. tauto. }
  assert (forall rest i,
             skipn (List.length before + 1)
               (Lexer.tokenizeFrom i (before ++ opener :: rest))
             = Lexer.tokenizeFrom (i + List.length before + 1) rest) as Hskip.
  { intros rest i.
    replace (before ++ opener :: rest)%list with ((before ++ [opener]) ++ rest)%list
      by now rewrite <- app_assoc.
    replace (List.length before + 1) with (List.length (before ++ [opener]))
      by (rewrite length_app; reflexivity).
    rewrite skipn_tokenizeFrom. f_equal. rewrite length_app. simpl. lia. }
  split.
  - rewrite tokenize_unlines by (auto; now destruct before).
    unfold Parser.parseCodeBlock.
    rewrite nth_error_tokenizeFrom, classify_properties. fold language.
    rewrite Hskip, tokenizeFrom_app. cbn [Lexer.tokenizeFrom].
    rewrite collectUntil_stop.
    + rewrite map_value_text by exact Hcode. rewrite length_tokenizeFrom.
      simpl app. unfold codeBlockNode, unlines. do 2 f_equal. lia.
    + apply (Forall_type_tokenizeFrom (fun ty => ty <> Lexer.CODE_BLOCK_END)).
      apply text_is_no_stop; [discriminate|exact Hcode].
    + now rewrite classify_type.
  - rewrite tokenize_unlines by (auto; now destruct before).
    unfold Parser.parseCodeBlock.
    rewrite nth_error_tokenizeFrom, classify_properties. fold language.
    rewrite Hskip. rewrite collectUntil_all.
    + rewrite map_value_text by exact Hcode. rewrite length_tokenizeFrom.
      simpl app. unfold codeBlockNode, unlines. do 2 f_equal.
      rewrite length_app. simpl. lia.
    + apply (Forall_type_tokenizeFrom (fun ty => ty <> Lexer.CODE_BLOCK_END)).
      apply text_is_no_stop; [discriminate|exact Hcode].
Qed.

Lemma source_block_keeps_plain_lines_witness :
  Forall (fun l => oneLine l = true)
    (["intro"] ++ "#+BEGIN_SRC js" :: ["if (a) {"; "  b()"; "}"] ++ "#+END_SRC" :: ["end"])
  /\ lineType "#+BEGIN_SRC js" = Lexer.CODE_BLOCK_START
  /\ lineType "#+END_SRC" = Lexer.CODE_BLOCK_END
  /\ Forall (fun l => lineType l = Lexer.TEXT) ["if (a) {"; "  b()"; "}"]
  /\ Parser.parseCodeBlock
       (Lexer.tokenize
          (unlines (["intro"] ++ "#+BEGIN_SRC js" :: ["if (a) {"; "  b()"; "}"]
                    ++ "#+END_SRC" :: ["end"])))
       1
     = Some (codeBlockNode "js" (unlines ["if (a) {"; "  b()"; "}"]), 5%Z).
Proof.
  assert (Forall (fun l => oneLine l = true)
            (["intro"] ++ "#+BEGIN_SRC js" :: ["if (a) {"; "  b()"; "}"]
             ++ "#+END_SRC" :: ["end"])) as H1
      by (repeat constructor).
  assert (Forall (fun l => lineType l = Lexer.TEXT) ["if (a) {"; "  b()"; "}"]) as H2
      by (repeat constructor).
  split; [exact H1|]. split; [reflexivity|]. split; [reflexivity|].
  split; [exact H2|].
  exact (proj1 (source_block_keeps_plain_lines ["intro"] ["if (a) {"; "  b()"; "}"]
                  ["end"] "#+BEGIN_SRC js" "#+END_SRC" H1 eq_refl eq_refl H2)).
Defined.

(** ** Paragraphs *)

Lemma paragraphLines_run : forall ls i acc stop rest,
  Forall (fun l => lineType l = Lexer.TEXT) ls ->
  (forall l, hd_error stop = Some l -> lineType l <> Lexer.TEXT) ->
  rest = Lexer.tokenizeFrom (i + List.length ls) stop ->
  Parser.paragraphLines (Lexer.tokenizeFrom i ls ++ rest) i acc
  = ((acc ++ map trim ls)%list, i + List.length ls).
Proof.
  induction ls as [|l ls IH]; intros i acc stop rest Hls Hstop ->.
  - simpl. rewrite app_nil_r, !Nat.add_0_r.
    destruct stop as [|s stop]; [reflexivity|].
    simpl. rewrite classify_type.
    destruct (lineType s) eqn:E; try reflexivity.
    exfalso. now apply (Hstop s).
  - inversion Hls as [|? ? Hl Hr]; subst.
    cbn [Lexer.tokenizeFrom app Parser.paragraphLines].
    rewrite classify_type, Hl. cbn [Lexer.TokenType_eqb].
    rewrite (text_value i l Hl).
    replace (i + 1) with (S i) by lia.
    rewrite (IH (S i) _ stop); auto.
    + rewrite <- app_assoc. simpl. f_equal. lia.
    + f_equal. simpl. lia.
Qed.

Lemma parseParagraph_lines :
  forall (before text after : list string),
    Forall (fun l => oneLine l = true) (before ++ text ++ after) ->
    text <> [] ->
    Forall (fun l => lineType l = Lexer.TEXT) text ->
    (forall l, hd_error after = Some l -> lineType l <> Lexer.TEXT) ->
    Parser.parseParagraph
      (Lexer.tokenize (unlines (before ++ text ++ after))) (List.length before)
    = (Some (Ast.createNode Ast.t_paragraph Ast.noProperties
               (Some (Parser.parseInlineMarkup (join " " (map trim text))))),
       (Z.of_nat (List.length before + List.length text) - 1)%Z).
Proof.
  intros before text after Hall Hne Htext Hafter.
  rewrite tokenize_unlines; [|destruct before, text; simpl; congruence|exact Hall].
  unfold Parser.parseParagraph.
  rewrite skipn_tokenizeFrom, tokenizeFrom_app. simpl (0 + _).
  rewrite (paragraphLines_run text (List.length before) [] after) by auto.
  simpl app.
  destruct (map trim text) as [|x xs] eqn:E.
  - destruct text; [congruence|discriminate].
  - reflexivity.
Qed.

(** X6. Consecutive plain text lines are one paragraph.  [parseParagraph]
    reads the whole run of TEXT tokens, up to the first line of another
    kind (a blank line, a heading, ...) or the end of the input, and the
    paragraph is the inline parse of the lines, each trimmed, joined by
    single spaces: the line breaks and the indentation of the source are
    not kept. *)
Theorem paragraph_joins_its_lines :
  forall (before text after : list string),
    Forall (fun l => oneLine l = true) (before ++ text ++ after) ->
    text <> [] ->
    Forall (fun l => lineType l = Lexer.TEXT) text ->
    (forall l, hd_error after = Some l -> lineType l <> Lexer.TEXT) ->
    Parser.parseParagraph
      (Lexer.tokenize (unlines (before ++ text ++ after))) (List.length before)
    = (Some (Ast.createNode Ast.t_paragraph Ast.noProperties
               (Some (Parser.parseInlineMarkup (join " " (map trim text))))),
       (Z.of_nat (List.length before + List.length text) - 1)%Z).
Proof. exact parseParagraph_lines. Qed.

Lemma paragraph_joins_its_lines_witness :
  Forall (fun l => oneLine l = true) (["* A"] ++ ["  one "; "two"] ++ [""; "three"])
  /\ ["  one "; "two"] <> []
  /\ Forall (fun l => lineType l = Lexer.TEXT) ["  one "; "two"]
  /\ Parser.parseParagraph
       (Lexer.tokenize (unlines (["* A"] ++ ["  one "; "two"] ++ [""; "three"]))) 1
     = (Some (Ast.createNode Ast.t_paragraph Ast.noProperties
                (Some (Parser.parseInlineMarkup "one two"))),
        2%Z).
Proof.
  assert (Forall (fun l => oneLine l = true) (["* A"] ++ ["  one "; "two"] ++ [""; "three"]))
    as H1 by (repeat constructor).
  assert (["  one "; "two"] <> []) as H2 by discriminate.
  assert (Forall (fun l => lineType l = Lexer.TEXT) ["  one "; "two"]) as H3
      by (repeat constructor).
  split; [exact H1|]. split; [exact H2|]. split; [exact H3|].
  apply (paragraph_joins_its_lines ["* A"] ["  one "; "two"] [""; "three"] H1 H2 H3).
  simpl. intros l E. injection E as <-. discriminate.
Defined.

(** ** Table rows *)

Lemma split_free : forall c s, countChar c s = 0 -> split c s = [s].
Proof.
  intros c. induction s as [|x s IH]; simpl; intros H; auto.
  destruct (Ascii.eqb x c); [simpl in H; lia|].
  now rewrite (IH H).
Qed.

Lemma split_app_char : forall c a b,
  countChar c a = 0 -> split c (a ++ String c b) = a :: split c b.
Proof.
  intros c. induction a as [|x a IH]; intros b H.
  - simpl. now rewrite Ascii.eqb_refl.
  - simpl in H. cbn [append split].
    destruct (Ascii.eqb x c); [simpl in H; lia|].
    now rewrite (IH b H).
Qed.

Lemma split_join : forall c ls,
  ls <> [] -> Forall (fun l => countChar c l = 0) ls ->
  split c (join (String c "") ls) = ls.
Proof.
  intros c. induction ls as [|l ls IH]; intros Hne Hall; [congruence|].
  inversion Hall as [|? ? Hl Hls]; subst.
  destruct ls as [|l' ls].
  - simpl. now apply split_free.
  - rewrite join_cons by discriminate. cbn [append].
    rewrite split_app_char by exact Hl.
    f_equal. apply IH; [discriminate|exact Hls].
Qed.

Lemma join_snoc_empty : forall sep ls,
  ls <> [] -> join sep (ls ++ [""]) = join sep ls ++ sep.
Proof.
  intros sep. induction ls as [|l ls IH]; intros Hne; [congruence|].
  destruct ls as [|l' ls].
  - simpl. now rewrite append_nil_r.
  - change ((l :: l' :: ls) ++ [""])%list with (l :: ((l' :: ls) ++ [""]))%list.
    rewrite (join_cons sep l ((l' :: ls) ++ [""])) by (simpl; discriminate).
    rewrite IH by discriminate.
    rewrite (join_cons sep l (l' :: ls)) by discriminate.
    now rewrite !append_assoc.
Qed.

Lemma removelast_snoc : forall (A : Type) (l : list A) x, removelast (l ++ [x]) = l.
Proof. intros A l x. now rewrite removelast_app, app_nil_r by discriminate. Qed.

(** X7. The cells of a table row.  A row written as a bar, the cell
    texts separated by bars, and a closing bar has one cell for every cell
    text, in order, each the inline parse of the trimmed text.  Without
    the closing bar the last cell text is dropped. *)
Theorem table_row_cells : forall cells : list string,
  cells <> [] ->
  Forall (fun cell => countChar "|" cell = 0) cells ->
  Parser.tableRowNode ("|" ++ join "|" cells ++ "|") = rowNode cells
  /\ Parser.tableRowNode ("|" ++ join "|" cells) = rowNode (removelast cells).
Proof.
  intros cells Hne Hall. unfold Parser.tableRowNode, rowNode, Parser.sliceInnerList.
  split.
  - rewrite <- join_snoc_empty by exact Hne.
    cbn [append split]. rewrite Ascii.eqb_refl.
    rewrite split_join.
    + cbn [tl]. rewrite removelast_snoc. now rewrite map_map.
    + now destruct cells.
    + apply Forall_app. split; [exact Hall|]. repeat constructor.
  - cbn [append split]. rewrite Ascii.eqb_refl.
    rewrite split_join by assumption.
    cbn [tl]. now rewrite map_map.
Qed.

Lemma table_row_cells_witness :
  ["a"; " *b* "; ""] <> []
  /\ Forall (fun cell => countChar "|" cell = 0) ["a"; " *b* "; ""]
  /\ Parser.tableRowNode ("|" ++ join "|" ["a"; " *b* "; ""] ++ "|")
     = rowNode ["a"; " *b* "; ""]
  /\ Parser.tableRowNode ("|" ++ join "|" ["a"; " *b* "; ""])
     = rowNode (removelast ["a"; " *b* "; ""]).
Proof.
  assert (["a"; " *b* "; ""] <> []) as H1 by discriminate.
  assert (Forall (fun cell => countChar "|" cell = 0) ["a"; " *b* "; ""]) as H2
      by (repeat constructor).
  split; [exact H1|]. split; [exact H2|].
  exact (table_row_cells ["a"; " *b* "; ""] H1 H2).
Defined.

(** ** Inline markup *)

Lemma plain_step : forall text i c p,
  get i text = Some c ->
  plainChar c = true ->
  Parser.step text i c p
  = Parser.Plain {| Parser.current := Parser.current p ++ String c "";
                    Parser.nodes := Parser.nodes p |}.
Proof.
  intros text i c p G H.
  pose proof (substring_get text i c 1 G) as S2.
  pose proof (substring_get text i c 3 G) as S4.
  replace (i + 2) with (i + 2) in S2 by lia.
  unfold plainChar, markerChar in H.
  apply negb_true_iff in H.
  repeat (apply orb_false_iff in H; destruct H as [H ?]).
  unfold Parser.step, Parser.boldBlock, Parser.italicBlock, Parser.underlineBlock,
    Parser.codeBlock, Parser.strikeBlock, Parser.delimited,
    Parser.linkBlock, Parser.footnoteBlock, Parser.lineBreakBlock.
  repeat match goal with
         | E : isChar _ c = false |- _ => rewrite E; clear E
         end.
  cbn [andb orb Parser.orElse].
  replace (i + 2) with (i + 2) by lia.
  rewrite S2, S4.
  match goal with
  | E : isChar "[" c = false |- _ => unfold isChar in E
  end.
  match goal with
  | E : isChar "\" c = false |- _ => unfold isChar in E
  end.
  cbn [String.eqb].
  repeat match goal with
         | E : Ascii.eqb c _ = false |- _ => rewrite E; clear E
         end.
  reflexivity.
Qed.

Lemma plain_scan : forall fuel text i p,
  allChars plainChar (drop i text) = true ->
  String.length text - i < fuel ->
  Parser.scan fuel text i p
  = Some (Parser.nodes
            (Parser.flush {| Parser.current := Parser.current p ++ drop i text;
                             Parser.nodes := Parser.nodes p |})).
Proof.
  induction fuel as [|fuel IH]; intros text i p Hall Hf; [lia|].
  cbn [Parser.scan].
  destruct (get i text) as [c|] eqn:G.
  - rewrite (get_drop _ _ _ G) in Hall |- *.
    simpl in Hall. apply andb_true_iff in Hall. destruct Hall as [Hc Hrest].
    rewrite (plain_step text i c p G Hc).
    replace (i + 1) with (S i) by lia.
    rewrite IH; [|exact Hrest|apply get_lt in G; lia].
    cbn [Parser.current Parser.nodes].
    now rewrite append_assoc.
  - rewrite (drop_all i text) by now apply get_none.
    rewrite append_nil_r. now destruct p.
Qed.

Lemma plain_parse : forall text,
  allChars plainChar text = true ->
  Parser.parseInlineMarkup text
  = (if isEmpty text then [] else [Ast.createTextNode text]).
Proof.
  intros text H.
  unfold Parser.parseInlineMarkup, Parser.parseInlineMarkupFuel.
  rewrite plain_scan; [|exact H|lia].
  simpl. unfold Parser.flush. simpl. now destruct text.
Qed.

(** X8. A text without markup is one leaf.  When no character of the
    text is one of the marker characters of the inline grammar (star,
    slash, underscore, tilde, equals sign, plus sign, opening bracket,
    backslash), the inline parser returns the text as a single text leaf
    (and no node for the empty text), and what is rendered for it is the
    escaped text. *)
Theorem plain_text_is_one_leaf : forall text : string,
  allChars plainChar text = true ->
  Parser.parseInlineMarkup text
  = (if isEmpty text then [] else [Ast.createTextNode text])
  /\ Renderer.renderChildrenSync (paragraphOf (Parser.parseInlineMarkup text))
     = Renderer.escapeHtml text.
Proof.
  intros text H. pose proof (plain_parse text H) as E.
  split; [exact E|]. rewrite E.
  destruct text; reflexivity.
Qed.

Lemma plain_text_is_one_leaf_witness :
  allChars plainChar "Tom & Jerry <3" = true
  /\ Parser.parseInlineMarkup "Tom & Jerry <3" = [Ast.createTextNode "Tom & Jerry <3"]
  /\ Renderer.renderChildrenSync (paragraphOf (Parser.parseInlineMarkup "Tom & Jerry <3"))
     = Renderer.escapeHtml "Tom & Jerry <3".
Proof.
  split; [reflexivity|].
  exact (plain_text_is_one_leaf "Tom & Jerry <3" eq_refl).
Defined.

(** The nodes the accumulators hold, and those an action hands on. *)
Lemma inline_flush : forall p,
  forallb inlineNode (Parser.nodes p) = true ->
  forallb inlineNode (Parser.nodes (Parser.flush p)) = true.
Proof.
  intros p H. rewrite flush_nodes.
  destruct (isEmpty (Parser.current p)) eqn:E; [exact H|].
  rewrite forallb_app, H. simpl. unfold inlineNode. simpl. now rewrite E.
Qed.

Lemma inline_delimited : forall isMarker found text i c p,
  (forall m content next ns,
      inlineNodes ns = true -> inlineAction (found m content next ns) = true) ->
  inlineNodes (Parser.nodes p) = true ->
  inlineBlock (Parser.delimited isMarker found text i c p) = true.
Proof.
  intros isMarker found text i c p Hf Hp.
  pose proof (inline_flush p Hp) as Hq.
  destruct (delimited_cases isMarker found text i c p)
    as [E|[(_ & _ & _ & E)|(e & _ & _ & _ & E)]]; rewrite E; simpl; auto.
Qed.

Lemma inline_orElse : forall b k,
  inlineBlock b = true ->
  (forall q, inlineNodes (Parser.nodes q) = true -> inlineAction (k q) = true) ->
  inlineAction (Parser.orElse b k) = true.
Proof. intros [a|q] k Hb Hk; simpl in *; auto. Qed.

Lemma inline_step : forall text i c p,
  inlineNodes (Parser.nodes p) = true ->
  inlineAction (Parser.step text i c p) = true.
Proof.
  intros text i c p Hp. unfold Parser.step.
  apply inline_orElse;
    [apply inline_delimited; [intros; simpl; assumption|exact Hp]|clear p Hp; intros p Hp].
  apply inline_orElse;
    [apply inline_delimited;
       [intros m content next ns Hn; simpl; now rewrite Hn|exact Hp]
    |clear p Hp; intros p Hp].
  apply inline_orElse;
    [apply inline_delimited;
       [intros m content next ns Hn; simpl; now rewrite Hn|exact Hp]
    |clear p Hp; intros p Hp].
  apply inline_orElse;
    [apply inline_delimited;
       [intros m content next ns Hn; simpl; rewrite Hn; now destruct (isChar "~" m)
       |exact Hp]
    |clear p Hp; intros p Hp].
  apply inline_orElse;
    [apply inline_delimited;
       [intros m content next ns Hn; simpl; now rewrite Hn|exact Hp]
    |clear p Hp; intros p Hp].
  pose proof (inline_flush p Hp) as Hq.
  apply inline_orElse.
  { unfold Parser.linkBlock.
    destruct (String.eqb (substring i (i + 2) text) "[["); [|exact Hp].
    destruct (indexOf "]]" (i + 2) text); [|exact Hq].
    cbn [inlineBlock inlineAction]. unfold inlineNodes in *. rewrite Hq.
    match goal with |- context [if ?b then _ else _] => destruct b end; reflexivity. }
  clear p Hp Hq; intros p Hp. pose proof (inline_flush p Hp) as Hq.
  apply inline_orElse.
  { unfold Parser.footnoteBlock.
    destruct (String.eqb (substring i (i + 4) text) "[fn:"); [|exact Hp].
    destruct (indexOfChar "]" (i + 4) text); [|exact Hq].
    cbn [inlineBlock inlineAction]. unfold inlineNodes in *. now rewrite Hq. }
  clear p Hp Hq; intros p Hp. pose proof (inline_flush p Hp) as Hq.
  apply inline_orElse.
  { unfold Parser.lineBreakBlock.
    destruct (String.eqb (substring i (i + 2) text) "\\"); [|exact Hp].
    cbn [inlineBlock inlineAction]. unfold inlineNodes in *. now rewrite Hq. }
  clear p Hp Hq; intros p Hp. exact Hp.
Qed.

Lemma inline_snoc : forall ns n,
  inlineNodes ns = true -> inlineNode n = true -> inlineNodes (ns ++ [n]) = true.
Proof.
  intros ns n H1 H2. unfold inlineNodes in *. rewrite forallb_app, H1. simpl. now rewrite H2.
Qed.

Lemma inline_scan : forall fuel text i p r,
  Parser.scan fuel text i p = Some r ->
  inlineNodes (Parser.nodes p) = true ->
  inlineNodes r = true.
Proof.
  induction fuel as [|fuel IH]; intros text i p r H Hp; [discriminate|].
  cbn [Parser.scan] in H.
  destruct (get i text) as [c|].
  - pose proof (inline_step text i c p Hp) as Hs.
    destruct (Parser.step text i c p) as [content next ns|node next ns|p'];
      cbn [inlineAction] in Hs.
    + destruct (Parser.scan fuel content 0 Parser.start) as [kids|]; [|discriminate].
      apply (IH _ _ _ _ H). cbn [Parser.nodes]. now apply inline_snoc.
    + apply andb_true_iff in Hs. destruct Hs as [Hn Hnode].
      apply (IH _ _ _ _ H). cbn [Parser.nodes]. now apply inline_snoc.
    + apply (IH _ _ _ _ H). exact Hs.
  - injection H as <-. now apply inline_flush.
Qed.

(** X9. The nodes of the inline parser.  For every text, each node of
    the list [parseInlineMarkup] returns is a text leaf whose text is not
    empty, or a bold, italic, underline, code, verbatim, strike, link,
    image, footnote or line-break node: the parser makes no empty text
    leaf and no node of another kind. *)
Theorem inline_nodes_are_inline : forall text : string,
  forallb inlineNode (Parser.parseInlineMarkup text) = true.
Proof.
  intros text.
  apply (inline_scan _ _ _ _ _ (parseInlineMarkup_scan text)). reflexivity.
Qed.

(** ** The metadata extractor *)

Lemma extractLoop_stop : forall rest i b props m,
  let r := Metadata.extractLoop rest i b props m in
  Metadata.contentStartLine r <= i + List.length rest
  /\ forall raw,
       nth_error rest (Metadata.contentStartLine r - i) = Some raw ->
       contentLine raw = true.
Proof.
  induction rest as [|raw rest IH]; intros i b props m; cbn zeta.
  - simpl. split; [lia|]. intros raw H. now destruct (i - i).
  - cbn [Metadata.extractLoop].
    assert (forall b' props' m',
               Metadata.contentStartLine (Metadata.extractLoop rest (i + 1) b' props' m')
               <= i + List.length (raw :: rest)
               /\ forall raw',
                    nth_error (raw :: rest)
                      (Metadata.contentStartLine
                         (Metadata.extractLoop rest (i + 1) b' props' m') - i)
                    = Some raw' ->
                    contentLine raw' = true) as Hnext.
    { intros b' props' m'.
      destruct (IH (i + 1) b' props' m') as [H1 H2].
      pose proof (extractLoop_ge rest (i + 1) b' props' m') as H3.
      split; [simpl; lia|].
      intros raw' H.
      replace (Metadata.contentStartLine
                 (Metadata.extractLoop rest (i + 1) b' props' m') - i)
        with (S (Metadata.contentStartLine
                   (Metadata.extractLoop rest (i + 1) b' props' m') - (i + 1)))
        in H by lia.
      simpl in H. now apply H2. }
    destruct (String.eqb (trim raw) ":PROPERTIES:"); [apply Hnext|].
    destruct (String.eqb (trim raw) ":END:" && b); [apply Hnext|].
    destruct b.
    + destruct (Metadata.propMatch (trim raw)) as [[k v]|]; apply Hnext.
    + destruct (Metadata.metaMatch (trim raw)) as [[k v]|]; [apply Hnext|].
      destruct (negb (isEmpty (trim raw)) && negb (startsWith "#" (trim raw))
                && negb (startsWith ":" (trim raw))) eqn:C; [|apply Hnext].
      cbn [Metadata.contentStartLine]. split; [simpl; lia|].
      intros raw'. rewrite Nat.sub_diag. simpl. intros E. injection E as <-. exact C.
Qed.

Lemma extractMetadata_start : forall slugifyLib lines,
  Metadata.contentStartLine (Metadata.extractMetadata slugifyLib lines)
  = Metadata.contentStartLine (Metadata.extractLoop lines 0 false [] Metadata.emptyMetadata).
Proof. reflexivity. Qed.

(** X10. Where the body starts.  For every list of lines,
    [contentStartLine] is the number of lines (the extractor read them
    all, the body is empty) or the index of a content line: a line that is
    not blank and starts with neither a hash sign nor a colon once
    trimmed. *)
Theorem body_starts_at_a_content_line :
  forall (slugifyLib : string -> string) (lines : list string),
    Metadata.contentStartLine (Metadata.extractMetadata slugifyLib lines)
    <= List.length lines
    /\ match nth_error lines
               (Metadata.contentStartLine (Metadata.extractMetadata slugifyLib lines))
       with
       | Some raw => contentLine raw = true
       | None =>
           Metadata.contentStartLine (Metadata.extractMetadata slugifyLib lines)
           = List.length lines
       end.
Proof.
  intros slugifyLib lines. rewrite extractMetadata_start.
  destruct (extractLoop_stop lines 0 false [] Metadata.emptyMetadata) as [H1 H2].
  split; [exact H1|].
  rewrite Nat.sub_0_r in H2.
  destruct (nth_error lines
              (Metadata.contentStartLine
                 (Metadata.extractLoop lines 0 false [] Metadata.emptyMetadata)))
    as [raw|] eqn:E.
  - now apply H2.
  - apply nth_error_None in E. simpl in H1. lia.
Qed.

Lemma extractLoop_open_drawer : forall rest i props m,
  forallb (fun raw => negb (closesDrawer raw)) rest = true ->
  Metadata.extractLoop rest i true props m
  = {| Metadata.metadata := m; Metadata.contentStartLine := i + List.length rest |}.
Proof.
  induction rest as [|raw rest IH]; intros i props m H.
  - simpl. now rewrite Nat.add_0_r.
  - simpl in H. apply andb_true_iff in H. destruct H as [Hraw Hrest].
    unfold closesDrawer in Hraw. apply negb_true_iff in Hraw.
    cbn [Metadata.extractLoop]. rewrite Hraw. cbn [andb].
    replace (i + List.length (raw :: rest)) with (i + 1 + List.length rest)
      by (simpl; lia).
    destruct (String.eqb (trim raw) ":PROPERTIES:"); [now apply IH|].
    destruct (Metadata.propMatch (trim raw)) as [[k v]|]; now apply IH.
Qed.

(** X11. An unclosed property drawer swallows the document.  When the
    first line is [:PROPERTIES:] and no later line is [:END:], the
    extractor reads every line as a line of the drawer: the body is empty,
    the tree has no node, the properties read in the drawer are not kept,
    and the word count and the reading time are those of the empty text. *)
Theorem unclosed_property_drawer_takes_all :
  forall (slugifyLib : string -> string) (content first : string) (rest : list string),
    split nlChar content = first :: rest ->
    trim first = ":PROPERTIES:" ->
    forallb (fun raw => negb (closesDrawer raw)) rest = true ->
    Metadata.contentStartLine (Metadata.extractMetadata slugifyLib (split nlChar content))
    = List.length (split nlChar content)
    /\ Parser.parse slugifyLib content
       = Some {| Document.metadata :=
                   Metadata.withDerived 1 1 (Some "") Metadata.emptyMetadata;
                 Document.children := [] |}.
Proof.
  intros slugifyLib content first rest Hs Hf Hr.
  assert (Metadata.extractMetadata slugifyLib (first :: rest)
          = {| Metadata.metadata := Metadata.emptyMetadata;
               Metadata.contentStartLine := List.length (first :: rest) |}) as E.
  { unfold Metadata.extractMetadata. cbn [Metadata.extractLoop].
    rewrite Hf. cbn [String.eqb Ascii.eqb Bool.eqb andb].
    rewrite extractLoop_open_drawer by exact Hr. reflexivity. }
  unfold Parser.parse. rewrite Hs, E. cbn [Metadata.contentStartLine Metadata.metadata].
  split; [reflexivity|].
  rewrite skipn_all. reflexivity.
Qed.

Lemma unclosed_property_drawer_takes_all_witness :
  split nlChar (unlines [":PROPERTIES:"; ":ID: 7"; "#+TITLE: T"; "* A"; "text"])
  = ":PROPERTIES:" :: [":ID: 7"; "#+TITLE: T"; "* A"; "text"]
  /\ Parser.parse identity (unlines [":PROPERTIES:"; ":ID: 7"; "#+TITLE: T"; "* A"; "text"])
     = Some {| Document.metadata :=
                 Metadata.withDerived 1 1 (Some "") Metadata.emptyMetadata;
               Document.children := [] |}.
Proof.
  split; [reflexivity|].
  exact (proj2 (unclosed_property_drawer_takes_all identity
                  (unlines [":PROPERTIES:"; ":ID: 7"; "#+TITLE: T"; "* A"; "text"])
                  ":PROPERTIES:" [":ID: 7"; "#+TITLE: T"; "* A"; "text"]
                  eq_refl eq_refl eq_refl)).
Defined.

(** ** Word count, reading time, excerpt *)

Lemma length_splitSpaces : forall s, 1 <= List.length (splitSpaces s).
Proof.
  induction s as [|c s IH]; simpl; [lia|].
  destruct (isSpace c).
  - destruct s as [|d s']; [simpl; lia|].
    destruct (isSpace d); [exact IH|simpl; lia].
  - destruct (splitSpaces s); simpl in *; lia.
Qed.

(** X12. Word count and reading time are never zero.  For every
    document [parse] returns a tree whose word count is at least 1 and
    whose reading time is the word count divided by 200, rounded up, hence
    at least 1 as well; the empty document counts one word. *)
Theorem parse_counts_at_least_one_word :
  forall (slugifyLib : string -> string) (content : string),
    (exists ast wc,
        Parser.parse slugifyLib content = Some ast
        /\ Metadata.wordCount (Document.metadata ast) = Some wc
        /\ 1 <= wc
        /\ Metadata.readingTime (Document.metadata ast)
           = Some ((Z.of_nat wc + 199) / 200)%Z
        /\ (1 <= (Z.of_nat wc + 199) / 200)%Z)
    /\ Parser.parse slugifyLib ""
       = Some {| Document.metadata :=
                   Metadata.withDerived 1 1 (Some "") Metadata.emptyMetadata;
                 Document.children := [] |}.
Proof.
  intros slugifyLib content. split; [|reflexivity].
  unfold Parser.parse.
  match goal with |- context [Parser.parseTokens ?t] =>
    destruct (parseTokens_total t) as (nodes & Hp & _) end.
  rewrite Hp.
  pose proof (length_splitSpaces (Parser.extractPlainText nodes)) as Hw.
  eexists. exists (List.length (splitSpaces (Parser.extractPlainText nodes))).
  split; [reflexivity|]. split; [reflexivity|]. split; [exact Hw|].
  split; [reflexivity|].
  apply Z.div_le_lower_bound; lia.
Qed.

Lemma length_dropWhile : forall p s, String.length (dropWhile p s) <= String.length s.
Proof.
  intros p. induction s as [|c s IH]; simpl; auto.
  destruct (p c); simpl; lia.
Qed.

Lemma length_trimEnd : forall s, String.length (trimEnd s) <= String.length s.
Proof.
  induction s as [|c s IH]; simpl; auto.
  destruct (trimEnd s) as [|b t].
  - destruct (isSpace c); simpl; lia.
  - simpl in *. lia.
Qed.

Lemma length_trim : forall s, String.length (trim s) <= String.length s.
Proof.
  intros s. unfold trim, trimStart.
  pose proof (length_trimEnd (dropWhile isSpace s)).
  pose proof (length_dropWhile isSpace s). lia.
Qed.

Lemma startsSpace_dropWhile : forall s, startsSpace (dropWhile isSpace s) = false.
Proof.
  induction s as [|c s IH]; simpl; auto.
  destruct (isSpace c) eqn:E; [exact IH|simpl; exact E].
Qed.

Lemma startsSpace_trimEnd : forall s, startsSpace s = false -> startsSpace (trimEnd s) = false.
Proof.
  intros [|c s] H; simpl in *; auto.
  destruct (trimEnd s); [rewrite H|]; simpl; auto.
Qed.

Lemma startsSpace_trim : forall s, startsSpace (trim s) = false.
Proof. intros s. apply startsSpace_trimEnd, startsSpace_dropWhile. Qed.

Lemma all_take : forall q n s, allChars q s = true -> allChars q (take n s) = true.
Proof.
  intros q. induction n as [|n IH]; intros [|c s] H; simpl in *; auto.
  apply andb_true_iff in H. destruct H as [Hc Hs]. now rewrite Hc, IH.
Qed.

Lemma all_drop : forall q n s, allChars q s = true -> allChars q (drop n s) = true.
Proof.
  intros q. induction n as [|n IH]; intros [|c s] H; simpl in *; auto.
  apply andb_true_iff in H. destruct H as [Hc Hs]. now apply IH.
Qed.

Lemma all_app : forall q a b,
  allChars q (a ++ b) = allChars q a && allChars q b.
Proof.
  intros q. induction a as [|c a IH]; intros b; simpl; auto.
  now rewrite IH, andb_assoc.
Qed.

Lemma all_trim : forall q s, allChars q s = true -> allChars q (trim s) = true.
Proof. intros q s H. unfold trim, trimStart. now apply all_trimEnd, all_dropWhile. Qed.

Lemma all_collapseSpaces : forall s,
  allChars spaceOrVisible (Metadata.collapseSpaces s) = true.
Proof.
  induction s as [|c s IH]; simpl; auto.
  destruct (isSpace c) eqn:E.
  - destruct (startsSpace s); [exact IH|]. simpl. exact IH.
  - simpl. unfold spaceOrVisible at 1. rewrite E. simpl. exact IH.
Qed.

(** X13. The excerpt.  For every text and every bound, the excerpt is at
    most three characters longer than the bound (the three full stops
    appended to a cut text), it does not start with white space, and its
    only white-space character is the plain space: line feeds and tabs of
    the text are not kept. *)
Theorem excerpt_is_short_and_single_spaced : forall (text : string) (maxLength : nat),
  String.length (Metadata.extractExcerpt text maxLength) <= maxLength + 3
  /\ startsSpace (Metadata.extractExcerpt text maxLength) = false
  /\ allChars spaceOrVisible (Metadata.extractExcerpt text maxLength) = true.
Proof.
  intros text maxLength. unfold Metadata.extractExcerpt.
  set (cleaned := trim (Metadata.collapseSpaces text)).
  assert (allChars spaceOrVisible cleaned = true) as Hc
      by (apply all_trim, all_collapseSpaces).
  destruct (String.length cleaned <=? maxLength) eqn:E.
  - apply Nat.leb_le in E. split; [lia|]. split; [apply startsSpace_trim|exact Hc].
  - rewrite substring_le by lia. rewrite Nat.sub_0_r. cbn [drop].
    split; [|split].
    + rewrite length_append.
      pose proof (length_trim (take maxLength cleaned)) as H1.
      rewrite length_take in H1. simpl. lia.
    + pose proof (startsSpace_trim (take maxLength cleaned)) as H.
      destruct (trim (take maxLength cleaned)); [reflexivity|exact H].
    + rewrite all_app. rewrite all_trim by (apply all_take; exact Hc). reflexivity.
Qed.

(** ** File tags and the slug *)

Lemma word_no_colon : forall c, isWord c = true -> isChar ":" c = false.
Proof.
  intros c H. unfold isChar. destruct (Ascii.eqb_spec c ":") as [->|_]; [discriminate|reflexivity].
Qed.

Lemma parseFileTags_skip : forall w rest,
  allChars isWord w = true -> Metadata.parseFileTags (w ++ rest) = Metadata.parseFileTags rest.
Proof.
  induction w as [|c w IH]; intros rest H; [reflexivity|].
  simpl in H. apply andb_true_iff in H. destruct H as [Hc Hw].
  cbn [append Metadata.parseFileTags]. rewrite (word_no_colon c Hc). cbn [andb].
  now apply IH.
Qed.

Lemma takeWhile_word_colon : forall w rest,
  allChars isWord w = true -> takeWhile isWord (w ++ String ":" rest) = w.
Proof.
  induction w as [|c w IH]; intros rest H; [reflexivity|].
  simpl in H. apply andb_true_iff in H. destruct H as [Hc Hw].
  cbn [append takeWhile]. rewrite Hc. now rewrite IH.
Qed.

Lemma parseFileTags_tag : forall w rest,
  isTag w = true ->
  Metadata.parseFileTags (String ":" (w ++ String ":" rest))
  = w :: Metadata.parseFileTags (String ":" rest).
Proof.
  intros w rest H. unfold isTag in H. apply andb_true_iff in H. destruct H as [Hn Hw].
  cbn [Metadata.parseFileTags].
  rewrite (takeWhile_word_colon w rest Hw), Hn. cbn [isChar Ascii.eqb Bool.eqb andb].
  f_equal. now apply parseFileTags_skip.
Qed.

Lemma parseFileTags_words : forall v,
  forallb isTag (Metadata.parseFileTags v) = true.
Proof.
  induction v as [|c v IH]; [reflexivity|].
  cbn [Metadata.parseFileTags].
  destruct (isChar ":" c && negb (isEmpty (takeWhile isWord v))) eqn:E; [|exact IH].
  apply andb_true_iff in E. destruct E as [_ E].
  cbn [forallb]. rewrite IH, andb_true_r. unfold isTag. rewrite E. cbn [andb].
  clear. induction v as [|a v IH]; simpl; auto.
  destruct (isWord a) eqn:W; simpl; auto. now rewrite W.
Qed.

(** X14. File tags.  [parseFileTags] reads back a tag list written
    between colons: for tags that are non-empty words, the value made of a
    colon, the tags separated by colons, and a colon gives the tags again,
    in order.  Whatever the value, every tag returned is a word that is
    not empty. *)
Theorem file_tags_round_trip : forall tags : list string,
  forallb isTag tags = true ->
  Metadata.parseFileTags (":" ++ join ":" tags ++ ":") = tags
  /\ forall v : string, forallb isTag (Metadata.parseFileTags v) = true.
Proof.
  intros tags H. split; [|exact parseFileTags_words].
  destruct tags as [|t tags]; [reflexivity|].
  revert t H. induction tags as [|u tags IH]; intros t H.
  - simpl in H. rewrite andb_true_r in H.
    change (join ":" [t]) with t. cbn [append].
    rewrite (parseFileTags_tag t "" H). reflexivity.
  - cbn [forallb] in H. apply andb_true_iff in H. destruct H as [Ht Hr].
    rewrite join_cons by discriminate.
    rewrite append_assoc. cbn [append].
    rewrite (parseFileTags_tag t _ Ht). f_equal.
    apply (IH u Hr).
Qed.

Lemma file_tags_round_trip_witness :
  forallb isTag ["emacs"; "org_mode"; "x1"] = true
  /\ Metadata.parseFileTags (":" ++ join ":" ["emacs"; "org_mode"; "x1"] ++ ":")
     = ["emacs"; "org_mode"; "x1"].
Proof.
  split; [reflexivity|].
  exact (proj1 (file_tags_round_trip ["emacs"; "org_mode"; "x1"] eq_refl)).
Defined.

Lemma extractLoop_slug : forall rest i b props m,
  Metadata.slug (Metadata.metadata (Metadata.extractLoop rest i b props m))
  = Metadata.slug m.
Proof.
  induction rest as [|raw rest IH]; intros i b props m; [reflexivity|].
  cbn [Metadata.extractLoop].
  destruct (String.eqb (trim raw) ":PROPERTIES:"); [apply IH|].
  destruct (String.eqb (trim raw) ":END:" && b); [now rewrite IH|].
  destruct b.
  - destruct (Metadata.propMatch (trim raw)) as [[k v]|]; apply IH.
  - destruct (Metadata.metaMatch (trim raw)) as [[k v]|]; [now rewrite IH|].
    destruct (negb (isEmpty (trim raw)) && negb (startsWith "#" (trim raw))
              && negb (startsWith ":" (trim raw))); [reflexivity|apply IH].
Qed.

(** X15. The slug comes from the title alone.  No keyword line and no
    drawer property sets the slug: after the extraction the slug is the
    slug function applied to the title when there is a title that is not
    empty, and absent otherwise. *)
Theorem slug_comes_from_the_title :
  forall (slugifyLib : string -> string) (lines : list string),
    let m := Metadata.metadata (Metadata.extractMetadata slugifyLib lines) in
    Metadata.slug m
    = match Metadata.title m with
      | Some t => if isEmpty t then None else Some (slugifyLib t)
      | None => None
      end.
Proof.
  intros slugifyLib lines. cbn zeta. unfold Metadata.extractMetadata.
  cbn [Metadata.metadata].
  pose proof (extractLoop_slug lines 0 false [] Metadata.emptyMetadata) as Hs.
  destruct (Metadata.title
              (Metadata.metadata
                 (Metadata.extractLoop lines 0 false [] Metadata.emptyMetadata)))
    as [t|] eqn:T.
  - destruct (isEmpty t) eqn:E.
    + rewrite T, E. exact Hs.
    + cbn [Metadata.withSlug Metadata.slug Metadata.title]. rewrite T, E. reflexivity.
  - rewrite T. exact Hs.
Qed.

(** ** Escaping and slugs *)

Lemma length_replaceAll : forall c rep s,
  1 <= String.length rep -> String.length s <= String.length (replaceAll c rep s).
Proof.
  intros c rep s H. induction s as [|x s IH]; simpl; auto.
  destruct (Ascii.eqb x c); [rewrite length_append|simpl]; lia.
Qed.

(** X16. Escaping loses nothing and leaves no special character.  The
    five-entity [escapeHtml] of the renderer can be undone (so two
    different texts are never escaped to the same string), its result
    holds no angle bracket and no quote, and it is never shorter than the
    text. *)
Theorem escapeHtml_can_be_undone :
  (exists decode : string -> string,
      forall s, decode (Renderer.escapeHtml s) = s)
  /\ forall s,
       countChar "<" (Renderer.escapeHtml s) = 0
       /\ countChar ">" (Renderer.escapeHtml s) = 0
       /\ countChar dqChar (Renderer.escapeHtml s) = 0
       /\ countChar "'" (Renderer.escapeHtml s) = 0
       /\ String.length s <= String.length (Renderer.escapeHtml s).
Proof.
  split.
  - exists (decodeEntities 0). intros s.
    pose proof (decode_escapeHtml s "") as H.
    now rewrite !append_nil_r in H.
  - intros s. destruct (escapeHtml_clean s) as (H1 & H2 & H3 & H4).
    repeat split; auto.
    unfold Renderer.escapeHtml.
    repeat (etransitivity; [|apply length_replaceAll; simpl; lia]).
    lia.
Qed.

Lemma lowerChar_not_upper : forall c, isUpper (lowerChar c) = false.
Proof.
  intros c. unfold lowerChar.
  destruct (isUpper c) eqn:U.
  - unfold isUpper, inRange in *. apply andb_true_iff in U. destruct U as [U1 U2].
    apply Nat.leb_le in U1. apply Nat.leb_le in U2.
    rewrite nat_ascii_embedding by lia.
    apply andb_false_iff. right. apply Nat.leb_gt. lia.
  - destruct (inRange 192 222 c && negb (inRange 215 215 c)) eqn:R; [|exact U].
    apply andb_true_iff in R. destruct R as [R _].
    unfold isUpper, inRange in *. apply andb_true_iff in R. destruct R as [R1 R2].
    apply Nat.leb_le in R1. apply Nat.leb_le in R2.
    rewrite nat_ascii_embedding by lia.
    apply andb_false_iff. right. apply Nat.leb_gt. lia.
Qed.

Lemma all_toLowerCase : forall s,
  allChars (fun c => negb (isUpper c)) (toLowerCase s) = true.
Proof.
  induction s as [|c s IH]; [reflexivity|].
  change (toLowerCase (String c s)) with (String (lowerChar c) (toLowerCase s)).
  simpl. now rewrite lowerChar_not_upper, IH.
Qed.

Lemma all_filterChars_keep : forall q r s,
  allChars q s = true -> allChars q (filterChars r s) = true.
Proof.
  intros q r s. induction s as [|a s IH]; simpl; auto. intros H.
  apply andb_true_iff in H. destruct H as [Ha Hs].
  destruct (r a); simpl; auto. now rewrite Ha, IH.
Qed.

Lemma all_and : forall q r s,
  allChars q s = true -> allChars r s = true ->
  allChars (fun c => q c && r c) s = true.
Proof.
  intros q r s. induction s as [|a s IH]; simpl; auto. intros H1 H2.
  apply andb_true_iff in H1. apply andb_true_iff in H2.
  destruct H1 as [-> H1], H2 as [-> H2]. simpl. auto.
Qed.

Lemma all_impl : forall (q r : ascii -> bool) s,
  (forall c, q c = true -> r c = true) ->
  allChars q s = true -> allChars r s = true.
Proof.
  intros q r s Hqr. induction s as [|a s IH]; simpl; auto. intros H.
  apply andb_true_iff in H. destruct H as [Ha Hs]. now rewrite (Hqr a Ha), IH.
Qed.

(** After [collapseRuns p rep] every character is [rep] or a character
    of the text that does not satisfy [p]. *)
Lemma all_collapsed : forall (q p : ascii -> bool) rep s,
  q rep = true ->
  allChars (fun c => q c || p c) s = true ->
  allChars q (Renderer.collapseRuns p rep s) = true.
Proof.
  intros q p rep s Hr. induction s as [|a s IH]; simpl; auto. intros H.
  apply andb_true_iff in H. destruct H as [Ha Hs].
  destruct (p a) eqn:P.
  - destruct s as [|d s']; [simpl; now rewrite Hr|].
    destruct (p d) eqn:D; [now apply IH|].
    cbn [allChars]. rewrite Hr. now apply IH.
  - rewrite orb_false_r in Ha. cbn [allChars]. rewrite Ha. now apply IH.
Qed.

Lemma kept_lower_is_slug : forall c,
  (isWord c || isSpace c || isChar "-" c) && negb (isUpper c) = true ->
  slugChar c || isSpace c = true.
Proof. intros c. each_char c. Qed.

Lemma slugChar_lower : forall c, slugChar c = true -> lowerChar c = c.
Proof. intros c. each_char c. Qed.

Lemma slugChar_kept : forall c,
  slugChar c = true -> isWord c || isSpace c || isChar "-" c = true.
Proof. intros c. each_char c. Qed.

Lemma slugChar_no_space : forall c, slugChar c = true -> negb (isSpace c) = true.
Proof. intros c. each_char c. Qed.

Lemma slugChar_plain : forall c,
  slugChar c = true ->
  negb (isChar "&" c || isChar "<" c || isChar ">" c || isChar dqChar c || isChar "'" c)
  = true.
Proof. intros c. each_char c. Qed.

Lemma all_slugify : forall text, allChars slugChar (Renderer.slugify text) = true.
Proof.
  intros text. unfold Renderer.slugify.
  apply all_trim. apply all_collapseRuns; [reflexivity|].
  apply all_collapsed; [reflexivity|].
  apply all_impl with
    (q := fun c => (isWord c || isSpace c || isChar "-" c) && negb (isUpper c));
    [exact kept_lower_is_slug|].
  apply all_and; [apply all_filterChars|].
  apply all_filterChars_keep, all_toLowerCase.
Qed.

Lemma noDouble_eq : forall c d s,
  noDoubleHyphen (String c (String d s))
  = negb (isChar "-" c && isChar "-" d) && noDoubleHyphen (String d s).
Proof. reflexivity. Qed.

Lemma noDouble_tail : forall c s, noDoubleHyphen (String c s) = true -> noDoubleHyphen s = true.
Proof.
  intros c [|d s] H; [reflexivity|].
  rewrite noDouble_eq in H. apply andb_true_iff in H. tauto.
Qed.

Lemma noDouble_cons : forall c s,
  noDoubleHyphen s = true ->
  isChar "-" c = false \/ match firstChar s with Some d => isChar "-" d = false | None => True end ->
  noDoubleHyphen (String c s) = true.
Proof.
  intros c [|d s] H Hc; [reflexivity|].
  rewrite noDouble_eq. rewrite H, andb_true_r.
  destruct Hc as [Hc|Hc]; simpl in Hc; rewrite Hc; [reflexivity|].
  now rewrite andb_false_r.
Qed.

Lemma collapseRuns_first : forall p rep d s,
  p d = false -> firstChar (Renderer.collapseRuns p rep (String d s)) = Some d.
Proof. intros p rep d s H. simpl. now rewrite H. Qed.

Lemma noDouble_collapseRuns : forall s,
  noDoubleHyphen (Renderer.collapseRuns (isChar "-") "-" s) = true.
Proof.
  induction s as [|c s IH]; [reflexivity|].
  cbn [Renderer.collapseRuns].
  destruct (isChar "-" c) eqn:C.
  - destruct s as [|d s']; [reflexivity|].
    destruct (isChar "-" d) eqn:D; [exact IH|].
    apply noDouble_cons; [exact IH|]. right.
    rewrite collapseRuns_first by exact D. exact D.
  - apply noDouble_cons; [exact IH|]. now left.
Qed.

Lemma noDouble_dropWhile : forall p s,
  noDoubleHyphen s = true -> noDoubleHyphen (dropWhile p s) = true.
Proof.
  intros p. induction s as [|c s IH]; intros H; [reflexivity|].
  simpl. destruct (p c); [|exact H]. apply IH. now apply noDouble_tail in H.
Qed.

Lemma trimEnd_first : forall s b t, trimEnd s = String b t -> exists r, s = String b r.
Proof.
  intros [|c s] b t H; [discriminate|].
  simpl in H. destruct (trimEnd s).
  - destruct (isSpace c); [discriminate|]. injection H as <- _. now exists s.
  - injection H as <- _. now exists s.
Qed.

Lemma noDouble_trimEnd : forall s,
  noDoubleHyphen s = true -> noDoubleHyphen (trimEnd s) = true.
Proof.
  induction s as [|c s IH]; intros H; [reflexivity|].
  pose proof (noDouble_tail _ _ H) as Ht. specialize (IH Ht).
  simpl. destruct (trimEnd s) as [|b t] eqn:E.
  - now destruct (isSpace c).
  - destruct (trimEnd_first _ _ _ E) as [r ->].
    rewrite noDouble_eq in H |- *. apply andb_true_iff in H. destruct H as [H _].
    now rewrite H, IH.
Qed.

Lemma noDouble_slugify : forall text, noDoubleHyphen (Renderer.slugify text) = true.
Proof.
  intros text. unfold Renderer.slugify, trim, trimStart.
  apply noDouble_trimEnd, noDouble_dropWhile, noDouble_collapseRuns.
Qed.

(** Each stage of [slugify] leaves a slug as it is. *)
Lemma mapChars_id : forall (f : ascii -> ascii) (q : ascii -> bool) s,
  (forall c, q c = true -> f c = c) -> allChars q s = true -> mapChars f s = s.
Proof.
  intros f q s Hf. induction s as [|c s IH]; intros H; [reflexivity|].
  simpl in H. apply andb_true_iff in H. destruct H as [Hc Hs].
  change (mapChars f (String c s)) with (String (f c) (mapChars f s)).
  now rewrite (Hf c Hc), IH.
Qed.

Lemma filterChars_id : forall q s, allChars q s = true -> filterChars q s = s.
Proof.
  intros q. induction s as [|c s IH]; intros H; [reflexivity|].
  simpl in H. apply andb_true_iff in H. destruct H as [Hc Hs].
  simpl. now rewrite Hc, IH.
Qed.

Lemma collapseRuns_none : forall p rep s,
  allChars (fun c => negb (p c)) s = true -> Renderer.collapseRuns p rep s = s.
Proof.
  intros p rep. induction s as [|c s IH]; intros H; [reflexivity|].
  simpl in H. apply andb_true_iff in H. destruct H as [Hc Hs].
  apply negb_true_iff in Hc. simpl. now rewrite Hc, IH.
Qed.

Lemma collapseRuns_single : forall s,
  noDoubleHyphen s = true -> Renderer.collapseRuns (isChar "-") "-" s = s.
Proof.
  induction s as [|c s IH]; intros H; [reflexivity|].
  pose proof (noDouble_tail _ _ H) as Ht.
  cbn [Renderer.collapseRuns].
  destruct (isChar "-" c) eqn:C.
  - apply isChar_true in C. subst c.
    destruct s as [|d s']; [reflexivity|].
    rewrite noDouble_eq in H. apply andb_true_iff in H. destruct H as [H _].
    destruct (isChar "-" d); [discriminate|]. now rewrite IH.
  - now rewrite IH.
Qed.

Lemma dropWhile_none : forall p s,
  allChars (fun c => negb (p c)) s = true -> dropWhile p s = s.
Proof.
  intros p [|c s] H; [reflexivity|].
  simpl in H. apply andb_true_iff in H. destruct H as [Hc _].
  apply negb_true_iff in Hc. simpl. now rewrite Hc.
Qed.

Lemma trimEnd_none : forall s,
  allChars (fun c => negb (isSpace c)) s = true -> trimEnd s = s.
Proof.
  induction s as [|c s IH]; intros H; [reflexivity|].
  simpl in H. apply andb_true_iff in H. destruct H as [Hc Hs].
  apply negb_true_iff in Hc. simpl. rewrite (IH Hs), Hc. now destruct s.
Qed.

Lemma trim_none : forall s,
  allChars (fun c => negb (isSpace c)) s = true -> trim s = s.
Proof.
  intros s H. unfold trim, trimStart. rewrite (dropWhile_none isSpace s H).
  now apply trimEnd_none.
Qed.

Lemma replaceAll_none : forall c rep s, countChar c s = 0 -> replaceAll c rep s = s.
Proof.
  intros c rep. induction s as [|x s IH]; intros H; [reflexivity|].
  simpl in H. simpl. destruct (Ascii.eqb x c); [simpl in H; lia|].
  now rewrite IH.
Qed.

Lemma escapeHtml_plain : forall q s,
  (forall c, q c = true ->
     negb (isChar "&" c || isChar "<" c || isChar ">" c || isChar dqChar c
           || isChar "'" c) = true) ->
  allChars q s = true -> Renderer.escapeHtml s = s.
Proof.
  intros q s Hq H. unfold Renderer.escapeHtml.
  assert (forall x,
             isChar "&" x || isChar "<" x || isChar ">" x || isChar dqChar x
             || isChar "'" x = true -> countChar x s = 0) as Hc.
  { intros x Hx. apply count_all with (q := q); [exact H|].
    destruct (q x) eqn:Q; [|reflexivity].
    apply Hq in Q. rewrite Hx in Q. discriminate. }
  rewrite (replaceAll_none "&"), (replaceAll_none "<"), (replaceAll_none ">"),
    (replaceAll_none dqChar), (replaceAll_none "'"); auto.
Qed.

Lemma slug_no_space : forall s,
  allChars slugChar s = true -> allChars (fun c => negb (isSpace c)) s = true.
Proof. intros s. apply all_impl. exact slugChar_no_space. Qed.

(** X17. Slugs of the renderer.  For every text, the slug holds only
    lower-case letters, digits, underscores and hyphens, with no two
    hyphens in a row; the closing [trim] of [slugify] removes nothing (a
    slug may start or end with a hyphen); making the slug of a slug, or
    escaping it, changes nothing: the id written in a heading tag is the
    slug itself, the target the table of contents links to. *)
Theorem slug_is_stable : forall text : string,
  let slug := Renderer.slugify text in
  allChars slugChar slug = true
  /\ noDoubleHyphen slug = true
  /\ Renderer.slugify slug = slug
  /\ Renderer.escapeHtml slug = slug
  /\ slug = Renderer.collapseRuns (isChar "-") "-"
             (Renderer.collapseRuns isSpace "-"
                (filterChars (fun c => isWord c || isSpace c || isChar "-" c)
                   (toLowerCase text))).
Proof.
  intros text slug.
  pose proof (all_slugify text) as A. fold slug in A.
  pose proof (noDouble_slugify text) as B. fold slug in B.
  split; [exact A|]. split; [exact B|]. split; [|split].
  - unfold Renderer.slugify at 1.
    unfold toLowerCase. rewrite (mapChars_id lowerChar slugChar slug slugChar_lower A).
    rewrite filterChars_id by (apply all_impl with (q := slugChar); [exact slugChar_kept|exact A]).
    rewrite (collapseRuns_none isSpace) by (apply slug_no_space; exact A).
    rewrite collapseRuns_single by exact B.
    apply trim_none, slug_no_space, A.
  - apply escapeHtml_plain with (q := slugChar); [exact slugChar_plain|exact A].
  - unfold slug, Renderer.slugify. apply trim_none, slug_no_space.
    apply all_collapseRuns; [reflexivity|].
    apply all_collapsed; [reflexivity|].
    apply all_impl with
      (q := fun c => (isWord c || isSpace c || isChar "-" c) && negb (isUpper c));
      [exact kept_lower_is_slug|].
    apply all_and; [apply all_filterChars|].
    apply all_filterChars_keep, all_toLowerCase.
Qed.

(** ** The table of contents *)

Lemma hasPrefix_app : forall body a b,
  countChar "<" body = 0 -> tagOrEmpty b = true ->
  hasPrefix body (a ++ b) = hasPrefix body a.
Proof.
  induction body as [|x body IH]; intros a b Hb Ht; [reflexivity|].
  simpl in Hb.
  destruct (Ascii.eqb x "<") eqn:X; [simpl in Hb; lia|].
  destruct a as [|y a].
  - simpl. destruct b as [|c b]; [reflexivity|].
    simpl in Ht. apply isChar_true in Ht. subst c.
    rewrite Ascii.eqb_sym, X. reflexivity.
  - simpl. now rewrite IH.
Qed.

Lemma countTag_app : forall body a b,
  countChar "<" body = 0 -> tagOrEmpty b = true ->
  countTag (String "<" body) (a ++ b)
  = countTag (String "<" body) a + countTag (String "<" body) b.
Proof.
  intros body a b Hb Ht. induction a as [|c a IH]; [reflexivity|].
  cbn [append countTag hasPrefix]. rewrite IH.
  rewrite (hasPrefix_app body a b Hb Ht). lia.
Qed.

Lemma countTag_free : forall body a b,
  countChar "<" a = 0 ->
  countTag (String "<" body) (a ++ b) = countTag (String "<" body) b.
Proof.
  intros body a b. induction a as [|c a IH]; intros H; [reflexivity|].
  simpl in H. cbn [append countTag hasPrefix].
  destruct (Ascii.eqb c "<"); [simpl in H; lia|].
  simpl. now apply IH.
Qed.

Lemma concat_repeat : forall s k,
  String.concat "" (repeat s (S k)) = s ++ String.concat "" (repeat s k).
Proof.
  intros s [|k]; simpl; [now rewrite append_nil_r|reflexivity].
Qed.

Lemma tagOrEmpty_times : forall n c s,
  isChar "<" c = true -> tagOrEmpty (Toc.times n (String c s)) = true.
Proof.
  intros n c s H. unfold Toc.times.
  destruct (Z.to_nat n) as [|k]; [reflexivity|].
  rewrite concat_repeat. exact H.
Qed.

Lemma countTag_times : forall body n c s,
  countChar "<" body = 0 -> isChar "<" c = true ->
  countTag (String "<" body) (Toc.times n (String c s))
  = Z.to_nat n * countTag (String "<" body) (String c s).
Proof.
  intros body n c s Hb Hc. unfold Toc.times.
  induction (Z.to_nat n) as [|k IH]; [reflexivity|].
  rewrite concat_repeat, countTag_app; auto.
  - rewrite IH. lia.
  - destruct k; [reflexivity|]. rewrite concat_repeat. exact Hc.
Qed.

Lemma tocItem_counts : forall h,
  countChar "<" (Toc.id h) = 0 ->
  countTag "<ul>" (tocItem h) = 0 /\ countTag "</ul>" (tocItem h) = 0
  /\ countTag "<li>" (tocItem h) = 1 /\ countTag "</li>" (tocItem h) = 1.
Proof.
  intros h Hid.
  repeat split;
    unfold tocItem; count_literal;
    rewrite countTag_free by exact Hid; count_literal;
    rewrite countTag_free by apply tocEscapeHtml_clean;
    reflexivity.
Qed.

Lemma tocEntry_eq : forall maxDepth html cur h,
  Toc.tocEntry maxDepth (html, cur) h
  = if listed maxDepth h
    then (((html ++ Toc.times (Toc.level h - cur) "<ul>")
           ++ Toc.times (Z.max cur (Toc.level h) - Toc.level h) "</ul>")
          ++ tocItem h,
          Toc.level h)
    else (html, cur).
Proof.
  intros maxDepth html cur h. unfold Toc.tocEntry, listed.
  destruct (Toc.gtNum (Toc.level h) maxDepth); [reflexivity|].
  cbn [negb]. f_equal. lia.
Qed.

Lemma tagOrEmpty_tocItem : forall h, tagOrEmpty (tocItem h) = true.
Proof. reflexivity. Qed.

Lemma fold_tocEntry_counts : forall maxDepth hs html cur,
  forallb cleanId hs = true ->
  let r := fold_left (Toc.tocEntry maxDepth) hs (html, cur) in
  snd r = lastListedLevel maxDepth hs cur
  /\ countTag "<li>" (fst r)
     = countTag "<li>" html + List.length (List.filter (listed maxDepth) hs)
  /\ (Z.of_nat (countTag "<ul>" (fst r)) - Z.of_nat (countTag "</ul>" (fst r))
      = Z.of_nat (countTag "<ul>" html) - Z.of_nat (countTag "</ul>" html)
        + (snd r - cur))%Z.
Proof.
  intros maxDepth. induction hs as [|h hs IH]; intros html cur Hc; cbn zeta.
  - simpl. repeat split; lia.
  - cbn [forallb] in Hc. apply andb_true_iff in Hc. destruct Hc as [Hh Hc].
    unfold cleanId in Hh. apply Nat.eqb_eq in Hh.
    destruct (tocItem_counts h Hh) as (I1 & I2 & I3 & I4).
    cbn [fold_left List.filter]. unfold lastListedLevel. cbn [fold_left].
    fold (lastListedLevel maxDepth hs). rewrite tocEntry_eq.
    destruct (listed maxDepth h).
    + specialize (IH (((html ++ Toc.times (Toc.level h - cur) "<ul>")
                       ++ Toc.times (Z.max cur (Toc.level h) - Toc.level h) "</ul>")
                      ++ tocItem h) (Toc.level h) Hc).
      cbn zeta in IH. destruct IH as (J1 & J2 & J3).
      split; [exact J1|]. split.
      * rewrite J2. cbn [List.length].
        rewrite !countTag_app by
          (try reflexivity; try apply tagOrEmpty_tocItem; apply tagOrEmpty_times; reflexivity).
        rewrite !countTag_times by reflexivity. rewrite I3.
        change (countTag "<li>" "<ul>") with 0. change (countTag "<li>" "</ul>") with 0.
        lia.
      * rewrite J3.
        rewrite !countTag_app by
          (try reflexivity; try apply tagOrEmpty_tocItem; apply tagOrEmpty_times; reflexivity).
        rewrite !countTag_times by reflexivity. rewrite I1, I2.
        change (countTag "<ul>" "<ul>") with 1. change (countTag "<ul>" "</ul>") with 0.
        change (countTag "</ul>" "<ul>") with 0. change (countTag "</ul>" "</ul>") with 1.
        lia.
    + apply IH. exact Hc.
Qed.

(** X18. The lists of the table of contents.  When no heading id holds
    an opening angle bracket (the slugs of the renderer never do), the
    table of contents has one list item for every heading that is not
    deeper than [maxDepth], and its lists are closed as often as they are
    opened exactly when the last listed heading is not shallower than the
    first heading: the closing tags outnumber the opening tags by the
    number of levels the last listed heading lies above the first. *)
Theorem toc_lists_nest :
  forall (first : Toc.Heading) (rest : list Toc.Heading) (maxDepth : option Z),
    forallb cleanId (first :: rest) = true ->
    let toc := Toc.generateToc (first :: rest) maxDepth in
    let last := lastListedLevel maxDepth (first :: rest) (Toc.level first) in
    countTag "<li>" toc = List.length (List.filter (listed maxDepth) (first :: rest))
    /\ (Z.of_nat (countTag "</ul>" toc)
        = Z.of_nat (countTag "<ul>" toc) + Z.max 0 (Toc.level first - last))%Z.
Proof.
  intros first rest maxDepth Hc toc last.
  pose proof (fold_tocEntry_counts maxDepth (first :: rest)
                ("<nav class=" ++ dq ++ "toc" ++ dq ++ "><h2>Table of Contents</h2><ul>")
                (Toc.level first) Hc) as H.
  cbn zeta in H. fold last in H.
  subst toc. unfold Toc.generateToc.
  destruct (fold_left (Toc.tocEntry maxDepth) (first :: rest)
              ("<nav class=" ++ dq ++ "toc" ++ dq ++ "><h2>Table of Contents</h2><ul>",
               Toc.level first)) as [html cur].
  cbn [fst snd] in H. destruct H as (H1 & H2 & H3). subst cur.
  set (tail := "</ul></nav>" ++ nl).
  rewrite <- append_assoc.
  assert (tagOrEmpty tail = true) as Ht by reflexivity.
  split.
  - rewrite !countTag_app by (try reflexivity; try exact Ht; apply tagOrEmpty_times; reflexivity).
    rewrite countTag_times by reflexivity. rewrite H2.
    change (countTag "<li>" "</ul>") with 0.
    change (countTag "<li>" tail) with 0.
    change (countTag "<li>"
              ("<nav class=" ++ dq ++ "toc" ++ dq ++ "><h2>Table of Contents</h2><ul>"))
      with 0.
    lia.
  - rewrite !countTag_app by (try reflexivity; try exact Ht; apply tagOrEmpty_times; reflexivity).
    rewrite !countTag_times by reflexivity.
    change (countTag "<ul>" "</ul>") with 0. change (countTag "</ul>" "</ul>") with 1.
    change (countTag "<ul>" tail) with 0.
    change (countTag "</ul>" tail) with 1.
    change (countTag "<ul>"
              ("<nav class=" ++ dq ++ "toc" ++ dq ++ "><h2>Table of Contents</h2><ul>"))
      with 1 in H3.
    change (countTag "</ul>"
              ("<nav class=" ++ dq ++ "toc" ++ dq ++ "><h2>Table of Contents</h2><ul>"))
      with 0 in H3.
    lia.
Qed.

Lemma toc_lists_nest_witness :
  forallb cleanId
    [{| Toc.level := 2; Toc.text := "B"; Toc.id := "b" |};
     {| Toc.level := 1; Toc.text := "A"; Toc.id := "a" |}] = true
  /\ countTag "<li>"
       (Toc.generateToc
          [{| Toc.level := 2; Toc.text := "B"; Toc.id := "b" |};
           {| Toc.level := 1; Toc.text := "A"; Toc.id := "a" |}] (Some 3%Z)) = 2
  /\ (Z.of_nat
        (countTag "</ul>"
           (Toc.generateToc
              [{| Toc.level := 2; Toc.text := "B"; Toc.id := "b" |};
               {| Toc.level := 1; Toc.text := "A"; Toc.id := "a" |}] (Some 3%Z)))
      = Z.of_nat
          (countTag "<ul>"
             (Toc.generateToc
                [{| Toc.level := 2; Toc.text := "B"; Toc.id := "b" |};
                 {| Toc.level := 1; Toc.text := "A"; Toc.id := "a" |}] (Some 3%Z)))
        + 1)%Z.
Proof.
  split; [reflexivity|].
  exact (toc_lists_nest {| Toc.level := 2; Toc.text := "B"; Toc.id := "b" |}
           [{| Toc.level := 1; Toc.text := "A"; Toc.id := "a" |}] (Some 3%Z) eq_refl).
Defined.

(** ** The context of the renderer *)

Lemma length_mapSet : forall k v m,
  List.length (Renderer.mapSet k v m) <= S (List.length m).
Proof.
  intros k v. induction m as [|[k' v'] m IH]; simpl; [lia|].
  destruct (String.eqb k' k); simpl; lia.
Qed.

Lemma headingLevel_le : forall node, (Renderer.headingLevel node <= 6)%Z.
Proof. intros node. unfold Renderer.headingLevel. lia. Qed.

Lemma kept_leaf : forall highlightCode o node x,
  keptContext o x -> keptContext o (snd (leafRender highlightCode node x)).
Proof.
  intros highlightCode o node x (H1 & H2 & H3). unfold leafRender.
  destruct (Ast.type node); try (now repeat split).
  - (* heading *)
    rewrite renderHeading_eq. cbn [snd]. repeat split; cbn; auto.
    rewrite forallb_app, H2. cbn. unfold recorded. cbn.
    rewrite String.eqb_refl. cbn.
    pose proof (headingLevel_le node) as L.
    apply Z.leb_le in L. now rewrite L.
  - (* footnote *)
    unfold Renderer.renderFootnote. cbn [snd].
    repeat split;
      cbn [Renderer.options Renderer.headings Renderer.footnotes
           Renderer.footnoteCounter]; auto.
    match goal with
    | |- context [Renderer.mapSet ?k ?v ?m] => pose proof (length_mapSet k v m) as L
    end.
    lia.
Qed.

Lemma kept_nodes : forall highlightCode o l,
  Forall (fun node => forall x, keptContext o x ->
                                keptContext o (snd (Renderer.renderNode highlightCode node x))) l ->
  forall html x,
    keptContext o x -> keptContext o (snd (Renderer.renderNodes highlightCode l html x)).
Proof.
  intros highlightCode o l H. induction H as [|node l Hn Hl IH]; intros html x Hx.
  - exact Hx.
  - cbn [Renderer.renderNodes].
    specialize (Hn x Hx).
    destruct (Renderer.renderNode highlightCode node x) as [h x'].
    now apply IH.
Qed.

Lemma kept_node : forall highlightCode o node x,
  keptContext o x -> keptContext o (snd (Renderer.renderNode highlightCode node x)).
Proof.
  intros highlightCode o node.
  induction node as [ty v ps kids IH] using AstNode_forall_ind.
  intros x Hx.
  destruct (wrapperOf (Ast.mkNode ty v ps kids)) as [g|] eqn:W.
  - rewrite (renderNode_wrap highlightCode _ g x W).
    pose proof (kept_nodes highlightCode o _ IH "" x Hx) as Hk.
    cbn [Ast.children] in *.
    destruct (Renderer.renderNodes highlightCode (kidsOf kids) "" x) as [inner x'].
    exact Hk.
  - rewrite (renderNode_leaf highlightCode _ x W). now apply kept_leaf.
Qed.

Lemma recorded_clean : forall h, recorded h = true -> cleanId h = true.
Proof.
  intros h H. unfold recorded in H. apply andb_true_iff in H. destruct H as [H _].
  apply String.eqb_eq in H. unfold cleanId. rewrite H.
  apply Nat.eqb_eq. apply count_slugify. reflexivity.
Qed.

(** X19. What the walk of the renderer records.  For every tree, every
    options value and every highlighter, after the body is rendered the
    context still holds the options it was given; every heading recorded
    for the table of contents has the slug of its text as its id (which
    holds no angle bracket) and a level of at most 6; and the footnote
    list has at most as many entries as footnote references were
    numbered (references to the same label share one entry). *)
Theorem rendering_keeps_its_records :
  forall (highlightCode : string -> string -> string) (ast : Document.OrgAst)
         (options : Renderer.RenderOptions),
    let context := snd (Renderer.renderBody highlightCode ast options) in
    Renderer.options context = options
    /\ forallb recorded (Renderer.headings context) = true
    /\ forallb cleanId (Renderer.headings context) = true
    /\ (Z.of_nat (List.length (Renderer.footnotes context))
        <= Renderer.footnoteCounter context - 1)%Z.
Proof.
  intros highlightCode ast options context.
  assert (keptContext options context) as (H1 & H2 & H3).
  { subst context. unfold Renderer.renderBody.
    apply kept_nodes.
    - apply Forall_forall. intros node _ x Hx. now apply kept_node.
    - repeat split. cbn. lia. }
  repeat split; auto; [|lia].
  clear -H2. induction (Renderer.headings context) as [|h hs IH]; [reflexivity|].
  cbn [forallb] in *. apply andb_true_iff in H2. destruct H2 as [Hh Hs].
  now rewrite (recorded_clean h Hh), IH.
Qed.

(** ** From the text to the page *)

Lemma contentLine_stops : forall raw rest m,
  contentLine raw = true ->
  Metadata.extractLoop (raw :: rest) 0 false [] m
  = {| Metadata.metadata := m; Metadata.contentStartLine := 0 |}.
Proof.
  intros raw rest m H. unfold contentLine in H. cbv zeta in H.
  cbn [Metadata.extractLoop]. rewrite H.
  apply andb_true_iff in H. destruct H as [H Hc].
  apply andb_true_iff in H. destruct H as [_ Hh].
  apply negb_true_iff in Hc. apply negb_true_iff in Hh.
  destruct (trim raw) as [|c t] eqn:T.
  - reflexivity.
  - unfold startsWith in Hc, Hh. simpl in Hc, Hh.
    destruct (ascii_dec ":" c) as [<-|Nc];
      [destruct t; discriminate|].
    destruct (ascii_dec "#" c) as [<-|Nh];
      [destruct t; discriminate|].
    assert (String.eqb (String c t) ":PROPERTIES:" = false) as E1.
    { apply String.eqb_neq. intros E. injection E as E _. congruence. }
    rewrite E1. rewrite andb_false_r.
    assert (Metadata.metaMatch (String c t) = None) as E2.
    { unfold Metadata.metaMatch.
      destruct (Ascii.eqb_spec c "#") as [->|N]; [congruence|].
      destruct c as [[|] [|] [|] [|] [|] [|] [|] [|]]; try reflexivity.
      congruence. }
    rewrite E2. reflexivity.
Qed.

Lemma plainLine_parts : forall l,
  plainLine l = true ->
  oneLine l = true /\ lineType l = Lexer.TEXT /\ allChars plainChar l = true.
Proof.
  intros l H. unfold plainLine in H.
  apply andb_true_iff in H. destruct H as [H H3].
  apply andb_true_iff in H. destruct H as [H1 H2].
  repeat split; auto. destruct (lineType l); simpl in H2; congruence.
Qed.

Lemma plainLines_parts : forall ls,
  forallb plainLine ls = true ->
  Forall (fun l => oneLine l = true) ls
  /\ Forall (fun l => lineType l = Lexer.TEXT) ls
  /\ Forall (fun l => allChars plainChar l = true) ls.
Proof.
  induction ls as [|l ls IH]; intros H; [repeat split; constructor|].
  cbn [forallb] in H. apply andb_true_iff in H. destruct H as [Hl Hls].
  destruct (plainLine_parts l Hl) as (A & B & C).
  destruct (IH Hls) as (A' & B' & C').
  repeat split; constructor; auto.
Qed.

Lemma all_join_space : forall q ls,
  q " "%char = true ->
  Forall (fun l => allChars q l = true) ls -> allChars q (join " " ls) = true.
Proof.
  intros q ls Hq H. induction H as [|l ls Hl Hls IH]; [reflexivity|].
  destruct ls as [|l' ls]; [exact Hl|].
  rewrite join_cons by discriminate.
  rewrite !all_app, Hl, IH. simpl. now rewrite Hq.
Qed.

Lemma join_not_empty : forall sep l ls, isEmpty l = false -> isEmpty (join sep (l :: ls)) = false.
Proof.
  intros sep l ls H. destruct ls as [|l' ls]; [exact H|].
  rewrite join_cons by discriminate. now destruct l.
Qed.

(** The tree of a document of plain text. *)
Lemma plain_document_parse :
  forall (slugifyLib : string -> string) (first : string) (rest : list string),
    forallb plainLine (first :: rest) = true ->
    contentLine first = true ->
    let text := join " " (map trim (first :: rest)) in
    let plainText := Parser.extractPlainText [paragraphOf [Ast.createTextNode text]] in
    Parser.parse slugifyLib (unlines (first :: rest))
    = Some {| Document.metadata :=
                Metadata.withDerived (Metadata.calculateReadingTime plainText)
                  (List.length (splitSpaces plainText))
                  (Some (Metadata.extractExcerpt plainText 160))
                  Metadata.emptyMetadata;
              Document.children := [paragraphOf [Ast.createTextNode text]] |}.
Proof.
  intros slugifyLib first rest Hp Hc text plainText.
  destruct (plainLines_parts _ Hp) as (Hone & Htext & Hplain).
  assert (Parser.parseInlineMarkup text = [Ast.createTextNode text]) as Hin.
  { rewrite plain_parse.
    - subst text. cbn [map]. rewrite join_not_empty; [reflexivity|].
      unfold contentLine in Hc. cbv zeta in Hc.
      destruct (isEmpty (trim first)); [discriminate|reflexivity].
    - subst text. apply all_join_space; [reflexivity|].
      apply Forall_map. eapply Forall_impl; [|exact Hplain].
      intros l Hl. now apply all_trim. }
  assert (Parser.parseTokens (Lexer.tokenize (unlines (first :: rest)))
          = Some [paragraphOf [Ast.createTextNode text]]) as Htok.
  { pose proof (parseParagraph_lines [] (first :: rest) []) as PP.
    rewrite app_nil_r in PP. cbn [app List.length] in PP.
    specialize (PP Hone ltac:(discriminate) Htext ltac:(intros l E; discriminate E)).
    fold text in PP. rewrite Hin in PP.
    unfold Parser.parseTokens.
    assert (List.length (Lexer.tokenize (unlines (first :: rest)))
            = S (List.length rest)) as HL
        by (rewrite tokenize_unlines by (auto; discriminate);
            now rewrite length_tokenizeFrom).
    rewrite HL. cbn [Parser.parseTokensLoop].
    assert (nth_error (Lexer.tokenize (unlines (first :: rest))) 0
            = Some (Lexer.classify 0 first)) as H0
        by (rewrite tokenize_unlines by (auto; discriminate); reflexivity).
    rewrite H0.
    inversion Htext as [|? ? Hf _]; subst. unfold lineType in Hf. rewrite Hf.
    rewrite PP. cbn [Parser.push app].
    replace (Z.to_nat (Z.of_nat (0 + S (List.length rest)) - 1 + 1))
      with (S (List.length rest)) by lia.
    assert (nth_error (Lexer.tokenize (unlines (first :: rest))) (S (List.length rest))
            = None) as HN by (apply nth_error_None; lia).
    rewrite HN. reflexivity. }
  unfold Parser.parse.
  rewrite split_unlines by (auto; discriminate).
  unfold Metadata.extractMetadata.
  rewrite (contentLine_stops first rest Metadata.emptyMetadata Hc).
  cbn [Metadata.metadata Metadata.contentStartLine Metadata.title
       Metadata.emptyMetadata skipn].
  change (join nl (first :: rest)) with (unlines (first :: rest)).
  rewrite Htok. reflexivity.
Qed.

(** X20. A document of plain text is one paragraph.  When every line is
    a plain text line without marker characters and the first line is a
    content line, [parse] reads no metadata, the tree is one paragraph
    over one text leaf (the lines, trimmed and joined by single spaces),
    and the page body is that text, escaped, between paragraph tags, with
    no table of contents and no footnote block. *)
Theorem plain_document_is_one_paragraph :
  forall (slugifyLib : string -> string) (first : string) (rest : list string),
    forallb plainLine (first :: rest) = true ->
    contentLine first = true ->
    let text := join " " (map trim (first :: rest)) in
    exists ast,
      Parser.parse slugifyLib (unlines (first :: rest)) = Some ast
      /\ Document.children ast = [paragraphOf [Ast.createTextNode text]]
      /\ Metadata.title (Document.metadata ast) = None
      /\ forall highlightCode options,
           Renderer.fullHtml highlightCode ast options
           = "<p>" ++ Renderer.escapeHtml text ++ "</p>" ++ nl.
Proof.
  intros slugifyLib first rest Hp Hc text.
  pose proof (plain_document_parse slugifyLib first rest Hp Hc) as E.
  cbv zeta in E. fold text in E.
  eexists. split; [exact E|]. split; [reflexivity|]. split; [reflexivity|].
  intros highlightCode options.
  unfold Renderer.fullHtml, Renderer.renderBody.
  cbn [Document.children Renderer.renderNodes Renderer.renderNode paragraphOf
       Ast.createNode].
  unfold Renderer.renderParagraph, Renderer.renderToc, Renderer.renderFootnotes.
  cbn [Renderer.headings Renderer.footnotes Renderer.newContext List.length
       Nat.eqb negb andb].
  rewrite andb_false_r. cbn [append].
  rewrite append_nil_r.
  cbn [Renderer.renderChildrenSync map Ast.type Ast.createTextNode Ast.value
       Renderer.orEmpty String.concat].
  reflexivity.
Qed.

Lemma plain_document_is_one_paragraph_witness :
  forallb plainLine ["Tom & Jerry,"; "  a <cartoon>  "] = true
  /\ contentLine "Tom & Jerry," = true
  /\ exists ast,
       Parser.parse identity (unlines ["Tom & Jerry,"; "  a <cartoon>  "]) = Some ast
       /\ Document.children ast
          = [paragraphOf [Ast.createTextNode "Tom & Jerry, a <cartoon>"]]
       /\ Metadata.title (Document.metadata ast) = None
       /\ forall highlightCode options,
            Renderer.fullHtml highlightCode ast options
            = "<p>" ++ Renderer.escapeHtml "Tom & Jerry, a <cartoon>" ++ "</p>" ++ nl.
Proof.
  split; [reflexivity|]. split; [reflexivity|].
  exact (plain_document_is_one_paragraph identity "Tom & Jerry,"
           ["  a <cartoon>  "] eq_refl eq_refl).
Defined.

(** ** The block parser on every input *)

Lemma parseTokensLoop_mono : forall fuel tokens i nodes r,
  Parser.parseTokensLoop fuel tokens i nodes = Some r ->
  forall fuel', fuel <= fuel' -> Parser.parseTokensLoop fuel' tokens i nodes = Some r.
Proof.
  induction fuel as [|fuel IH]; intros tokens i nodes r H fuel' Hf; [discriminate|].
  destruct fuel' as [|fuel']; [lia|].
  cbn [Parser.parseTokensLoop] in H |- *.
  destruct (nth_error tokens i) as [token|]; [|exact H].
  assert (forall j ns,
             Parser.parseTokensLoop fuel tokens j ns = Some r ->
             Parser.parseTokensLoop fuel' tokens j ns = Some r) as Hk
      by (intros j ns Hj; apply (IH _ _ _ _ Hj); lia).
  destruct (Lexer.type token); auto;
    match goal with
    | H : match ?x with _ => _ end = _ |- _ =>
        first [destruct x as [[? ?]|] | destruct x as [? ?]]
    end; auto.
Qed.

(** X21. The block parser returns on every input.  For every content,
    [parse] returns a tree: no block function reads past the end of the
    token list, and the loop of [parseTokens] ends, with the same node
    list for every amount of fuel above the number of tokens. *)
Theorem parse_returns_a_tree :
  forall (slugifyLib : string -> string) (content : string),
    (exists ast, Parser.parse slugifyLib content = Some ast)
    /\ exists nodes,
         forall fuel,
           List.length (Lexer.tokenize content) < fuel ->
           Parser.parseTokensLoop fuel (Lexer.tokenize content) 0 [] = Some nodes.
Proof.
  intros slugifyLib content. split.
  - unfold Parser.parse.
    match goal with |- context [Parser.parseTokens ?t] =>
      destruct (parseTokens_total t) as (nodes & Hp & _) end.
    rewrite Hp. eexists. reflexivity.
  - destruct (parseTokens_total (Lexer.tokenize content)) as (nodes & Hp & _).
    exists nodes. intros fuel Hf.
    apply (parseTokensLoop_mono _ _ _ _ _ Hp). lia.
Qed.

(** ** Shortcodes *)

(** X22. A shortcode token is a shortcode node.  Whenever [tokenize]
    makes a SHORTCODE token of a line, the pattern of [parseShortcode]
    matches the token's value at its start, so the node is a shortcode
    node with the component the lexer read, never the text leaf of the
    fall-back branch. *)
Theorem shortcode_token_is_a_shortcode_node : forall (i : nat) (line : string),
  Lexer.type (Lexer.classify i line) = Lexer.SHORTCODE ->
  exists component attrs,
    Lexer.component (Lexer.properties (Lexer.classify i line)) = Some component
    /\ Parser.parseShortcode (Lexer.classify i line)
       = Ast.createNode Ast.t_shortcode (Parser.justComponent component attrs) None.
Proof.
  intros i line. unfold Lexer.classify. cbv zeta.
  destruct (isEmpty (trim line)); [intros H; discriminate H|].
  destruct (Lexer.headingMatch (trim line)) as [[stars text]|];
    [intros H; discriminate H|].
  destruct (startsWithI "#+BEGIN_SRC" (trim line)); [intros H; discriminate H|].
  destruct (startsWithI "#+END_SRC" (trim line)); [intros H; discriminate H|].
  destruct (Lexer.blockMatch "#+BEGIN_" (trim line)); [intros H; discriminate H|].
  destruct (Lexer.blockMatch "#+END_" (trim line)); [intros H; discriminate H|].
  destruct (Lexer.drawerMatch (trim line)); [intros H; discriminate H|].
  destruct (String.eqb (trim line) ":END:"); [intros H; discriminate H|].
  destruct (startsWith "|" (trim line)); [intros H; discriminate H|].
  destruct (Lexer.listMatch (trim line)) as [[marker text]|]; [intros H; discriminate H|].
  destruct (Lexer.shortcodeMatch (trim line)) as [comp|] eqn:SM;
    [|intros H; discriminate H].
  intros _. cbn [Lexer.properties Lexer.component].
  unfold Parser.parseShortcode. cbn [Lexer.value].
  unfold Lexer.shortcodeMatch in SM.
  assert (exists rest, Parser.shortcodeAt (trim line) = Some (comp, rest)) as [rest HA].
  { unfold Parser.shortcodeAt.
    destruct (startsWith "{{<" (trim line)); [|discriminate].
    destruct (negb (isEmpty (takeWhile isWord (dropWhile isSpace (drop 3 (trim line))))));
      [|discriminate].
    cbn [andb] in SM |- *.
    destruct (findStr ">}}"
                (takeWhile (fun c => negb (isLineTerminator c))
                   (dropWhile isWord (dropWhile isSpace (drop 3 (trim line))))))
      as [q|]; [|discriminate].
    injection SM as <-. eexists. reflexivity. }
  assert (Parser.shortcodeSearch (trim line) = Some (comp, rest)) as HS.
  { destruct (trim line) as [|c t]; cbn [Parser.shortcodeSearch]; now rewrite HA. }
  rewrite HS. eexists. eexists. split; reflexivity.
Qed.

Lemma shortcode_token_is_a_shortcode_node_witness :
  Lexer.type (Lexer.classify 0 "{{< youtube id=x >}}") = Lexer.SHORTCODE
  /\ exists component attrs,
       Lexer.component (Lexer.properties (Lexer.classify 0 "{{< youtube id=x >}}"))
       = Some component
       /\ Parser.parseShortcode (Lexer.classify 0 "{{< youtube id=x >}}")
          = Ast.createNode Ast.t_shortcode (Parser.justComponent component attrs) None.
Proof.
  split; [reflexivity|].
  exact (shortcode_token_is_a_shortcode_node 0 "{{< youtube id=x >}}" eq_refl).
Defined.

(** ** Emphasis *)

Lemma delimited_skip : forall isMarker found text i c p,
  isMarker c = false -> Parser.delimited isMarker found text i c p = inr p.
Proof. intros. unfold Parser.delimited. now rewrite H. Qed.

Lemma findChar_end : forall m content,
  countChar m content = 0 ->
  findChar m (content ++ String m "") = Some (String.length content).
Proof.
  intros m. induction content as [|c content IH]; intros H.
  - simpl. now rewrite Ascii.eqb_refl.
  - simpl in H. cbn [append findChar].
    destruct (Ascii.eqb c m); [simpl in H; lia|].
    rewrite IH by exact H. reflexivity.
Qed.

Lemma take_app_length : forall a b, take (String.length a) (a ++ b) = a.
Proof. induction a as [|c a IH]; intros b; simpl; [now destruct b|now rewrite IH]. Qed.

Lemma delimited_found : forall isMarker found content m p,
  isMarker m = true ->
  isChar " " m = false ->
  countChar m content = 0 ->
  startsWithBlank content = false ->
  Parser.delimited isMarker found (between m content) 0 m p
  = inl (found m content (String.length content + 2) (Parser.nodes (Parser.flush p))).
Proof.
  intros isMarker found content m p Hm Hs Hc Hb.
  unfold Parser.delimited. rewrite Hm.
  assert (Parser.nextIsNotSpace (between m content) 0 = true) as Hn.
  { unfold Parser.nextIsNotSpace, between. simpl.
    destruct content as [|c content]; simpl; [now rewrite Hs|].
    simpl in Hb. now rewrite Hb. }
  rewrite Hn. cbn [andb].
  unfold indexOfChar, between. cbn [Nat.add drop].
  rewrite (findChar_end m content Hc). cbn [option_map].
  rewrite substring_le by lia.
  replace (S (String.length content) - 1) with (String.length content) by lia.
  cbn [drop]. rewrite take_app_length.
  do 2 f_equal. lia.
Qed.

Lemma get_end : forall m content,
  get (String.length content + 2) (between m content) = None.
Proof.
  intros m content. unfold between.
  replace (String.length content + 2) with (S (S (String.length content))) by lia.
  cbn [get]. induction content as [|c content IH]; [reflexivity|exact IH].
Qed.

Lemma length_between : forall m content,
  String.length (between m content) = String.length content + 2.
Proof. intros. unfold between. simpl. rewrite length_append. simpl. lia. Qed.

(** The scan of a text that is one construct of a kind that is not bold. *)
Lemma scan_leaf : forall text c node next fuel,
  get 0 text = Some c ->
  Parser.step text 0 c Parser.start = Parser.Leaf node next [] ->
  get next text = None ->
  Parser.scan (S (S fuel)) text 0 Parser.start = Some [node].
Proof.
  intros text c node next fuel G S N.
  cbn [Parser.scan]. rewrite G, S, N. reflexivity.
Qed.

Lemma plain_no_marker : forall m content,
  plainChar m = false -> allChars plainChar content = true -> countChar m content = 0.
Proof. intros m content Hm H. now apply count_all with (q := plainChar). Qed.

Lemma leaf_parse : forall m content node,
  allChars plainChar content = true ->
  startsWithBlank content = false ->
  Parser.step (between m content) 0 m Parser.start
  = Parser.Leaf node (String.length content + 2) [] ->
  Parser.parseInlineMarkup (between m content) = [node].
Proof.
  intros m content node Hp Hb Hs.
  unfold Parser.parseInlineMarkup, Parser.parseInlineMarkupFuel.
  rewrite length_between.
  replace (String.length content + 2) with (S (String.length content + 1)) at 1 by lia.
  rewrite (scan_leaf _ m node (String.length content + 2)); auto.
  apply get_end.
Qed.

Lemma italic_parse : forall content,
  allChars plainChar content = true -> startsWithBlank content = false ->
  Parser.parseInlineMarkup (between "/" content) = [Parser.withValue Ast.t_italic content].
Proof.
  intros content Hp Hb. apply leaf_parse; auto.
  unfold Parser.step, Parser.boldBlock, Parser.italicBlock.
  rewrite delimited_skip by reflexivity. cbn [Parser.orElse].
  rewrite delimited_found; auto. now apply plain_no_marker.
Qed.

Lemma underline_parse : forall content,
  allChars plainChar content = true -> startsWithBlank content = false ->
  Parser.parseInlineMarkup (between "_" content)
  = [Parser.withValue Ast.t_underline content].
Proof.
  intros content Hp Hb. apply leaf_parse; auto.
  unfold Parser.step, Parser.boldBlock, Parser.italicBlock, Parser.underlineBlock.
  do 2 (rewrite delimited_skip by reflexivity; cbn [Parser.orElse]).
  rewrite delimited_found; auto. now apply plain_no_marker.
Qed.

Lemma code_parse : forall content,
  allChars plainChar content = true -> startsWithBlank content = false ->
  Parser.parseInlineMarkup (between "~" content) = [Parser.withValue Ast.t_code content].
Proof.
  intros content Hp Hb. apply leaf_parse; auto.
  unfold Parser.step, Parser.boldBlock, Parser.italicBlock, Parser.underlineBlock,
    Parser.codeBlock.
  do 3 (rewrite delimited_skip by reflexivity; cbn [Parser.orElse]).
  rewrite delimited_found; auto. now apply plain_no_marker.
Qed.

Lemma verbatim_parse : forall content,
  allChars plainChar content = true -> startsWithBlank content = false ->
  Parser.parseInlineMarkup (between "=" content)
  = [Parser.withValue Ast.t_verbatim content].
Proof.
  intros content Hp Hb. apply leaf_parse; auto.
  unfold Parser.step, Parser.boldBlock, Parser.italicBlock, Parser.underlineBlock,
    Parser.codeBlock.
  do 3 (rewrite delimited_skip by reflexivity; cbn [Parser.orElse]).
  rewrite delimited_found; auto. now apply plain_no_marker.
Qed.

Lemma strike_parse : forall content,
  allChars plainChar content = true -> startsWithBlank content = false ->
  Parser.parseInlineMarkup (between "+" content) = [Parser.withValue Ast.t_strike content].
Proof.
  intros content Hp Hb. apply leaf_parse; auto.
  unfold Parser.step, Parser.boldBlock, Parser.italicBlock, Parser.underlineBlock,
    Parser.codeBlock, Parser.strikeBlock.
  do 4 (rewrite delimited_skip by reflexivity; cbn [Parser.orElse]).
  rewrite delimited_found; auto. now apply plain_no_marker.
Qed.

Lemma scan_bold : forall text c content next fuel kids,
  get 0 text = Some c ->
  Parser.step text 0 c Parser.start = Parser.Bold content next [] ->
  Parser.scan (S fuel) content 0 Parser.start = Some kids ->
  get next text = None ->
  Parser.scan (S (S fuel)) text 0 Parser.start
  = Some [Ast.createNode Ast.t_bold Ast.noProperties (Some kids)].
Proof.
  intros text c content next fuel kids G S K N.
  remember (Datatypes.S fuel) as f eqn:F.
  cbn [Parser.scan]. rewrite G, S, K.
  subst f. cbn [Parser.scan]. rewrite N. reflexivity.
Qed.

Lemma bold_parse : forall content,
  allChars plainChar content = true -> startsWithBlank content = false ->
  Parser.parseInlineMarkup (between "*" content)
  = [Ast.createNode Ast.t_bold Ast.noProperties
       (Some (if isEmpty content then [] else [Ast.createTextNode content]))].
Proof.
  intros content Hp Hb.
  unfold Parser.parseInlineMarkup, Parser.parseInlineMarkupFuel.
  rewrite length_between.
  replace (S (String.length content + 2)) with (S (S (String.length content + 1))) by lia.
  rewrite (scan_bold _ "*" content (String.length content + 2) _
             (if isEmpty content then [] else [Ast.createTextNode content])).
  - reflexivity.
  - reflexivity.
  - unfold Parser.step, Parser.boldBlock.
    rewrite delimited_found; auto. now apply plain_no_marker.
  - rewrite plain_scan; [|exact Hp|lia].
    simpl. unfold Parser.flush. simpl. now destruct content.
  - apply get_end.
Qed.

(** X23. Which emphasis a paragraph shows.  For a text without marker
    characters that does not start with a space, put between two copies
    of a marker: a paragraph (or a heading) shows bold, italic and code
    ([~]) with their tags, and shows underlined, verbatim ([=]) and
    struck text as the bare escaped text, without any tag; a list item,
    a table cell or a quote shows those three with their tags. *)
Theorem emphasis_in_a_paragraph : forall content : string,
  allChars plainChar content = true ->
  startsWithBlank content = false ->
  shownInline (between "*" content)
  = "<strong>" ++ Renderer.escapeHtml content ++ "</strong>"
  /\ shownInline (between "/" content) = "<em>" ++ Renderer.escapeHtml content ++ "</em>"
  /\ shownInline (between "~" content)
     = "<code>" ++ Renderer.escapeHtml content ++ "</code>"
  /\ shownInline (between "_" content) = Renderer.escapeHtml content
  /\ shownInline (between "=" content) = Renderer.escapeHtml content
  /\ shownInline (between "+" content) = Renderer.escapeHtml content
  /\ forall highlightCode context,
       shownInBlock highlightCode context (between "_" content)
       = "<u>" ++ Renderer.escapeHtml content ++ "</u>"
       /\ shownInBlock highlightCode context (between "=" content)
          = "<code class=" ++ dq ++ "verbatim" ++ dq ++ ">"
            ++ Renderer.escapeHtml content ++ "</code>"
       /\ shownInBlock highlightCode context (between "+" content)
          = "<del>" ++ Renderer.escapeHtml content ++ "</del>".
Proof.
  intros content Hp Hb. unfold shownInline, shownInBlock.
  rewrite bold_parse, italic_parse, code_parse, underline_parse, verbatim_parse,
    strike_parse by assumption.
  split; [destruct content; reflexivity|].
  do 5 (split; [reflexivity|]).
  intros highlightCode context. repeat split; reflexivity.
Qed.

Lemma emphasis_in_a_paragraph_witness :
  allChars plainChar "a < b" = true
  /\ startsWithBlank "a < b" = false
  /\ shownInline (between "_" "a < b") = Renderer.escapeHtml "a < b"
  /\ shownInline (between "/" "a < b") = "<em>" ++ Renderer.escapeHtml "a < b" ++ "</em>".
Proof.
  split; [reflexivity|]. split; [reflexivity|].
  pose proof (emphasis_in_a_paragraph "a < b" eq_refl eq_refl) as H.
  split; [exact (proj1 (proj2 (proj2 (proj2 H))))|exact (proj1 (proj2 H))].
Defined.

(** ** Heading tags *)

Lemma dropWhile_app_keep : forall p s r,
  dropWhile p s <> "" -> dropWhile p (s ++ r) = dropWhile p s ++ r.
Proof.
  intros p. induction s as [|c s IH]; intros r H; [now elim H|].
  simpl in *. destruct (p c); [now apply IH|reflexivity].
Qed.

Lemma trimEnd_fixed_tail : forall c s,
  s <> "" -> trimEnd (String c s) = String c s -> trimEnd s = s.
Proof.
  intros c s Hs H. simpl in H.
  destruct (trimEnd s) as [|b t] eqn:E.
  - destruct (isSpace c); [discriminate|]. injection H as H. now elim Hs.
  - now injection H.
Qed.

Lemma trimEnd_fixed_visible : forall s,
  s <> "" -> trimEnd s = s -> dropWhile isSpace s <> "".
Proof.
  induction s as [|c s IH]; intros Hs H; [now elim Hs|].
  simpl. destruct (isSpace c) eqn:C; [|discriminate].
  destruct s as [|d s].
  - simpl in H. rewrite C in H. discriminate.
  - apply IH; [discriminate|]. now apply (trimEnd_fixed_tail c).
Qed.

Lemma all_false_app : forall q a c b,
  q c = false -> allChars q (a ++ String c b) = false.
Proof.
  intros q a c b H. rewrite all_app. simpl. rewrite H. apply andb_false_r.
Qed.

Lemma drop_app_length : forall a b, drop (String.length a) (a ++ b) = b.
Proof. induction a as [|c a IH]; intros b; simpl; [now destruct b|apply IH]. Qed.

Lemma isTag_parts : forall t,
  isTag t = true ->
  t <> "" /\ allChars isWord t = true /\ countChar ":" t = 0
  /\ allChars (fun c => isWord c || isChar ":" c) t = true.
Proof.
  intros t H. unfold isTag in H. apply andb_true_iff in H. destruct H as [Hn Hw].
  repeat split; auto.
  - intros E. subst t. discriminate.
  - apply count_all with (q := isWord); [exact Hw|reflexivity].
  - eapply all_impl; [|exact Hw]. intros c Hc. simpl. now rewrite Hc.
Qed.

Lemma all_join_tags : forall tags,
  forallb isTag tags = true ->
  allChars (fun c => isWord c || isChar ":" c) (join ":" tags) = true.
Proof.
  induction tags as [|t tags IH]; intros H; [reflexivity|].
  cbn [forallb] in H. apply andb_true_iff in H. destruct H as [Ht Hr].
  destruct (isTag_parts t Ht) as (_ & _ & _ & Ha).
  destruct tags as [|u tags]; [exact Ha|].
  rewrite join_cons by discriminate.
  rewrite !all_app, Ha, (IH Hr). reflexivity.
Qed.

Lemma tags_tail : forall tags,
  tags <> [] -> forallb isTag tags = true ->
  Parser.isTagTail (":" ++ join ":" tags ++ ":") = true
  /\ sliceInner (":" ++ join ":" tags ++ ":") = join ":" tags.
Proof.
  intros tags Hne H.
  pose proof (all_join_tags tags H) as Ha.
  assert (1 <= String.length (join ":" tags)) as Hl.
  { destruct tags as [|t tags]; [congruence|].
    cbn [forallb] in H. apply andb_true_iff in H. destruct H as [Ht _].
    destruct (isTag_parts t Ht) as (Hn & _).
    destruct tags as [|u tags].
    - simpl. destruct t; [congruence|simpl; lia].
    - rewrite join_cons by discriminate. destruct t; [congruence|simpl; lia]. }
  split.
  - unfold Parser.isTagTail. cbn [append]. cbn [String.length].
    rewrite length_append. cbn [String.length].
    replace (3 <=? S (String.length (join ":" tags) + 1)) with true
      by (symmetry; apply Nat.leb_le; lia).
    cbn [allChars]. rewrite all_app, Ha.
    replace (S (String.length (join ":" tags) + 1) - 1)
      with (S (String.length (join ":" tags))) by lia.
    cbn [drop]. rewrite drop_app_length.
    unfold startsWith. simpl. now destruct (join ":" tags ++ ":").
  - unfold sliceInner. cbn [append String.length drop].
    rewrite length_append. cbn [String.length].
    replace (S (String.length (join ":" tags) + 1) - 2)
      with (String.length (join ":" tags)) by lia.
    apply take_app_length.
Qed.

Lemma tagMatch_title : forall title rest tagString,
  noLineTerminator title = true ->
  trimEnd title = title ->
  Parser.isTagTail rest = true ->
  startsSpace rest = false ->
  sliceInner rest = tagString ->
  Parser.tagMatch (title ++ String " " rest) = Some (title, tagString).
Proof.
  induction title as [|c title IH]; intros rest tagString Hlt Ht Htail Hs Hin.
  - cbn [append Parser.tagMatch].
    assert (dropWhile isSpace (String " " rest) = rest) as D.
    { simpl. destruct rest as [|d rest]; [reflexivity|]. simpl in Hs. simpl. now rewrite Hs. }
    rewrite D. cbn [startsSpace]. rewrite Htail. cbn [isSpace andb]. now rewrite Hin.
  - unfold noLineTerminator in Hlt. simpl in Hlt.
    apply andb_true_iff in Hlt. destruct Hlt as [Hc Hlt]. apply negb_true_iff in Hc.
    cbn [append]. cbn [Parser.tagMatch].
    assert (dropWhile isSpace (String c (title ++ String " " rest))
            = dropWhile isSpace (String c title) ++ String " " rest) as D.
    { change (String c (title ++ String " " rest)) with (String c title ++ String " " rest).
      apply dropWhile_app_keep. apply trimEnd_fixed_visible; [discriminate|exact Ht]. }
    rewrite D.
    assert (Parser.isTagTail (dropWhile isSpace (String c title) ++ String " " rest) = false)
      as F.
    { unfold Parser.isTagTail. rewrite (all_false_app _ _ " "%char) by reflexivity.
      rewrite andb_false_r. reflexivity. }
    rewrite F, andb_false_r, Hc.
    destruct title as [|d title].
    + cbn [append]. specialize (IH rest tagString eq_refl eq_refl Htail Hs Hin).
      cbn [append] in IH. now rewrite IH.
    + rewrite (IH rest tagString); auto.
      now apply (trimEnd_fixed_tail c).
Qed.

Lemma filter_tags : forall tags,
  forallb isTag tags = true ->
  List.filter (fun t => negb (isEmpty t)) tags = tags.
Proof.
  induction tags as [|t tags IH]; intros H; [reflexivity|].
  cbn [forallb] in H. apply andb_true_iff in H. destruct H as [Ht Hr].
  unfold isTag in Ht. apply andb_true_iff in Ht. destruct Ht as [Hn _].
  cbn [List.filter]. now rewrite Hn, IH.
Qed.

Lemma tags_no_colon : forall tags,
  forallb isTag tags = true -> Forall (fun t => countChar ":" t = 0) tags.
Proof.
  induction tags as [|t tags IH]; intros H; constructor;
    cbn [forallb] in H; apply andb_true_iff in H; destruct H as [Ht Hr].
  - now destruct (isTag_parts t Ht) as (_ & _ & Hc & _).
  - now apply IH.
Qed.

(** X24. The tags of a heading.  For a title without line terminator
    that does not end with white space, followed by a space and by
    non-empty word tags between colons, [parseHeading] returns a heading
    whose content is the inline parse of the title alone and whose tags
    are the tags, in order; its level is the token's level, 1 when the
    token gives 0. *)
Theorem heading_tags_are_read_back :
  forall (level : nat) (title : string) (tags : list string),
    noLineTerminator title = true ->
    trimEnd title = title ->
    tags <> [] ->
    forallb isTag tags = true ->
    Parser.parseHeading (headingToken level (taggedHeading title tags))
    = Ast.createNode Ast.t_heading
        (Parser.justLevelTags (Z.of_nat (Nat.max 1 level)) tags)
        (Some (Parser.parseInlineMarkup title)).
Proof.
  intros level title tags Hlt Ht Hne Htags.
  destruct (tags_tail tags Hne Htags) as [Htail Hin].
  unfold Parser.parseHeading, headingToken, taggedHeading.
  cbn [Lexer.value Lexer.properties Lexer.level].
  change (title ++ " :" ++ join ":" tags ++ ":")
    with (title ++ String " " (":" ++ join ":" tags ++ ":")).
  rewrite (tagMatch_title title _ (join ":" tags) Hlt Ht Htail eq_refl Hin).
  rewrite split_join by (auto; now apply tags_no_colon).
  rewrite filter_tags by exact Htags.
  destruct level as [|n]; reflexivity.
Qed.

Lemma heading_tags_are_read_back_witness :
  Lexer.classify 0 "** My title :emacs:org_mode:"
  = headingToken 2 (taggedHeading "My title" ["emacs"; "org_mode"])
  /\ noLineTerminator "My title" = true
  /\ trimEnd "My title" = "My title"
  /\ forallb isTag ["emacs"; "org_mode"] = true
  /\ Parser.parseHeading (headingToken 2 (taggedHeading "My title" ["emacs"; "org_mode"]))
     = Ast.createNode Ast.t_heading
         (Parser.justLevelTags 2 ["emacs"; "org_mode"])
         (Some (Parser.parseInlineMarkup "My title")).
Proof.
  split; [reflexivity|]. split; [reflexivity|]. split; [reflexivity|].
  split; [reflexivity|].
  apply (heading_tags_are_read_back 2 "My title" ["emacs"; "org_mode"]);
    try reflexivity.
  discriminate.
Defined.

(** ** Links and images *)

Lemma prefix_close_other : forall c s,
  isChar "]" c = false -> prefix "]]" (String c s) = false.
Proof.
  intros c s H. cbn [prefix].
  destruct (ascii_dec "]" c) as [<-|N]; [discriminate|reflexivity].
Qed.

Lemma findStr_skip : forall a r,
  allChars noBracket a = true ->
  findStr "]]" (a ++ r) = option_map (fun k => String.length a + k) (findStr "]]" r).
Proof.
  induction a as [|c a IH]; intros r H.
  - simpl. now destruct (findStr "]]" r).
  - simpl in H. apply andb_true_iff in H. destruct H as [Hc Ha].
    unfold noBracket in Hc. apply negb_true_iff in Hc. apply orb_false_iff in Hc.
    destruct Hc as [_ Hc].
    cbn [append]. rewrite findStr_eq, (prefix_close_other c _ Hc).
    rewrite (IH r Ha). now destruct (findStr "]]" r).
Qed.

Lemma findStr_close : forall a, allChars noBracket a = true ->
  findStr "]]" (a ++ "]]") = Some (String.length a).
Proof.
  intros a H. rewrite findStr_skip by exact H.
  change (findStr "]]" "]]") with (Some 0). simpl. f_equal. lia.
Qed.

Lemma findStr_described : forall url description,
  allChars noBracket url = true -> allChars noBracket description = true ->
  findStr "]]" ((url ++ "][" ++ description) ++ "]]")
  = Some (String.length (url ++ "][" ++ description)).
Proof.
  intros url description Hu Hd.
  rewrite append_assoc. rewrite findStr_skip by exact Hu.
  cbn [append]. rewrite findStr_eq.
  change (prefix "]]" (String "]" (String "[" (description ++ "]]")))) with false.
  cbn iota. rewrite findStr_eq.
  change (prefix "]]" (String "[" (description ++ "]]"))) with false.
  cbn iota. rewrite (findStr_close description Hd).
  cbn [option_map]. rewrite !length_append. simpl. reflexivity.
Qed.

Lemma split2_cons : forall c s,
  s <> "" -> Ascii.eqb c "]" = false ->
  split2 "]" "[" (String c s) = consHead c (split2 "]" "[" s).
Proof.
  intros c s Hs Hc. destruct s as [|d s]; [congruence|].
  change (split2 "]" "[" (String c (String d s)))
    with (if Ascii.eqb c "]" && Ascii.eqb d "[" then "" :: split2 "]" "[" s
          else consHead c (split2 "]" "[" (String d s))).
  now rewrite Hc.
Qed.

Lemma noBracket_close : forall c, noBracket c = true -> Ascii.eqb c "]" = false.
Proof.
  intros c Hc. unfold noBracket in Hc. apply negb_true_iff in Hc.
  apply orb_false_iff in Hc. now destruct Hc as [_ Hc].
Qed.

Lemma split2_plain : forall b, allChars noBracket b = true -> split2 "]" "[" b = [b].
Proof.
  induction b as [|c b IH]; intros H; [reflexivity|].
  simpl in H. apply andb_true_iff in H. destruct H as [Hc Hb].
  destruct b as [|d b]; [reflexivity|].
  rewrite split2_cons; [|discriminate|now apply noBracket_close].
  now rewrite (IH Hb).
Qed.

Lemma split2_described : forall a b,
  allChars noBracket a = true -> allChars noBracket b = true ->
  split2 "]" "[" (a ++ "][" ++ b) = [a; b].
Proof.
  induction a as [|c a IH]; intros b Ha Hb.
  - cbn [append split2 Ascii.eqb Bool.eqb andb]. now rewrite split2_plain.
  - simpl in Ha. apply andb_true_iff in Ha. destruct Ha as [Hc Ha].
    change (String c a ++ "][" ++ b) with (String c (a ++ "][" ++ b)).
    rewrite split2_cons; [|destruct a; discriminate|now apply noBracket_close].
    now rewrite (IH b Ha Hb).
Qed.

Lemma get_none_ge : forall i s, String.length s <= i -> get i s = None.
Proof.
  induction i; destruct s; simpl; intros H; auto; try lia.
  apply IHi. lia.
Qed.

Lemma link_step : forall inner,
  findStr "]]" (inner ++ "]]") = Some (String.length inner) ->
  Parser.step ("[[" ++ inner ++ "]]") 0 "[" Parser.start
  = Parser.Leaf
      (let parts := split2 "]" "[" inner in
       let url := nth 0 parts "" in
       let description :=
         match nth_error parts 1 with
         | Some d => if isEmpty d then url else d
         | None => url
         end in
       linkOrImage url description)
      (String.length inner + 4) [].
Proof.
  intros inner F. unfold Parser.step.
  unfold Parser.boldBlock, Parser.italicBlock, Parser.underlineBlock, Parser.codeBlock,
    Parser.strikeBlock.
  do 5 (rewrite delimited_skip by reflexivity; cbn [Parser.orElse]).
  unfold Parser.linkBlock.
  change (substring 0 (0 + 2) ("[[" ++ inner ++ "]]")) with "[[".
  cbn [String.eqb Ascii.eqb Bool.eqb].
  unfold indexOf. cbn [Nat.add append String.length Nat.ltb Nat.leb drop].
  rewrite F. cbn [option_map Parser.orElse].
  assert (substring 2 (S (S (String.length inner)))
            (String "[" (String "[" (inner ++ "]]"))) = inner) as E.
  { rewrite substring_le by lia.
    replace (S (S (String.length inner)) - 2) with (String.length inner) by lia.
    cbn [drop]. apply take_app_length. }
  rewrite E. unfold linkOrImage. cbv zeta. f_equal. lia.
Qed.

Lemma link_parse : forall inner,
  findStr "]]" (inner ++ "]]") = Some (String.length inner) ->
  Parser.parseInlineMarkup ("[[" ++ inner ++ "]]")
  = [let parts := split2 "]" "[" inner in
     let url := nth 0 parts "" in
     let description :=
       match nth_error parts 1 with
       | Some d => if isEmpty d then url else d
       | None => url
       end in
     linkOrImage url description].
Proof.
  intros inner F.
  unfold Parser.parseInlineMarkup, Parser.parseInlineMarkupFuel.
  assert (String.length ("[[" ++ inner ++ "]]") = String.length inner + 4) as L
      by (cbn [append String.length]; rewrite length_append; simpl; lia).
  rewrite L.
  replace (S (String.length inner + 4)) with (S (S (String.length inner + 3))) by lia.
  rewrite (scan_leaf ("[[" ++ inner ++ "]]") "["%char _ (String.length inner + 4) _
             eq_refl (link_step inner F));
    [reflexivity|].
  apply get_none_ge. lia.
Qed.

(** X25. Links and images.  For a target and a description without
    square brackets, the inline parser reads [[[target][description]]]
    as one link node, or one image node when the target ends in an image
    extension; an empty or missing description is replaced by the target.
    A paragraph (or a heading) shows a link as an anchor with the escaped
    target and description, and shows nothing for an image; a list item,
    a table cell or a quote shows the image tag. *)
Theorem links_in_a_paragraph : forall url description : string,
  allChars noBracket url = true ->
  allChars noBracket description = true ->
  let shown := if isEmpty description then url else description in
  let anchor :=
    "<a href=" ++ dq ++ Renderer.escapeHtml url ++ dq ++ ">"
    ++ Renderer.escapeHtml shown ++ "</a>" in
  Parser.parseInlineMarkup (describedLink url description) = [linkOrImage url shown]
  /\ Parser.parseInlineMarkup (bareLink url) = [linkOrImage url url]
  /\ shownInline (describedLink url description)
     = (if Parser.isImage url then "" else anchor)
  /\ forall highlightCode context,
       shownInBlock highlightCode context (describedLink url description)
       = (if Parser.isImage url
          then "<img src=" ++ dq ++ Renderer.escapeHtml url ++ dq ++ " alt=" ++ dq
               ++ Renderer.escapeHtml shown ++ dq ++ ">"
          else anchor).
Proof.
  intros url description Hu Hd shown anchor.
  assert (Parser.parseInlineMarkup (describedLink url description)
          = [linkOrImage url shown]) as E.
  { unfold describedLink.
    replace ("[[" ++ url ++ "][" ++ description ++ "]]")
      with ("[[" ++ (url ++ "][" ++ description) ++ "]]")
      by (now rewrite !append_assoc).
    rewrite link_parse by (now apply findStr_described).
    cbv zeta. rewrite split2_described by assumption. reflexivity. }
  split; [exact E|]. split.
  - unfold bareLink. rewrite link_parse by (now apply findStr_close).
    cbv zeta. rewrite split2_plain by assumption. reflexivity.
  - unfold shownInline, shownInBlock. rewrite E. unfold linkOrImage.
    destruct (Parser.isImage url); split; try reflexivity;
      intros highlightCode context; reflexivity.
Qed.

Lemma links_in_a_paragraph_witness :
  allChars noBracket "a.png" = true
  /\ allChars noBracket "A & B" = true
  /\ Parser.parseInlineMarkup (describedLink "a.png" "A & B")
     = [Parser.imageNode "a.png" "A & B"]
  /\ shownInline (describedLink "a.png" "A & B") = "".
Proof.
  split; [reflexivity|]. split; [reflexivity|].
  pose proof (links_in_a_paragraph "a.png" "A & B" eq_refl eq_refl) as H.
  split; [exact (proj1 H)|exact (proj1 (proj2 (proj2 H)))].
Defined.

(** ** The word count of a plain document *)

Lemma length_consHead : forall c l, l <> [] -> List.length (consHead c l) = List.length l.
Proof. intros c [|h t] H; [congruence|reflexivity]. Qed.

Lemma splitSpaces_not_nil : forall s, splitSpaces s <> [].
Proof.
  intros s H. pose proof (length_splitSpaces s) as L. rewrite H in L. simpl in L. lia.
Qed.

Lemma splitSpaces_cons : forall c s,
  s <> "" ->
  List.length (splitSpaces (String c s))
  = if isSpace c && negb (startsSpace s)
    then S (List.length (splitSpaces s)) else List.length (splitSpaces s).
Proof.
  intros c s Hs. destruct s as [|d s]; [congruence|].
  change (splitSpaces (String c (String d s)))
    with (if isSpace c
          then if isSpace d then splitSpaces (String d s) else "" :: splitSpaces (String d s)
          else consHead c (splitSpaces (String d s))).
  cbn [startsSpace].
  destruct (isSpace c); cbn [andb].
  - destruct (isSpace d); reflexivity.
  - apply length_consHead, splitSpaces_not_nil.
Qed.

Lemma startsSpace_app : forall a b, a <> "" -> startsSpace (a ++ b) = startsSpace a.
Proof. intros [|c a] b H; [congruence|reflexivity]. Qed.

Lemma words_with_trailing_spaces : forall t,
  t <> "" -> trimEnd t = t ->
  List.length (splitSpaces (t ++ "  ")) = S (List.length (splitSpaces t)).
Proof.
  induction t as [|c t IH]; intros Hne Ht; [congruence|].
  destruct t as [|d t].
  - simpl in Ht. destruct (isSpace c) eqn:C; [discriminate|].
    cbn [append]. rewrite splitSpaces_cons by discriminate.
    rewrite C. simpl. now rewrite C.
  - change (String c (String d t) ++ "  ") with (String c (String d t ++ "  ")).
    rewrite !splitSpaces_cons by discriminate.
    rewrite startsSpace_app by discriminate.
    rewrite IH; [|discriminate|now apply (trimEnd_fixed_tail c)].
    now destruct (isSpace c && negb (startsSpace (String d t))).
Qed.

Lemma trimEnd_trimEnd : forall s, trimEnd (trimEnd s) = trimEnd s.
Proof.
  induction s as [|c s IH]; [reflexivity|].
  simpl. destruct (trimEnd s) as [|b t] eqn:E.
  - destruct (isSpace c) eqn:C; [reflexivity|]. simpl. now rewrite C.
  - simpl in IH |- *. destruct (trimEnd t) as [|b' t'] eqn:E'.
    + destruct (isSpace b); [discriminate|]. now rewrite IH.
    + now rewrite IH.
Qed.

Lemma trimEnd_trim : forall s, trimEnd (trim s) = trim s.
Proof. intros s. unfold trim. apply trimEnd_trimEnd. Qed.

Lemma trimEnd_app : forall a b, b <> "" -> trimEnd b = b -> trimEnd (a ++ b) = a ++ b.
Proof.
  induction a as [|c a IH]; intros b Hb H; [exact H|].
  cbn [append]. simpl. rewrite (IH b Hb H).
  destruct (a ++ b) eqn:E; [|reflexivity].
  destruct a, b; try discriminate. congruence.
Qed.

Lemma trimEnd_join : forall ls,
  ls <> [] ->
  Forall (fun l => l <> "" /\ trimEnd l = l) ls ->
  join " " ls <> "" /\ trimEnd (join " " ls) = join " " ls.
Proof.
  induction ls as [|l ls IH]; intros Hne H; [congruence|].
  inversion H as [|? ? [Hl1 Hl2] Hr]; subst.
  destruct ls as [|l' ls]; [split; assumption|].
  rewrite join_cons by discriminate.
  destruct (IH ltac:(discriminate) Hr) as [J1 J2].
  split.
  - destruct l; [congruence|discriminate].
  - rewrite <- append_assoc. apply trimEnd_app; assumption.
Qed.

Lemma text_line_visible : forall l, lineType l = Lexer.TEXT -> trim l <> "".
Proof.
  intros l. unfold lineType, Lexer.classify. cbv zeta.
  destruct (trim l) eqn:T; [intros H; discriminate H|]. intros _. discriminate.
Qed.

(** X26. The word count of a plain document.  Under the conditions of a
    document of plain text, the plain text of the tree is the paragraph
    text followed by two spaces, so the word count is one more than the
    number of pieces the white space cuts the paragraph text into, and
    the reading time is that count divided by 200, rounded up. *)
Theorem plain_document_counts_one_word_more :
  forall (slugifyLib : string -> string) (first : string) (rest : list string),
    forallb plainLine (first :: rest) = true ->
    contentLine first = true ->
    let text := join " " (map trim (first :: rest)) in
    let words := List.length (splitSpaces text) in
    exists ast,
      Parser.parse slugifyLib (unlines (first :: rest)) = Some ast
      /\ Parser.extractPlainText (Document.children ast) = text ++ "  "
      /\ Metadata.wordCount (Document.metadata ast) = Some (S words)
      /\ Metadata.readingTime (Document.metadata ast)
         = Some ((Z.of_nat (S words) + 199) / 200)%Z.
Proof.
  intros slugifyLib first rest Hp Hc text words.
  pose proof (plain_document_parse slugifyLib first rest Hp Hc) as E.
  cbv zeta in E. fold text in E.
  destruct (plainLines_parts _ Hp) as (_ & Htext & _).
  assert (text <> "" /\ trimEnd text = text) as [Hne Ht].
  { subst text. apply trimEnd_join; [discriminate|].
    apply Forall_map. eapply Forall_impl; [|exact Htext].
    intros l Hl. split; [now apply text_line_visible|apply trimEnd_trim]. }
  assert (Parser.extractPlainText [paragraphOf [Ast.createTextNode text]] = text ++ "  ")
    as P.
  { cbn [Parser.extractPlainText Parser.plainTextOf paragraphOf Ast.createNode
         Ast.createTextNode].
    destruct text as [|c t]; [congruence|].
    cbn [isEmpty]. rewrite !append_nil_r, !append_assoc. reflexivity. }
  rewrite P in E.
  eexists. split; [exact E|].
  cbn [Document.children Document.metadata Metadata.withDerived Metadata.wordCount
       Metadata.readingTime].
  split; [exact P|].
  unfold Metadata.calculateReadingTime.
  rewrite (words_with_trailing_spaces text Hne Ht).
  split; reflexivity.
Qed.

Lemma plain_document_counts_one_word_more_witness :
  forallb plainLine ["one two"; "three"] = true
  /\ contentLine "one two" = true
  /\ exists ast,
       Parser.parse identity (unlines ["one two"; "three"]) = Some ast
       /\ Parser.extractPlainText (Document.children ast) = "one two three" ++ "  "
       /\ Metadata.wordCount (Document.metadata ast) = Some 4
       /\ Metadata.readingTime (Document.metadata ast) = Some 1%Z.
Proof.
  split; [reflexivity|]. split; [reflexivity|].
  exact (plain_document_counts_one_word_more identity "one two" ["three"]
           eq_refl eq_refl).
Defined.

(** ** Heading lines *)

Lemma plainValue_parts : forall v,
  plainValue v = true ->
  v <> "" /\ trim v = v /\ noLineTerminator v = true /\ startsSpace v = false
  /\ trimEnd v = v.
Proof.
  intros v H. unfold plainValue in H.
  apply andb_true_iff in H. destruct H as [H H3].
  apply andb_true_iff in H. destruct H as [H1 H2].
  apply String.eqb_eq in H2.
  repeat split; auto.
  - intros E. subst v. discriminate.
  - rewrite <- H2. apply startsSpace_trim.
  - rewrite <- H2. apply trimEnd_trim.
Qed.

Lemma stars_S : forall n, stars (S n) = String "*" (stars n).
Proof. intros [|n]; reflexivity. Qed.

Lemma length_stars : forall n, String.length (stars n) = n.
Proof.
  induction n as [|n IH]; [reflexivity|]. rewrite stars_S. simpl. now rewrite IH.
Qed.

Lemma takeWhile_stars : forall n rest,
  takeWhile (isChar "*") (stars n ++ String " " rest) = stars n
  /\ dropWhile (isChar "*") (stars n ++ String " " rest) = String " " rest.
Proof.
  induction n as [|n IH]; intros rest; [split; reflexivity|].
  destruct (IH rest) as [IH1 IH2].
  rewrite stars_S. cbn [append takeWhile dropWhile].
  change (isChar "*" "*") with true. cbv iota. now rewrite IH1, IH2.
Qed.

Lemma all_stars : forall q n, q "*"%char = true -> allChars q (stars n) = true.
Proof.
  intros q n Hq. induction n as [|n IH]; [reflexivity|].
  rewrite stars_S. simpl. now rewrite Hq, IH.
Qed.

Lemma noLineTerminator_oneLine : forall s,
  noLineTerminator s = true -> oneLine s = true.
Proof.
  intros s H. unfold oneLine, noLineTerminator in *.
  eapply all_impl; [|exact H]. intros c. each_char c; intros E; try reflexivity;
    discriminate E.
Qed.

(** A heading line of [n] stars whose text is not empty, has no white
    space at its start or its end and holds no line terminator. *)
Section HeadingOfAnyText.

Variable n : nat.
Variable text : string.
Hypothesis level_positive : 1 <= n.
Hypothesis text_read : plainValue text = true.

Lemma heading_trimmed : trim (headingLine n text) = headingLine n text.
Proof.
  destruct (plainValue_parts text text_read) as (Hne & _ & _ & _ & Ht).
  unfold trim, trimStart, headingLine.
  rewrite <- append_assoc.
  destruct n as [|m]; [lia|]. rewrite stars_S. cbn [append dropWhile].
  change (isSpace "*") with false. cbv iota.
  change (String "*" ((stars m ++ " ") ++ text))
    with (String "*" (stars m ++ " ") ++ text).
  now apply trimEnd_app.
Qed.

Lemma heading_oneLine : oneLine (headingLine n text) = true.
Proof.
  destruct (plainValue_parts text text_read) as (_ & _ & Hl & _ & _).
  pose proof (noLineTerminator_oneLine text Hl) as Ho.
  unfold oneLine, headingLine in *. rewrite !all_app, Ho.
  rewrite all_stars by reflexivity. reflexivity.
Qed.

Lemma heading_match : Lexer.headingMatch (headingLine n text) = Some (stars n, text).
Proof.
  destruct (plainValue_parts text text_read) as (Hne & _ & Hl & Hs & _).
  unfold Lexer.headingMatch, headingLine.
  change (" " ++ text) with (String " " text).
  destruct (takeWhile_stars n text) as [-> ->].
  destruct n as [|m]; [lia|]. rewrite stars_S. cbn [isEmpty].
  unfold spacesThenRest. cbn [startsSpace dropWhile].
  change (isSpace " ") with true. cbv iota.
  assert (dropWhile isSpace text = text) as D.
  { destruct text as [|c t]; [reflexivity|]. simpl in Hs. simpl. now rewrite Hs. }
  rewrite D, Hl. reflexivity.
Qed.

Lemma heading_token : Lexer.classify 0 (headingLine n text) = headingToken n text.
Proof.
  unfold Lexer.classify. cbv zeta. rewrite heading_trimmed.
  assert (isEmpty (headingLine n text) = false) as E.
  { unfold headingLine. destruct n as [|m]; [lia|]. now rewrite stars_S. }
  rewrite E, heading_match.
  assert (trimStart (headingLine n text) = headingLine n text) as T.
  { unfold trimStart, headingLine. destruct n as [|m]; [lia|]. now rewrite stars_S. }
  rewrite T, Nat.sub_diag, length_stars. reflexivity.
Qed.

Lemma heading_content : contentLine (headingLine n text) = true.
Proof.
  unfold contentLine. cbv zeta. rewrite heading_trimmed.
  unfold headingLine. destruct n as [|m]; [lia|]. rewrite stars_S.
  unfold startsWith. cbn [append isEmpty prefix negb andb].
  destruct (ascii_dec "#" "*") as [E|_]; [discriminate|].
  destruct (ascii_dec ":" "*") as [E|_]; [discriminate|]. reflexivity.
Qed.

End HeadingOfAnyText.

(** ** A document that is one heading *)

Lemma plainTitle_parts : forall t,
  plainTitle t = true ->
  allChars titleChar t = true /\ t <> "" /\ startsSpace t = false /\ trimEnd t = t.
Proof.
  intros t H. unfold plainTitle in H.
  apply andb_true_iff in H. destruct H as [H H4].
  apply andb_true_iff in H. destruct H as [H H3].
  apply andb_true_iff in H. destruct H as [H1 H2].
  apply String.eqb_eq in H4. apply negb_true_iff in H3.
  repeat split; auto. intros E. subst t. discriminate.
Qed.

Lemma titleChar_parts : forall c,
  titleChar c = true ->
  plainChar c = true /\ isChar ":" c = false /\ isLineTerminator c = false
  /\ negb (isChar nlChar c) = true.
Proof. intros c. each_char c; intros _; repeat split. Qed.

Lemma title_facts : forall t,
  allChars titleChar t = true ->
  allChars plainChar t = true /\ countChar ":" t = 0 /\ noLineTerminator t = true
  /\ oneLine t = true.
Proof.
  intros t H. repeat split.
  - eapply all_impl; [|exact H]. intros c Hc. now apply titleChar_parts in Hc.
  - apply count_all with (q := titleChar); [exact H|reflexivity].
  - unfold noLineTerminator. eapply all_impl; [|exact H].
    intros c Hc. apply titleChar_parts in Hc. destruct Hc as (_ & _ & Hc & _).
    now rewrite Hc.
  - unfold oneLine. eapply all_impl; [|exact H].
    intros c Hc. now apply titleChar_parts in Hc.
Qed.

Lemma plainTitle_value : forall t, plainTitle t = true -> plainValue t = true.
Proof.
  intros t H. destruct (plainTitle_parts t H) as (Ha & Hne & Hs & Ht).
  destruct (title_facts t Ha) as (_ & _ & Hl & _).
  unfold plainValue. rewrite Hl, andb_true_r.
  assert (trim t = t) as T.
  { unfold trim, trimStart. destruct t as [|c r]; [reflexivity|].
    simpl in Hs. cbn [dropWhile]. now rewrite Hs. }
  rewrite T, String.eqb_refl. destruct t; [congruence|reflexivity].
Qed.

Section HeadingLine.

Variable n : nat.
Variable title : string.
Hypothesis level_positive : 1 <= n.
Hypothesis title_plain : plainTitle title = true.

Lemma headingLine_trimmed : trim (headingLine n title) = headingLine n title.
Proof. apply heading_trimmed; [exact level_positive|now apply plainTitle_value]. Qed.

Lemma headingLine_oneLine : oneLine (headingLine n title) = true.
Proof. apply heading_oneLine. now apply plainTitle_value. Qed.

Lemma headingLine_match :
  Lexer.headingMatch (headingLine n title) = Some (stars n, title).
Proof. apply heading_match; [exact level_positive|now apply plainTitle_value]. Qed.

Lemma headingLine_token : Lexer.classify 0 (headingLine n title) = headingToken n title.
Proof. apply heading_token; [exact level_positive|now apply plainTitle_value]. Qed.

Lemma headingLine_content : contentLine (headingLine n title) = true.
Proof. apply heading_content; [exact level_positive|now apply plainTitle_value]. Qed.

Lemma tagMatch_no_colon : forall t,
  countChar ":" t = 0 -> noLineTerminator t = true -> Parser.tagMatch t = None.
Proof.
  induction t as [|c t IH]; intros Hc Hl.
  - reflexivity.
  - cbn [Parser.tagMatch].
    assert (Parser.isTagTail (dropWhile isSpace (String c t)) = false) as F.
    { unfold Parser.isTagTail.
      assert (countChar ":" (dropWhile isSpace (String c t)) = 0) as Z.
      { clear -Hc. remember (String c t) as s. clear Heqs.
        induction s as [|a s IHs]; [reflexivity|].
        simpl in Hc. simpl. destruct (isSpace a).
        - apply IHs. destruct (Ascii.eqb a ":"); simpl in Hc; lia.
        - simpl. exact Hc. }
      unfold startsWith.
      destruct (dropWhile isSpace (String c t)) as [|d r]; [reflexivity|].
      cbn [prefix]. destruct (ascii_dec ":" d) as [<-|N].
      - simpl in Z. lia.
      - now rewrite !andb_false_r. }
    rewrite F, andb_false_r.
    unfold noLineTerminator in Hl. simpl in Hl.
    apply andb_true_iff in Hl. destruct Hl as [Hcl Hl].
    apply negb_true_iff in Hcl. rewrite Hcl.
    rewrite IH; [reflexivity| |exact Hl].
    simpl in Hc. destruct (Ascii.eqb c ":"); simpl in Hc; lia.
Qed.

Lemma headingLine_node : Parser.parseHeading (headingToken n title) = headingNode n title.
Proof.
  destruct (plainTitle_parts title title_plain) as (Ha & Hne & _ & _).
  destruct (title_facts title Ha) as (Hp & Hc & Hl & _).
  unfold Parser.parseHeading, headingToken, headingNode.
  cbn [Lexer.value Lexer.properties Lexer.level].
  rewrite (tagMatch_no_colon title Hc Hl).
  rewrite (plain_parse title Hp).
  destruct title as [|c t]; [congruence|].
  destruct n as [|m]; [lia|]. reflexivity.
Qed.

Lemma headingLine_parse : forall slugifyLib,
  exists metadata,
    Parser.parse slugifyLib (unlines [headingLine n title])
    = Some {| Document.metadata := metadata; Document.children := [headingNode n title] |}
    /\ Metadata.options metadata = []
    /\ Metadata.title metadata = None.
Proof.
  intros slugifyLib.
  assert (Forall (fun l => oneLine l = true) [headingLine n title]) as Hone
      by (constructor; [apply headingLine_oneLine|constructor]).
  unfold Parser.parse.
  rewrite split_unlines by (auto; discriminate).
  unfold Metadata.extractMetadata.
  rewrite (contentLine_stops _ [] Metadata.emptyMetadata headingLine_content).
  cbn [Metadata.metadata Metadata.contentStartLine Metadata.title
       Metadata.emptyMetadata skipn].
  change (join nl [headingLine n title]) with (unlines [headingLine n title]).
  rewrite tokenize_unlines by (auto; discriminate).
  cbn [Lexer.tokenizeFrom]. rewrite headingLine_token.
  unfold Parser.parseTokens.
  cbn [List.length Parser.parseTokensLoop nth_error Lexer.type headingToken Nat.add app].
  rewrite headingLine_node.
  eexists. split; [reflexivity|]. split; reflexivity.
Qed.

End HeadingLine.

Lemma times_zero : forall s, Toc.times 0 s = "".
Proof. reflexivity. Qed.

Lemma generateToc_one : forall h maxDepth,
  Toc.generateToc [h] maxDepth
  = tocOpen ++ (if listed maxDepth h then tocItem h else "") ++ "</ul></nav>" ++ nl.
Proof.
  intros h maxDepth. unfold Toc.generateToc. cbn [fold_left].
  fold tocOpen. rewrite tocEntry_eq.
  destruct (listed maxDepth h).
  - rewrite Z.max_id, !Z.sub_diag, !times_zero.
    rewrite !append_nil_r. cbn [append]. now rewrite append_assoc.
  - now rewrite Z.sub_diag, times_zero.
Qed.

(** X27. The page of a one-heading document.  For a heading line of [n]
    stars, a space and a title that is read as it is written, [parse]
    gives one heading node of level [n] over the title, and the page is
    the table of contents followed by the heading: the heading tag has the
    level capped at 6 and the slug of the title as its id, the table of
    contents links to that same slug, and it lists the heading only when
    the capped level is at most 3 (the list is empty otherwise). *)
Theorem one_heading_document :
  forall (slugifyLib : string -> string) (n : nat) (title : string),
    1 <= n ->
    plainTitle title = true ->
    let level := Z.min (Z.of_nat n) 6 in
    let slug := Renderer.slugify title in
    exists ast,
      Parser.parse slugifyLib (unlines [headingLine n title]) = Some ast
      /\ Document.children ast = [headingNode n title]
      /\ forall highlightCode options,
           Renderer.fullHtml highlightCode ast options
           = (tocOpen
              ++ (if (level <=? 3)%Z then tocItem (recordedHeading n title) else "")
              ++ "</ul></nav>" ++ nl)
             ++ ("<h" ++ showZ level ++ " id=" ++ dq ++ slug ++ dq ++ ">"
                 ++ Renderer.escapeHtml title ++ "</h" ++ showZ level ++ ">" ++ nl).
Proof.
  intros slugifyLib n title Hn Ht level slug.
  destruct (headingLine_parse n title Hn Ht slugifyLib) as (metadata & E & Ho & _).
  eexists. split; [exact E|]. split; [reflexivity|].
  intros highlightCode options.
  unfold Renderer.fullHtml, Renderer.renderBody.
  cbn [Document.children Renderer.renderNodes].
  assert (Renderer.renderNode highlightCode (headingNode n title)
            (Renderer.newContext options)
          = Renderer.renderHeading (headingNode n title) (Renderer.newContext options))
    as R by reflexivity.
  rewrite R, renderHeading_eq.
  assert (Renderer.headingLevel (headingNode n title) = level) as L by reflexivity.
  assert (Renderer.headingText (headingNode n title) = title) as T by reflexivity.
  assert (Renderer.renderChildrenSync (headingNode n title) = Renderer.escapeHtml title)
    as C by reflexivity.
  rewrite L, T, C. fold slug.
  assert (Renderer.escapeHtml slug = slug) as S
      by (apply escapeHtml_plain with (q := slugChar);
          [exact slugChar_plain|apply all_slugify]).
  rewrite S.
  unfold Renderer.renderToc, Renderer.tocOption, Renderer.renderFootnotes.
  cbn [Document.metadata Renderer.headings Renderer.footnotes Renderer.newContext
       app List.length Nat.eqb negb].
  rewrite Ho. cbn [objGet andb].
  rewrite generateToc_one.
  assert (listed (Some 3%Z) {| Toc.level := level; Toc.text := title; Toc.id := slug |}
          = (level <=? 3)%Z) as Li.
  { unfold listed, Toc.gtNum. cbn [Toc.level].
    destruct (3 <? level)%Z eqn:A; destruct (level <=? 3)%Z eqn:B; try reflexivity; lia. }
  rewrite Li. unfold recordedHeading. fold level. fold slug.
  cbn [append]. rewrite !append_nil_r. reflexivity.
Qed.

Lemma one_heading_document_witness :
  1 <= 7
  /\ plainTitle "Notes & plans" = true
  /\ exists ast,
       Parser.parse identity (unlines [headingLine 7 "Notes & plans"]) = Some ast
       /\ Document.children ast = [headingNode 7 "Notes & plans"]
       /\ forall highlightCode options,
            Renderer.fullHtml highlightCode ast options
            = (tocOpen ++ "" ++ "</ul></nav>" ++ nl)
              ++ ("<h6 id=" ++ dq ++ "notes-plans" ++ dq ++ ">"
                  ++ "Notes &amp; plans" ++ "</h6>" ++ nl).
Proof.
  split; [lia|]. split; [reflexivity|].
  exact (one_heading_document identity 7 "Notes & plans" ltac:(lia) eq_refl).
Defined.

(** ** Keyword lines *)

Lemma takeWhile_word_stop : forall w c rest,
  allChars isWord w = true -> isWord c = false ->
  takeWhile isWord (w ++ String c rest) = w
  /\ dropWhile isWord (w ++ String c rest) = String c rest.
Proof.
  induction w as [|x w IH]; intros c rest H Hc.
  - simpl. now rewrite Hc.
  - simpl in H. apply andb_true_iff in H. destruct H as [Hx Hw].
    destruct (IH c rest Hw Hc) as [I1 I2].
    cbn [append takeWhile dropWhile]. now rewrite Hx, I1, I2.
Qed.

Lemma keywordLine_match : forall key value,
  isTag key = true -> plainValue value = true ->
  trim (keywordLine key value) = keywordLine key value
  /\ Metadata.metaMatch (keywordLine key value) = Some (key, value).
Proof.
  intros key value Hk Hv.
  destruct (plainValue_parts value Hv) as (Hne & Ht & Hl & Hs & He).
  unfold isTag in Hk. apply andb_true_iff in Hk. destruct Hk as [Hkn Hkw].
  split.
  - unfold trim, trimStart, keywordLine. cbn [append dropWhile].
    change (isSpace "#") with false. cbv iota.
    change (String "#" (String "+" (key ++ ": " ++ value)))
      with (String "#" (String "+" (key ++ String ":" (String " " value)))).
    replace (String "#" (String "+" (key ++ String ":" (String " " value))))
      with (("#+" ++ key ++ ": ") ++ value)
      by (cbn [append]; now rewrite append_assoc).
    now apply trimEnd_app.
  - unfold keywordLine, Metadata.metaMatch. cbn [append].
    unfold Metadata.keyColonValue.
    change (": " ++ value) with (String ":" (String " " value)).
    destruct (takeWhile_word_stop key ":" (String " " value) Hkw eq_refl) as [-> ->].
    rewrite Hkn. cbn [dropWhile]. change (isSpace " ") with true. cbv iota.
    assert (dropWhile isSpace value = value) as D.
    { destruct value as [|c t]; [reflexivity|]. simpl in Hs. simpl. now rewrite Hs. }
    rewrite D, Hl. reflexivity.
Qed.

(** X28. A keyword line is read back.  For a keyword that is a
    non-empty word and a value that is not empty, trimmed and without
    line terminator, the document made of the line [#+KEY: value] and of a
    content line has the value stored under the keyword in upper case
    (whatever the case it is written in), the body starts at the second
    line, and when the keyword is the title, the title is the value and
    the slug is the slug function applied to it. *)
Theorem keyword_line_is_read_back :
  forall (slugifyLib : string -> string) (key value body : string),
    isTag key = true ->
    plainValue value = true ->
    contentLine body = true ->
    Metadata.extractMetadata slugifyLib [keywordLine key value; body]
    = {| Metadata.metadata :=
           withTitleSlug slugifyLib
             (Metadata.setKey (toUpperCase key) value Metadata.emptyMetadata);
         Metadata.contentStartLine := 1 |}
    /\ (toUpperCase key = "TITLE" ->
        Metadata.title
          (Metadata.metadata
             (Metadata.extractMetadata slugifyLib [keywordLine key value; body]))
        = Some value
        /\ Metadata.slug
             (Metadata.metadata
                (Metadata.extractMetadata slugifyLib [keywordLine key value; body]))
           = Some (slugifyLib value)).
Proof.
  intros slugifyLib key value body Hk Hv Hb.
  destruct (keywordLine_match key value Hk Hv) as [Ht Hm].
  destruct (plainValue_parts value Hv) as (Hne & Htv & _).
  assert (Metadata.extractLoop [keywordLine key value; body] 0 false []
            Metadata.emptyMetadata
          = {| Metadata.metadata :=
                 Metadata.setKey (toUpperCase key) value Metadata.emptyMetadata;
               Metadata.contentStartLine := 1 |}) as E.
  { cbn [Metadata.extractLoop]. rewrite Ht.
    assert (String.eqb (keywordLine key value) ":PROPERTIES:" = false) as E1 by reflexivity.
    assert (String.eqb (keywordLine key value) ":END:" = false) as E2 by reflexivity.
    rewrite E1, E2, Hm, Htv. cbn [andb].
    unfold contentLine in Hb. cbv zeta in Hb.
    assert (String.eqb (trim body) ":PROPERTIES:" = false) as B1.
    { apply String.eqb_neq. intros B. rewrite B in Hb. discriminate. }
    assert (Metadata.metaMatch (trim body) = None) as B2.
    { destruct (trim body) as [|c t] eqn:T; [reflexivity|].
      unfold Metadata.metaMatch.
      destruct (Ascii.eqb_spec c "#") as [->|N].
      - unfold startsWith in Hb. cbn [prefix] in Hb.
        destruct (ascii_dec "#" "#") as [_|X]; [|congruence].
        destruct t; discriminate.
      - destruct c as [[|] [|] [|] [|] [|] [|] [|] [|]]; try reflexivity. congruence. }
    rewrite B1, andb_false_r, B2, Hb. reflexivity. }
  assert (Metadata.extractMetadata slugifyLib [keywordLine key value; body]
          = {| Metadata.metadata :=
                 withTitleSlug slugifyLib
                   (Metadata.setKey (toUpperCase key) value Metadata.emptyMetadata);
               Metadata.contentStartLine := 1 |}) as R
      by (unfold Metadata.extractMetadata; rewrite E; reflexivity).
  split; [exact R|].
  intros U. rewrite R. cbn [Metadata.metadata]. rewrite U.
  unfold withTitleSlug.
  cbn [Metadata.setKey Metadata.title String.eqb Ascii.eqb Bool.eqb].
  destruct value as [|c t]; [congruence|]. split; reflexivity.
Qed.

Lemma keyword_line_is_read_back_witness :
  isTag "Title" = true
  /\ plainValue "My  notes" = true
  /\ contentLine "* A" = true
  /\ Metadata.title
       (Metadata.metadata
          (Metadata.extractMetadata identity [keywordLine "Title" "My  notes"; "* A"]))
     = Some "My  notes"
  /\ Metadata.slug
       (Metadata.metadata
          (Metadata.extractMetadata identity [keywordLine "Title" "My  notes"; "* A"]))
     = Some "My  notes".
Proof.
  split; [reflexivity|]. split; [reflexivity|]. split; [reflexivity|].
  exact (proj2 (keyword_line_is_read_back identity "Title" "My  notes" "* A"
                  eq_refl eq_refl eq_refl) eq_refl).
Defined.

(* ================================================================== *)
(** * From the front matter to the page *)
(* ================================================================== *)

(** ** The metadata of a parsed document *)

(** No line of the front matter writes the derived fields. *)
Lemma extractLoop_derived : forall rest i b props m,
  let r := Metadata.metadata (Metadata.extractLoop rest i b props m) in
  Metadata.readingTime r = Metadata.readingTime m
  /\ Metadata.wordCount r = Metadata.wordCount m
  /\ Metadata.excerpt r = Metadata.excerpt m.
Proof.
  induction rest as [|raw rest IH]; intros i b props m; [repeat split|].
  cbn [Metadata.extractLoop].
  destruct (String.eqb (trim raw) ":PROPERTIES:"); [apply IH|].
  destruct (String.eqb (trim raw) ":END:" && b).
  { destruct (IH (i + 1) false props
                (Metadata.withProperties
                   (objSpread (Metadata.properties m) props) m)) as (H1 & H2 & H3).
    cbv zeta. rewrite H1, H2, H3. repeat split. }
  destruct b.
  - destruct (Metadata.propMatch (trim raw)) as [[k v]|]; apply IH.
  - destruct (Metadata.metaMatch (trim raw)) as [[k v]|].
    + destruct (IH (i + 1) false props
                  (Metadata.setKey (toUpperCase k) (trim v) m)) as (H1 & H2 & H3).
      cbv zeta. rewrite H1, H2, H3. repeat split.
    + destruct (negb (isEmpty (trim raw)) && negb (startsWith "#" (trim raw))
                && negb (startsWith ":" (trim raw))); [repeat split|apply IH].
Qed.

Lemma frontMatter_derived : forall lines,
  Metadata.slug (frontMatter lines) = None
  /\ Metadata.readingTime (frontMatter lines) = None
  /\ Metadata.wordCount (frontMatter lines) = None
  /\ Metadata.excerpt (frontMatter lines) = None.
Proof.
  intros lines. unfold frontMatter. split; [apply extractLoop_slug|].
  apply (extractLoop_derived lines 0 false [] Metadata.emptyMetadata).
Qed.

(** C8, as stated, fails: the slug is a field that no line of the front
    matter holds or can set; [extractMetadata] derives it from the title
    during parsing.  For the titled document the front matter holds the
    title and no slug, the parsed metadata holds the slug of the title,
    and so it is not the front matter with reading time, word count and
    excerpt added. *)
Lemma slug_is_not_in_the_front_matter :
  Metadata.title (frontMatter (split nlChar titledDocument)) = Some "T"
  /\ Metadata.slug (frontMatter (split nlChar titledDocument)) = None
  /\ (forall slugifyLib,
        option_map (fun ast => Metadata.slug (Document.metadata ast))
          (Parser.parse slugifyLib titledDocument)
        = Some (Some (slugifyLib "T")))
  /\ (forall slugifyLib ast readingTime wordCount excerpt,
        Parser.parse slugifyLib titledDocument = Some ast ->
        Document.metadata ast
        <> Metadata.withDerived readingTime wordCount excerpt
             (frontMatter (split nlChar titledDocument))).
Proof.
  split; [reflexivity|]. split; [reflexivity|].
  assert (forall slugifyLib,
             option_map (fun ast => Metadata.slug (Document.metadata ast))
               (Parser.parse slugifyLib titledDocument)
             = Some (Some (slugifyLib "T"))) as S
      by (intros slugifyLib; vm_compute; reflexivity).
  split; [exact S|].
  intros slugifyLib ast readingTime wordCount excerpt P E.
  specialize (S slugifyLib). rewrite P in S. cbn [option_map] in S.
  rewrite E in S. discriminate S.
Qed.

(** C8, amended. The metadata [renderToHtml] returns is the metadata of
    the tree it was given, whatever the options and the collaborators:
    rendering changes no field.  The metadata of a parsed document is the
    front matter with four fields added during parsing, before any
    rendering: the slug, generated by [extractMetadata] from a title that
    is not empty, and the reading time, the word count and the excerpt,
    written by [parse]; the front matter itself holds none of the four. *)
Theorem render_preserves_metadata :
  forall (slugifyLib : string -> string) (highlightCode : string -> string -> string)
         (sanitizeHtml : string -> string),
    (forall ast options,
        Renderer.metadata (Renderer.renderToHtml highlightCode sanitizeHtml ast options)
        = Document.metadata ast)
    /\ (forall content,
          exists ast readingTime wordCount excerpt,
            Parser.parse slugifyLib content = Some ast
            /\ Document.metadata ast
               = Metadata.withDerived readingTime wordCount excerpt
                   (withTitleSlug slugifyLib (frontMatter (split nlChar content)))
            /\ Metadata.slug (frontMatter (split nlChar content)) = None
            /\ Metadata.readingTime (frontMatter (split nlChar content)) = None
            /\ Metadata.wordCount (frontMatter (split nlChar content)) = None
            /\ Metadata.excerpt (frontMatter (split nlChar content)) = None
            /\ forall options,
                 Renderer.metadata
                   (Renderer.renderToHtml highlightCode sanitizeHtml ast options)
                 = Metadata.withDerived readingTime wordCount excerpt
                     (withTitleSlug slugifyLib (frontMatter (split nlChar content)))).
Proof.
  intros slugifyLib highlightCode sanitizeHtml. split.
  - intros ast options. reflexivity.
  - intros content.
    destruct (frontMatter_derived (split nlChar content)) as (F1 & F2 & F3 & F4).
    unfold Parser.parse.
    match goal with |- context [Parser.parseTokens ?t] =>
      destruct (parseTokens_total t) as (nodes & Hp & _) end.
    rewrite Hp. do 4 eexists. split; [reflexivity|].
    split; [reflexivity|]. repeat split; assumption.
Qed.

(** ** Headings from the line to the tag *)

(** The loop of [parseTokens] only adds nodes at the end of its list. *)
Lemma parseTokensLoop_extends : forall fuel tokens i nodes r,
  Parser.parseTokensLoop fuel tokens i nodes = Some r ->
  exists more, r = (nodes ++ more)%list.
Proof.
  induction fuel as [|fuel IH]; intros tokens i nodes r H; [discriminate|].
  cbn [Parser.parseTokensLoop] in H.
  destruct (nth_error tokens i) as [token|];
    [|exists []; rewrite app_nil_r; now inversion H].
  assert (forall j x,
             Parser.parseTokensLoop fuel tokens j (nodes ++ [x])%list = Some r ->
             exists more, r = (nodes ++ more)%list) as One.
  { intros j x Hj. destruct (IH _ _ _ _ Hj) as (more & ->).
    exists (x :: more). now rewrite <- app_assoc. }
  assert (forall j o,
             Parser.parseTokensLoop fuel tokens j (Parser.push nodes o) = Some r ->
             exists more, r = (nodes ++ more)%list) as Opt.
  { intros j [x|] Hj; [exact (One j x Hj)|exact (IH _ _ _ _ Hj)]. }
  destruct (Lexer.type token); eauto;
    match goal with
    | H : match ?x with _ => _ end = _ |- _ =>
        first [destruct x as [[? ?]|] | destruct x as [? ?]]
    end; eauto; discriminate.
Qed.

Lemma heading_classify : forall i n text,
  1 <= n -> plainValue text = true ->
  Lexer.type (Lexer.classify i (headingLine n text)) = Lexer.HEADING
  /\ Lexer.value (Lexer.classify i (headingLine n text)) = text
  /\ Lexer.level (Lexer.properties (Lexer.classify i (headingLine n text))) = Some n
  /\ Parser.parseHeading (Lexer.classify i (headingLine n text))
     = headingOfLine (headingLine n text).
Proof.
  intros i n text Hn Ht.
  rewrite (classify_shift i). unfold headingOfLine.
  rewrite (heading_token n text Hn Ht). repeat split.
Qed.

Lemma headingOfLine_level : forall n text,
  1 <= n -> plainValue text = true ->
  Ast.type (headingOfLine (headingLine n text)) = Ast.t_heading
  /\ Ast.level (Ast.properties (headingOfLine (headingLine n text)))
     = Some (Z.of_nat n)
  /\ Renderer.headingLevel (headingOfLine (headingLine n text))
     = Z.min (Z.of_nat n) 6.
Proof.
  intros n text Hn Ht. unfold headingOfLine.
  rewrite (heading_token n text Hn Ht).
  unfold Parser.parseHeading, headingToken, Renderer.headingLevel.
  cbn [Lexer.properties Lexer.level Lexer.value].
  destruct n as [|m]; [lia|]. repeat split.
Qed.

Lemma renderNode_heading : forall highlightCode node context,
  Ast.type node = Ast.t_heading ->
  Renderer.renderNode highlightCode node context = Renderer.renderHeading node context
  /\ fst (Renderer.renderHeading node context)
     = headingTag (Renderer.headingLevel node) node.
Proof.
  intros highlightCode [ty v ps kids] context Hty. simpl in Hty. subst ty.
  split; reflexivity.
Qed.

(** C4. A heading line of [n] stars, for every [n] from 1 on, and a
    text, at any place of the input, is a HEADING token, [parseHeading]
    makes a heading node of it, and the node is rendered as
    [<hN id=...>...</hN>] where N is [n] capped at 6: N lies in 1..6, and
    more than six stars give h6.  A document that starts with such a line
    has that heading as the first node of its tree and as the start of
    its rendered body, whatever follows.  Conversely, in every input
    document every heading node of the parsed tree comes from a line that
    starts with at least one star, and it is rendered with the number of
    stars capped at 6. *)
Theorem heading_level_clamped :
  forall (slugifyLib : string -> string) (highlightCode : string -> string -> string)
         (n : nat) (text : string) (rest : list string),
    1 <= n ->
    plainValue text = true ->
    Forall (fun l => oneLine l = true) rest ->
    let N := Z.min (Z.of_nat n) 6 in
    let heading := headingOfLine (headingLine n text) in
    (1 <= N <= 6)%Z
    /\ (6 < n -> N = 6%Z)
    /\ In (showZ N) ["1"; "2"; "3"; "4"; "5"; "6"]
    /\ (forall i,
          Lexer.type (Lexer.classify i (headingLine n text)) = Lexer.HEADING
          /\ Lexer.level (Lexer.properties (Lexer.classify i (headingLine n text)))
             = Some n
          /\ Parser.parseHeading (Lexer.classify i (headingLine n text)) = heading)
    /\ Ast.type heading = Ast.t_heading
    /\ Ast.level (Ast.properties heading) = Some (Z.of_nat n)
    /\ (forall context,
          fst (Renderer.renderNode highlightCode heading context)
          = headingTag N heading)
    /\ (exists ast more,
          Parser.parse slugifyLib (unlines (headingLine n text :: rest)) = Some ast
          /\ Document.children ast = heading :: more
          /\ forall options,
               exists tail,
                 fst (Renderer.renderBody highlightCode ast options)
                 = headingTag N heading ++ tail)
    /\ (forall content,
          exists ast,
            Parser.parse slugifyLib content = Some ast /\
            forall node,
              In node (Document.children ast) -> Ast.type node = Ast.t_heading ->
              exists i line,
                let body :=
                  join nl
                    (skipn (Metadata.contentStartLine
                              (Metadata.extractMetadata slugifyLib
                                 (split nlChar content)))
                       (split nlChar content)) in
                let stars := String.length (takeWhile (isChar "*") (trim line)) in
                In line (split nlChar body)
                /\ Lexer.type (Lexer.classify i line) = Lexer.HEADING
                /\ node = Parser.parseHeading (Lexer.classify i line)
                /\ 1 <= stars
                /\ Renderer.headingLevel node = Z.min (Z.of_nat stars) 6
                /\ (1 <= Renderer.headingLevel node <= 6)%Z
                /\ (6 < stars -> Renderer.headingLevel node = 6%Z)
                /\ forall context,
                     fst (Renderer.renderNode highlightCode node context)
                     = headingTag (Renderer.headingLevel node) node).
Proof.
  intros slugifyLib highlightCode n text rest Hn Ht Hrest N heading.
  destruct (headingOfLine_level n text Hn Ht) as (Hty & Hlev & HN).
  fold heading in Hty, Hlev, HN. fold N in HN.
  assert (forall context,
             fst (Renderer.renderNode highlightCode heading context)
             = headingTag N heading) as Hrender.
  { intros context.
    destruct (renderNode_heading highlightCode heading context Hty) as [-> ->].
    now rewrite HN. }
  split; [subst N; lia|]. split; [subst N; lia|].
  split; [apply showZ_1_6; subst N; lia|].
  split.
  { intros i. destruct (heading_classify i n text Hn Ht) as (H1 & _ & H3 & H4).
    repeat split; assumption. }
  split; [exact Hty|]. split; [exact Hlev|]. split; [exact Hrender|].
  split.
  - (* the document that starts with the line *)
    assert (Forall (fun l => oneLine l = true) (headingLine n text :: rest)) as Hone
        by (constructor; [now apply heading_oneLine|exact Hrest]).
    unfold Parser.parse.
    rewrite split_unlines by (auto; discriminate).
    unfold Metadata.extractMetadata.
    rewrite (contentLine_stops _ rest Metadata.emptyMetadata
               (heading_content n text Hn Ht)).
    cbn [Metadata.metadata Metadata.contentStartLine Metadata.title
         Metadata.emptyMetadata skipn].
    change (join nl (headingLine n text :: rest))
      with (unlines (headingLine n text :: rest)).
    rewrite tokenize_unlines by (auto; discriminate).
    cbn [Lexer.tokenizeFrom].
    set (tokens := Lexer.classify 0 (headingLine n text) :: Lexer.tokenizeFrom 1 rest).
    destruct (parseTokens_total tokens) as (nodes & Hp & _).
    rewrite Hp.
    assert (exists more, nodes = heading :: more) as (more & ->).
    { unfold Parser.parseTokens in Hp.
      cbn [Parser.parseTokensLoop] in Hp.
      change (nth_error tokens 0)
        with (Some (Lexer.classify 0 (headingLine n text))) in Hp.
      cbv beta iota in Hp.
      destruct (heading_classify 0 n text Hn Ht) as (H1 & _ & _ & H4).
      rewrite H1, H4 in Hp. fold heading in Hp.
      apply parseTokensLoop_extends in Hp. exact Hp. }
    eexists. exists more. split; [reflexivity|]. split; [reflexivity|].
    intros options. unfold Renderer.renderBody.
    cbn [Document.children Renderer.renderNodes].
    pose proof (Hrender (Renderer.newContext options)) as R.
    destruct (Renderer.renderNode highlightCode heading (Renderer.newContext options))
      as [h x1].
    cbn [fst] in R. subst h.
    rewrite renderNodes_app. cbn [fst append]. eexists. reflexivity.
  - (* every heading node of every document *)
    intros content. unfold Parser.parse.
    set (lines := split nlChar content).
    set (ex := Metadata.extractMetadata slugifyLib lines).
    set (body := join nl (skipn (Metadata.contentStartLine ex) lines)).
    destruct (parseTokens_total (Lexer.tokenize body)) as (nodes & Hp & Hall).
    rewrite Hp. eexists; split; [reflexivity|].
    simpl. intros node Hin Hnode.
    rewrite Forall_forall in Hall.
    destruct (Hall node Hin Hnode) as (tok & Htok & Htt & Heq).
    apply tokenizeFrom_In in Htok. destruct Htok as (i & line & Hline & ->).
    exists i, line.
    destruct (classify_heading i line Htt) as [Hl Hs].
    pose proof (parseHeading_level i line Htt) as Hlevel. rewrite <- Heq in Hlevel.
    assert (Renderer.headingLevel node
            = Z.min (Z.of_nat (String.length (takeWhile (isChar "*") (trim line)))) 6)
      as HL by (unfold Renderer.headingLevel; now rewrite Hlevel).
    split; [exact Hline|]. split; [exact Htt|]. split; [exact Heq|].
    split; [exact Hs|]. split; [exact HL|].
    split; [rewrite HL; lia|]. split; [rewrite HL; lia|].
    intros context.
    now destruct (renderNode_heading highlightCode node context Hnode) as [-> ->].
Qed.

Lemma heading_level_clamped_witness :
  1 <= 7
  /\ plainValue "Deep /dive/ :notes:" = true
  /\ Forall (fun l => oneLine l = true) ["Some text."; "** Next"]
  /\ (forall context,
        fst (Renderer.renderNode noHighlight
               (headingOfLine (headingLine 7 "Deep /dive/ :notes:")) context)
        = "<h6 id=" ++ dq ++ "deep-" ++ dq ++ ">Deep <em>dive</em></h6>" ++ nl)
  /\ exists ast more,
       Parser.parse identity
         (unlines ["******* Deep /dive/ :notes:"; "Some text."; "** Next"])
       = Some ast
       /\ Document.children ast
          = headingOfLine (headingLine 7 "Deep /dive/ :notes:") :: more
       /\ forall options,
            exists tail,
              fst (Renderer.renderBody noHighlight ast options)
              = ("<h6 id=" ++ dq ++ "deep-" ++ dq ++ ">Deep <em>dive</em></h6>" ++ nl)
                ++ tail.
Proof.
  assert (Forall (fun l => oneLine l = true) ["Some text."; "** Next"]) as Hrest
      by (repeat constructor).
  split; [lia|]. split; [reflexivity|]. split; [exact Hrest|].
  pose proof (heading_level_clamped identity noHighlight 7 "Deep /dive/ :notes:"
                ["Some text."; "** Next"] ltac:(lia) eq_refl Hrest) as H.
  cbv zeta in H.
  destruct H as (_ & _ & _ & _ & _ & _ & Hrender & Hdoc & _).
  split; [exact Hrender|exact Hdoc].
Defined.

(** ** The texts of a tree on the page *)

Lemma replaceAll_other : forall c x rep s,
  Ascii.eqb x c = false -> countChar c rep = 0 ->
  countChar c (replaceAll x rep s) = countChar c s.
Proof.
  intros c x rep s Hx Hr. induction s as [|a s IH]; [reflexivity|].
  cbn [replaceAll]. destruct (Ascii.eqb_spec a x) as [->|Ha].
  - rewrite count_app, Hr, IH. cbn [countChar]. now rewrite Hx.
  - cbn [countChar]. now rewrite IH.
Qed.

(** The three-entity [escapeHtml] of the table of contents keeps the
    quotes. *)
Lemma tocEscapeHtml_quotes : forall c s,
  isQuote c = true -> countChar c (Toc.escapeHtml s) = countChar c s.
Proof.
  intros c s H. unfold Toc.escapeHtml.
  assert (c = dqChar \/ c = "'"%char) as [->| ->].
  { unfold isQuote, isChar in H. apply orb_true_iff in H.
    destruct H as [H|H]; apply Ascii.eqb_eq in H; auto. }
  all: now rewrite !replaceAll_other by reflexivity.
Qed.

Lemma agrees_with : forall c f highlightCode options,
  highlightAgrees c (keepEmpty f) highlightCode
    (highlightWith (keepEmpty f) highlightCode) options.
Proof. intros c f highlightCode options _. split; reflexivity. Qed.

Lemma agrees_off : forall c f replaced original options,
  Renderer.codeHighlight options = Some false ->
  highlightAgrees c f replaced original options.
Proof. intros c f replaced original options H On. rewrite H in On. discriminate On. Qed.

